(* ===== verification/_CoqProject ===== *)
-Q . S2P
Prelude.v
CoreMem.v
Mem.v
Heap.v
Phys.v
Paging.v
Types.v
RawVec.v
UserMem.v
Drivers.v
Vfs.v
Process.v
Sched.v
SchedSpec.v
SchedSteps.v
SchedLive.v
SchedChild.v
Fds.v
Spinlock.v
Ports.v
Serial.v
Keyboard.v
KeyboardSpec.v
Console.v
ConsoleSpec.v
Ata.v
AtaSpec.v
Interrupts.v
InterruptsSpec.v
Elf.v
Loader.v
Fat.v
Asm.v
Cpu.v
Boot.v
Program.v
ProgramSpec.v
Devices.v
AsmSpec.v
Syscall.v
SyscallSpec.v
FileCalls.v
FrameSpec.v
Tasks.v
Smoke.v
Hello.v
Kmain.v
