(* ===== verification/Prelude.v ===== *)
(** * Ares: a verification library for a small x86_64 kernel

    Ares is a kernel in Rust and assembly: a boot stub, a heap, a frame allocator, page
    tables, a process table with a preemptive round-robin scheduler, system calls, an
    ELF loader, a FAT16 reader and drivers for the console, the keyboard, the serial
    port, the timer and an ATA disk.  The files here translate it part by part into
    Rocq functions and prove what each part promises and that the parts fit.

    ** How the code is modelled

    A Rust function is a Rocq function with the outcome [comp E A]: [Ok], [Err], [Panic]
    or [Hang] (it never returns).  Code that changes state is [M S E A], which keeps the
    state on an error, as an early return does.  Machine integers are [Z] with their
    width written out: arithmetic that the compiler checks panics on overflow
    ([add64], [sub64], [mul64]), [wrapping], [saturating] and [checked] variants are
    separate functions.  Memory is a function from addresses to bytes.  A trait object
    is a record of functions on the state of the world; hardware and other crates come
    as arguments or as type classes with laws ([FrameAlloc], [BlockDeviceLaws],
    [PortIO], [AtaDrive], [Uart], [UartRegisters]), and each class has an instance that meets its laws.  A loop
    without a structural bound takes fuel; running out is [Hang], and the theorems show
    that it does not happen for the fuel given.  Log lines are left out everywhere.

    ** Files, sources and theorems

    Memory.
    - [Prelude], [Mem]: outcomes, state, integers, bytes and their lemmas and tactics.
    - [CoreMem] (crates/ares-core/src/mem/paging.rs): page arithmetic; rounding,
      refused alignments, overflow.
    - [Heap] (kernel/mem/heap.rs): the linked-list allocator.  Any sequence of requests
      keeps the free list well formed and the blocks apart; [allocate] and [deallocate]
      on every branch.
    - [Phys] (arch/x86_64/kernel/mem/phys.rs): the memory map and the frame allocator,
      which refines the list of usable frames; instance of [FrameAlloc].
    - [Paging] (paging.rs, mmu.rs): four-level tables; [map_page] and [unmap_page]
      implement insertion into and deletion from the map of an address space.
    - [UserMem] (process/mod.rs, copies): copies to and from processes reach exactly the
      bytes of the process.
    - [RawVec]: the arrays that three components grow by hand.

    Processes.
    - [Types], [Process], [Sched], [Fds] (process/mod.rs): the process, its descriptors
      and regions, the table and the scheduler.
    - [SchedSpec]: one call of the scheduler, round robin, the invariant.  [SchedSteps]:
      the step relation of the kernel and its invariant over all reachable states.
      [SchedLive]: progress, fairness, saved registers.  [SchedChild]: wait, exit, spawn.
    - [Elf], [Loader], [Program], [ProgramSpec] (user/elf.rs, user/loader.rs, user/fs.rs
      and the user constructor of process/mod.rs): from a file to a process.
    - [Asm], [AsmSpec], [FrameSpec] (context_switch.asm, usermode/entry.rs,
      interrupts/stubs.rs, syscall/entry.rs): the assembly routines run on a model of the
      registers; the context switch refines the switch of [Sched], interrupts and system
      calls build the frames the Rust code reads and resume what was interrupted.
    - [Syscall], [SyscallSpec] (syscall.rs): dispatch and every call over the whole
      kernel: every call is steps of [SchedSteps]; reading, writing and refusals.
      [FileCalls]: sequences of calls of one process; opening on every branch, a file of
      the volume opened by its path, read and closed.
    - [Hello] (user/hello/src/main.rs): the user program, through its system calls to the
      console and to the end of the process.
    - [Tasks], [Devices], [Kmain] (idle_task, start_scheduler, kmain.rs): the loops of the
      kernel, the devices and the processes at the end of the boot; the shell echoes
      what is typed.  [Smoke] (vfs_smoke_checks of kmain.rs): the checks of the file
      system succeed on every kind of file and leave no descriptor open.

    Files and devices.
    - [Drivers], [Vfs] (drivers/mod.rs, vfs/): the registry, devices and file handles.
    - [Fat] (fs/fat.rs): mounting, lookup and reading over any block device.
    - [Ports], [Ata], [AtaSpec] (drivers/ata.rs): programmed transfers over the ports; with
      a drive that follows the protocol the driver meets the laws of [BlockDeviceLaws].
    - [Console], [ConsoleSpec] (drivers/console.rs, both): the text screen refines an
      abstract terminal, all accesses are in bounds.
    - [Keyboard], [KeyboardSpec] (drivers/keyboard.rs, both): scan codes and reads
      refine a bounded queue; the handler and the blocking read.
    - [Serial] (drivers/serial.rs, klog): output on the line, or a port given up.
    - [Spinlock] (sync/spinlock.rs): interleaved atomic steps of any number of threads.

    The processor.
    - [Interrupts], [InterruptsSpec] (interrupts.rs, timer.rs, pit.rs): descriptors,
      interrupt controllers, handlers, the preemption of the running process.
    - [Cpu] (gdt.rs, msr.rs, cpu/, syscall::init): descriptor tables and registers.
    - [Boot] (boot/main.asm, linker.ld): the way from the loader to [kmain]; the tables it
      builds, and the kernel windows in every later address space.

    The parts meet in these theorems: [SyscallSpec] runs calls on the scheduler, the heap,
    the page tables and the files at once; [InterruptsSpec] delivers interrupts to the
    scheduler and the keyboard; [AtaSpec] discharges the interface [Fat] is proved
    against; [Boot] gives [Paging] its direct map; [Devices] joins the registry, the
    heap, the disk and the file system; [Tasks] and [Kmain] join the boot tables, the
    processes, the calls and the devices; [FileCalls] and [Smoke] run calls down to the
    sectors of the disk; [Hello] runs from user mode to the scheduler.

    ** Bounds and fuel

    [Heap]: walks of the free list are bounded by its length.  [Phys]: the scan of the
    multiboot tags by the size of the block; [Fat]: the walk to a cluster by the offset plus
    the 65537 numbers a FAT16 chain has room for, a read by its length; [UserMem]: copies by the number of bytes, since each round copies at least one;
    [RawVec]: doubling by 64 rounds, after which a 64-bit capacity has overflowed;
    [Ata] and [Serial]: the spin limits of the code.

    ** What is not modelled

    Caches, the translation buffer and the memory ordering of the processor beyond the
    sequential consistency the locks give; a second processor (the kernel starts none);
    the layout of Rust structs, except where assembly reads them; the formatting of log
    lines and the functions that only print; the aliases of the allocator's symbols; the
    copies of kernel modules in the ares-core crate, which have the same code; the tests
    and the build.  Locks are explicit in [Spinlock] and in the handlers of
    [Interrupts] and [Keyboard]; elsewhere a critical section is one step, which
    the theorems of [Spinlock] justify. *)

From Stdlib Require Export ZArith Lia.
From stdpp Require Export base list numbers option relations.

#[export] Set Default Goal Selector "!".

Declare Scope ares_scope.
Delimit Scope ares_scope with ares.

(** ** Outcomes of Rust code

    [comp E A] is the outcome of a Rust function returning [Result<A, E>] (or
    just [A], with [E] unconstrained): it returns [Ok] or [Err], it panics, or
    it never returns. *)

Inductive comp (E A : Type) : Type :=
| Ok (a : A)
| Err (e : E)
| Panic
| Hang.
Arguments Ok {_ _} _.
Arguments Err {_ _} _.
Arguments Panic {_ _}.
Arguments Hang {_ _}.

#[export] Instance comp_ret {E} : MRet (comp E) := λ A a, Ok a.
#[export] Instance comp_bind {E} : MBind (comp E) := λ A B f c,
  match c with
  | Ok a => f a
  | Err e => Err e
  | Panic => Panic
  | Hang => Hang
  end.

(** [M S E A]: the same for code that mutates a state [S].  The state survives
    an [Err], as Rust's early [return Err(..)] leaves earlier writes in place. *)

Definition M (S E A : Type) : Type := S → comp (E * S) (A * S).

#[export] Instance M_ret {S E} : MRet (M S E) := λ A a s, Ok (a, s).
#[export] Instance M_bind {S E} : MBind (M S E) := λ A B f m s,
  match m s with
  | Ok (a, s') => f a s'
  | Err e => Err e
  | Panic => Panic
  | Hang => Hang
  end.

Section monad_ops.
Context {S E : Type}.

Definition throw {A} (e : E) : M S E A := λ s, Err (e, s).
Definition panic {A} : M S E A := λ _, Panic.
Definition get : M S E S := λ s, Ok (s, s).
Definition put (s' : S) : M S E unit := λ _, Ok (tt, s').
Definition gets {A} (f : S → A) : M S E A := λ s, Ok (f s, s).
Definition modify (f : S → S) : M S E unit := λ s, Ok (tt, f s).
Definition lift {A} (c : comp E A) : M S E A := λ s,
  match c with
  | Ok a => Ok (a, s)
  | Err e => Err (e, s)
  | Panic => Panic
  | Hang => Hang
  end.

(** [opt.ok_or(e)?] *)
Definition ok_or {A} (o : option A) (e : E) : M S E A := λ s,
  match o with Some a => Ok (a, s) | None => Err (e, s) end.

(** A [match f() { Ok(a) => .., Err(e) => .. }]: the error becomes a value. *)
Definition attempt {E' A} (m : M S E' A) : M S E (A + E') := λ s,
  match m s with
  | Ok (a, s') => Ok (inl a, s')
  | Err (e, s') => Ok (inr e, s')
  | Panic => Panic
  | Hang => Hang
  end.

(** [f().map_err(g)] *)
Definition map_err {E' A} (g : E' → E) (m : M S E' A) : M S E A := λ s,
  match m s with
  | Ok a => Ok a
  | Err (e, s') => Err (g e, s')
  | Panic => Panic
  | Hang => Hang
  end.
End monad_ops.

(** Run a computation on a part of the state. *)
Definition zoom {S T E A} (view : S → T) (upd : T → S → S) (m : M T E A) : M S E A := λ s,
  match m (view s) with
  | Ok (a, t) => Ok (a, upd t s)
  | Err (e, t) => Err (e, upd t s)
  | Panic => Panic
  | Hang => Hang
  end.

(** ** Machine integers

    The kernel is compiled by a plain [rustc] (Makefile), that is without
    optimisation, so the arithmetic operators are overflow-checked and panic:
    [add64], [sub64] and [mul64].  Wrapping, saturating and checked operations
    have their own definitions.  [usize] is 64 bits wide on this target. *)

Abbreviation U8 := 256%Z (only parsing).
Abbreviation U16 := 65536%Z (only parsing).
Abbreviation U32 := 4294967296%Z (only parsing).
Abbreviation U64 := 18446744073709551616%Z (only parsing).
Abbreviation I64 := 9223372036854775808%Z (only parsing).

Local Open Scope Z_scope.

Definition add64 {E} (a b : Z) : comp E Z := if a + b <? U64 then Ok (a + b) else Panic.
Definition sub64 {E} (a b : Z) : comp E Z := if b <=? a then Ok (a - b) else Panic.
Definition mul64 {E} (a b : Z) : comp E Z := if a * b <? U64 then Ok (a * b) else Panic.
Definition checked_add64 (a b : Z) : option Z := if a + b <? U64 then Some (a + b) else None.
Definition checked_mul64 (a b : Z) : option Z := if a * b <? U64 then Some (a * b) else None.
Definition saturating_add64 (a b : Z) : Z := Z.min (a + b) (U64 - 1).
Definition saturating_sub64 (a b : Z) : Z := Z.max (a - b) 0.
Definition not64 (a : Z) : Z := Z.lxor a (U64 - 1).

(** [x as i64] on a [u64]. *)
Definition as_i64 (a : Z) : Z := if a <? I64 then a else a - U64.
(** [x as u64] on an [i64]. *)
Definition as_u64 (a : Z) : Z := a mod U64.

Definition u64 (a : Z) : Prop := 0 ≤ a < U64.

Lemma add64_ok {E} a b : a + b < U64 → @add64 E a b = Ok (a + b).
Proof. intros. unfold add64. by rewrite (proj2 (Z.ltb_lt _ _)). Qed.

Lemma sub64_ok {E} a b : b ≤ a → @sub64 E a b = Ok (a - b).
Proof. intros. unfold sub64. by rewrite (proj2 (Z.leb_le _ _)). Qed.

Lemma mul64_ok {E} a b : a * b < U64 → @mul64 E a b = Ok (a * b).
Proof. intros. unfold mul64. by rewrite (proj2 (Z.ltb_lt _ _)). Qed.

Lemma checked_add64_some a b : a + b < U64 → checked_add64 a b = Some (a + b).
Proof. intros. unfold checked_add64. by rewrite (proj2 (Z.ltb_lt _ _)). Qed.

(** *** Single bits *)

Lemma bit_shift n i : 0 ≤ n → 0 ≤ i → Z.testbit (Z.shiftl 1 n) i = (i =? n).
Proof. intros Hn Hi. rewrite Z.shiftl_1_l, Z.pow2_bits_eqb by done. apply Z.eqb_sym. Qed.

Lemma flag_testbit v n : 0 ≤ n → negb (Z.land v (Z.shiftl 1 n) =? 0) = Z.testbit v n.
Proof.
  intros Hn. destruct (Z.testbit v n) eqn:E.
  - destruct (Z.eqb_spec (Z.land v (Z.shiftl 1 n)) 0) as [H|]; [|done]. apply (f_equal (λ z, Z.testbit z n)) in H.
    by rewrite Z.land_spec, bit_shift, E, Z.eqb_refl, Z.bits_0 in H.
  - replace (Z.land v (Z.shiftl 1 n)) with 0; [done|]. symmetry. apply Z.bits_inj'. intros i Hi. rewrite Z.land_spec, bit_shift, Z.bits_0 by done.
    destruct (Z.eqb_spec i n) as [->|]; [by rewrite E|apply andb_false_r].
Qed.

(** *** Power-of-two alignment *)

Definition pow2 (a : Z) : Prop := ∃ k, 0 ≤ k < 64 ∧ a = 2 ^ k.

Lemma pow2_pos a : pow2 a → 0 < a < U64.
Proof.
  intros (k & Hk & ->). split; [by apply Z.pow_pos_nonneg; lia|].
  change U64 with (2 ^ 64). apply Z.pow_lt_mono_r; lia.
Qed.

Lemma land_low_mask x k : 0 ≤ k → Z.land x (2 ^ k - 1) = x mod 2 ^ k.
Proof. intros. rewrite <- Z.land_ones by lia. f_equal. rewrite Z.ones_equiv. lia. Qed.

Lemma testbit_above_u64 x i : u64 x → 64 ≤ i → Z.testbit x i = false.
Proof.
  intros [Hx Hx'] Hi. destruct (decide (x = 0)) as [->|]; [apply Z.bits_0|].
  apply Z.bits_above_log2; [lia|].
  assert (Z.log2 x < 64); [|lia]. apply Z.log2_lt_pow2; lia.
Qed.

Lemma not64_spec x : u64 x → not64 x = U64 - 1 - x.
Proof.
  intros Hx. unfold not64.
  assert (Z.lxor x (U64 - 1) + x = U64 - 1) as H; [|lia].
  rewrite Z.add_nocarry_lxor.
  - rewrite (Z.lxor_comm x), Z.lxor_assoc, Z.lxor_nilpotent. by rewrite Z.lxor_0_r.
  - change (U64 - 1) with (Z.ones 64). apply Z.bits_inj'. intros i Hi.
    rewrite Z.land_spec, Z.lxor_spec, Z.bits_0.
    destruct (Z_lt_dec i 64).
    + rewrite Z.ones_spec_low by lia. by destruct (Z.testbit x i).
    + rewrite (testbit_above_u64 x i) by (done || lia). apply andb_false_r.
Qed.

(** [x & !(align - 1)] rounds down to the alignment. *)
Lemma land_not_mask x a : u64 x → pow2 a → Z.land x (not64 (a - 1)) = x - x mod a.
Proof.
  intros Hx (k & Hk & ->).
  assert (Z.land x (not64 (2 ^ k - 1)) = Z.ldiff x (Z.ones k)) as ->.
  { unfold not64. replace (2 ^ k - 1) with (Z.ones k) by (rewrite Z.ones_equiv; lia).
    change (U64 - 1) with (Z.ones 64). apply Z.bits_inj'. intros i Hi.
    rewrite Z.land_spec, Z.lxor_spec, Z.ldiff_spec.
    destruct (Z_lt_dec i 64).
    - rewrite (Z.ones_spec_low 64) by lia. by destruct (Z.testbit (Z.ones k) i), (Z.testbit x i).
    - by rewrite (testbit_above_u64 x) by (done || lia). }
  rewrite Z.ldiff_ones_r, Z.shiftl_mul_pow2, Z.shiftr_div_pow2 by lia.
  pose proof (Z.div_mod x (2 ^ k)). lia.
Qed.

Lemma pow2_intro k : 0 ≤ k < 64 → pow2 (2 ^ k).
Proof. intros. by exists k. Qed.

Lemma mod_round_up x a : 0 < a → ∃ r, 0 ≤ r < a ∧ (x + a - 1) - (x + a - 1) mod a = x + r ∧ (x + r) mod a = 0.
Proof.
  intros Ha. exists (a - 1 - (x + a - 1) mod a).
  pose proof (Z.mod_pos_bound (x + a - 1) a Ha).
  split_and!; [lia..|].
  replace (x + (a - 1 - (x + a - 1) mod a)) with ((x + a - 1) / a * a).
  - by apply Z.mod_mul; lia.
  - pose proof (Z.div_mod (x + a - 1) a). lia.
Qed.

(** *** Layouts

    [core::alloc::Layout]: [from_size_align] rejects an alignment that is not a
    power of two and a size that overflows [isize] when rounded up to it. *)

Record Layout := mkLayout { lay_size : Z; lay_align : Z }.

Definition is_pow2 (a : Z) : bool := (0 <? a) && (Z.land a (a - 1) =? 0).

Definition from_size_align (size align : Z) : option Layout :=
  if is_pow2 align && (size <=? I64 - align) then Some (mkLayout size align) else None.

(** [Layout::array::<T>(n)] for a [T] of the given size and alignment. *)
Definition layout_array (size align n : Z) : option Layout :=
  if size * n <=? I64 - align then Some (mkLayout (size * n) align) else None.

Definition layout_ok (l : Layout) : Prop :=
  pow2 (lay_align l) ∧ 0 ≤ lay_size l ≤ I64 - lay_align l.

Lemma is_pow2_pow2 a : pow2 a → is_pow2 a = true.
Proof.
  intros (k & Hk & ->). unfold is_pow2. rewrite land_low_mask by lia.
  rewrite Z.mod_same by (apply Z.pow_nonzero; lia). rewrite (proj2 (Z.ltb_lt _ _)); [done|].
  apply Z.pow_pos_nonneg; lia.
Qed.

(** A request is either a valid layout or rejected for its size. *)
Lemma from_size_align_spec size align : pow2 align → 0 ≤ size →
  from_size_align size align = None ∧ I64 - align < size ∨
  from_size_align size align = Some (mkLayout size align) ∧ layout_ok (mkLayout size align).
Proof.
  intros Hp Hs. unfold from_size_align. rewrite is_pow2_pow2 by done. simpl.
  destruct (Z.leb_spec size (I64 - align)); [right|by left]. done.
Qed.

(** *** Proof automation for the monads *)

Ltac comp_step :=
  match goal with
  | |- context [@add64 ?E ?a ?b] => rewrite (@add64_ok E a b) by lia
  | |- context [@sub64 ?E ?a ?b] => rewrite (@sub64_ok E a b) by lia
  | |- context [@mul64 ?E ?a ?b] => rewrite (@mul64_ok E a b) by lia
  | |- context [checked_add64 ?a ?b] => rewrite (checked_add64_some a b) by lia
  end.
Ltac comp_simpl := repeat (comp_step; cbn [mbind comp_bind M_bind mret comp_ret M_ret]).

Ltac bool_to_prop :=
  repeat match goal with
  | H : (_ <? _) = true |- _ => apply Z.ltb_lt in H
  | H : (_ <? _) = false |- _ => apply Z.ltb_ge in H
  | H : (_ <=? _) = true |- _ => apply Z.leb_le in H
  | H : (_ <=? _) = false |- _ => apply Z.leb_gt in H
  | H : (_ =? _) = true |- _ => apply Z.eqb_eq in H
  | H : (_ =? _) = false |- _ => apply Z.eqb_neq in H
  | H : (_ && _) = true |- _ => apply andb_true_iff in H; destruct H
  | H : (_ || _) = false |- _ => apply orb_false_iff in H; destruct H
  | H : negb _ = true |- _ => apply negb_true_iff in H
  | H : negb _ = false |- _ => apply negb_false_iff in H
  end.

(** Running a bind whose first part is known. *)
Lemma M_bind_ok {S E A B} (m : M S E A) (k : A → M S E B) s a s' : m s = Ok (a, s') → (m ≫= k) s = k a s'.
Proof. unfold mbind, M_bind. by intros ->. Qed.

Lemma M_bind_err {S E A B} (m : M S E A) (k : A → M S E B) s e : m s = Err e → (m ≫= k) s = Err e.
Proof. unfold mbind, M_bind. by intros ->. Qed.

Lemma M_bind_lift {S E A B} (c : comp E A) (k : A → M S E B) s a : c = Ok a → (lift c ≫= k) s = k a s.
Proof. by intros ->. Qed.

Lemma M_bind_inv {S E A B} (m : M S E A) (k : A → M S E B) s r : (m ≫= k) s = Ok r → ∃ a s', m s = Ok (a, s') ∧ k a s' = Ok r.
Proof. unfold mbind, M_bind. destruct (m s) as [[a s']|e| |]; [eauto|done..]. Qed.

Lemma zoom_ok {S T E A} (view : S → T) upd (m : M T E A) s a t : m (view s) = Ok (a, t) → zoom view upd m s = Ok (a, upd t s).
Proof. unfold zoom. by intros ->. Qed.

Lemma map_err_ok {S E E' A} (g : E' → E) (m : M S E' A) s r : m s = Ok r → map_err g m s = Ok r.
Proof. unfold map_err. by intros ->. Qed.

Lemma attempt_ok {S E E' A} (m : M S E' A) s a s' : m s = Ok (a, s') → attempt (E:=E) m s = Ok (inl a, s').
Proof. unfold attempt. by intros ->. Qed.

(** [preserves R m]: however [m] ends, its final state is [R]-related to its
    initial one. *)
Section preserves.
Context {S E : Type} (R : S → S → Prop) `{!PreOrder R}.

Definition preserves {A} (m : M S E A) : Prop := ∀ s,
  match m s with Ok (_, s') | Err (_, s') => R s s' | Panic | Hang => True end.

Lemma preserves_bind {A B} (m : M S E A) (k : A → M S E B) : preserves m → (∀ a, preserves (k a)) → preserves (m ≫= k).
Proof.
  intros Hm Hk s. specialize (Hm s). unfold mbind, M_bind. destruct (m s) as [[a s']|[e s']| |]; [|done..].
  specialize (Hk a s'). destruct (k a s') as [[b s'']|[e s'']| |]; [by etrans..|done|done].
Qed.
Lemma preserves_ret {A} (a : A) : preserves (mret a).
Proof. intros s. simpl. reflexivity. Qed.
Lemma preserves_throw {A} (e : E) : preserves (@throw S E A e).
Proof. intros s. simpl. reflexivity. Qed.
Lemma preserves_panic {A} : preserves (@panic S E A).
Proof. by intros s. Qed.
Lemma preserves_gets {A} (f : S → A) : preserves (gets f).
Proof. intros s. simpl. reflexivity. Qed.
Lemma preserves_lift {A} (c : comp E A) : preserves (lift c).
Proof. intros s. unfold lift. destruct c; done || reflexivity. Qed.
Lemma preserves_ok_or {A} (o : option A) e : preserves (ok_or o e).
Proof. intros s. unfold ok_or. destruct o; reflexivity. Qed.
Lemma preserves_modify f : (∀ s, R s (f s)) → preserves (modify f).
Proof. intros Hf s. apply Hf. Qed.
Lemma preserves_ok {A} (m : M S E A) s a s' : preserves m → m s = Ok (a, s') → R s s'.
Proof. intros Hm Heq. specialize (Hm s). by rewrite Heq in Hm. Qed.
Lemma preserves_err {A} (m : M S E A) s e s' : preserves m → m s = Err (e, s') → R s s'.
Proof. intros Hm Heq. specialize (Hm s). by rewrite Heq in Hm. Qed.
End preserves.

Lemma preserves_attempt {S E E' A} (R : S → S → Prop) (m : M S E' A) : preserves R m → preserves (E:=E) R (attempt m).
Proof. intros Hm s. specialize (Hm s). unfold attempt. by destruct (m s) as [[? ?]|[? ?]| |]. Qed.
Lemma preserves_map_err {S E E' A} (R : S → S → Prop) (g : E' → E) (m : M S E' A) : preserves R m → preserves R (map_err g m).
Proof. intros Hm s. specialize (Hm s). unfold map_err. by destruct (m s) as [[? ?]|[? ?]| |]. Qed.

Create HintDb preserves.
#[export] Hint Resolve preserves_ret preserves_throw preserves_panic preserves_gets preserves_lift preserves_ok_or : preserves.

(** Walk through a computation whose parts each preserve the relation. *)
Ltac preserves :=
  repeat first
    [ progress (eauto with preserves typeclass_instances)
    | progress intros
    | apply preserves_bind; [apply _| |]
    | match goal with |- preserves _ (match ?x with _ => _ end) => destruct x end ].

(** *** Pairwise relations on lists *)

Lemma ForallOrdPairs_remove {A} (R : A → A → Prop) `{!Symmetric R} l1 x l2 :
  ForallOrdPairs R (l1 ++ x :: l2) → ForallOrdPairs R (l1 ++ l2) ∧ Forall (R x) (l1 ++ l2).
Proof.
  induction l1 as [|y l1 IH]; simpl; intros H; inversion_clear H as [|? ? Hy Hrest]; [done|].
  apply Forall_app in Hy as [Hy1 Hy2]. apply Forall_cons_iff in Hy2 as [Hyx Hy2].
  destruct (IH Hrest) as [IH1 IH2]. split.
  - constructor; [|done]. by apply Forall_app.
  - constructor; [by symmetry|done].
Qed.
