(* ===== verification/CoreMem.v ===== *)
(** * Page arithmetic of the ares-core crate: src/crates/ares-core/src/mem/paging.rs

    The helpers take 64-bit values; an addition that overflows and a division by zero
    panic. *)

From S2P Require Import Prelude.
Local Open Scope Z_scope.

Module CoreMem.

Inductive Error := InvalidAlignment | OutOfMemory.

(** [u64::count_ones] *)
Definition count_ones (a : Z) : Z := Z.of_nat (length (filter (λ i, Z.testbit a i = true) (seqZ 0 64))).

Definition align_up (addr align : Z) : comp Error Z :=
  if negb (count_ones align =? 1) then Err InvalidAlignment
  else
    mask ← sub64 align 1;
    x ← add64 addr mask;
    mret (Z.land x (not64 mask)).

Definition align_down (addr align : Z) : comp Error Z :=
  if negb (count_ones align =? 1) then Err InvalidAlignment
  else
    mask ← sub64 align 1;
    mret (Z.land addr (not64 mask)).

Definition pages_required (length page_size : Z) : comp Error Z :=
  if length =? 0 then mret 0
  else if page_size =? 0 then Panic
  else add64 ((length - 1) / page_size) 1.

Definition is_aligned (addr align : Z) : comp Error bool :=
  if negb (count_ones align =? 1) then mret false
  else m ← sub64 align 1; mret (Z.land addr m =? 0).

(** One bit is set exactly in the powers of two. *)
Lemma count_ones_pow2 a : u64 a → count_ones a = 1 ↔ pow2 a.
Proof.
  intros Ha. unfold count_ones. split.
  - intros H. destruct (filter (λ i, Z.testbit a i = true) (seqZ 0 64)) as [|k [|k' l]] eqn:E; cbn [length] in H; [lia| |lia].
    assert (∀ i, 0 ≤ i < 64 → Z.testbit a i = true ↔ i = k) as Hbits.
    { intros i Hi. rewrite <- (list_elem_of_singleton i k), <- E, list_elem_of_filter, elem_of_seqZ. split; [intros ?; split; [done|lia]|tauto]. }
    assert (k ∈ [k]) as Hk by (by apply list_elem_of_singleton). rewrite <- E, list_elem_of_filter, elem_of_seqZ in Hk.
    exists k. split; [lia|]. apply Z.bits_inj'. intros i Hi. rewrite Z.pow2_bits_eqb by lia.
    destruct (Z.ltb_spec i 64) as [Hi'|Hi'].
    + destruct (Z.eqb_spec k i) as [->|Hne]; [by apply Hbits; [lia|]|]. apply not_true_is_false. rewrite Hbits by lia. congruence.
    + destruct (Z.eqb_spec k i); [lia|]. destruct Ha as [Ha1 Ha2]. rewrite <- (Z.mod_small a (2 ^ 64)) by done. by apply Z.mod_pow2_bits_high.
  - intros (k & Hk & ->). change (count_ones (2 ^ k) = 1).
    assert (forallb (λ k, count_ones (2 ^ k) =? 1) (seqZ 0 64) = true) as H by (by vm_compute).
    rewrite forallb_forall in H. apply Z.eqb_eq, H, list_elem_of_In, elem_of_seqZ. lia.
Qed.

Lemma land_mask_mod addr align : pow2 align → Z.land addr (align - 1) = addr mod align.
Proof. intros (k & Hk & ->). apply land_low_mask. lia. Qed.

(** The page arithmetic of the crate, on all 64-bit values.  An alignment that is not a
    power of two is refused, and nothing counts as aligned to it.  For a power of two
    [align_down] gives the last multiple not above the address and [align_up] the first
    not below it, which panics exactly when the address is within the alignment of the
    end of the 64-bit range, even when it is aligned there; [is_aligned] holds exactly of
    the multiples.  [pages_required] is the number of pages that cover the length, without
    overflow, and panics for a page size of zero. *)
Theorem page_arithmetic addr align : u64 addr → u64 align →
  (¬ pow2 align → align_up addr align = Err InvalidAlignment ∧ align_down addr align = Err InvalidAlignment ∧ is_aligned addr align = Ok false) ∧
  (pow2 align →
    (∃ d, align_down addr align = Ok d ∧ d mod align = 0 ∧ d ≤ addr < d + align) ∧
    (if addr + (align - 1) <? U64 then ∃ u, align_up addr align = Ok u ∧ u mod align = 0 ∧ u - align < addr ≤ u
     else align_up addr align = Panic) ∧
    is_aligned addr align = Ok (addr mod align =? 0)) ∧
  (if align =? 0 then addr ≠ 0 → pages_required addr align = Panic
   else ∃ n, pages_required addr align = Ok n ∧ (n - 1) * align < addr ≤ n * align).
Proof.
  intros Ha Hal. unfold align_up, align_down, is_aligned. split_and!.
  - intros Hn. rewrite (proj2 (Z.eqb_neq _ _)); [done|]. by rewrite count_ones_pow2.
  - intros Hp. rewrite (proj2 (Z.eqb_eq _ _)) by (by apply count_ones_pow2). cbn [negb]. pose proof (pow2_pos _ Hp).
    unfold sub64. rewrite (proj2 (Z.leb_le _ _)) by lia. cbn [mbind comp_bind].
    pose proof (Z.mod_pos_bound addr align ltac:(lia)). split_and!.
    + eexists. split; [done|]. rewrite land_not_mask by done. split; [|lia]. rewrite Zminus_mod, Z.mod_mod, Z.sub_diag, Z.mod_0_l by lia. done.
    + unfold add64. destruct (Z.ltb_spec (addr + (align - 1)) U64); [|done]. cbn [mbind comp_bind].
      destruct (mod_round_up addr align ltac:(lia)) as (r & Hr & Heq & Hm). exists (addr + r). split; [|lia].
      unfold mret, comp_ret. f_equal. rewrite land_not_mask by (unfold u64 in *; done || lia). replace (addr + (align - 1)) with (addr + align - 1) by lia. done.
    + unfold mret, comp_ret. f_equal. by rewrite land_mask_mod.
  - unfold pages_required. destruct (Z.eqb_spec align 0) as [->|Hne].
    + intros H. by rewrite (proj2 (Z.eqb_neq _ _)).
    + destruct (Z.eqb_spec addr 0) as [->|H0]; [exists 0; split; [done|unfold u64 in *; lia]|]. unfold u64 in *.
      pose proof (Z.div_mod (addr - 1) align ltac:(lia)). pose proof (Z.mod_pos_bound (addr - 1) align ltac:(lia)).
      assert ((addr - 1) / align ≤ addr - 1) by (apply Z.div_le_upper_bound; nia).
      exists ((addr - 1) / align + 1). unfold add64. rewrite (proj2 (Z.ltb_lt _ _)) by lia. split; [done|nia].
Qed.

Lemma page_arithmetic_witness : ∃ u, align_up 0x12345 0x1000 = Ok u ∧ u mod 0x1000 = 0 ∧ u - 0x1000 < 0x12345 ≤ u.
Proof.
  destruct (page_arithmetic 0x12345 0x1000 ltac:(done) ltac:(done)) as (_ & H & _).
  destruct H as (_ & H & _); [by exists 12|exact H].
Defined.

End CoreMem.
