(* ===== verification/Mem.v ===== *)
(** * Byte memory and little-endian integers

    Memory is a total function from addresses to byte values.  The raw-pointer
    primitives the kernel uses ([ptr::write_bytes], [ptr::copy],
    [copy_nonoverlapping], a [u64] load or store) are range updates of it, and
    [from_le_bytes] is [le_val]. *)

From S2P Require Import Prelude.
Local Open Scope Z_scope.

(** ** Little-endian bytes *)

(** [uN::from_le_bytes] *)
Fixpoint le_val (bs : list Z) : Z :=
  match bs with
  | [] => 0
  | b :: rest => b + 256 * le_val rest
  end.

(** [uN::to_le_bytes], for [n] bytes *)
Fixpoint le_bytes (n : nat) (v : Z) : list Z :=
  match n with
  | O => []
  | S n => v mod 256 :: le_bytes n (v / 256)
  end.

Definition byte (b : Z) : Prop := 0 ≤ b < 256.

Lemma list_forallb_byte bs : forallb (λ b, (0 <=? b) && (b <? 256)) bs = true → Forall byte bs.
Proof.
  induction bs as [|b bs IH]; simpl; [constructor|]. intros H. bool_to_prop. constructor; [unfold byte; lia|auto].
Qed.

Lemma length_le_bytes n v : length (le_bytes n v) = n.
Proof. revert v. induction n; simpl; auto. Qed.

Lemma le_bytes_byte n v : Forall byte (le_bytes n v).
Proof. revert v. induction n; constructor; [apply Z.mod_pos_bound; lia|auto]. Qed.

Lemma le_val_bytes n v : 0 ≤ v < 256 ^ Z.of_nat n → le_val (le_bytes n v) = v.
Proof.
  revert v. induction n as [|n IH]; intros v Hv; [simpl in *; lia|].
  rewrite Nat2Z.inj_succ, Z.pow_succ_r in Hv by lia.
  cbn [le_val le_bytes]. rewrite IH.
  - pose proof (Z.div_mod v 256). lia.
  - split; [apply Z.div_pos; lia|apply Z.div_lt_upper_bound; lia].
Qed.

Lemma le_bytes_val bs : Forall byte bs → le_bytes (length bs) (le_val bs) = bs.
Proof.
  induction 1 as [|b bs Hb Hbs IH]; [done|]. unfold byte in Hb. simpl.
  rewrite (Z.mul_comm 256), Z.mod_add, Z.div_add, Z.mod_small, Z.div_small by lia.
  by rewrite Z.add_0_l, IH.
Qed.

Lemma le_val_bound bs : Forall byte bs → 0 ≤ le_val bs < 256 ^ Z.of_nat (length bs).
Proof.
  induction 1 as [|b bs Hb Hbs IH]; [simpl; lia|]. unfold byte in Hb.
  cbn [length le_val]. rewrite Nat2Z.inj_succ, Z.pow_succ_r by lia. lia.
Qed.

Lemma le_val_app l1 l2 : le_val (l1 ++ l2) = le_val l1 + 256 ^ Z.of_nat (length l1) * le_val l2.
Proof.
  induction l1 as [|x l1 IH]; [cbn [app le_val length]; change (256 ^ Z.of_nat 0) with 1; lia|]. cbn [app le_val length].
  rewrite IH, Nat2Z.inj_succ, Z.pow_succ_r by lia. lia.
Qed.

(** ** Memory *)

Definition mem := Z → Z.

(** [ptr::write_bytes(addr, v, n)] *)
Definition fill (m : mem) (addr n v : Z) : mem := λ x,
  if (addr <=? x) && (x <? addr + n) then v else m x.

(** [copy_nonoverlapping] from a Rust slice holding [bs] *)
Definition store_bytes (m : mem) (addr : Z) (bs : list Z) : mem := λ x,
  if (addr <=? x) && (x <? addr + Z.of_nat (length bs))
  then nth (Z.to_nat (x - addr)) bs 0 else m x.

(** [copy_nonoverlapping] into a Rust slice of [n] bytes *)
Definition load_bytes (m : mem) (addr : Z) (n : nat) : list Z :=
  map (λ i, m (addr + Z.of_nat i)) (seq 0 n).

(** [ptr::copy(src, dst, n)]: the source is read before it is overwritten. *)
Definition copy (m : mem) (src dst n : Z) : mem := λ x,
  if (dst <=? x) && (x <? dst + n) then m (src + (x - dst)) else m x.

Definition load16 (m : mem) (addr : Z) : Z := le_val (load_bytes m addr 2).
Definition load32 (m : mem) (addr : Z) : Z := le_val (load_bytes m addr 4).
Definition load64 (m : mem) (addr : Z) : Z := le_val (load_bytes m addr 8).
Definition store64 (m : mem) (addr v : Z) : mem := store_bytes m addr (le_bytes 8 v).

Definition mem_ok (m : mem) : Prop := ∀ a, byte (m a).

Lemma length_load_bytes m a n : length (load_bytes m a n) = n.
Proof. unfold load_bytes. by rewrite length_map, length_seq. Qed.

Lemma load_bytes_lookup m a n i : (i < n)%nat → load_bytes m a n !! i = Some (m (a + Z.of_nat i)).
Proof.
  intros Hi. unfold load_bytes. rewrite list_lookup_fmap, lookup_seq_lt by done. done.
Qed.

Lemma load_bytes_ext m m' a a' n :
  (∀ i, (i < n)%nat → m (a + Z.of_nat i) = m' (a' + Z.of_nat i)) → load_bytes m a n = load_bytes m' a' n.
Proof. intros H. apply map_ext_in. intros i Hi. apply in_seq in Hi. apply H. lia. Qed.

Lemma load_bytes_byte m a n : mem_ok m → Forall byte (load_bytes m a n).
Proof.
  intros H. unfold load_bytes. apply Forall_forall. intros x Hx.
  apply list_elem_of_fmap in Hx as (i & -> & _). apply H.
Qed.

Lemma load_bytes_app m a n1 n2 :
  load_bytes m a (n1 + n2) = load_bytes m a n1 ++ load_bytes m (a + Z.of_nat n1) n2.
Proof.
  unfold load_bytes. rewrite seq_app, map_app. f_equal.
  apply list_eq. intros i. rewrite !list_lookup_fmap.
  destruct (decide (i < n2)%nat).
  - rewrite !lookup_seq_lt by done. simpl. do 2 f_equal. lia.
  - rewrite !lookup_seq_ge by lia. done.
Qed.

Lemma in_range a x n : (a <=? x) && (x <? a + n) = true ↔ a ≤ x < a + n.
Proof. rewrite andb_true_iff, Z.leb_le, Z.ltb_lt. done. Qed.

Lemma fill_in m a n v x : a ≤ x < a + n → fill m a n v x = v.
Proof. intros H. unfold fill. by rewrite (proj2 (in_range _ _ _) H). Qed.

Lemma range_false a x n : ¬ (a ≤ x < a + n) → (a <=? x) && (x <? a + n) = false.
Proof. intros H. apply not_true_is_false. by rewrite in_range. Qed.

Lemma fill_out m a n v x : ¬ (a ≤ x < a + n) → fill m a n v x = m x.
Proof. intros H. unfold fill. by rewrite range_false. Qed.

Lemma copy_in m src dst n x : dst ≤ x < dst + n → copy m src dst n x = m (src + (x - dst)).
Proof. intros H. unfold copy. by rewrite (proj2 (in_range _ _ _) H). Qed.

Lemma copy_out m src dst n x : ¬ (dst ≤ x < dst + n) → copy m src dst n x = m x.
Proof. intros H. unfold copy. by rewrite range_false. Qed.

Lemma store_bytes_in m a bs i : (i < length bs)%nat → store_bytes m a bs (a + Z.of_nat i) = nth i bs 0.
Proof.
  intros H. unfold store_bytes. rewrite (proj2 (in_range _ _ _)) by lia.
  f_equal. lia.
Qed.

Lemma store_bytes_out m a bs x :
  ¬ (a ≤ x < a + Z.of_nat (length bs)) → store_bytes m a bs x = m x.
Proof. intros H. unfold store_bytes. by rewrite range_false. Qed.

Lemma load_store_same m a bs : load_bytes (store_bytes m a bs) a (length bs) = bs.
Proof.
  apply list_eq. intros i. destruct (decide (i < length bs)%nat) as [Hi|Hi].
  - rewrite load_bytes_lookup, store_bytes_in by done.
    destruct (lookup_lt_is_Some_2 _ _ Hi) as [x Hx]. rewrite Hx.
    by rewrite (nth_lookup_Some _ _ _ _ Hx).
  - rewrite !lookup_ge_None_2; [done|lia|rewrite length_load_bytes; lia].
Qed.

Lemma load_store_disjoint m a bs b n :
  a + Z.of_nat (length bs) ≤ b ∨ b + Z.of_nat n ≤ a →
  load_bytes (store_bytes m a bs) b n = load_bytes m b n.
Proof. intros H. apply load_bytes_ext. intros i Hi. apply store_bytes_out. lia. Qed.

Lemma load64_store64 m a v : u64 v → load64 (store64 m a v) a = v.
Proof.
  intros Hv. unfold load64, store64.
  pose proof (load_store_same m a (le_bytes 8 v)) as H. rewrite length_le_bytes in H. rewrite H.
  by apply le_val_bytes.
Qed.

Lemma load64_store64_ne m a v b : a + 8 ≤ b ∨ b + 8 ≤ a → load64 (store64 m a v) b = load64 m b.
Proof.
  intros H. unfold load64, store64. rewrite load_store_disjoint; [done|]. by rewrite length_le_bytes.
Qed.

Lemma load64_ext m m' a : (∀ x, a ≤ x < a + 8 → m x = m' x) → load64 m a = load64 m' a.
Proof. intros H. unfold load64. f_equal. apply load_bytes_ext. intros i Hi. apply H. lia. Qed.

Lemma load64_fill m a n b : a ≤ b → b + 8 ≤ a + n → load64 (fill m a n 0) b = 0.
Proof.
  intros H1 H2. rewrite (load64_ext _ (λ _, 0)); [done|]. intros x Hx. apply fill_in. lia.
Qed.

Lemma load64_fill_out m a n v b : b + 8 ≤ a ∨ a + n ≤ b → load64 (fill m a n v) b = load64 m b.
Proof. intros H. apply load64_ext. intros x Hx. apply fill_out. lia. Qed.

Lemma load64_bound m a : mem_ok m → u64 (load64 m a).
Proof.
  intros H. unfold load64. pose proof (le_val_bound (load_bytes m a 8) (load_bytes_byte _ _ _ H)) as Hb.
  rewrite length_load_bytes in Hb. exact Hb.
Qed.

Lemma load32_bound m a : mem_ok m → 0 ≤ load32 m a < U32.
Proof.
  intros Hm. unfold load32. pose proof (le_val_bound (load_bytes m a 4) (load_bytes_byte m a 4 Hm)) as Hb.
  by rewrite length_load_bytes in Hb.
Qed.

Lemma mem_ok_fill m a n v : mem_ok m → byte v → mem_ok (fill m a n v).
Proof. intros H Hv x. unfold fill. by destruct (_ && _). Qed.

Lemma mem_ok_store m a bs : mem_ok m → Forall byte bs → mem_ok (store_bytes m a bs).
Proof.
  intros H Hbs x. unfold store_bytes. destruct (_ && _); [|done].
  destruct (nth_in_or_default (Z.to_nat (x - a)) bs 0) as [Hin| ->]; [|by unfold byte].
  rewrite Forall_forall in Hbs. by apply Hbs, list_elem_of_In.
Qed.

Lemma mem_ok_copy m src dst n : mem_ok m → mem_ok (copy m src dst n).
Proof. intros H x. unfold copy. by destruct (_ && _). Qed.

Lemma mem_ok_store64 m a v : mem_ok m → mem_ok (store64 m a v).
Proof. intros H. apply mem_ok_store; [done|apply le_bytes_byte]. Qed.

Create HintDb mem.
Create Rewrite HintDb mem.
#[export] Hint Resolve mem_ok_fill mem_ok_store mem_ok_copy mem_ok_store64 load_bytes_byte le_bytes_byte : mem.
#[export] Hint Rewrite length_load_bytes length_le_bytes : mem.
