(* ===== verification/Heap.v ===== *)
(** * The kernel heap: src/src/kernel/mem/heap.rs

    The linked-list allocator.  A free region is described by the [ListNode]
    written at its first address, so the list [head.next, ..] is a list of
    nodes with their addresses; the dummy [head] has size 0 and is not part of
    it. *)

From S2P Require Import Prelude Mem.
Local Open Scope Z_scope.

Module Heap.

Record ListNode := Node { start_addr : Z; node_size : Z }.

Definition HEAP_SIZE : Z := 8 * 1024 * 1024.
(** [size_of::<ListNode>()] and [align_of::<ListNode>()]: a [usize] and an
    optional reference. *)
Definition min_region_size : Z := 16.
Definition align_of_ListNode : Z := 8.

(** [ListNode::end_addr], overflow-checked. *)
Definition end_addr {E} (n : ListNode) : comp E Z := add64 (start_addr n) (node_size n).

Definition align_up {E} (addr align : Z) : comp E Z :=
  x ← add64 addr align;
  y ← sub64 x 1;
  m ← sub64 align 1;
  mret (Z.land y (not64 m)).

(** [LinkedListAllocator::remaining] *)
Fixpoint remaining_from {E} (total : Z) (l : list ListNode) : comp E Z :=
  match l with
  | [] => mret total
  | n :: rest => total' ← add64 total (node_size n); remaining_from total' rest
  end.
Definition remaining {E} (l : list ListNode) : comp E Z := remaining_from 0 l.

(** [merge_with_next]: absorb the following nodes while they are adjacent. *)
Fixpoint merge_with_next {E} (node : ListNode) (l : list ListNode) : comp E (ListNode * list ListNode) :=
  node_end ← end_addr node;
  match l with
  | [] => mret (node, [])
  | next :: next_next =>
      if negb (node_end =? start_addr next) then mret (node, next :: next_next)
      else size ← add64 (node_size node) (node_size next);
           merge_with_next (Node (start_addr node) size) next_next
  end.

(** The search of [merge_with_previous], from [current] (first the dummy head)
    with the nodes after it. *)
Fixpoint merge_with_previous {E} (node_ptr : Z) (current : ListNode) (l : list ListNode)
    : comp E (ListNode * list ListNode) :=
  match l with
  | [] => mret (current, [])
  | next :: rest =>
      if start_addr next =? node_ptr then
        if node_size current =? 0 then mret (current, next :: rest)
        else
          current_end ← end_addr current;
          if current_end =? start_addr next then
            size ← add64 (node_size current) (node_size next);
            merge_with_next (Node (start_addr current) size) rest
          else mret (current, next :: rest)
      else
        '(next', rest') ← merge_with_previous node_ptr next rest;
        mret (current, next' :: rest')
  end.

(** The walk of [insert_region] to the first node at or above [start], the
    insertion there, and the call of [merge_with_next] on the new node. *)
Fixpoint insert_walk {E} (start size : Z) (l : list ListNode) : comp E (list ListNode) :=
  match l with
  | next :: rest =>
      if start <=? start_addr next then
        '(node, l') ← merge_with_next (Node start size) l;
        mret (node :: l')
      else
        rest' ← insert_walk start size rest;
        mret (next :: rest')
  | [] => mret [Node start size]
  end.

(** The dummy head: it has size 0 and its address is never compared. *)
Definition head : ListNode := Node 0 0.

Definition insert_region {E} (l : list ListNode) (addr size : Z) : comp E (list ListNode) :=
  start ← align_up addr align_of_ListNode;
  match checked_add64 addr size with
  | None => mret l
  | Some end_ =>
      if end_ <=? start then mret l
      else
        size ← sub64 end_ start;
        if size <? min_region_size then mret l
        else
          l1 ← insert_walk start size l;
          '(_, l2) ← merge_with_previous start head l1;
          mret l2
  end.

Definition init {E} (heap_start heap_size : Z) : comp E (list ListNode) :=
  insert_region [] heap_start heap_size.

(** The search of [allocate]: the first region in which an aligned block fits,
    with the block's bounds and the list without that region.  An address
    overflow ends the search ([return null_mut()]). *)
Fixpoint find_fit {E} (size align : Z) (l : list ListNode)
    : comp E (option (Z * Z * ListNode * list ListNode)) :=
  match l with
  | [] => mret None
  | region :: next =>
      alloc_start ← align_up (start_addr region) align;
      match checked_add64 alloc_start size with
      | None => mret None
      | Some alloc_end =>
          region_end ← end_addr region;
          if region_end <? alloc_end then
            r ← find_fit size align next;
            match r with
            | None => mret None
            | Some (a, b, n, rest) => mret (Some (a, b, n, region :: rest))
            end
          else mret (Some (alloc_start, alloc_end, region, next))
      end
  end.

(** [LinkedListAllocator::allocate]; [0] is the null pointer. *)
Definition allocate {E} (l : list ListNode) (layout : Layout) : comp E (Z * list ListNode) :=
  let size := Z.max (lay_size layout) min_region_size in
  let align := Z.max (lay_align layout) align_of_ListNode in
  r ← find_fit size align l;
  match r with
  | None => mret (0, l)
  | Some (alloc_start, alloc_end, region, l') =>
      excess_before ← sub64 alloc_start (start_addr region);
      l1 ← (if min_region_size <=? excess_before
            then insert_region l' (start_addr region) excess_before else mret l');
      region_end ← add64 (start_addr region) (node_size region);
      excess_after ← sub64 region_end alloc_end;
      l2 ← (if min_region_size <=? excess_after
            then insert_region l1 alloc_end excess_after else mret l1);
      _ ← remaining l2;
      mret (alloc_start, l2)
  end.

(** [LinkedListAllocator::deallocate] *)
Definition deallocate {E} (l : list ListNode) (ptr : Z) (layout : Layout) : comp E (list ListNode) :=
  let size := Z.max (lay_size layout) min_region_size in
  insert_region l ptr size.

(** ** The global allocator entry points

    The state of the static [ALLOCATOR], and the memory as its clients see it.
    The bytes of a free region belong to the allocator, which keeps its nodes
    there; they are not part of the clients' view. *)

Record allocator := mkAllocator { ga_free : list ListNode; ga_mem : mem }.

(** [heap::allocate] and [heap::deallocate] *)
Definition heap_allocate {E} (layout : Layout) : M allocator E Z := λ s,
  match @allocate E (ga_free s) layout with
  | Ok (p, l) => Ok (p, mkAllocator l (ga_mem s))
  | Err e => Err (e, s)
  | Panic => Panic
  | Hang => Hang
  end.

Definition heap_deallocate {E} (ptr : Z) (layout : Layout) : M allocator E unit := λ s,
  match @deallocate E (ga_free s) ptr layout with
  | Ok l => Ok (tt, mkAllocator l (ga_mem s))
  | Err e => Err (e, s)
  | Panic => Panic
  | Hang => Hang
  end.

Definition heap_write (f : mem → mem) (s : allocator) : allocator := mkAllocator (ga_free s) (f (ga_mem s)).

(** [heap::remaining_bytes] *)
Definition remaining_bytes {E} : M allocator E Z := λ s, lift (remaining (ga_free s)) s.

Definition rust_alloc {E} (size align : Z) : M allocator E Z :=
  match from_size_align size align with
  | Some layout => heap_allocate layout
  | None => mret 0
  end.

Definition rust_alloc_zeroed {E} (size align : Z) : M allocator E Z :=
  match from_size_align size align with
  | Some layout =>
      ptr ← heap_allocate layout;
      _ ← (if ptr =? 0 then mret tt else modify (heap_write (λ m, fill m ptr size 0)));
      mret ptr
  | None => mret 0
  end.

Definition rust_dealloc {E} (ptr size align : Z) : M allocator E unit :=
  match from_size_align size align with
  | Some layout => heap_deallocate ptr layout
  | None => mret tt
  end.

Definition rust_realloc {E} (ptr old_size align new_size : Z) : M allocator E Z :=
  if ptr =? 0 then rust_alloc new_size align
  else if new_size =? 0 then
    _ ← rust_dealloc ptr old_size align; mret 0
  else
    match from_size_align new_size align with
    | None => mret 0
    | Some new_layout =>
        new_ptr ← heap_allocate new_layout;
        if new_ptr =? 0 then mret 0
        else
          let copy_size := Z.min old_size new_size in
          _ ← modify (heap_write (λ m, copy m ptr new_ptr copy_size));
          _ ← rust_dealloc ptr old_size align;
          mret new_ptr
    end.

(** ** Well-formedness of the free list

    [free_list lo hi l]: the nodes of [l] lie in [lo, hi), in increasing
    address order, aligned for a [ListNode], large enough to hold one, and no
    two of them are adjacent (every merge has been done). *)

Definition node_end (n : ListNode) : Z := start_addr n + node_size n.
Definition in_node (a : Z) (n : ListNode) : Prop := start_addr n ≤ a < node_end n.
Definition free_addr (l : list ListNode) (a : Z) : Prop := Exists (in_node a) l.
Definition total (l : list ListNode) : Z := foldr (λ n t, node_size n + t) 0 l.

Fixpoint free_list (lo hi : Z) (l : list ListNode) : Prop :=
  match l with
  | [] => True
  | n :: rest =>
      lo ≤ start_addr n ∧ start_addr n mod 8 = 0 ∧ 16 ≤ node_size n ∧
      node_end n ≤ hi ∧ free_list (node_end n + 1) hi rest
  end.

(** The block [s, e) overlaps no node. *)
Definition disjoint_from (s e : Z) (l : list ListNode) : Prop :=
  Forall (λ n, node_end n ≤ s ∨ e ≤ start_addr n) l.

Lemma free_list_weaken lo lo' hi hi' l :
  lo' ≤ lo → hi ≤ hi' → free_list lo hi l → free_list lo' hi' l.
Proof.
  revert lo lo'. induction l as [|n l IH]; intros lo lo' Hlo Hhi; simpl; [done|].
  intros (? & ? & ? & ? & Hl). split_and!; try lia. by eapply IH, Hl.
Qed.

Lemma free_list_above lo hi l : free_list lo hi l → Forall (λ n, lo ≤ start_addr n ∧ node_end n ≤ hi ∧ 16 ≤ node_size n) l.
Proof.
  revert lo. induction l as [|n l IH]; intros lo; simpl; [constructor|].
  intros (? & ? & ? & ? & Hl). constructor; [lia|].
  eapply Forall_impl; [exact (IH _ Hl)|]. unfold node_end in *. simpl. intros; lia.
Qed.

Lemma free_addr_cons n l a : free_addr (n :: l) a ↔ in_node a n ∨ free_addr l a.
Proof. apply Exists_cons. Qed.

Lemma free_addr_app l1 l2 a : free_addr (l1 ++ l2) a ↔ free_addr l1 a ∨ free_addr l2 a.
Proof. apply Exists_app. Qed.

Lemma free_addr_bounds lo hi l a : free_list lo hi l → free_addr l a → lo ≤ a < hi.
Proof.
  intros Hl Ha. apply free_list_above in Hl. unfold free_addr in Ha.
  rewrite Exists_exists in Ha. destruct Ha as (n & Hn & Hin).
  rewrite Forall_forall in Hl. specialize (Hl n Hn). unfold in_node in Hin. lia.
Qed.

Lemma total_app l1 l2 : total (l1 ++ l2) = total l1 + total l2.
Proof. induction l1; simpl; lia. Qed.

#[local] Ltac comps := repeat (comp_step; simpl).

Lemma end_addr_ok {E} n : node_end n < U64 → @end_addr E n = Ok (node_end n).
Proof. apply add64_ok. Qed.

Lemma align_up_ok {E} addr align : 0 ≤ addr → pow2 align → addr + align < U64 →
  ∃ r, @align_up E addr align = Ok (addr + r) ∧ 0 ≤ r < align ∧ (addr + r) mod align = 0.
Proof.
  intros Ha Hp Hov. pose proof (pow2_pos _ Hp).
  destruct (mod_round_up addr align) as (r & Hr & Heq & Hmod); [lia|].
  exists r. split; [|done]. unfold align_up. comps.
  rewrite land_not_mask by (unfold u64; lia || done). by rewrite Heq.
Qed.

Lemma merge_with_next_spec {E} lo hi node l :
  hi < U64 → 0 ≤ start_addr node → 16 ≤ node_size node → node_end node ≤ hi →
  free_list lo hi l → node_end node ≤ lo →
  ∃ node' l', @merge_with_next E node l = Ok (node', l') ∧
    start_addr node' = start_addr node ∧ 16 ≤ node_size node' ∧ node_end node' ≤ hi ∧
    free_list (node_end node' + 1) hi l' ∧
    (∀ a, free_addr (node' :: l') a ↔ free_addr (node :: l) a) ∧
    total (node' :: l') = total (node :: l).
Proof.
  intros Hhi. revert lo node.
  induction l as [|n l IH]; intros lo node H0s Hsz Hend Hl Hlo; simpl.
  - rewrite end_addr_ok by lia. simpl. exists node, []. by split_and!.
  - rewrite end_addr_ok by lia. simpl. simpl in Hl. destruct Hl as (? & ? & ? & ? & Hl).
    destruct (Z.eqb_spec (node_end node) (start_addr n)) as [Heq|Hne]; simpl.
    + unfold node_end in *. comps.
      destruct (IH (start_addr n + node_size n + 1) (Node (start_addr node) (node_size node + node_size n)))
        as (node' & l' & -> & Hs & Hz & He & Hf & Hcov & Htot); unfold node_end in *; simpl in *; try lia; [done|].
      exists node', l'. split_and!; try done; try lia.
      intros a. rewrite Hcov, !free_addr_cons. unfold in_node, node_end. simpl. intuition lia.
    + exists node, (n :: l). split_and!; try done. simpl. split_and!; try done. lia.
Qed.

(** [insert_walk] puts the region between the nodes below and above it. *)
Lemma insert_walk_spec {E} lo hi start size l :
  hi < U64 → 0 ≤ lo → free_list lo hi l → 0 ≤ start → 16 ≤ size → start + size ≤ hi →
  disjoint_from start (start + size) l →
  ∃ pre node post, @insert_walk E start size l = Ok (pre ++ node :: post) ∧
    free_list lo start pre ∧ start_addr node = start ∧ 16 ≤ node_size node ∧
    node_end node ≤ hi ∧ free_list (node_end node + 1) hi post ∧
    (∀ a, free_addr (pre ++ node :: post) a ↔ free_addr l a ∨ start ≤ a < start + size) ∧
    total (pre ++ node :: post) = total l + size.
Proof.
  intros Hhi. revert lo. induction l as [|n l IH]; intros lo H0 Hl Hst Hsz Hend Hdis; simpl.
  - exists [], (Node start size), []. unfold node_end. simpl. split_and!; try done; try lia.
    intros a. rewrite free_addr_cons. unfold in_node, node_end. simpl. tauto.
  - pose proof Hl as Hl0. simpl in Hl. destruct Hl as (Hn1 & Hn2 & Hn3 & Hn4 & Hl).
    apply Forall_cons_iff in Hdis as [Hd Hdis].
    destruct (Z.leb_spec start (start_addr n)) as [Hle|Hlt].
    + destruct (merge_with_next_spec (E:=E) (start + size) hi (Node start size) (n :: l))
        as (node & post & Hm & Hs & Hz & He & Hf & Hcov & Htot); unfold node_end in *; simpl in *; try lia.
      { split_and!; try done; lia. }
      rewrite Hm. exists [], node, post. split_and!; try done; simpl; try lia.
      intros a. rewrite Hcov, free_addr_cons. unfold in_node, node_end. simpl. tauto.
    + destruct (IH (node_end n + 1)) as (pre & node & post & -> & Hpre & Hs & Hz & He & Hf & Hcov & Htot);
        unfold node_end in *; try lia; try done.
      exists (n :: pre), node, post. split_and!; try done; simpl; try lia.
      * unfold node_end. split_and!; try done; lia.
      * intros a. rewrite !free_addr_cons, Hcov. tauto.
Qed.

(** [merge_with_previous] joins the node at [node_ptr] to the node before it
    when the two are adjacent. *)
Lemma merge_with_previous_spec {E} lo hi cur pre node post :
  hi < U64 → 0 ≤ lo → free_list lo (start_addr node) (cur :: pre) →
  16 ≤ node_size node → node_end node ≤ hi → start_addr node mod 8 = 0 →
  free_list (node_end node + 1) hi post →
  ∃ cur' l', @merge_with_previous E (start_addr node) cur (pre ++ node :: post) = Ok (cur', l') ∧
    free_list lo hi (cur' :: l') ∧
    (∀ a, free_addr (cur' :: l') a ↔ free_addr (cur :: pre ++ node :: post) a) ∧
    total (cur' :: l') = total (cur :: pre ++ node :: post).
Proof.
  intros Hhi. revert lo cur. induction pre as [|n pre IH]; intros lo cur H0 Hpre Hsz Hend Hal Hpost.
  - simpl in Hpre. destruct Hpre as (Hc1 & Hc2 & Hc3 & Hc4 & _). simpl.
    rewrite Z.eqb_refl. destruct (Z.eqb_spec (node_size cur) 0); [lia|].
    rewrite end_addr_ok by (unfold node_end in *; lia). simpl.
    destruct (Z.eqb_spec (node_end cur) (start_addr node)) as [Heq|Hne].
    + unfold node_end in *. comps.
      destruct (merge_with_next_spec (E:=E) (start_addr node + node_size node + 1) hi
        (Node (start_addr cur) (node_size cur + node_size node)) post)
        as (node' & l' & Hm & Hs & Hz & He & Hf & Hcov & Htot); unfold node_end in *; simpl in *; try lia; [done|].
      rewrite Hm. exists node', l'. unfold node_end. split_and!; try done; try lia.
      * by rewrite Hs.
      * intros a. rewrite Hcov, !free_addr_cons. unfold in_node, node_end; simpl.
        intuition lia.
    + exists cur, (node :: post). simpl. unfold node_end in *. split_and!; try done; lia.
  - cbn [app]. simpl merge_with_previous. pose proof Hpre as Hpre0.
    destruct Hpre as (Hc1 & Hc2 & Hc3 & Hc4 & Hpre). pose proof Hpre as (Hn1 & Hn2 & Hn3 & Hn4 & _).
    destruct (Z.eqb_spec (start_addr n) (start_addr node)); [unfold node_end in *; lia|].
    destruct (IH (node_end cur + 1) n) as (cur' & l' & -> & Hfl & Hcov & Htot); try done; [unfold node_end in *; lia|].
    exists cur, (cur' :: l'). split_and!; [done| |by intros a; rewrite free_addr_cons, Hcov, <- free_addr_cons|].
    + change (free_list lo hi (cur :: cur' :: l')) with
        (lo ≤ start_addr cur ∧ start_addr cur mod 8 = 0 ∧ 16 ≤ node_size cur ∧
         node_end cur ≤ hi ∧ free_list (node_end cur + 1) hi (cur' :: l')).
      unfold node_end in *. split_and!; try done; lia.
    + simpl in *. lia.
Qed.

Lemma insert_region_spec {E} lo hi l addr size :
  hi + 8 < U64 → 0 ≤ lo → free_list lo hi l → lo ≤ addr → 0 ≤ size → addr + size ≤ hi →
  disjoint_from addr (addr + size) l →
  ∃ s l', @insert_region E l addr size = Ok l' ∧ free_list lo hi l' ∧
    addr ≤ s < addr + 8 ∧ s mod 8 = 0 ∧
    (addr + size < s + 16 ∧ l' = l ∨
     s + 16 ≤ addr + size ∧ total l' = total l + (addr + size - s) ∧
     ∀ a, free_addr l' a ↔ free_addr l a ∨ s ≤ a < addr + size).
Proof.
  intros Hhi H0 Hl Ha Hs He Hdis.
  destruct (align_up_ok (E:=E) addr 8) as (r & Hr & Hrb & Hrm); [lia|by apply (pow2_intro 3)|lia|].
  unfold insert_region, align_of_ListNode, min_region_size. rewrite Hr. cbn [mbind comp_bind].
  rewrite checked_add64_some by lia. exists (addr + r).
  destruct (Z.leb_spec (addr + size) (addr + r)); [exists l; split_and!; try done; try lia; left; split; [lia|done]|].
  rewrite sub64_ok by lia. cbn [mbind comp_bind].
  destruct (Z.ltb_spec (addr + size - (addr + r)) 16); [exists l; split_and!; try done; try lia; left; split; [lia|done]|].
  destruct (insert_walk_spec (E:=E) lo hi (addr + r) (addr + size - (addr + r)) l)
    as (pre & node & post & -> & Hpre & Hst & Hz & Hen & Hpost & Hcov & Htot); try done; try lia.
  { eapply Forall_impl; [exact Hdis|]. simpl. intros; lia. }
  replace (addr + r + (addr + size - (addr + r))) with (addr + size) in Hcov by lia.
  cbn [mbind comp_bind]. destruct pre as [|cur pre].
  - simpl. rewrite Hst, Z.eqb_refl. simpl. exists (node :: post).
    split_and!; try done; try lia.
    + unfold node_end in *. simpl. split_and!; try done; [lia|by rewrite Hst].
    + right. split_and!; [lia|simpl in *; lia|done].
  - cbn [app]. simpl merge_with_previous. pose proof Hpre as (? & ? & ? & ? & _).
    destruct (Z.eqb_spec (start_addr cur) (addr + r)); [unfold node_end in *; lia|].
    rewrite <- Hst in Hpre |- *.
    destruct (merge_with_previous_spec (E:=E) lo hi cur pre node post)
      as (cur' & l' & -> & Hf & Hcov' & Htot'); try done; [lia|by rewrite Hst|].
    rewrite Hst. exists (cur' :: l'). split_and!; try done; try lia.
    right. split_and!; [lia|simpl in *; lia|].
    intros a. rewrite Hcov'. apply Hcov.
Qed.

(** ** Allocation *)

(** An aligned block of [size] bytes fits in the node. *)
Definition fits (size align : Z) (n : ListNode) : Prop :=
  ∃ p, start_addr n ≤ p ∧ p mod align = 0 ∧ p + size ≤ node_end n.

Lemma round_up_least x r align p : 0 < align → 0 ≤ r < align → (x + r) mod align = 0 →
  p mod align = 0 → x ≤ p → x + r ≤ p.
Proof.
  intros Ha Hr Hm Hp Hx. destruct (Z_lt_le_dec p (x + r)) as [Hlt|]; [|done]. exfalso.
  apply Z.mod_divide in Hm, Hp; [|lia..]. destruct Hm as [u Hu], Hp as [v Hv].
  assert (u - 1 < v) by (apply (Z.mul_lt_mono_pos_r align); lia). nia.
Qed.

Lemma free_list_app lo hi l1 n l2 :
  free_list lo hi (l1 ++ n :: l2) → free_list lo (start_addr n - 1) l1 ∧
    lo ≤ start_addr n ∧ free_list (node_end n + 1) hi l2 ∧ free_list lo hi (l1 ++ l2).
Proof.
  revert lo. induction l1 as [|m l1 IH]; intros lo; simpl.
  - intros (? & ? & ? & ? & Hl). split_and!; try done. eapply free_list_weaken; [| |done]; unfold node_end; lia.
  - intros (? & ? & ? & ? & Hl). destruct (IH _ Hl) as (Ha1 & Ha2 & Ha3 & Ha4). unfold node_end in *.
    split_and!; try done; lia.
Qed.

(** Removing a node leaves a list disjoint from it, even with a gap. *)
Lemma free_list_remove lo hi l1 n l2 s e :
  free_list lo hi (l1 ++ n :: l2) → start_addr n ≤ s → e ≤ node_end n → disjoint_from s e (l1 ++ l2).
Proof.
  intros Hl Hs He. apply free_list_app in Hl as (H1 & _ & H3 & _).
  apply free_list_above in H1, H3. apply Forall_app. split.
  - eapply Forall_impl; [exact H1|]. simpl. intros; lia.
  - eapply Forall_impl; [exact H3|]. simpl. intros; lia.
Qed.

Lemma find_fit_spec {E} lo hi size align l :
  free_list lo hi l → 0 ≤ lo → pow2 align → hi + align < U64 → 0 ≤ size →
  ∃ r, @find_fit E size align l = Ok r ∧
    match r with
    | None => Forall (λ n, ¬ fits size align n) l
    | Some (a, b, n, rest) =>
        b = a + size ∧ start_addr n ≤ a < start_addr n + align ∧ a mod align = 0 ∧ b ≤ node_end n ∧
        ∃ pre post, l = pre ++ n :: post ∧ rest = pre ++ post ∧ Forall (λ m, ¬ fits size align m) pre
    end.
Proof.
  intros Hl H0 Hp Hhi Hsz. revert lo H0 Hl. pose proof (pow2_pos _ Hp) as Hap.
  induction l as [|n l IH]; intros lo H0 Hl; [exists None; split; [done|constructor]|].
  pose proof Hl as (Hn1 & Hn2 & Hn3 & Hn4 & Hl'). simpl.
  destruct (align_up_ok (E:=E) (start_addr n) align) as (r & -> & Hrb & Hrm); [lia|done|unfold node_end in *; lia|].
  assert (∀ m, start_addr n ≤ start_addr m → node_end m < start_addr n + r + size → ¬ fits size align m) as Hnf.
  { intros m Hm1 Hm2 (p & Hp1 & Hp2 & Hp3).
    pose proof (round_up_least (start_addr n) r align p). lia. }
  cbn [mbind comp_bind]. unfold checked_add64. destruct (Z.ltb_spec (start_addr n + r + size) U64) as [Hlt|Hge].
  - rewrite end_addr_ok by lia. cbn [mbind comp_bind].
    destruct (Z.ltb_spec (node_end n) (start_addr n + r + size)) as [Hno|Hyes].
    + destruct (IH (node_end n + 1)) as (o & -> & Ho); [unfold node_end in *; lia|done|]. cbn [mbind comp_bind].
      assert (¬ fits size align n) by (apply Hnf; lia).
      destruct o as [[[[a b] m] rest]|]; eexists; (split; [done|]).
      * destruct Ho as (-> & ? & ? & ? & pre & post & -> & -> & Hpre). split_and!; try done; try lia.
        exists (n :: pre), post. split_and!; try done. by constructor.
      * by constructor.
    + eexists. split; [done|]. split_and!; try done; try lia. by exists [], l.
  - eexists. split; [done|]. pose proof (free_list_above _ _ _ Hl') as Hab.
    constructor; [apply Hnf; lia|].
    eapply Forall_impl; [exact Hab|]. simpl. intros m Hm. apply Hnf; unfold node_end in *; lia.
Qed.

Lemma total_bound lo hi l : free_list lo hi l → lo ≤ hi + 1 → 0 ≤ total l ≤ hi + 1 - lo.
Proof.
  revert lo. induction l as [|n l IH]; intros lo Hl Hle; simpl; [lia|].
  destruct Hl as (? & ? & ? & ? & Hl). specialize (IH _ Hl). unfold node_end in *. lia.
Qed.

Lemma remaining_from_ok {E} t l : 0 ≤ t → Forall (λ n, 0 ≤ node_size n) l → t + total l < U64 →
  @remaining_from E t l = Ok (t + total l).
Proof.
  revert t. induction l as [|n l IH]; intros t Ht Hl Hb; simpl in *; [by rewrite Z.add_0_r|].
  apply Forall_cons_iff in Hl as [Hn Hl].
  assert (0 ≤ total l) by (clear -Hl; induction Hl; simpl; lia).
  comps. rewrite IH by (done || lia). f_equal. lia.
Qed.

Lemma remaining_ok {E} lo hi l : 0 ≤ lo → free_list lo hi l → lo ≤ hi + 1 → hi + 1 < U64 → @remaining E l = Ok (total l).
Proof.
  intros H0 Hl Hle Hhi. unfold remaining. pose proof (total_bound _ _ _ Hl Hle).
  rewrite remaining_from_ok; try lia; [done|].
  eapply Forall_impl; [exact (free_list_above _ _ _ Hl)|]. simpl. intros; lia.
Qed.

Lemma disjoint_from_free lo hi l s e : free_list lo hi l → s < e →
  disjoint_from s e l ↔ ∀ a, s ≤ a < e → ¬ free_addr l a.
Proof.
  intros Hl Hse. apply free_list_above in Hl. unfold disjoint_from, free_addr. split.
  - intros Hd a Ha. rewrite Exists_exists. intros (n & Hn & Hin).
    rewrite Forall_forall in Hd. specialize (Hd n Hn). unfold in_node in Hin. lia.
  - intros Ha. rewrite Forall_forall in Hl |- *. intros n Hn. specialize (Hl n Hn).
    destruct (Z_le_gt_dec (node_end n) s); [by left|]. destruct (Z_le_gt_dec e (start_addr n)); [by right|].
    exfalso. apply (Ha (Z.max s (start_addr n))); [lia|].
    apply Exists_exists. exists n. split; [done|]. unfold in_node, node_end in *. lia.
Qed.

Lemma aligned_unique s a : a ≤ s < a + 8 → s mod 8 = 0 → a mod 8 = 0 → s = a.
Proof. intros. Z.div_mod_to_equations. lia. Qed.

Lemma pow2_max8 a : pow2 a → pow2 (Z.max a 8) ∧ Z.max a 8 mod 8 = 0.
Proof.
  intros (k & Hk & ->). destruct (Z_le_gt_dec k 3).
  - rewrite Z.max_r; [by split; [apply (pow2_intro 3)|]|].
    change 8 with (2 ^ 3). apply Z.pow_le_mono_r; lia.
  - rewrite Z.max_l; [|change 8 with (2 ^ 3); apply Z.pow_le_mono_r; lia].
    split; [by apply pow2_intro|]. replace k with (k - 3 + 3) by lia.
    rewrite Z.pow_add_r by lia. by apply Z.mod_mul.
Qed.

(** The block handed out: its length and alignment. *)
Definition block_size (layout : Layout) : Z := Z.max (lay_size layout) min_region_size.
Definition block_align (layout : Layout) : Z := Z.max (lay_align layout) align_of_ListNode.

(** The part of [free_addr l] that survives: of the region [n] the block [p, e)
    is cut from, [allocate] gives back [t, p) and [u, node_end n); what is in
    [start_addr n, t) and [e, u) is lost to padding. *)
Definition cut_from (n : ListNode) (t u p e : Z) (l l' : list ListNode) : Prop :=
  n ∈ l ∧ start_addr n ≤ t ≤ p ∧ (t = start_addr n ∨ t = p ∧ p - start_addr n < 16) ∧
  e ≤ u ≤ node_end n ∧ u ≤ e + 22 ∧ (e mod 8 = 0 → u = e ∨ u = node_end n ∧ node_end n - e < 16) ∧
  ∀ a, free_addr l' a ↔ free_addr l a ∧ ¬ (start_addr n ≤ a < t) ∧ ¬ (p ≤ a < u).

(** What a successful allocation does to the free list. *)
Definition allocated (lo hi : Z) (l l' : list ListNode) (p : Z) (layout : Layout) : Prop :=
  lo ≤ p ∧ p + block_size layout ≤ hi ∧ p mod block_align layout = 0 ∧
  (∀ a, p ≤ a < p + block_size layout → free_addr l a) ∧
  (∀ a, free_addr l' a → free_addr l a ∧ ¬ (p ≤ a < p + block_size layout)) ∧
  total l' + block_size layout ≤ total l ≤ total l' + block_size layout + 30 ∧
  ∃ n t u, p < start_addr n + block_align layout ∧ cut_from n t u p (p + block_size layout) l l'.

Lemma mod_mod_8 a al : 0 < al → al mod 8 = 0 → a mod al = 0 → a mod 8 = 0.
Proof.
  intros Hp Hal Ha. apply Z.mod_divide in Hal, Ha; [|lia..]. apply Z.mod_divide; [lia|].
  by etrans.
Qed.

Lemma free_addr_split pre n post a :
  free_addr (pre ++ n :: post) a ↔ in_node a n ∨ free_addr (pre ++ post) a.
Proof. rewrite !free_addr_app, free_addr_cons. tauto. Qed.

(** One of the two re-insertions of [allocate]: the part [s, e) of the region
    that is not handed out goes back to the list. *)
Lemma reinsert_spec {E} lo hi l s e :
  hi + 8 < U64 → 0 ≤ lo → free_list lo hi l → lo ≤ s → s ≤ e ≤ hi →
  (s < e → disjoint_from s e l) →
  ∃ l' t, (if min_region_size <=? e - s then @insert_region E l s (e - s) else mret l) = Ok l' ∧
    free_list lo hi l' ∧ s ≤ t ≤ e ∧
    (t - s < 8 ∨ t - s ≤ 22 ∧ t = e) ∧ (s mod 8 = 0 → t = s ∨ t = e ∧ e - s < 16) ∧
    total l' = total l + (e - t) ∧
    (∀ a, free_addr l' a ↔ free_addr l a ∨ t ≤ a < e).
Proof.
  intros Hhi H0 Hl Hs He Hd. unfold min_region_size. destruct (Z.leb_spec 16 (e - s)) as [Hge|Hlt].
  - destruct (insert_region_spec (E:=E) lo hi l s (e - s)) as (t & l' & -> & Hf & Ht & Hm & Hc); try done; try lia.
    { replace (s + (e - s)) with e by lia. apply Hd. lia. }
    replace (s + (e - s)) with e in Hc by lia.
    destruct Hc as [[Hc ->]|(Hc & Htot & Hcov)].
    + exists l, e. split_and!; try done; try lia.
      * intros Hs8. pose proof (aligned_unique t s). lia.
      * intros a. intuition lia.
    + exists l', t. split_and!; try done; try lia.
      intros Hs8. left. by apply aligned_unique.
  - exists l, e. split_and!; try done; try lia. intros a. intuition lia.
Qed.

Lemma allocate_spec {E} lo hi l layout :
  0 < lo → lo ≤ hi + 1 → hi + block_align layout < U64 → layout_ok layout → free_list lo hi l →
  ∃ p l', @allocate E l layout = Ok (p, l') ∧ free_list lo hi l' ∧
    (p = 0 ∧ l' = l ∧ Forall (λ n, ¬ fits (block_size layout) (block_align layout) n) l ∨
     allocated lo hi l l' p layout).
Proof.
  intros H0 Hlohi Hhi [Hpow Hsz] Hl. destruct (pow2_max8 _ Hpow) as [Hpow8 Hmod8].
  pose proof (pow2_pos _ Hpow8) as Hpos. unfold allocate.
  unfold block_size, block_align, align_of_ListNode, min_region_size in *.
  set (sz := Z.max (lay_size layout) 16) in *. set (al := Z.max (lay_align layout) 8) in *.
  destruct (find_fit_spec (E:=E) lo hi sz al l) as (r & -> & Hr); try done; try lia.
  cbn [mbind comp_bind]. destruct r as [[[[a b] n] rest]|].
  2:{ exists 0, l. split_and!; try done. by left. }
  destruct Hr as (-> & Ha & Ham & Hb & pre & post & -> & -> & _).
  pose proof (free_list_app _ _ _ _ _ Hl) as (_ & Hlon & _ & Hrest).
  assert (start_addr n mod 8 = 0 ∧ node_end n ≤ hi) as [Hn8 Hnhi].
  { clear -Hl. revert lo Hl. induction pre as [|m pre IH]; intros lo; simpl; [tauto|].
    intros (? & ? & ? & ? & Hl). by eapply IH. }
  assert (a mod 8 = 0) as Ha8 by (apply (mod_mod_8 a al); lia || done).
  comp_simpl.
  destruct (reinsert_spec (E:=E) lo hi (pre ++ post) (start_addr n) a)
    as (l1 & t & Hins & Hl1 & Ht & _ & Ht8 & Htot1 & Hcov1); try done; try lia.
  { intros _. eapply free_list_remove; [done|lia|lia]. }
  unfold min_region_size in Hins. rewrite Hins. clear Hins. cbn [mbind comp_bind].
  rewrite add64_ok by (unfold node_end in *; lia). cbn [mbind comp_bind].
  fold (node_end n). rewrite sub64_ok by lia. cbn [mbind comp_bind].
  assert (∀ x, free_addr (pre ++ post) x → ¬ in_node x n) as Hdis.
  { intros x Hx Hin. assert (disjoint_from (start_addr n) (node_end n) (pre ++ post)) as Hd
      by (eapply free_list_remove; [done|lia|lia]).
    rewrite (disjoint_from_free _ _ _ _ _ Hrest) in Hd by (unfold in_node in Hin; lia).
    by apply (Hd x). }
  destruct (reinsert_spec (E:=E) lo hi l1 (a + sz) (node_end n))
    as (l2 & u & Hins & Hl2 & Hu & Hu22 & Hu8 & Htot2 & Hcov2); try done; try lia.
  { intros Hlt. rewrite disjoint_from_free by (done || lia). intros x Hx. rewrite Hcov1.
    intros [Hf|Hf]; [|lia]. apply (Hdis x); [done|]. unfold in_node. lia. }
  unfold min_region_size in Hins. rewrite Hins. clear Hins. cbn [mbind comp_bind].
  rewrite (remaining_ok lo hi) by (done || lia). cbn [mbind comp_bind].
  exists a, l2. split_and!; try done. right. unfold allocated, block_size, block_align, min_region_size, align_of_ListNode.
  fold sz al. split_and!; try lia; try done.
  - intros x Hx. apply free_addr_split. left. unfold in_node. lia.
  - intros x. rewrite Hcov2, Hcov1, free_addr_split.
    assert (free_addr (pre ++ post) x → ¬ in_node x n) by apply Hdis.
    unfold in_node in *. intuition lia.
  - rewrite Htot2, Htot1, !total_app. simpl. unfold node_end in *. lia.
  - rewrite Htot2, Htot1, !total_app. simpl. unfold node_end in *.
    assert (t = start_addr n ∨ t = a ∧ a - start_addr n < 16) as Hc by auto.
    assert (a - start_addr n < 16 → a - start_addr n ≤ 8) by (Z.div_mod_to_equations; lia). lia.
  - exists n, t, u. split; [lia|]. unfold cut_from. split_and!; try done; try lia.
    { apply elem_of_app. right. constructor. }
    intros x. rewrite Hcov2, Hcov1, free_addr_split. pose proof (Hdis x). unfold in_node in *. intuition lia.
Qed.

(** ** The free list is canonical

    Two well-formed lists that cover the same addresses are equal: coalescing
    leaves exactly one representation of a set of free addresses. *)

Lemma free_list_head_le lo hi n l a : free_list lo hi (n :: l) → free_addr (n :: l) a → start_addr n ≤ a.
Proof.
  intros (_ & _ & Hsz & _ & Hl) Ha. apply free_addr_cons in Ha as [Ha|Ha]; [unfold in_node in Ha; lia|].
  pose proof (free_addr_bounds _ _ _ _ Hl Ha). unfold node_end in *. lia.
Qed.

Lemma free_list_head_end lo hi n l a : free_list lo hi (n :: l) → free_addr (n :: l) a → a ≠ node_end n.
Proof.
  intros (_ & _ & Hsz & _ & Hl) Ha ->. apply free_addr_cons in Ha as [Ha|Ha]; [unfold in_node in Ha; lia|].
  pose proof (free_addr_bounds _ _ _ _ Hl Ha). lia.
Qed.

Lemma free_list_ext lo hi l1 l2 : free_list lo hi l1 → free_list lo hi l2 →
  (∀ a, free_addr l1 a ↔ free_addr l2 a) → l1 = l2.
Proof.
  revert lo l2. induction l1 as [|n1 l1 IH]; intros lo [|n2 l2] H1 H2 Hcov; [done| | |].
  - exfalso. pose proof H2 as (_ & _ & ? & _). assert (free_addr [] (start_addr n2)) as Hx.
    { apply Hcov, free_addr_cons. left. unfold in_node, node_end. lia. } by inversion Hx.
  - exfalso. pose proof H1 as (_ & _ & ? & _). assert (free_addr [] (start_addr n1)) as Hx.
    { apply Hcov, free_addr_cons. left. unfold in_node, node_end. lia. } by inversion Hx.
  - pose proof H1 as (_ & _ & Hz1 & _ & Ht1). pose proof H2 as (_ & _ & Hz2 & _ & Ht2).
    assert (free_addr (n1 :: l1) (start_addr n1)) as F1 by (apply free_addr_cons; left; unfold in_node, node_end; lia).
    assert (free_addr (n2 :: l2) (start_addr n2)) as F2 by (apply free_addr_cons; left; unfold in_node, node_end; lia).
    pose proof (free_list_head_le _ _ _ _ _ H1 (proj2 (Hcov _) F2)).
    pose proof (free_list_head_le _ _ _ _ _ H2 (proj1 (Hcov _) F1)).
    assert (start_addr n1 = start_addr n2) as Hs by lia.
    assert (node_end n1 = node_end n2) as He.
    { destruct (Z.lt_trichotomy (node_end n1) (node_end n2)) as [Hlt|[|Hlt]]; [|done|]; exfalso.
      - eapply (free_list_head_end _ _ _ _ (node_end n1) H1); [|done].
        apply Hcov, free_addr_cons. left. unfold in_node, node_end in *. lia.
      - eapply (free_list_head_end _ _ _ _ (node_end n2) H2); [|done].
        apply Hcov, free_addr_cons. left. unfold in_node, node_end in *. lia. }
    assert (n1 = n2) as ->. { destruct n1, n2. unfold node_end in *. simpl in *. f_equal; lia. }
    f_equal. eapply IH; [done..|]. intros a. specialize (Hcov a). rewrite !free_addr_cons in Hcov.
    pose proof (free_addr_bounds _ _ _ a Ht1). pose proof (free_addr_bounds _ _ _ a Ht2).
    unfold in_node in *. split; intros Ha.
    + destruct (proj1 Hcov (or_intror Ha)); [|done]. specialize (H3 Ha). lia.
    + destruct (proj2 Hcov (or_intror Ha)); [|done]. specialize (H4 Ha). lia.
Qed.

Lemma deallocate_spec {E} lo hi l p layout :
  hi + 8 < U64 → 0 ≤ lo → free_list lo hi l → lo ≤ p → p + block_size layout ≤ hi → p mod 8 = 0 →
  disjoint_from p (p + block_size layout) l →
  ∃ l', @deallocate E l p layout = Ok l' ∧ free_list lo hi l' ∧
    total l' = total l + block_size layout ∧
    ∀ a, free_addr l' a ↔ free_addr l a ∨ p ≤ a < p + block_size layout.
Proof.
  intros Hhi H0 Hl Hp Hend Hmod Hd. unfold deallocate. fold (block_size layout).
  assert (16 ≤ block_size layout) by (unfold block_size, min_region_size; lia).
  destruct (insert_region_spec (E:=E) lo hi l p (block_size layout)) as (s & l' & -> & Hf & Hs & Hm & Hc); try done; [lia|].
  rewrite (aligned_unique s p) in Hc by done. exists l'.
  destruct Hc as [[? _]|(_ & -> & Hcov)]; [lia|]. split_and!; try done; lia.
Qed.

(** With regions and requests that are multiples of 16 nothing is lost. *)
Lemma cut_lossless l l' n t u p layout :
  cut_from n t u p (p + block_size layout) l l' → p < start_addr n + block_align layout →
  pow2 (lay_align layout) → lay_align layout ≤ 16 → p mod block_align layout = 0 →
  Forall (λ n, start_addr n mod 16 = 0 ∧ node_size n mod 16 = 0) l → block_size layout mod 16 = 0 →
  p = start_addr n ∧ ∀ a, free_addr l' a ↔ free_addr l a ∧ ¬ (p ≤ a < p + block_size layout).
Proof.
  intros (Hn & Ht & Htc & Hu & _ & Huc & Hcov) Hpn Hpow Hal Hpm H16 Hbs.
  rewrite Forall_forall in H16. destruct (H16 n Hn) as [Hs16 Hz16]. unfold node_end in *.
  assert (block_align layout = 8 ∨ block_align layout = 16) as Hba.
  { unfold block_align, align_of_ListNode. destruct Hpow as (k & Hk & Heq). rewrite Heq in *.
    destruct (Z_lt_le_dec k 4).
    - left. apply Z.max_r. change 8 with (2 ^ 3). apply Z.pow_le_mono_r; lia.
    - right. rewrite Z.max_l; [|change 8 with (2 ^ 3); apply Z.pow_le_mono_r; lia].
      apply Z.le_antisymm; [done|]. change 16 with (2 ^ 4). apply Z.pow_le_mono_r; lia. }
  assert (p = start_addr n) as Hp by (destruct Hba as [Hb|Hb]; rewrite Hb in *; Z.div_mod_to_equations; lia).
  split; [done|]. assert (u = p + block_size layout) as Hue.
  { destruct Huc as [?|[? ?]]; [Z.div_mod_to_equations; lia|done|Z.div_mod_to_equations; lia]. }
  intros a. rewrite Hcov, Hue. assert (t = start_addr n) as -> by lia. intuition lia.
Qed.

(** ** The allocator as a state machine

    The allocator's state together with the blocks its clients own.  A client
    frees a block it owns, with the layout it was allocated with. *)

Record heap := mkHeap { free : list ListNode; live : list (Z * Layout) }.

Inductive heap_step (lo hi : Z) : heap → heap → Prop :=
| step_alloc h layout p l' :
    layout_ok layout → hi + block_align layout < U64 →
    @allocate Empty_set (free h) layout = Ok (p, l') → p ≠ 0 →
    heap_step lo hi h (mkHeap l' ((p, layout) :: live h))
| step_alloc_fail h layout l' :
    layout_ok layout → hi + block_align layout < U64 →
    @allocate Empty_set (free h) layout = Ok (0, l') →
    heap_step lo hi h (mkHeap l' (live h))
| step_free h l1 p layout l2 l' :
    live h = l1 ++ (p, layout) :: l2 → @deallocate Empty_set (free h) p layout = Ok l' →
    heap_step lo hi h (mkHeap l' (l1 ++ l2)).

Definition block_in (b : Z * Layout) (a : Z) : Prop := b.1 ≤ a < b.1 + block_size b.2.

Definition blocks_disjoint (b1 b2 : Z * Layout) : Prop :=
  b1.1 + block_size b1.2 ≤ b2.1 ∨ b2.1 + block_size b2.2 ≤ b1.1.

Record heap_inv (lo hi : Z) (h : heap) : Prop := {
  inv_free : free_list lo hi (free h);
  inv_bounds : Forall (λ b, lo ≤ b.1 ∧ b.1 + block_size b.2 ≤ hi ∧ b.1 mod 8 = 0 ∧ b.1 mod lay_align b.2 = 0) (live h);
  inv_live_free : Forall (λ b, disjoint_from b.1 (b.1 + block_size b.2) (free h)) (live h);
  inv_live : ForallOrdPairs blocks_disjoint (live h)
}.

#[export] Instance blocks_disjoint_sym : Symmetric blocks_disjoint.
Proof. intros [] []. unfold blocks_disjoint. simpl. tauto. Qed.

Lemma block_size_ge layout : 16 ≤ block_size layout.
Proof. unfold block_size, min_region_size. lia. Qed.

Lemma mod_max8 p a : pow2 a → p mod Z.max a 8 = 0 → p mod a = 0.
Proof.
  intros Hp. pose proof (pow2_pos _ Hp). destruct (Z_le_gt_dec 8 a); [by rewrite Z.max_l by lia|].
  rewrite Z.max_r by lia. intros H8. destruct Hp as (k & Hk & ->).
  assert (k < 3) by (apply (Z.pow_lt_mono_r_iff 2); lia).
  apply Z.mod_divide; [lia|]. apply Z.mod_divide in H8; [|lia]. etrans; [|exact H8].
  exists (2 ^ (3 - k)). rewrite <- Z.pow_add_r by lia. by replace (3 - k + k) with 3 by lia.
Qed.

(** No live block contains a free address. *)
Lemma inv_block_free lo hi h b a : lo ≤ hi + 1 → heap_inv lo hi h → b ∈ live h → block_in b a → ¬ free_addr (free h) a.
Proof.
  intros Hle [Hf _ Hlf _] Hb Ha. rewrite Forall_forall in Hlf. specialize (Hlf b Hb).
  pose proof (block_size_ge b.2). rewrite (disjoint_from_free lo hi) in Hlf by (done || lia). by apply Hlf.
Qed.

Lemma inv_alloc lo hi h layout p l' : 0 < lo → lo ≤ hi + 1 → layout_ok layout → heap_inv lo hi h →
  free_list lo hi l' → allocated lo hi (free h) l' p layout → heap_inv lo hi (mkHeap l' ((p, layout) :: live h)).
Proof.
  intros H0 Hle [Hpow _] Hinv Hf' (Hp1 & Hp2 & Hp3 & Hp4 & Hp5 & _).
  pose proof (inv_block_free lo hi h) as Hbf. pose proof (block_size_ge layout) as Hsz.
  destruct Hinv as [Hf Hb Hlf Hl] eqn:Hi. constructor; simpl; [done| | |].
  - constructor; [|done]. split_and!; try done; [|by apply mod_max8].
    destruct (pow2_max8 _ Hpow) as [Hq Hq8]. pose proof (pow2_pos _ Hq).
    apply (mod_mod_8 p (Z.max (lay_align layout) 8)); [lia|done|done].
  - constructor.
    + rewrite (disjoint_from_free lo hi) by (done || simpl; lia). intros a Ha Hfa. by apply Hp5 in Hfa as [_ ?].
    + apply Forall_forall. intros b Hbin. pose proof (block_size_ge b.2).
      rewrite (disjoint_from_free lo hi) by (done || lia).
      intros a Ha Hfa. apply Hp5 in Hfa as [Hfa _]. by apply (Hbf b a Hle Hinv Hbin).
  - constructor; [|done]. apply Forall_forall. intros b Hbin.
    unfold blocks_disjoint. simpl. destruct (Z_le_gt_dec (p + block_size layout) b.1); [by left|].
    destruct (Z_le_gt_dec (b.1 + block_size b.2) p); [by right|]. exfalso. pose proof (block_size_ge b.2).
    apply (Hbf b (Z.max p b.1) Hle Hinv Hbin); [unfold block_in; lia|]. apply Hp4. lia.
Qed.

Lemma inv_free_block lo hi h l1 p layout l2 l' : 0 < lo → lo ≤ hi + 1 → hi + 8 < U64 → heap_inv lo hi h →
  live h = l1 ++ (p, layout) :: l2 → @deallocate Empty_set (free h) p layout = Ok l' →
  heap_inv lo hi (mkHeap l' (l1 ++ l2)).
Proof.
  intros H0 Hle Hhi [Hf Hb Hlf Hl] Hlive Hfree.
  rewrite Hlive in Hb, Hlf, Hl. apply Forall_app in Hb as [Hb1 Hb2], Hlf as [Hlf1 Hlf2].
  apply Forall_cons_iff in Hb2 as [(Hp1 & Hp2 & Hp3 & Hp4) Hb2], Hlf2 as [Hpf Hlf2]. simpl in *.
  apply ForallOrdPairs_remove in Hl as [Hl Hpl]; [|apply _].
  destruct (deallocate_spec (E:=Empty_set) lo hi (free h) p layout) as (l'' & Heq & Hf' & _ & Hcov); try done; [lia|].
  rewrite Hfree in Heq. injection Heq as <-. constructor; simpl; [done|by apply Forall_app| |done].
  assert (Forall (λ b, disjoint_from b.1 (b.1 + block_size b.2) (free h)) (l1 ++ l2)) as Hall by (by apply Forall_app).
  rewrite Forall_forall in Hall, Hpl |- *. intros b Hbin. specialize (Hall b Hbin). specialize (Hpl b Hbin).
  pose proof (block_size_ge b.2). rewrite (disjoint_from_free lo hi) in Hall |- * by (done || lia).
  intros a Ha. rewrite Hcov. unfold blocks_disjoint in Hpl. simpl in Hpl.
  intros [Hx|Hx]; [by apply (Hall a)|lia].
Qed.

Lemma heap_step_inv lo hi h h' : 0 < lo → lo ≤ hi + 1 → hi + 8 < U64 →
  heap_inv lo hi h → heap_step lo hi h h' → heap_inv lo hi h'.
Proof.
  intros H0 Hle Hhi Hinv Hstep. pose proof (inv_free _ _ _ Hinv) as Hf.
  destruct Hstep as [h layout p l' Hlay Hal Halloc Hp|h layout l' Hlay Hal Halloc|h l1 p layout l2 l' Hlive Hfree].
  - destruct (allocate_spec (E:=Empty_set) lo hi (free h) layout) as (p' & l'' & Heq & Hf' & Hc); try done.
    rewrite Halloc in Heq. injection Heq as <- <-. destruct Hc as [[? _]|Hc]; [done|]. by apply inv_alloc.
  - destruct (allocate_spec (E:=Empty_set) lo hi (free h) layout) as (p' & l'' & Heq & Hf' & Hc); try done.
    rewrite Halloc in Heq. injection Heq as <- <-.
    destruct Hc as [(_ & -> & _)|(Hp1 & _)]; [by destruct Hinv|lia].
  - by apply (inv_free_block lo hi h l1 p layout l2).
Qed.

Lemma init_spec {E} s n : 0 ≤ s → 0 ≤ n → s + n + 8 < U64 → s mod 8 = 0 → 16 ≤ n →
  @init E s n = Ok [Node s n].
Proof.
  intros. unfold init, insert_region. destruct (align_up_ok (E:=E) s 8) as (r & Hr & Hrb & Hrm);
    [lia|by apply (pow2_intro 3)|lia|].
  unfold align_of_ListNode, min_region_size. rewrite Hr. cbn [mbind comp_bind].
  assert (s + r = s) as -> by (apply aligned_unique; lia || done).
  rewrite checked_add64_some by lia. destruct (Z.leb_spec (s + n) s); [lia|].
  rewrite sub64_ok by lia. cbn [mbind comp_bind]. replace (s + n - s) with n by lia.
  destruct (Z.ltb_spec n 16); [lia|]. simpl. by rewrite Z.eqb_refl.
Qed.

Lemma in_one_node lo hi l n m x : free_list lo hi l → n ∈ l → m ∈ l → in_node x n → in_node x m → n = m.
Proof.
  intros Hl Hn Hm Hxn Hxm. apply list_elem_of_split in Hn as (pre & post & ->).
  pose proof (free_list_app _ _ _ _ _ Hl) as (Hpre & _ & Hpost & _).
  apply elem_of_app in Hm as [Hm|[-> |Hm]%elem_of_cons]; [|done|].
  - assert (free_addr pre x) as Hx by (apply Exists_exists; eauto). pose proof (free_addr_bounds _ _ _ _ Hpre Hx). unfold in_node in *. lia.
  - assert (free_addr post x) as Hx by (apply Exists_exists; eauto). pose proof (free_addr_bounds _ _ _ _ Hpost Hx). unfold in_node in *. lia.
Qed.

(** A free block with no hole lies inside one node. *)
Lemma block_in_one_node lo hi l n p e :
  free_list lo hi l → n ∈ l → in_node p n → p < e → (∀ a, p ≤ a < e → free_addr l a) → e ≤ node_end n.
Proof.
  intros Hl Hn Hin Hpe Hfree. destruct (Z_le_gt_dec e (node_end n)) as [|Hgt]; [done|]. exfalso.
  apply list_elem_of_split in Hn as (pre & post & ->). pose proof (free_list_app _ _ _ _ _ Hl) as (Hpre & _ & Hpost & _).
  unfold in_node in Hin. assert (free_addr (pre ++ n :: post) (node_end n)) as Hx by (apply Hfree; lia).
  apply free_addr_split in Hx as [Hx|Hx]; [unfold in_node in Hx; lia|].
  apply free_addr_app in Hx as [Hx|Hx].
  - pose proof (free_addr_bounds _ _ _ _ Hpre Hx). lia.
  - pose proof (free_addr_bounds _ _ _ _ Hpost Hx). lia.
Qed.

(** ** Room

    A stretch of [n] free addresses.  It is enough for any requests whose blocks,
    with the padding each of them may cost, add up to at most [n]. *)

Definition room (n : Z) (l : list ListNode) : Prop := ∃ a, 0 ≤ a ∧ ∀ x, a ≤ x < a + n → free_addr l x.

Definition room_cost (layout : Layout) : Z := block_size layout + block_align layout + 22.

Lemma room_grow n l l' : (∀ a, free_addr l a → free_addr l' a) → room n l → room n l'.
Proof. intros Hl (a & Ha & Hr). exists a. auto. Qed.

(** A request with room for it succeeds, and leaves the rest of the room. *)
Lemma allocate_room {E} lo hi l layout n :
  0 < lo → lo ≤ hi + 1 → hi + block_align layout < U64 → layout_ok layout → free_list lo hi l →
  room n l → room_cost layout ≤ n →
  ∃ p l', @allocate E l layout = Ok (p, l') ∧ p ≠ 0 ∧ free_list lo hi l' ∧ allocated lo hi l l' p layout ∧
    room (n - room_cost layout) l'.
Proof.
  intros H0 Hle Hhi Hlay Hl (a & Ha & Hroom) Hn. pose proof (block_size_ge layout) as Hbs. unfold room_cost in *.
  assert (0 < block_align layout) as Hal by (unfold block_align, align_of_ListNode; lia).
  destruct (allocate_spec (E:=E) lo hi l layout) as (p & l' & Heq & Hl' & Hc); try done. exists p, l'.
  assert (free_addr l a) as (m & Hm & Hin)%Exists_exists by (apply Hroom; lia).
  assert (a + n ≤ node_end m) as Hend by (by apply (block_in_one_node lo hi l m a); [..|lia|]).
  destruct Hc as [(-> & -> & Hno)|Hal'].
  { rewrite Forall_forall in Hno. destruct (Hno m Hm). destruct (mod_round_up a (block_align layout) Hal) as (r & Hr & _ & Hmod).
    exists (a + r). unfold in_node in Hin. split_and!; [lia|done|lia]. }
  pose proof Hal' as (Hp & _ & _ & _ & _ & _ & k & t & u & Hpk & Hk & Ht & Htc & Hu & Hu22 & _ & Hcov).
  split_and!; [done|lia|done|done|].
  destruct (decide (start_addr k ≤ a < node_end k)) as [Hak|Hak].
  - assert (k = m) as -> by (by apply (in_one_node lo hi l _ _ a)). exists (Z.max a u). split; [lia|]. intros x Hx. apply Hcov. unfold in_node in Hin. split_and!; [apply Hroom; lia| |lia].
    destruct Htc as [->|[-> ?]]; lia.
  - exists a. split; [done|]. intros x Hx. apply Hcov. split; [apply Hroom; lia|].
    assert (¬ in_node x k) as Hxk; [|unfold in_node in *; lia]. intros Hxk.
    assert (in_node x m) as Hxm by (unfold in_node in *; lia). apply Hak. by rewrite (in_one_node lo hi l k m x).
Qed.

Lemma heap_run_inv lo hi h h' : 0 < lo → lo ≤ hi + 1 → hi + 8 < U64 →
  heap_inv lo hi h → rtc (heap_step lo hi) h h' → heap_inv lo hi h'.
Proof. intros ? ? ? Hinv Hrun. induction Hrun; [done|]. by apply IHHrun, (heap_step_inv lo hi x). Qed.

Lemma init_inv s n : 0 ≤ s → 16 ≤ n → s mod 8 = 0 → heap_inv s (s + n) (mkHeap [Node s n] []).
Proof.
  intros. constructor; simpl; [|constructor..]. unfold node_end. simpl. split_and!; (done || lia).
Qed.

(** ** Properties *)

(** C15. Heap safety.  Whatever sequence of allocations and deallocations the
    kernel performs after [heap::init] on a heap of [n] bytes at [s], the free
    list stays sorted, coalesced and inside the heap, every live block lies
    inside the heap at an address aligned as requested, no two live blocks
    overlap, and no live block overlaps a free region. *)
Theorem heap_safe s n l0 h :
  0 < s → s mod 8 = 0 → 16 ≤ n → s + n + 8 < U64 →
  @init Empty_set s n = Ok l0 → rtc (heap_step s (s + n)) (mkHeap l0 []) h →
  heap_inv s (s + n) h.
Proof.
  intros Hs Hm Hn Hov Hinit Hrun. rewrite init_spec in Hinit by (done || lia).
  injection Hinit as <-. eapply heap_run_inv; [..|exact Hrun]; try lia. apply init_inv; done || lia.
Qed.

(** Three steps from an 8 MiB heap: two allocations and the release of the first. *)
Lemma heap_safe_witness :
  heap_inv 4096 (4096 + HEAP_SIZE)
    (mkHeap [Node 4096 64; Node 4264 8388440] [(4160, mkLayout 100 8)]).
Proof.
  assert (∀ size align, 0 ≤ size ≤ 1000 → align = 8 ∨ align = 16 → layout_ok (mkLayout size align)) as Hlay.
  { intros size align Hsz [-> | ->]; (split; [|simpl; lia]).
    - by apply (pow2_intro 3).
    - by apply (pow2_intro 4). }
  apply (heap_safe 4096 HEAP_SIZE [Node 4096 HEAP_SIZE]); [done..|].
  eapply rtc_l. { eapply (step_alloc _ _ _ (mkLayout 64 16)); [by apply Hlay; auto|done|by vm_compute|done]. }
  eapply rtc_l. { eapply (step_alloc _ _ _ (mkLayout 100 8)); [by apply Hlay; auto|done|by vm_compute|done]. }
  eapply rtc_l. { eapply (step_free _ _ _ [(4160, mkLayout 100 8)]); [done|by vm_compute]. }
  apply rtc_refl.
Defined.

(** C20. Functional correctness of [allocate].  On a well-formed free list it
    never panics and keeps the list well formed.  It returns null exactly when
    no free region can hold an aligned block of the requested size; otherwise
    it returns an aligned block made of previously free addresses, removes it
    from the free list, and loses at most 30 bytes to padding. *)
Theorem allocate_correct lo hi l layout :
  0 < lo → lo ≤ hi + 1 → hi + block_align layout < U64 → layout_ok layout → free_list lo hi l →
  ∃ p l', @allocate Empty_set l layout = Ok (p, l') ∧ free_list lo hi l' ∧
    (p = 0 ↔ Forall (λ n, ¬ fits (block_size layout) (block_align layout) n) l) ∧
    (p = 0 → l' = l) ∧ (p ≠ 0 → allocated lo hi l l' p layout).
Proof.
  intros H0 Hle Hhi Hlay Hl.
  destruct (allocate_spec (E:=Empty_set) lo hi l layout) as (p & l' & Heq & Hl' & Hc); try done.
  exists p, l'. split_and!; try done.
  - destruct Hc as [(-> & -> & Hno)|(Hp1 & Hp2 & Hp3 & Hp4 & _)]; [done|].
    split; [lia|]. intros Hno. exfalso. pose proof (block_size_ge layout).
    assert (free_addr l p) as Hfp by (apply Hp4; lia).
    apply Exists_exists in Hfp as (n & Hn & Hin). rewrite Forall_forall in Hno.
    apply (Hno n Hn). exists p. split_and!; [unfold in_node in Hin; lia|done|].
    apply (block_in_one_node lo hi l n p (p + block_size layout)); try done; lia.
  - intros ->. destruct Hc as [(_ & -> & _)|(Hp1 & _)]; [done|lia].
  - intros Hp. destruct Hc as [[? _]|?]; done.
Qed.

(** A free list of two regions; the block goes into the second one. *)
Lemma allocate_correct_witness :
  ∃ p l', @allocate Empty_set [Node 4096 32; Node 8192 4096] (mkLayout 64 32) = Ok (p, l') ∧
    free_list 4096 12288 l' ∧ p ≠ 0 ∧
    allocated 4096 12288 [Node 4096 32; Node 8192 4096] l' p (mkLayout 64 32).
Proof.
  destruct (allocate_correct 4096 12288 [Node 4096 32; Node 8192 4096] (mkLayout 64 32))
    as (p & l' & Heq & Hl & _ & _ & Hal); try done.
  - split; [by apply (pow2_intro 5)|done].
  - assert (p ≠ 0) by (vm_compute in Heq; injection Heq as <- _; done).
    exists p, l'. split_and!; try done. by apply Hal.
Defined.

(** Allocation is undone by deallocation.  On a heap whose regions are
    multiples of 16 bytes at multiples of 16, a request for a non-zero multiple
    of 16 bytes with alignment at most 16 loses nothing: giving the block back
    with its layout restores exactly the free list there was. *)
Theorem alloc_dealloc_restores lo hi l layout p l' :
  0 < lo → lo ≤ hi + 1 → hi + 16 < U64 → layout_ok layout → free_list lo hi l →
  Forall (λ n, start_addr n mod 16 = 0 ∧ node_size n mod 16 = 0) l →
  0 < lay_size layout → lay_size layout mod 16 = 0 → lay_align layout ≤ 16 →
  @allocate Empty_set l layout = Ok (p, l') → p ≠ 0 →
  @deallocate Empty_set l' p layout = Ok l.
Proof.
  intros H0 Hle Hhi Hlay Hl H16 Hsz Hs16 Hal Halloc Hp.
  assert (block_size layout = lay_size layout) as Hbs by (unfold block_size, min_region_size; Z.div_mod_to_equations; lia).
  destruct (allocate_spec (E:=Empty_set) lo hi l layout) as (p' & l'' & Heq & Hl' & Hc); try done.
  { unfold block_align, align_of_ListNode. lia. }
  rewrite Halloc in Heq. injection Heq as <- <-. destruct Hc as [[? _]|Hc]; [done|].
  destruct Hc as (Hp1 & Hp2 & Hp3 & Hp4 & Hp5 & _ & n & t & u & Hpn & Hcut).
  destruct (cut_lossless l l' n t u p layout) as [_ Hcov]; try done; [by destruct Hlay|by rewrite Hbs|].
  assert (p mod 8 = 0) as Hp8.
  { destruct Hlay as [Hpow _]. destruct (pow2_max8 _ Hpow) as [Hq Hq8]. pose proof (pow2_pos _ Hq).
    by apply (mod_mod_8 p (Z.max (lay_align layout) 8)); [lia|..]. }
  destruct (deallocate_spec (E:=Empty_set) lo hi l' p layout) as (l2 & -> & Hl2 & _ & Hcov2); try done; try lia.
  { apply (disjoint_from_free lo hi); [done|pose proof (block_size_ge layout); lia|].
    intros a Ha Hfa. by apply Hp5 in Hfa as [_ ?]. }
  f_equal. apply (free_list_ext lo hi); [done..|]. intros a. rewrite Hcov2, Hcov.
  specialize (Hp4 a). destruct (decide (p ≤ a < p + block_size layout)); intuition.
Qed.

Lemma alloc_dealloc_restores_witness :
  @deallocate Empty_set [Node 4096 32; Node 8256 4032] 8192 (mkLayout 64 16) = Ok [Node 4096 32; Node 8192 4096].
Proof.
  apply (alloc_dealloc_restores 4096 12288); try done.
  - split; [by apply (pow2_intro 4)|done].
  - repeat constructor; done.
Defined.

(** [__rust_realloc] keeps the contents.  For a live block [p] of
    [old_size] bytes and a new size other than 0 it never panics.  It either
    returns null and changes nothing, so that the old block is still valid, or
    it returns a block [q] of free addresses whose first
    [min old_size new_size] bytes are those of the old block, changes no memory
    outside [q, q + new_size), and gives exactly the old block back. *)
Theorem realloc_preserves lo hi l m p old_size align new_size :
  0 < lo → lo ≤ hi + 1 → hi + Z.max align 8 < U64 → pow2 align → 0 ≤ old_size ≤ I64 - align → 0 < new_size →
  free_list lo hi l → lo ≤ p → p mod 8 = 0 → p + block_size (mkLayout old_size align) ≤ hi →
  disjoint_from p (p + block_size (mkLayout old_size align)) l →
  ∃ q l' m', @rust_realloc Empty_set p old_size align new_size (mkAllocator l m) = Ok (q, mkAllocator l' m') ∧
    free_list lo hi l' ∧
    (q = 0 ∧ l' = l ∧ m' = m ∨
     ∃ l1, allocated lo hi l l1 q (mkLayout new_size align) ∧
       (∀ i, 0 ≤ i < Z.min old_size new_size → m' (q + i) = m (p + i)) ∧
       (∀ a, ¬ (q ≤ a < q + new_size) → m' a = m a) ∧
       (∀ a, free_addr l' a ↔ free_addr l1 a ∨ p ≤ a < p + block_size (mkLayout old_size align))).
Proof.
  intros H0 Hle Hhi Hpow Hold Hnew Hl Hp Hp8 Hpe Hd. pose proof (pow2_pos _ Hpow).
  unfold rust_realloc, rust_dealloc. destruct (Z.eqb_spec p 0), (Z.eqb_spec new_size 0); try lia.
  destruct (from_size_align_spec new_size align) as [[-> _]|[-> Hlay]]; [done|lia|exists 0, l, m; split_and!; [done..|by left]|].
  destruct (from_size_align_spec old_size align) as [[_ ?]|[-> _]]; [done|lia|lia|].
  unfold heap_allocate, heap_deallocate, mbind, M_bind, modify, heap_write, mret, M_ret. cbn [ga_free ga_mem].
  destruct (allocate_spec (E:=Empty_set) lo hi l (mkLayout new_size align)) as (q & l1 & -> & Hl1 & Hc); try done.
  destruct (Z.eqb_spec q 0) as [->|Hq].
  { exists 0, l1, m. split_and!; try done. left. destruct Hc as [(_ & -> & _)|(? & _)]; [done|lia]. }
  destruct Hc as [[? _]|Hc]; [done|]. pose proof Hc as (Hq1 & Hq2 & _ & Hq4 & Hq5 & _). cbn [ga_free ga_mem].
  pose proof (block_size_ge (mkLayout old_size align)).
  assert (disjoint_from p (p + block_size (mkLayout old_size align)) l1) as Hd1.
  { rewrite (disjoint_from_free lo hi) in Hd |- * by (done || lia). intros a Ha Hfa.
    apply Hq5 in Hfa as [Hfa _]. by apply (Hd a). }
  destruct (deallocate_spec (E:=Empty_set) lo hi l1 p (mkLayout old_size align))
    as (l2 & -> & Hl2 & _ & Hcov); try done; try lia.
  exists q, l2, (copy m p q (Z.min old_size new_size)). split_and!; try done. right. exists l1. split_and!; try done.
  - intros i Hi. rewrite copy_in by lia. f_equal. lia.
  - intros a Ha. apply copy_out. lia.
Qed.

(** A zeroed block: memory outside it is as before. *)
Lemma alloc_zeroed_cleared size align s p s' : @rust_alloc_zeroed Empty_set size align s = Ok (p, s') → p ≠ 0 →
  (∀ a, p ≤ a < p + size → ga_mem s' a = 0) ∧ ∀ a, ¬ (p ≤ a < p + size) → ga_mem s' a = ga_mem s a.
Proof.
  unfold rust_alloc_zeroed. destruct (from_size_align size align) as [layout|]; [|by intros [= <- _]].
  intros (q & s1 & Ha & H)%M_bind_inv. apply M_bind_inv in H as ([] & s2 & Hf & H). injection H as <- <-. intros Hp.
  rewrite (proj2 (Z.eqb_neq _ _) Hp) in Hf. injection Hf as <-.
  assert (ga_mem s1 = ga_mem s) as Hm by (unfold heap_allocate in Ha; destruct (allocate _ _) as [[? ?]|?| |]; [by injection Ha as _ <-|done..]).
  cbn. split; [by apply fill_in|]. intros a Ha'. rewrite fill_out by done. by rewrite Hm.
Qed.

(** Growing a 32-byte block to 64 bytes moves it above the free region it
    does not fit in. *)
Lemma realloc_preserves_witness :
  ∃ q l' m', @rust_realloc Empty_set 4128 32 8 64 (mkAllocator [Node 4096 32; Node 8192 4096] (λ a, a mod 256))
      = Ok (q, mkAllocator l' m') ∧ q = 8192 ∧ m' 8195 = 4131 mod 256.
Proof.
  destruct (realloc_preserves 4096 12288 [Node 4096 32; Node 8192 4096] (λ a, a mod 256) 4128 32 8 64)
    as (q & l' & m' & Heq & _ & Hc); try done.
  - by apply (pow2_intro 3).
  - repeat constructor; vm_compute; intuition congruence.
  - assert (match @rust_realloc Empty_set 4128 32 8 64 (mkAllocator [Node 4096 32; Node 8192 4096] (λ a, a mod 256))
            with Ok (q, _) => q | _ => 0 end = 8192) as Hq by by vm_compute.
    rewrite Heq in Hq. subst q. exists 8192, l', m'. split_and!; [exact Heq|done|]. destruct Hc as [[? _]|(l1 & _ & Hb & _)]; [done|]. by apply (Hb 3).
Defined.

End Heap.
