(* ===== verification/Phys.v ===== *)
(** * Physical frames: src/src/arch/x86_64/kernel/mem/phys.rs

    The multiboot memory-map parser, the region table and the bump allocator
    of page frames, and the interface [FrameAlloc] through which paging and the
    process loader use it.  The linker symbols the code reads ([_bssEnd] and
    the address of the heap array) are arguments of the definitions. *)

From S2P Require Import Prelude Mem Heap.
Local Open Scope Z_scope.

(** ** The interface of a frame allocator

    [allocate_frame] hands out the start addresses of [fa_pool], in order. *)

Class FrameAlloc (S : Type) := {
  allocate_frame : ∀ {E}, M S E (option Z);
  fa_pool : S → list Z;
  fa_inv : S → Prop
}.

Class FrameAllocLaws (S : Type) `{!FrameAlloc S} := {
  allocate_frame_nil : ∀ E s, fa_inv s → fa_pool s = [] →
    ∃ s', @allocate_frame _ _ E s = Ok (None, s') ∧ fa_inv s' ∧ fa_pool s' = [];
  allocate_frame_cons : ∀ E s f fs, fa_inv s → fa_pool s = f :: fs →
    ∃ s', @allocate_frame _ _ E s = Ok (Some f, s') ∧ fa_inv s' ∧ fa_pool s' = fs
}.

Module Phys.

Definition MAX_REGIONS : nat := 128.
Definition PAGE_SIZE : Z := 4096.
Definition RESERVED_END : Z := 0x100000.
Definition FRAME_SIZE : Z := PAGE_SIZE.
Definition KERNEL_VMA_BASE : Z := 0xFFFF800000000000.
Definition KERNEL_LINK_BASE : Z := 0xFFFFFFFF80000000.

(** [align_up_u64]; [align_up] on [usize] is the same function. *)
Definition align_up_u64 {E} (value align : Z) : comp E Z :=
  mask ← sub64 align 1;
  x ← add64 value mask;
  mret (Z.land x (not64 mask)).

Definition align_down_u64 {E} (value align : Z) : comp E Z :=
  mask ← sub64 align 1;
  mret (Z.land value (not64 mask)).

(** *** Frames *)

Record Frame := mkFrame { start : Z }.

Definition containing {E} (addr : Z) : comp E Frame :=
  s ← align_down_u64 addr PAGE_SIZE; mret (mkFrame s).
Definition frame_end {E} (f : Frame) : comp E Z := add64 (start f) FRAME_SIZE.
Definition number (f : Frame) : Z := start f / FRAME_SIZE.

Record FrameRange := mkFrameRange { range_start : Frame; count : Z }.
Record FrameIter := mkFrameIter { iter_next : Frame; remaining_frames : Z }.

Definition iter (r : FrameRange) : FrameIter := mkFrameIter (range_start r) (count r).

(** [FrameIter::next]: the frame after the last one is computed eagerly. *)
Definition next {E} (it : FrameIter) : comp E (option Frame * FrameIter) :=
  if remaining_frames it =? 0 then mret (None, it)
  else
    s ← add64 (start (iter_next it)) FRAME_SIZE;
    n ← sub64 (remaining_frames it) 1;
    mret (Some (iter_next it), mkFrameIter (mkFrame s) n).

(** *** Regions and the region table

    The table is the list of the first [count] entries of the array. *)

Record MemoryRegion := mkRegion { base : Z; length : Z }.

Definition region_end {E} (r : MemoryRegion) : comp E Z := add64 (base r) (length r).
Definition page_count {E} (r : MemoryRegion) : comp E Z :=
  x ← add64 (length r) PAGE_SIZE; y ← sub64 x 1; mret (y / PAGE_SIZE).

Definition MemoryMap := list MemoryRegion.

Definition add_region (map : MemoryMap) (region : MemoryRegion) : MemoryMap :=
  if (List.length map <? MAX_REGIONS)%nat then map ++ [region] else map.

Record MemorySummary := mkSummary { region_count : Z; total_bytes : Z }.

Definition summary (map : MemoryMap) : MemorySummary :=
  mkSummary (Z.of_nat (List.length map)) (fold_left (λ total r, saturating_add64 total (length r)) map 0).

(** *** The linker symbols *)

Record Symbols := mkSymbols { bssEnd : Z; heap_space : Z }.

(** [heap::bounds] *)
Definition heap_bounds {E} (sy : Symbols) : comp E (Z * Z) :=
  e ← add64 (heap_space sy) Heap.HEAP_SIZE; mret (heap_space sy, e).

Definition reserved_limit {E} (sy : Symbols) : comp E Z :=
  kernel_end ← (if KERNEL_VMA_BASE <=? bssEnd sy then sub64 (bssEnd sy) KERNEL_VMA_BASE else mret (bssEnd sy));
  '(_, heap_end_virt) ← heap_bounds sy;
  heap_end_phys ← (if KERNEL_LINK_BASE <=? heap_end_virt then sub64 heap_end_virt KERNEL_LINK_BASE
                   else mret heap_end_virt);
  let limit := Z.max (Z.max RESERVED_END kernel_end) heap_end_phys in
  align_up_u64 limit PAGE_SIZE.

(** *** The frame allocator *)

Record FrameAllocator := mkFA { current : Z; end_ : Z; region_index : nat }.

Definition FrameAllocator_new : FrameAllocator := mkFA 0 0 0.

(** The loop of [advance_to_next_region] over the regions not yet visited. *)
Fixpoint advance_loop {E} (reserve_limit : Z) (a : FrameAllocator) (regions : list MemoryRegion)
    : comp E FrameAllocator :=
  match regions with
  | [] => mret (mkFA (end_ a) (end_ a) (region_index a))
  | region :: rest =>
      let a := mkFA (current a) (end_ a) (S (region_index a)) in
      if length region =? 0 then advance_loop reserve_limit a rest
      else
        end' ← region_end region;
        if end' <=? reserve_limit then advance_loop reserve_limit a rest
        else
          let start_base := Z.max (base region) reserve_limit in
          start' ← align_up_u64 start_base PAGE_SIZE;
          if start' <? end' then mret (mkFA start' end' (region_index a))
          else advance_loop reserve_limit a rest
  end.

Definition advance_to_next_region {E} (sy : Symbols) (map : MemoryMap) (a : FrameAllocator)
    : comp E FrameAllocator :=
  reserve_limit ← reserved_limit sy;
  advance_loop reserve_limit a (drop (region_index a) map).

Definition init_from_map {E} (sy : Symbols) (map : MemoryMap) (a : FrameAllocator) : comp E FrameAllocator :=
  advance_to_next_region sy map (mkFA 0 0 0).

(** The loop of [allocate]: it is run again only after frame 0, so two rounds
    are enough ([bump_allocate_spec]). *)
Fixpoint allocate_loop {E} (fuel : nat) (sy : Symbols) (map : MemoryMap) (a : FrameAllocator)
    : comp E (option Frame * FrameAllocator) :=
  match fuel with
  | O => Hang
  | S fuel =>
      a ← (if end_ a <=? current a then advance_to_next_region sy map a else mret a);
      if end_ a <=? current a then mret (None, a)
      else
        let frame := current a in
        let a := mkFA (saturating_add64 (current a) PAGE_SIZE) (end_ a) (region_index a) in
        if frame =? 0 then allocate_loop fuel sy map a
        else mret (Some (mkFrame frame), a)
  end.

Definition allocate {E} := @allocate_loop E 2.

(** *** The module's state and entry points *)

Record phys := mkPhys { sym : Symbols; phys_map : MemoryMap; fa : FrameAllocator }.

Definition phys_allocate_frame {E} : M phys E (option Frame) := λ s,
  match @allocate E (sym s) (phys_map s) (fa s) with
  | Ok (f, a) => Ok (f, mkPhys (sym s) (phys_map s) a)
  | Err e => Err (e, s)
  | Panic => Panic
  | Hang => Hang
  end.

(** The loop of [allocate_frames], [n] more frames wanted after [last]. *)
Fixpoint more_frames {E} (n : nat) (first last : Frame) (cnt : Z) : M phys E FrameRange :=
  match n with
  | O => mret (mkFrameRange first cnt)
  | S n =>
      next ← phys_allocate_frame;
      let stop :=
        d ← lift (sub64 (start last) (start first));
        span_frames ← lift (add64 (d / FRAME_SIZE) 1);
        mret (mkFrameRange first span_frames) in
      match next with
      | Some nx =>
          e ← lift (add64 (start last) FRAME_SIZE);
          if start nx =? e then more_frames n first nx cnt else stop
      | None => stop
      end
  end.

Definition allocate_frames {E} (cnt : Z) : M phys E (option FrameRange) :=
  if cnt =? 0 then mret None
  else
    f ← phys_allocate_frame;
    match f with
    | None => mret None
    | Some first => r ← more_frames (Z.to_nat (cnt - 1)) first first cnt; mret (Some r)
    end.

(** [free_frame]: the bump allocator does not take frames back. *)
Definition free_frame {E} (frame : Frame) : M phys E unit := mret tt.

(** *** The multiboot information *)

Definition TAG_TYPE_END : Z := 0.
Definition TAG_TYPE_MMAP : Z := 6.
Definition MEMORY_TYPE_AVAILABLE : Z := 1.

(** The loop of [parse_memory_map_tag]. *)
Fixpoint parse_entries {E} (fuel : nat) (m : mem) (entry_size entries_end current : Z) (map : MemoryMap)
    : comp E MemoryMap :=
  match fuel with
  | O => Hang
  | S fuel =>
      x ← add64 current entry_size;
      if entries_end <? x then mret map
      else
        let base_addr := load64 m current in
        let len := load64 m (current + 8) in
        let entry_type := load32 m (current + 16) in
        let map :=
          if (entry_type =? MEMORY_TYPE_AVAILABLE) && (0 <? len)
          then add_region map (mkRegion base_addr len) else map in
        parse_entries fuel m entry_size entries_end x map
  end.

(** The tag's size bounds the number of entries unless [entry_size] is 0. *)
Definition parse_memory_map_tag {E} (m : mem) (ptr : Z) (map : MemoryMap) : comp E MemoryMap :=
  let entry_size := load32 m (ptr + 8) in
  entries_start ← add64 ptr 16;
  entries_end ← add64 ptr (load32 m (ptr + 4));
  parse_entries (S (Z.to_nat (load32 m (ptr + 4)))) m entry_size entries_end entries_start map.

(** The loop of [parse] over the tags. *)
Fixpoint parse_tags {E} (fuel : nat) (m : mem) (current end' : Z) (map : MemoryMap) : comp E MemoryMap :=
  if negb (current <? end') then mret map
  else
    match fuel with
    | O => Hang
    | S fuel =>
        let tag_type := load32 m current in
        if tag_type =? TAG_TYPE_END then mret map
        else
          map ← (if tag_type =? TAG_TYPE_MMAP then parse_memory_map_tag m current map else mret map);
          x ← add64 current (load32 m (current + 4));
          current ← align_up_u64 x 8;
          parse_tags fuel m current end' map
    end.

Definition parse {E} (m : mem) (multiboot_info_addr : Z) : M phys E unit := λ s,
  let total_size := load32 m multiboot_info_addr in
  lift (
    current ← add64 multiboot_info_addr 8;
    end' ← add64 multiboot_info_addr total_size;
    map ← parse_tags (Z.to_nat total_size) m current end' [];
    a ← init_from_map (sym s) map (fa s);
    mret (mkPhys (sym s) map a)) s ≫= λ '(s', _), Ok (tt, s').

(** ** What the allocator hands out

    The frames of a region are the page-aligned addresses at or above the
    reserved limit that lie inside it; the usable frames are those of the
    regions, in the order of the table. *)

Definition round_up (x : Z) : Z := (x + 4095) / 4096 * 4096.

Definition pages (s e : Z) : list Z :=
  (λ i, s + PAGE_SIZE * Z.of_nat i) <$> seq 0 (Z.to_nat ((e - s + 4095) / 4096)).

Definition region_frames (limit : Z) (r : MemoryRegion) : list Z :=
  pages (round_up (Z.max (base r) limit)) (base r + length r).

Definition usable_frames (limit : Z) (map : MemoryMap) : list Z := map ≫= region_frames limit.

(** The end of the memory taken by the kernel image and its heap. *)
Definition limit_of (sy : Symbols) : Z :=
  let kernel_end := if KERNEL_VMA_BASE <=? bssEnd sy then bssEnd sy - KERNEL_VMA_BASE else bssEnd sy in
  let heap_end := heap_space sy + Heap.HEAP_SIZE in
  let heap_end_phys := if KERNEL_LINK_BASE <=? heap_end then heap_end - KERNEL_LINK_BASE else heap_end in
  round_up (Z.max (Z.max RESERVED_END kernel_end) heap_end_phys).

(** The symbols and the table are such that no address computation overflows. *)
Definition sym_ok (sy : Symbols) : Prop :=
  0 ≤ bssEnd sy < U64 - 8192 ∧ 0 ≤ heap_space sy ∧ heap_space sy + Heap.HEAP_SIZE < U64 - 8192.

Definition region_ok (r : MemoryRegion) : Prop :=
  0 ≤ base r < U64 - 4096 ∧ 0 ≤ length r ∧ base r + length r < U64.

Lemma pages_nil s e : e ≤ s → pages s e = [].
Proof. intros. unfold pages. by replace (Z.to_nat ((e - s + 4095) / 4096)) with O by (Z.div_mod_to_equations; lia). Qed.

Lemma pages_cons s e : s < e → pages s e = s :: pages (s + PAGE_SIZE) e.
Proof.
  intros. unfold pages, PAGE_SIZE.
  replace (Z.to_nat ((e - s + 4095) / 4096)) with (S (Z.to_nat ((e - (s + 4096) + 4095) / 4096)))
    by (Z.div_mod_to_equations; lia).
  cbn [seq fmap list_fmap]. f_equal; [lia|]. rewrite <- fmap_S_seq, <- list_fmap_compose.
  apply list_fmap_ext. intros i x _. simpl. lia.
Qed.

Lemma elem_of_pages s e x : x ∈ pages s e ↔ s ≤ x < e ∧ (x - s) mod 4096 = 0.
Proof.
  unfold pages, PAGE_SIZE. rewrite list_elem_of_fmap. setoid_rewrite elem_of_seq. split.
  - intros (i & -> & Hi). split; [Z.div_mod_to_equations; lia|].
    replace (s + 4096 * Z.of_nat i - s) with (Z.of_nat i * 4096) by lia. apply Z.mod_mul. lia.
  - intros [Hx Hm]. exists (Z.to_nat ((x - s) / 4096)). split; Z.div_mod_to_equations; lia.
Qed.

Lemma NoDup_pages s e : NoDup (pages s e).
Proof. apply NoDup_fmap_2; [|apply NoDup_seq]. intros i j. unfold PAGE_SIZE. lia. Qed.

Lemma round_up_spec x : x ≤ round_up x < x + 4096 ∧ round_up x mod 4096 = 0.
Proof. unfold round_up. split; [Z.div_mod_to_equations; lia|]. apply Z.mod_mul. lia. Qed.

Lemma align_up_u64_page {E} x : 0 ≤ x → x + 4096 ≤ U64 → @align_up_u64 E x PAGE_SIZE = Ok (round_up x).
Proof.
  intros. unfold align_up_u64, PAGE_SIZE. comp_simpl. f_equal.
  rewrite (land_not_mask (x + (4096 - 1)) 4096); [|unfold u64; lia|by apply (pow2_intro 12)].
  unfold round_up. Z.div_mod_to_equations. lia.
Qed.

Lemma reserved_limit_ok {E} sy : sym_ok sy → @reserved_limit E sy = Ok (limit_of sy).
Proof.
  intros (Hb & Hh & Hh'). unfold reserved_limit, limit_of, heap_bounds, KERNEL_VMA_BASE, KERNEL_LINK_BASE, RESERVED_END.
  unfold Heap.HEAP_SIZE in *.
  destruct (Z.leb_spec 0xFFFF800000000000 (bssEnd sy)).
  all: comp_simpl; cbn [mbind comp_bind mret comp_ret]; comp_simpl.
  all: destruct (Z.leb_spec 0xFFFFFFFF80000000 (heap_space sy + 8 * 1024 * 1024)).
  all: comp_simpl; cbn [mbind comp_bind mret comp_ret]; rewrite align_up_u64_page by lia; done.
Qed.

Lemma limit_of_bounds sy : sym_ok sy → RESERVED_END ≤ limit_of sy < U64 - 4096 ∧ limit_of sy mod 4096 = 0.
Proof.
  intros (Hb & Hh & Hh'). unfold limit_of, Heap.HEAP_SIZE, RESERVED_END in *.
  match goal with |- context [round_up ?x] => pose proof (round_up_spec x) as [Hr ?] end.
  split; [|done].
  destruct (Z.leb_spec KERNEL_VMA_BASE (bssEnd sy));
    destruct (Z.leb_spec KERNEL_LINK_BASE (heap_space sy + 8 * 1024 * 1024));
    unfold KERNEL_VMA_BASE, KERNEL_LINK_BASE in *; lia.
Qed.

(** The frames still to come: the rest of the current region, then those of
    the regions not visited yet. *)
Definition future (limit : Z) (map : MemoryMap) (a : FrameAllocator) : list Z :=
  pages (current a) (end_ a) ++ usable_frames limit (drop (region_index a) map).

Definition fa_wf (a : FrameAllocator) : Prop :=
  0 ≤ current a ∧ 0 ≤ end_ a < U64 ∧ (current a < end_ a → 0 < current a).

Lemma region_frames_nil limit r : base r + length r ≤ round_up (Z.max (base r) limit) → region_frames limit r = [].
Proof. apply pages_nil. Qed.

Lemma advance_loop_spec {E} limit map a :
  0 < limit → limit ≤ U64 - 4096 → Forall region_ok map → fa_wf a → end_ a ≤ current a →
  ∃ a', @advance_loop E limit a (drop (region_index a) map) = Ok a' ∧ fa_wf a' ∧
    future limit map a' = future limit map a ∧ (end_ a' ≤ current a' → future limit map a' = []).
Proof.
  intros Hl Hlim Hmap. remember (drop (region_index a) map) as regions eqn:Hreg. revert a Hreg.
  induction regions as [|r rest IH]; intros a Hreg Hwf Hge; destruct Hwf as (Hc & He & Hp).
  - exists (mkFA (end_ a) (end_ a) (region_index a)). unfold future, fa_wf. simpl. rewrite <- Hreg.
    rewrite !pages_nil by lia. split_and!; try done; lia.
  - assert (map !! region_index a = Some r ∧ drop (S (region_index a)) map = rest) as [Hr Hrest].
    { assert (map !! region_index a = Some r) as Hr by (rewrite <- (Nat.add_0_r (region_index a)), <- lookup_drop, <- Hreg; done).
      split; [done|]. apply (drop_S map) in Hr. rewrite <- Hreg in Hr. by injection Hr. }
    pose proof (Forall_lookup_1 _ _ _ _ Hmap Hr) as (Hb & Hlen & Hov).
    set (a1 := mkFA (current a) (end_ a) (S (region_index a))).
    assert (future limit map a = region_frames limit r ++ future limit map a1) as Hfut.
    { unfold future, usable_frames, a1. simpl. rewrite <- Hreg, Hrest, pages_nil by lia. done. }
    pose proof (round_up_spec (Z.max (base r) limit)) as [Hru _].
    assert (base r + length r ≤ round_up (Z.max (base r) limit) →
      ∃ a', @advance_loop E limit a1 rest = Ok a' ∧ fa_wf a' ∧ future limit map a' = future limit map a ∧
        (end_ a' ≤ current a' → future limit map a' = [])) as Hskip.
    { intros Hs. rewrite Hfut, region_frames_nil by done. apply (IH a1); done. }
    simpl. fold a1. destruct (Z.eqb_spec (length r) 0); [apply Hskip; lia|].
    unfold region_end. rewrite add64_ok by lia. cbn [mbind comp_bind].
    destruct (Z.leb_spec (base r + length r) limit); [apply Hskip; lia|].
    rewrite align_up_u64_page by lia. cbn [mbind comp_bind].
    destruct (Z.ltb_spec (round_up (Z.max (base r) limit)) (base r + length r)); [|by apply Hskip].
    eexists. split; [done|]. unfold fa_wf. simpl. split_and!; try lia.
    unfold future at 1. rewrite Hfut. simpl. unfold future, a1. simpl. rewrite (pages_nil (current a)) by lia. done.
Qed.

Definition phys_inv (s : phys) : Prop := sym_ok (sym s) ∧ Forall region_ok (phys_map s) ∧ fa_wf (fa s).
Definition pool (s : phys) : list Z := future (limit_of (sym s)) (phys_map s) (fa s).

Lemma bump_allocate_spec {E} s : phys_inv s →
  ∃ a', @allocate E (sym s) (phys_map s) (fa s) = Ok (mkFrame <$> head (pool s), a') ∧
    fa_wf a' ∧ future (limit_of (sym s)) (phys_map s) a' = tail (pool s).
Proof.
  destruct s as [sy map a]. unfold pool, phys_inv. simpl. intros (Hsy & Hmap & Hwf).
  pose proof (limit_of_bounds _ Hsy) as [Hlim _]. unfold RESERVED_END in Hlim.
  assert (∃ a1, (if end_ a <=? current a then @advance_to_next_region E sy map a else mret a) = Ok a1 ∧ fa_wf a1 ∧
    future (limit_of sy) map a1 = future (limit_of sy) map a ∧
    (end_ a1 ≤ current a1 → future (limit_of sy) map a1 = [])) as (a1 & Hadv & (Hc & He & Hp) & Hfut & Hnil).
  { destruct (Z.leb_spec (end_ a) (current a)).
    - unfold advance_to_next_region. rewrite reserved_limit_ok by done. cbn [mbind comp_bind].
      apply advance_loop_spec; done || lia.
    - exists a. split_and!; try done. lia. }
  unfold allocate. cbn [allocate_loop]. rewrite Hadv. cbn [mbind comp_bind]. rewrite <- Hfut.
  destruct (Z.leb_spec (end_ a1) (current a1)) as [Hle|Hlt].
  - exists a1. rewrite Hnil by done. done.
  - destruct (Z.eqb_spec (current a1) 0); [lia|]. eexists. split.
    { unfold future. rewrite pages_cons by done. done. }
    unfold fa_wf, future, saturating_add64, PAGE_SIZE. simpl. split; [lia|].
    rewrite (pages_cons (current a1)) by done. simpl. f_equal. unfold PAGE_SIZE.
    destruct (Z.min_spec (current a1 + 4096) (18446744073709551616 - 1)) as [[_ ->]|[? ->]]; [done|].
    rewrite !pages_nil by lia. done.
Qed.

#[global] Instance phys_frame_alloc : FrameAlloc phys := {
  allocate_frame E := f ← phys_allocate_frame; mret (start <$> f);
  fa_pool := pool;
  fa_inv := phys_inv
}.

Lemma phys_allocate_frame_spec {E} s : phys_inv s →
  ∃ s', @phys_allocate_frame E s = Ok (mkFrame <$> head (pool s), s') ∧ phys_inv s' ∧ pool s' = tail (pool s) ∧
    sym s' = sym s ∧ phys_map s' = phys_map s.
Proof.
  intros Hinv. destruct (bump_allocate_spec (E:=E) s Hinv) as (a' & Heq & Hwf & Hfut).
  unfold phys_allocate_frame. rewrite Heq. eexists. split; [done|].
  destruct Hinv as (? & ? & _). by split_and!.
Qed.

#[global] Instance phys_frame_alloc_laws : FrameAllocLaws phys.
Proof.
  split; simpl; intros E s.
  - intros Hinv Hnil. destruct (phys_allocate_frame_spec (E:=E) s Hinv) as (s' & Heq & Hinv' & Hpool & _).
    unfold mbind, M_bind. rewrite Heq, Hnil. rewrite Hnil in Hpool. by exists s'.
  - intros f fs Hinv Hcons. destruct (phys_allocate_frame_spec (E:=E) s Hinv) as (s' & Heq & Hinv' & Hpool & _).
    unfold mbind, M_bind. rewrite Heq, Hcons. rewrite Hcons in Hpool. by exists s'.
Qed.

(** The entries present among the first [n] positions are the first [n]. *)
Lemma omap_lookup_seq {A} (l : list A) n : omap id ((λ i, l !! i) <$> seq 0 n) = take n l.
Proof.
  revert n. induction l as [|x l IH]; intros [|n]; try done.
  - simpl. rewrite <- fmap_S_seq, <- list_fmap_compose. induction (seq 0 n); [done|]. simpl. done.
  - simpl. f_equal. rewrite <- fmap_S_seq, <- list_fmap_compose. apply IH.
Qed.

(** [n] successive calls of [allocate_frame]. *)
Fixpoint alloc_many {E} (n : nat) : M phys E (list (option Z)) :=
  match n with
  | O => mret []
  | S n => f ← phys_allocate_frame; fs ← alloc_many n; mret ((start <$> f) :: fs)
  end.

Lemma alloc_many_spec {E} n s : phys_inv s →
  ∃ s', @alloc_many E n s = Ok ((λ i, pool s !! i) <$> seq 0 n, s') ∧ phys_inv s' ∧ pool s' = drop n (pool s).
Proof.
  revert s. induction n as [|n IH]; intros s Hinv; [exists s; by rewrite drop_0|].
  destruct (phys_allocate_frame_spec (E:=E) s Hinv) as (s1 & Heq & Hinv1 & Hpool & _).
  destruct (IH s1 Hinv1) as (s2 & Heq2 & Hinv2 & Hpool2). exists s2.
  cbn [alloc_many]. unfold mbind, M_bind, mret, M_ret. rewrite Heq, Heq2. split_and!; [|done|].
  - f_equal. f_equal. cbn [seq fmap list_fmap]. f_equal; [by destruct (pool s)|].
    rewrite <- fmap_S_seq, <- list_fmap_compose. apply list_fmap_ext. intros i x _. simpl. rewrite Hpool.
    by destruct (pool s).
  - rewrite Hpool2, Hpool. destruct (pool s); [apply drop_nil|done].
Qed.

Lemma init_from_map_spec {E} sy map a0 : sym_ok sy → Forall region_ok map →
  ∃ a, @init_from_map E sy map a0 = Ok a ∧ fa_wf a ∧ future (limit_of sy) map a = usable_frames (limit_of sy) map.
Proof.
  intros Hsy Hmap. pose proof (limit_of_bounds _ Hsy) as [Hlim _]. unfold RESERVED_END in Hlim.
  unfold init_from_map, advance_to_next_region. rewrite reserved_limit_ok by done. cbn [mbind comp_bind].
  destruct (advance_loop_spec (E:=E) (limit_of sy) map (mkFA 0 0 0)) as (a & Heq & Hwf & Hfut & _); try done; try lia.
  exists a. split_and!; [done..|]. rewrite Hfut. unfold future. by rewrite pages_nil.
Qed.

Lemma elem_of_usable limit map f : f ∈ usable_frames limit map → limit ≤ f ∧ f mod 4096 = 0 ∧
  ∃ r, r ∈ map ∧ base r ≤ f < base r + length r.
Proof.
  intros Hf. apply list_elem_of_bind in Hf as (r & Hf & Hr). apply elem_of_pages in Hf as [Hb Hm].
  pose proof (round_up_spec (Z.max (base r) limit)) as [Hru Hrm]. split_and!; [lia| |exists r; split; [done|lia]].
  Z.div_mod_to_equations. lia.
Qed.

Definition regions_disjoint (r1 r2 : MemoryRegion) : Prop :=
  base r1 + length r1 ≤ base r2 ∨ base r2 + length r2 ≤ base r1.

Lemma NoDup_usable limit map : ForallOrdPairs regions_disjoint map → NoDup (usable_frames limit map).
Proof.
  induction 1 as [|r map Hr Hmap IH]; [constructor|]. unfold usable_frames. cbn [mbind list_bind].
  apply NoDup_app. split_and!; [apply NoDup_pages| |done].
  intros f Hf Hf'. apply elem_of_usable in Hf' as (_ & _ & r' & Hr' & Hin).
  apply elem_of_pages in Hf as [Hb _]. pose proof (round_up_spec (Z.max (base r) limit)) as [Hru _].
  rewrite Forall_forall in Hr. destruct (Hr r' Hr'); lia.
Qed.

(** ** Properties *)

(** C25. The frame allocator refines the enumeration of the usable frames.  On
    any region table that [init_from_map] is given, the [i]-th call of
    [allocate_frame] returns the [i]-th frame of [usable_frames], and once these
    are exhausted every call returns [None]; no call panics or hangs. *)
Theorem frames_in_order sy map n a0 :
  sym_ok sy → Forall region_ok map →
  ∃ a s', @init_from_map Empty_set sy map a0 = Ok a ∧
    @alloc_many Empty_set n (mkPhys sy map a) = Ok ((λ i, usable_frames (limit_of sy) map !! i) <$> seq 0 n, s').
Proof.
  intros Hsy Hmap. destruct (init_from_map_spec (E:=Empty_set) sy map a0) as (a & Ha & Hwf & Hfut); [done..|].
  destruct (alloc_many_spec (E:=Empty_set) n (mkPhys sy map a)) as (s' & Heq & _ & _); [done|].
  exists a, s'. split; [done|]. rewrite Heq. unfold pool. simpl. by rewrite Hfut.
Qed.

Definition example_map : MemoryMap := [mkRegion 0 0x9fc00; mkRegion 0x100000 0x1000000; mkRegion 0x1400000 0x2800].
Definition example_symbols : Symbols := mkSymbols 0xBFF100 0xFFFFFFFF80300000.

Lemma example_symbols_ok : sym_ok example_symbols.
Proof. by vm_compute. Qed.

Lemma example_map_ok : Forall region_ok example_map.
Proof. repeat constructor; vm_compute; done. Qed.

Lemma frames_in_order_witness :
  ∃ a s', @init_from_map Empty_set example_symbols example_map FrameAllocator_new = Ok a ∧
    @alloc_many Empty_set 2 (mkPhys example_symbols example_map a) =
      Ok ((λ i, usable_frames (limit_of example_symbols) example_map !! i) <$> seq 0 2, s').
Proof. apply (frames_in_order _ _ 2); [apply example_symbols_ok|apply example_map_ok]. Defined.



Lemma more_frames_spec {E} n first last k cnt s :
  phys_inv s → Forall (λ f, f + PAGE_SIZE < U64) (start last :: pool s) → 0 ≤ start first → 0 ≤ k →
  start last = start first + 4096 * k → cnt = k + 1 + Z.of_nat n → cnt < U64 →
  ∃ (j : nat) s', @more_frames E n first last cnt s = Ok (mkFrameRange first (k + 1 + Z.of_nat j), s') ∧ phys_inv s' ∧
    (j ≤ n)%nat ∧ (∀ i, (i < j)%nat → pool s !! i = Some (start last + 4096 * Z.of_nat (S i))) ∧
    ((j < n)%nat → pool s !! j ≠ Some (start last + 4096 * Z.of_nat (S j))) ∧
    pool s' = drop (if (j <? n)%nat then S j else n) (pool s).
Proof.
  revert last k s. induction n as [|n IH]; intros last k s Hinv Hub Hf Hk Hlast Hcnt Hc.
  { exists O, s. subst cnt. rewrite drop_0. split_and!; try done; lia. }
  apply Forall_cons_iff in Hub as [Hl Hub]. unfold PAGE_SIZE in Hl.
  destruct (phys_allocate_frame_spec (E:=E) s Hinv) as (s1 & Heq & Hinv1 & Hpool & _).
  assert (∀ p : list Z, (p !! O ≠ Some (start last + 4096)) → pool s = p →
    ∃ (j : nat) s', Ok (mkFrameRange first (k + 1), s1) = @Ok (E * phys) _ (mkFrameRange first (k + 1 + Z.of_nat j), s') ∧
      phys_inv s' ∧ (j ≤ S n)%nat ∧ (∀ i, (i < j)%nat → p !! i = Some (start last + 4096 * Z.of_nat (S i))) ∧
      ((j < S n)%nat → p !! j ≠ Some (start last + 4096 * Z.of_nat (S j))) ∧
      pool s' = drop (if (j <? S n)%nat then S j else S n) p) as Hstop.
  { intros p Hp Hps. exists O, s1. simpl. rewrite Z.add_0_r, Hpool, Hps. split_and!; try done; try lia.
  }
  assert ((start last - start first) / 4096 = k) as Hdiv by (rewrite Hlast; Z.div_mod_to_equations; lia).
  cbn [more_frames]. unfold mbind, M_bind, lift, mret, M_ret. rewrite Heq.
  destruct (pool s) as [|f fs] eqn:Hps; simpl.
  - rewrite sub64_ok by lia. unfold FRAME_SIZE, PAGE_SIZE. rewrite Hdiv, add64_ok by lia. by apply Hstop.
  - unfold FRAME_SIZE, PAGE_SIZE. rewrite add64_ok by lia. destruct (Z.eqb_spec f (start last + 4096)) as [->|Hne].
    + simpl in Hpool. destruct (IH (mkFrame (start last + 4096)) (k + 1) s1) as (j & s2 & -> & Hinv2 & Hj & Hin & Hne & Hp2);
        rewrite ?Hpool; simpl; try done; try lia.
      exists (S j), s2. rewrite Hpool in *. simpl in *. split_and!; try done; try lia.
      * do 3 f_equal. lia.
      * intros [|i] Hi; simpl; [f_equal; lia|]. rewrite Hin by lia. f_equal. lia.
      * intros Hjn. specialize (Hne ltac:(lia)). simpl. by replace (start last + 4096 * Z.of_nat (S (S j)))
          with (start last + 4096 + 4096 * Z.of_nat (S j)) by lia.
      * rewrite Hp2. by destruct (j <? n)%nat eqn:Hb; apply Nat.ltb_lt in Hb || apply Nat.ltb_ge in Hb;
          [rewrite (proj2 (Nat.ltb_lt _ _)) by lia|rewrite (proj2 (Nat.ltb_ge _ _)) by lia].
    + rewrite sub64_ok by lia. rewrite Hdiv, add64_ok by lia. apply Hstop; [|done]. simpl. congruence.
Qed.

(** [allocate_frames] returns a contiguous run.  Asked for [cnt] frames it
    returns [None] only when no frame is left; otherwise it returns a non-empty
    range of at most [cnt] frames which are exactly the next frames of the pool,
    and it is shorter than [cnt] only when the next frame of the pool is not
    adjacent.  In that case the frame that broke the run is consumed too. *)
Theorem allocate_frames_contiguous cnt s :
  phys_inv s → Forall (λ f, 0 ≤ f ∧ f + PAGE_SIZE < U64) (pool s) → 0 < cnt < U64 →
  (pool s = [] ∧ ∃ s', @allocate_frames Empty_set cnt s = Ok (None, s')) ∨
  ∃ first k s', @allocate_frames Empty_set cnt s = Ok (Some (mkFrameRange (mkFrame first) (Z.of_nat k)), s') ∧
    1 ≤ Z.of_nat k ≤ cnt ∧ take k (pool s) = (λ i, first + 4096 * Z.of_nat i) <$> seq 0 k ∧
    (Z.of_nat k < cnt → pool s !! k ≠ Some (first + 4096 * Z.of_nat k) ∧ pool s' = drop (S k) (pool s)) ∧
    (Z.of_nat k = cnt → pool s' = drop k (pool s)).
Proof.
  intros Hinv Hub Hc. destruct (phys_allocate_frame_spec (E:=Empty_set) s Hinv) as (s1 & Heq & Hinv1 & Hpool & _).
  unfold allocate_frames. destruct (Z.eqb_spec cnt 0); [lia|]. unfold mbind, M_bind, mret, M_ret. rewrite Heq.
  destruct (pool s) as [|f fs] eqn:Hps; simpl; [left; split; [done|by eexists]|right].
  apply Forall_cons_iff in Hub as [Hf Hub]. simpl in Hpool.
  destruct (more_frames_spec (E:=Empty_set) (Z.to_nat (cnt - 1)) (mkFrame f) (mkFrame f) 0 cnt s1)
    as (j & s2 & -> & Hinv2 & Hj & Hin & Hne & Hp2); rewrite ?Hpool; simpl; try done; try lia.
  { constructor; [lia|]. eapply Forall_impl; [exact Hub|]. simpl. lia. }
  rewrite Hpool in *. simpl in *. exists f, (S j), s2. split_and!; try lia.
  - by replace (0 + 1 + Z.of_nat j) with (Z.of_nat (S j)) by lia.
  - cbn [take seq fmap list_fmap]. f_equal; [lia|]. apply list_eq. intros i.
    destruct (decide (i < j)%nat) as [Hlt|Hge].
    + rewrite lookup_take_lt, Hin by done. rewrite list_lookup_fmap, lookup_seq_lt by done. simpl. f_equal.
    + rewrite (lookup_ge_None_2 (take j fs)) by (rewrite length_take; lia).
      rewrite (lookup_ge_None_2 _ i); [done|]. rewrite length_fmap, length_seq. lia.
  - intros Hlt. split; [apply Hne; lia|]. rewrite Hp2. destruct (Nat.ltb_spec j (Z.to_nat (cnt - 1))); [done|lia].
  - intros Hjc. rewrite Hp2. destruct (Nat.ltb_spec j (Z.to_nat (cnt - 1))); [lia|]. by replace (Z.to_nat (cnt - 1)) with j by lia.
Qed.

(** Three frames are left of one region when four are asked for. *)
Lemma allocate_frames_contiguous_witness :
  ∃ first k s', @allocate_frames Empty_set 4 (mkPhys example_symbols example_map (mkFA 0x10FD000 0x1100000 2)) =
    Ok (Some (mkFrameRange (mkFrame first) (Z.of_nat k)), s') ∧
    take k (pool (mkPhys example_symbols example_map (mkFA 0x10FD000 0x1100000 2))) =
      (λ i, first + 4096 * Z.of_nat i) <$> seq 0 k.
Proof.
  destruct (allocate_frames_contiguous 4 (mkPhys example_symbols example_map (mkFA 0x10FD000 0x1100000 2)))
    as [[Hnil _]|(first & k & s' & Heq & _ & Htake & _)].
  - split_and!; [apply example_symbols_ok|apply example_map_ok|by vm_compute].
  - repeat constructor; vm_compute; done.
  - done.
  - by vm_compute in Hnil.
  - by exists first, k, s'.
Defined.

(** ** The multiboot memory map

    What the parser should find.  An available entry of non-zero length is a
    region; a memory-map tag holds as many entries as fit behind its header. *)

Definition entry_region (m : mem) (c : Z) : option MemoryRegion :=
  if (load32 m (c + 16) =? MEMORY_TYPE_AVAILABLE) && (0 <? load64 m (c + 8))
  then Some (mkRegion (load64 m c) (load64 m (c + 8))) else None.

Definition entries (es e c : Z) : list Z :=
  (λ i, c + es * Z.of_nat i) <$> seq 0 (Z.to_nat ((e - c) / es)).

Definition mmap_regions (m : mem) (c : Z) : list MemoryRegion :=
  omap (entry_region m) (entries (load32 m (c + 8)) (c + load32 m (c + 4)) (c + 16)).

(** [tags m e c rs]: from [c] to [e] lie well-formed tags with regions [rs]. *)
Inductive tags (m : mem) (e : Z) : Z → list MemoryRegion → Prop :=
| tags_end c : e ≤ c → tags m e c []
| tags_last c : c < e → load32 m c = TAG_TYPE_END → tags m e c []
| tags_mmap c rs :
    c < e → load32 m c = TAG_TYPE_MMAP → 0 < load32 m (c + 4) → 0 < load32 m (c + 8) →
    tags m e ((c + load32 m (c + 4) + 7) / 8 * 8) rs → tags m e c (mmap_regions m c ++ rs)
| tags_other c rs :
    c < e → load32 m c ≠ TAG_TYPE_END → load32 m c ≠ TAG_TYPE_MMAP → 0 < load32 m (c + 4) →
    tags m e ((c + load32 m (c + 4) + 7) / 8 * 8) rs → tags m e c rs.

Lemma fold_add_region rs map : (List.length map ≤ MAX_REGIONS)%nat →
  fold_left add_region rs map = take MAX_REGIONS (map ++ rs).
Proof.
  revert map. induction rs as [|r rs IH]; intros map Hlen; simpl.
  - by rewrite app_nil_r, take_ge.
  - unfold add_region at 2. destruct (Nat.ltb_spec (List.length map) MAX_REGIONS) as [Hlt|Hge].
    + rewrite IH; [by rewrite <- app_assoc|]. rewrite length_app. simpl. lia.
    + rewrite IH by done. assert (List.length map = MAX_REGIONS) as Heq by lia.
      rewrite <- Heq at 1 2. by rewrite !take_app_length.
Qed.

Lemma entries_nil es e c : 0 < es → e < c + es → entries es e c = [].
Proof.
  intros. unfold entries. replace (Z.to_nat ((e - c) / es)) with O; [done|].
  assert ((e - c) / es < 1) by (apply Z.div_lt_upper_bound; lia). lia.
Qed.

Lemma entries_cons es e c : 0 < es → c + es ≤ e → entries es e c = c :: entries es e (c + es).
Proof.
  intros. unfold entries. assert ((e - c) / es = (e - (c + es)) / es + 1) as Heq.
  { replace (e - c) with (e - (c + es) + 1 * es) by lia. by rewrite Z.div_add by lia. }
  assert (0 ≤ (e - (c + es)) / es) by (apply Z.div_pos; lia).
  replace (Z.to_nat ((e - c) / es)) with (S (Z.to_nat ((e - (c + es)) / es))) by lia.
  cbn [seq fmap list_fmap]. f_equal; [lia|]. rewrite <- fmap_S_seq, <- list_fmap_compose.
  apply list_fmap_ext. intros i x _. simpl. lia.
Qed.

Lemma parse_entries_S {E} fuel m es e c map :
  @parse_entries E (S fuel) m es e c map =
    x ← add64 c es;
    if e <? x then mret map
    else parse_entries fuel m es e x (match entry_region m c with Some r => add_region map r | None => map end).
Proof.
  cbn [parse_entries]. unfold entry_region.
  by destruct ((load32 m (c + 16) =? MEMORY_TYPE_AVAILABLE) && (0 <? load64 m (c + 8))).
Qed.

Lemma parse_entries_spec {E} fuel m es e c map :
  0 < es → 0 ≤ c → e + es < U64 → c + es < U64 → e - c < Z.of_nat fuel →
  @parse_entries E (S fuel) m es e c map = Ok (fold_left add_region (omap (entry_region m) (entries es e c)) map).
Proof.
  intros Hes. revert c map. induction fuel as [|fuel IH]; intros c map Hc He Hce Hf;
    rewrite parse_entries_S, add64_ok by lia; cbn [mbind comp_bind].
  - destruct (Z.ltb_spec e (c + es)); [|lia]. by rewrite entries_nil by lia.
  - destruct (Z.ltb_spec e (c + es)) as [Hlt|Hge]; [by rewrite entries_nil by lia|].
    rewrite IH by lia. rewrite (entries_cons es e c) by lia. cbn [omap list_omap]. by destruct (entry_region m c).
Qed.

Lemma align_up_u64_8 {E} x : 0 ≤ x → x + 8 ≤ U64 → @align_up_u64 E x 8 = Ok ((x + 7) / 8 * 8).
Proof.
  intros. unfold align_up_u64. comp_simpl. f_equal.
  rewrite (land_not_mask (x + (8 - 1)) 8); [|unfold u64; lia|by apply (pow2_intro 3)].
  Z.div_mod_to_equations. lia.
Qed.

Lemma parse_memory_map_tag_spec {E} m c map : mem_ok m → 0 ≤ c < I64 → 0 < load32 m (c + 8) →
  @parse_memory_map_tag E m c map = Ok (fold_left add_region (mmap_regions m c) map).
Proof.
  intros Hm Hc Hes. pose proof (load32_bound m (c + 4) Hm). pose proof (load32_bound m (c + 8) Hm).
  unfold parse_memory_map_tag. comp_simpl. apply parse_entries_spec; lia.
Qed.

Lemma parse_tags_spec {E} m e c rs : mem_ok m → 0 ≤ c → e < I64 → tags m e c rs →
  ∀ fuel map, e - c ≤ Z.of_nat fuel → @parse_tags E fuel m c e map = Ok (fold_left add_region rs map).
Proof.
  intros Hm Hc He Ht. revert Hc. induction Ht as [c Hge|c Hlt H0|c rs Hlt H6 Hsz Hes Ht IH|c rs Hlt H0 H6 Hsz Ht IH];
    intros Hc fuel map Hfuel.
  - destruct fuel; simpl; (destruct (Z.ltb_spec c e); [lia|]); done.
  - destruct fuel as [|fuel]; [lia|]. simpl. destruct (Z.ltb_spec c e); [|lia]. simpl. by rewrite H0.
  - destruct fuel as [|fuel]; [lia|]. simpl. destruct (Z.ltb_spec c e); [|lia]. simpl.
    rewrite H6. cbn [Z.eqb TAG_TYPE_END TAG_TYPE_MMAP Pos.eqb].
    rewrite parse_memory_map_tag_spec by (done || lia). cbn [mbind comp_bind].
    pose proof (load32_bound m (c + 4) Hm). rewrite add64_ok by lia. cbn [mbind comp_bind].
    rewrite align_up_u64_8 by lia. cbn [mbind comp_bind].
    rewrite IH by (Z.div_mod_to_equations; lia). by rewrite fold_left_app.
  - destruct fuel as [|fuel]; [lia|]. simpl. destruct (Z.ltb_spec c e); [|lia]. simpl.
    destruct (Z.eqb_spec (load32 m c) TAG_TYPE_END); [done|].
    destruct (Z.eqb_spec (load32 m c) TAG_TYPE_MMAP); [done|]. cbn [mbind comp_bind].
    pose proof (load32_bound m (c + 4) Hm). rewrite add64_ok by lia. cbn [mbind comp_bind].
    rewrite align_up_u64_8 by lia. cbn [mbind comp_bind].
    by apply IH; Z.div_mod_to_equations; lia.
Qed.

(** The memory-map parser is correct and terminates.  On a well-formed
    multiboot block, [parse] records the available, non-empty entries of its
    memory-map tags in order, at most [MAX_REGIONS] of them, and leaves the
    frame allocator ready to hand out exactly the usable frames of that table. *)
Theorem parse_correct m addr rs s :
  mem_ok m → 0 ≤ addr → addr + load32 m addr < I64 → sym_ok (sym s) →
  tags m (addr + load32 m addr) (addr + 8) rs → Forall region_ok (take MAX_REGIONS rs) →
  ∃ s', @parse Empty_set m addr s = Ok (tt, s') ∧ phys_map s' = take MAX_REGIONS rs ∧ phys_inv s' ∧
    pool s' = usable_frames (limit_of (sym s)) (take MAX_REGIONS rs).
Proof.
  intros Hm Ha Hov Hsy Ht Hrs. pose proof (load32_bound m addr Hm).
  unfold parse, lift. comp_simpl.
  rewrite (parse_tags_spec m _ _ rs) by (done || lia). rewrite fold_add_region by (simpl; lia).
  cbn [mbind comp_bind app].
  destruct (init_from_map_spec (E:=Empty_set) (sym s) (take MAX_REGIONS rs) (fa s)) as (a & Hi & Hwf & Hfut); [done..|].
  rewrite Hi. by eexists.
Qed.

(** A block with a module tag, a memory map of two entries and the end tag. *)
Definition example_mbi : mem := store_bytes (λ _, 0) 4096
  (le_bytes 4 96 ++ le_bytes 4 0 ++
   le_bytes 4 3 ++ le_bytes 4 12 ++ le_bytes 8 0 ++
   le_bytes 4 6 ++ le_bytes 4 64 ++ le_bytes 4 24 ++ le_bytes 4 0 ++
   le_bytes 8 0x100000 ++ le_bytes 8 0x7000000 ++ le_bytes 4 1 ++ le_bytes 4 0 ++
   le_bytes 8 0x7100000 ++ le_bytes 8 0x100000 ++ le_bytes 4 2 ++ le_bytes 4 0).

Lemma parse_correct_witness :
  ∃ s', @parse Empty_set example_mbi 4096 (mkPhys example_symbols [] FrameAllocator_new) = Ok (tt, s') ∧
    phys_map s' = [mkRegion 0x100000 0x7000000].
Proof.
  destruct (parse_correct example_mbi 4096 [mkRegion 0x100000 0x7000000]
    (mkPhys example_symbols [] FrameAllocator_new)) as (s' & Heq & Hmap & _).
  - apply mem_ok_store; [by intros a|]. apply list_forallb_byte. by vm_compute.
  - done.
  - by vm_compute.
  - apply example_symbols_ok.
  - apply tags_other; [by vm_compute..|].
    replace [mkRegion 0x100000 0x7000000] with (mmap_regions example_mbi 4120 ++ []) by by vm_compute.
    apply tags_mmap; [by vm_compute..|]. apply tags_last; by vm_compute.
  - repeat constructor; vm_compute; done.
  - exists s'. split; [exact Heq|exact Hmap].
Defined.

(** ** Limits of the code *)

(** A region whose end is not page aligned yields a last frame that reaches
    beyond it: 0x1402000 is handed out although the region ends at 0x1402800. *)
Lemma partial_frame_handed_out :
  0x1402000 ∈ usable_frames (limit_of example_symbols) example_map ∧
  ¬ ∃ r, r ∈ example_map ∧ base r ≤ 0x1402000 ∧ 0x1402000 + PAGE_SIZE ≤ base r + length r.
Proof.
  split.
  - apply list_elem_of_bind. exists (mkRegion 0x1400000 0x2800). split; [|right; right; left].
    apply elem_of_pages. by vm_compute.
  - intros (r & Hr & Hb & He). unfold example_map in Hr. rewrite !elem_of_cons, elem_of_nil in Hr.
    destruct Hr as [->|[->|[->|[]]]]; vm_compute in Hb, He; intuition congruence.
Qed.

(** A tag of size 0 makes [parse] loop forever: no number of rounds is enough. *)
Lemma parse_tags_zero_size fuel m c e map :
  0 ≤ c < e → e < I64 → c mod 8 = 0 → load32 m c ≠ TAG_TYPE_END → load32 m c ≠ TAG_TYPE_MMAP →
  load32 m (c + 4) = 0 → @parse_tags Empty_set fuel m c e map = Hang.
Proof.
  intros Hc He H8 Hend Hmm Hsz. induction fuel as [|fuel IH]; simpl; (destruct (Z.ltb_spec c e); [simpl|lia]); [done|].
  destruct (Z.eqb_spec (load32 m c) TAG_TYPE_END); [done|].
  destruct (Z.eqb_spec (load32 m c) TAG_TYPE_MMAP); [done|]. cbn [mbind comp_bind].
  rewrite Hsz, add64_ok by lia. cbn [mbind comp_bind]. rewrite align_up_u64_8 by lia. cbn [mbind comp_bind].
  by replace ((c + 0 + 7) / 8 * 8) with c by (Z.div_mod_to_equations; lia).
Qed.

End Phys.
