(* ===== verification/Paging.v ===== *)
(** * Page tables: src/src/arch/x86_64/kernel/paging.rs and mmu.rs

    Page tables live in physical memory, which the kernel reaches through its
    direct map at [KERNEL_VMA_BASE]; the model indexes memory by physical
    address and keeps the overflow check of [phys_to_virt].  Frames come from
    any allocator with the interface [FrameAlloc]. *)

From S2P Require Import Prelude Mem Heap Phys.
Local Open Scope Z_scope.

Module Paging.

Definition PAGE_SIZE : Z := 4096.
Definition PAGE_TABLE_ENTRIES : Z := 512.
Definition ENTRY_ADDR_MASK : Z := 0x000FFFFFFFFFF000.

Definition FLAG_PRESENT : Z := 1.
Definition FLAG_WRITABLE : Z := 2.
Definition FLAG_USER : Z := 4.
Definition FLAG_WRITE_THROUGH : Z := 8.
Definition FLAG_CACHE_DISABLE : Z := 16.
Definition FLAG_HUGE : Z := 128.
Definition FLAG_NO_EXECUTE : Z := 0x8000000000000000.

Inductive MapError := OutOfMemory | AlreadyMapped.

#[export] Instance MapError_eq_dec : EqDecision MapError.
Proof. solve_decision. Defined.

(** [mmu::phys_to_virt] and [mmu::virt_to_phys] *)
Definition phys_to_virt {E} (phys : Z) : comp E Z := add64 phys Phys.KERNEL_VMA_BASE.
Definition virt_to_phys {E} (virt : Z) : comp E Z := sub64 virt Phys.KERNEL_VMA_BASE.

(** A table is named by its physical address. *)
Definition table_from_phys {E} (phys : Z) : comp E Z :=
  virt ← phys_to_virt phys; virt_to_phys virt.

Definition pml4_index (addr : Z) : Z := Z.land (Z.shiftr addr 39) 0x1FF.
Definition pdpt_index (addr : Z) : Z := Z.land (Z.shiftr addr 30) 0x1FF.
Definition pd_index (addr : Z) : Z := Z.land (Z.shiftr addr 21) 0x1FF.
Definition pt_index (addr : Z) : Z := Z.land (Z.shiftr addr 12) 0x1FF.

(** [&table[i]] *)
Definition slot (table i : Z) : Z := table + 8 * i.

(** [e & FLAG != 0] *)
Definition has (e flag : Z) : bool := negb (Z.land e flag =? 0).

Record pmem (S : Type) := mkPmem { pm_mem : mem; pm_fa : S }.
Arguments mkPmem {_} _ _.
Arguments pm_mem {_} _.
Arguments pm_fa {_} _.

Section paging.
Context {S : Type} `{!FrameAlloc S}.

Definition read_entry {E} (addr : Z) : M (pmem S) E Z := gets (λ s, load64 (pm_mem s) addr).
Definition write_entry {E} (addr v : Z) : M (pmem S) E unit :=
  modify (λ s, mkPmem (store64 (pm_mem s) addr v) (pm_fa s)).

(** [phys::allocate_frame] on the allocator's part of the state. *)
Definition alloc_frame {E} : M (pmem S) E (option Z) :=
  zoom pm_fa (λ a s, mkPmem (pm_mem s) a) allocate_frame.

Definition allocate_table : M (pmem S) MapError Z :=
  frame ← alloc_frame;
  phys ← ok_or frame OutOfMemory;
  table ← lift (table_from_phys phys);
  _ ← modify (λ s, mkPmem (fill (pm_mem s) table (8 * PAGE_TABLE_ENTRIES) 0) (pm_fa s));
  mret phys.

(** [clone_kernel_pml4]; the argument is what [read_cr3] returns. *)
Definition clone_kernel_pml4 (kernel_cr3 : Z) : M (pmem S) MapError Z :=
  kernel ← lift (table_from_phys kernel_cr3);
  new_phys ← allocate_table;
  _ ← modify (λ s, mkPmem (copy (pm_mem s) (slot kernel 256) (slot new_phys 256) (8 * 256)) (pm_fa s));
  mret new_phys.

(** [ensure_table] on the entry at [entry]. *)
Definition ensure_table (entry : Z) (user : bool) : M (pmem S) MapError Z :=
  e ← read_entry entry;
  if negb (has e FLAG_PRESENT) then
    phys ← allocate_table;
    let flags := Z.lor FLAG_PRESENT FLAG_WRITABLE in
    let flags := if user then Z.lor flags FLAG_USER else flags in
    _ ← write_entry entry (Z.lor phys flags);
    mret phys
  else lift (table_from_phys (Z.land e ENTRY_ADDR_MASK)).

Definition map_page (pml4_phys virt_addr frame_phys flags : Z) : M (pmem S) MapError unit :=
  if negb (Z.land virt_addr 0xFFF =? 0) || negb (Z.land frame_phys 0xFFF =? 0) then throw AlreadyMapped
  else
    let user := has flags FLAG_USER in
    pml4 ← lift (table_from_phys pml4_phys);
    let pml4e := slot pml4 (pml4_index virt_addr) in
    pdpt ← ensure_table pml4e user;
    let pdpte := slot pdpt (pdpt_index virt_addr) in
    pd ← ensure_table pdpte user;
    e ← read_entry pdpte;
    if has e FLAG_HUGE then throw AlreadyMapped
    else
      let pde := slot pd (pd_index virt_addr) in
      pt ← ensure_table pde user;
      e ← read_entry pde;
      if has e FLAG_HUGE then throw AlreadyMapped
      else
        let pte := slot pt (pt_index virt_addr) in
        e ← read_entry pte;
        if has e FLAG_PRESENT then throw AlreadyMapped
        else write_entry pte (Z.lor frame_phys (Z.lor flags FLAG_PRESENT)).

Definition unmap_page {E} (pml4_phys virt_addr : Z) : M (pmem S) E unit :=
  if negb (Z.land virt_addr 0xFFF =? 0) then mret tt
  else
    pml4 ← lift (table_from_phys pml4_phys);
    pml4e ← read_entry (slot pml4 (pml4_index virt_addr));
    if negb (has pml4e FLAG_PRESENT) then mret tt
    else
      pdpt ← lift (table_from_phys (Z.land pml4e ENTRY_ADDR_MASK));
      pdpte ← read_entry (slot pdpt (pdpt_index virt_addr));
      if negb (has pdpte FLAG_PRESENT) || has pdpte FLAG_HUGE then mret tt
      else
        pd ← lift (table_from_phys (Z.land pdpte ENTRY_ADDR_MASK));
        pde ← read_entry (slot pd (pd_index virt_addr));
        if negb (has pde FLAG_PRESENT) || has pde FLAG_HUGE then mret tt
        else
          pt ← lift (table_from_phys (Z.land pde ENTRY_ADDR_MASK));
          write_entry (slot pt (pt_index virt_addr)) 0.

End paging.

(** [translate] only reads memory. *)
Definition translate {E} (m : mem) (pml4_phys virt_addr : Z) : comp E (option Z) :=
  pml4 ← table_from_phys pml4_phys;
  let pml4e := load64 m (slot pml4 (pml4_index virt_addr)) in
  if negb (has pml4e FLAG_PRESENT) then mret None
  else
    pdpt ← table_from_phys (Z.land pml4e ENTRY_ADDR_MASK);
    let pdpte := load64 m (slot pdpt (pdpt_index virt_addr)) in
    if negb (has pdpte FLAG_PRESENT) then mret None
    else if has pdpte FLAG_HUGE then
      let base := Z.land pdpte ENTRY_ADDR_MASK in
      let offset := Z.land virt_addr (2 ^ 30 - 1) in
      r ← add64 base offset; mret (Some r)
    else
      pd ← table_from_phys (Z.land pdpte ENTRY_ADDR_MASK);
      let pde := load64 m (slot pd (pd_index virt_addr)) in
      if negb (has pde FLAG_PRESENT) then mret None
      else if has pde FLAG_HUGE then
        let base := Z.land pde ENTRY_ADDR_MASK in
        let offset := Z.land virt_addr (2 ^ 21 - 1) in
        r ← add64 base offset; mret (Some r)
      else
        pt ← table_from_phys (Z.land pde ENTRY_ADDR_MASK);
        let pte := load64 m (slot pt (pt_index virt_addr)) in
        if negb (has pte FLAG_PRESENT) then mret None
        else
          let base := Z.land pte ENTRY_ADDR_MASK in
          let offset := Z.land virt_addr 0xFFF in
          r ← add64 base offset; mret (Some r).

(** ** Entries and indices *)

Lemma land_mask x : 0 ≤ x → Z.land x ENTRY_ADDR_MASK = x mod 2 ^ 52 - x mod 2 ^ 12.
Proof.
  intros Hx. change ENTRY_ADDR_MASK with (Z.shiftl (Z.ones 40) 12).
  assert (x mod 2 ^ 52 - x mod 2 ^ 12 = Z.shiftl (Z.land (Z.shiftr x 12) (Z.ones 40)) 12) as ->.
  { rewrite Z.shiftl_mul_pow2, Z.land_ones, Z.shiftr_div_pow2 by lia. Z.div_mod_to_equations. lia. }
  apply Z.bits_inj'. intros i Hi. rewrite Z.land_spec, !Z.shiftl_spec by lia.
  destruct (Z_lt_dec i 12).
  - rewrite !(Z.testbit_neg_r _ (i - 12)) by lia. apply andb_false_r.
  - rewrite Z.land_spec, Z.shiftr_spec by lia. by replace (i - 12 + 12) with i by lia.
Qed.

(** A physical address that fits an entry. *)
Definition frame_ok (f : Z) : Prop := 0 ≤ f < 2 ^ 47 ∧ f mod 4096 = 0.

(** Flags do not touch the address bits of an entry. *)
Definition flags_ok (flags : Z) : Prop := u64 flags ∧ Z.land flags ENTRY_ADDR_MASK = 0.

Lemma frame_mask f : frame_ok f → Z.land f ENTRY_ADDR_MASK = f.
Proof.
  intros [Hf Hm]. rewrite land_mask by lia. change (2 ^ 12) with 4096.
  rewrite Z.mod_small by lia. lia.
Qed.

Lemma frame_low f a : frame_ok f → 0 ≤ a < 4096 → Z.land f a = 0.
Proof.
  intros [Hf Hm] Ha. assert (f = Z.shiftl (f / 4096) 12) as ->.
  { rewrite Z.shiftl_mul_pow2 by lia. Z.div_mod_to_equations. lia. }
  apply Z.bits_inj'. intros i Hi. rewrite Z.land_spec, Z.bits_0, Z.shiftl_spec by lia.
  destruct (Z_lt_dec i 12); [by rewrite Z.testbit_neg_r by lia|].
  rewrite <- (Z.mod_small a (2 ^ 12)), Z.mod_pow2_bits_high by lia. apply andb_false_r.
Qed.

Lemma entry_addr f flags : frame_ok f → flags_ok flags → Z.land (Z.lor f flags) ENTRY_ADDR_MASK = f.
Proof. intros Hf [_ Hfl]. by rewrite Z.land_lor_distr_l, Hfl, frame_mask, Z.lor_0_r. Qed.

Lemma entry_flag f flags a : frame_ok f → 0 ≤ a < 4096 → has (Z.lor f flags) a = has flags a.
Proof. intros Hf Ha. unfold has. by rewrite Z.land_lor_distr_l, (frame_low f a), Z.lor_0_l. Qed.

Lemma lor_u64 a b : u64 a → u64 b → u64 (Z.lor a b).
Proof.
  intros [Ha Ha'] [Hb Hb']. split; [by apply Z.lor_nonneg|].
  destruct (decide (Z.lor a b = 0)) as [->|]; [done|]. change U64 with (2 ^ 64) in *.
  assert (0 ≤ Z.lor a b) by (by apply Z.lor_nonneg). apply Z.log2_lt_pow2; [lia|].
  rewrite Z.log2_lor by done. apply Z.max_lub_lt.
  - destruct (decide (a = 0)) as [->|]; [done|]. apply Z.log2_lt_pow2; lia.
  - destruct (decide (b = 0)) as [->|]; [done|]. apply Z.log2_lt_pow2; lia.
Qed.

Lemma table_from_phys_ok {E} t : 0 ≤ t < 2 ^ 47 → @table_from_phys E t = Ok t.
Proof.
  intros. unfold table_from_phys, phys_to_virt, virt_to_phys, Phys.KERNEL_VMA_BASE. comp_simpl. f_equal. lia.
Qed.

Lemma index_spec va k : 0 ≤ k → Z.land (Z.shiftr va k) 0x1FF = (va / 2 ^ k) mod 512.
Proof. intros. rewrite Z.shiftr_div_pow2 by lia. apply (land_low_mask _ 9). lia. Qed.

(** The four indices of an address. *)
Definition path (va : Z) : list Z := [pml4_index va; pdpt_index va; pd_index va; pt_index va].

Lemma path_spec va : path va = [(va / 2 ^ 39) mod 512; (va / 2 ^ 30) mod 512; (va / 2 ^ 21) mod 512; (va / 2 ^ 12) mod 512].
Proof. unfold path, pml4_index, pdpt_index, pd_index, pt_index. by rewrite !index_spec by lia. Qed.

(** Two 48-bit addresses with the same indices lie in the same page. *)
Lemma path_inj va va' : 0 ≤ va < 2 ^ 48 → 0 ≤ va' < 2 ^ 48 → path va = path va' → va / 4096 = va' / 4096.
Proof. intros H1 H2. rewrite !path_spec. intros [= E1 E2 E3 E4]. Z.div_mod_to_equations. lia. Qed.

(** ** Address spaces as trees of tables

    [walk m t p] follows the indices [p] from table [t]. *)

Definition next_table (m : mem) (t i : Z) : option Z :=
  let e := load64 m (slot t i) in if has e FLAG_PRESENT then Some (Z.land e ENTRY_ADDR_MASK) else None.

Fixpoint walk (m : mem) (t : Z) (p : list Z) : option Z :=
  match p with
  | [] => Some t
  | i :: p => u ← next_table m t i; walk m u p
  end.

(** The paths of the tables of the lower half, which belongs to the process. *)
Definition upath (p : list Z) : Prop :=
  (length p ≤ 3)%nat ∧ Forall (λ i, 0 ≤ i < 512) p ∧ (∀ i, head p = Some i → i < 256).

(** The leaf entry of a path of four indices. *)
Definition pte (m : mem) (pml4 : Z) (q : list Z) (l : Z) : option Z :=
  t ← walk m pml4 q; let e := load64 m (slot t l) in if has e FLAG_PRESENT then Some e else None.

(** The lower half is a tree: every table has one path, no table is a free
    frame, and nothing below the root is a huge page. *)
Record space_inv (m : mem) (pml4 : Z) (pool : list Z) : Prop := {
  si_frame : ∀ p t, upath p → walk m pml4 p = Some t → frame_ok t ∧ t ∉ pool;
  si_inj : ∀ p q t, upath p → upath q → walk m pml4 p = Some t → walk m pml4 q = Some t → p = q;
  si_huge : ∀ p i t, upath (p ++ [i]) → p ≠ [] → walk m pml4 p = Some t →
    has (load64 m (slot t i)) FLAG_PRESENT = true → has (load64 m (slot t i)) FLAG_HUGE = false;
  si_pool : Forall frame_ok pool;
  si_nodup : NoDup pool;
  si_mem : mem_ok m
}.

(** Memory that belongs to the lower half or is free. *)
Definition private (m : mem) (pml4 : Z) (pool : list Z) (x : Z) : Prop :=
  (∃ f, f ∈ pool ∧ f ≤ x < f + 4096) ∨
  ∃ p t, upath p ∧ walk m pml4 p = Some t ∧ t ≤ x < t + 4096 ∧ (p = [] → x < t + 2048).

(** Adding tables: the mappings are the same, only private memory changes. *)
Record table_ext (pml4 : Z) (m : mem) (pool : list Z) (m' : mem) (pool' : list Z) : Prop := {
  te_inv : space_inv m' pml4 pool';
  te_walk : ∀ p t, upath p → walk m pml4 p = Some t → walk m' pml4 p = Some t;
  te_pte : ∀ q l, upath q → length q = 3%nat → 0 ≤ l < 512 → pte m' pml4 q l = pte m pml4 q l;
  te_frame : ∀ x, ¬ private m pml4 pool x → m' x = m x;
  te_private : ∀ x, private m' pml4 pool' x → private m pml4 pool x
}.

Lemma walk_app m t p q : walk m t (p ++ q) = walk m t p ≫= λ u, walk m u q.
Proof.
  revert t. induction p as [|i p IH]; intros t; simpl; [done|]. destruct (next_table m t i); simpl; [apply IH|done].
Qed.

Lemma walk_snoc m t p i : walk m t (p ++ [i]) = walk m t p ≫= λ u, next_table m u i.
Proof. rewrite walk_app. destruct (walk m t p) as [u|]; simpl; [|done]. by destruct (next_table m u i). Qed.

Lemma upath_snoc p i : upath (p ++ [i]) → upath p ∧ 0 ≤ i < 512 ∧ (p = [] → i < 256) ∧ (length p ≤ 2)%nat.
Proof.
  intros (Hlen & Hall & Hhd). rewrite length_app in Hlen. simpl in Hlen.
  apply Forall_app in Hall as [Hp Hi]. apply Forall_cons_iff in Hi as [Hi _].
  split_and!; try done; try lia.
  - split_and!; [lia|done|]. destruct p; [done|]. apply Hhd.
  - intros ->. by apply Hhd.
Qed.

Lemma prefix_snoc_iff {A} (k q : list A) (j : A) : k `prefix_of` q ++ [j] ↔ k = q ++ [j] ∨ k `prefix_of` q.
Proof.
  split.
  - intros [r Hr]. destruct r as [|y r _] using rev_ind; [left; by rewrite app_nil_r in Hr|].
    right. rewrite app_assoc in Hr. apply app_inj_tail in Hr as [-> _]. by exists r.
  - intros [->|[r ->]]; [done|]. exists (r ++ [j]). by rewrite app_assoc.
Qed.

Lemma frames_disjoint f g : frame_ok f → frame_ok g → f ≠ g → f + 4096 ≤ g ∨ g + 4096 ≤ f.
Proof. intros [_ Hf] [_ Hg] Hne. Z.div_mod_to_equations. lia. Qed.

(** Linking the zeroed frame [f] into slot [i] of table [t]. *)
Definition graft (m : mem) (t i f v : Z) : mem := store64 (fill m f 4096 0) (slot t i) v.

Lemma load_graft m t i f v u j : frame_ok t → frame_ok u → frame_ok f → t ≠ f → u ≠ f → u64 v →
  0 ≤ i < 512 → 0 ≤ j < 512 →
  load64 (graft m t i f v) (slot u j) = if decide (u = t ∧ j = i) then v else load64 m (slot u j).
Proof.
  intros Ht Hu Hf Htf Huf Hv Hi Hj. unfold graft, slot. pose proof (frames_disjoint _ _ Hu Hf Huf).
  destruct (decide _) as [[-> ->]|Hne]; [by apply load64_store64|].
  rewrite load64_store64_ne; [apply load64_fill_out; lia|].
  destruct (decide (u = t)) as [->|Hut]; [|pose proof (frames_disjoint _ _ Hu Ht Hut); lia].
  assert (j ≠ i) by (intros ->; tauto). lia.
Qed.

Lemma load_graft_new m t i f v j : frame_ok t → frame_ok f → t ≠ f → 0 ≤ i < 512 → 0 ≤ j < 512 →
  load64 (graft m t i f v) (slot f j) = 0.
Proof.
  intros Ht Hf Htf Hi Hj. unfold graft, slot. pose proof (frames_disjoint _ _ Ht Hf Htf).
  rewrite load64_store64_ne by lia. apply load64_fill; lia.
Qed.

Section graft.
Context (m : mem) (pml4 : Z) (f : Z) (pool : list Z) (p : list Z) (i t v : Z).
Hypothesis Hinv : space_inv m pml4 (f :: pool).
Hypothesis Hpi : upath (p ++ [i]).
Hypothesis Hp : walk m pml4 p = Some t.
Hypothesis Hnone : next_table m t i = None.
Hypothesis Hv : u64 v.
Hypothesis Hv_present : has v FLAG_PRESENT = true.
Hypothesis Hv_addr : Z.land v ENTRY_ADDR_MASK = f.
Hypothesis Hv_huge : has v FLAG_HUGE = false.

Let m' : mem := graft m t i f v.

Lemma graft_frames : frame_ok f ∧ frame_ok t ∧ t ≠ f ∧ f ∉ pool.
Proof.
  destruct (upath_snoc _ _ Hpi) as (Hup & _). destruct (si_frame _ _ _ Hinv p t Hup Hp) as [Ht Hin].
  pose proof (si_pool _ _ _ Hinv) as Hf. apply Forall_cons_iff in Hf as [Hf _].
  pose proof (si_nodup _ _ _ Hinv) as Hnd. apply NoDup_cons in Hnd as [Hnf _].
  split_and!; try done. intros ->. apply Hin. left.
Qed.

Lemma graft_next_old q u j : upath q → walk m pml4 q = Some u → 0 ≤ j < 512 →
  load64 m' (slot u j) = if decide (q ++ [j] = p ++ [i]) then v else load64 m (slot u j).
Proof.
  intros Hq Hu Hj. destruct graft_frames as (Hf & Ht & Htf & _).
  destruct (si_frame _ _ _ Hinv q u Hq Hu) as [Huf Hin]. destruct (upath_snoc _ _ Hpi) as (Hup & Hi & _).
  unfold m'. rewrite load_graft; try done; [|intros ->; apply Hin; left].
  destruct (decide (u = t ∧ j = i)) as [[Hut Hji]|Hne], (decide (q ++ [j] = p ++ [i])) as [Heq|Hne']; try done.
  - exfalso. apply Hne'. subst u. rewrite Hji. f_equal. by apply (si_inj _ _ _ Hinv q p t).
  - exfalso. apply Hne. apply app_inj_tail in Heq as [-> ->]. split; [|done]. congruence.
Qed.

Lemma graft_walk q : upath q → walk m' pml4 q =
  if decide ((p ++ [i]) `prefix_of` q) then (if decide (q = p ++ [i]) then Some f else None) else walk m pml4 q.
Proof.
  destruct graft_frames as (Hf & Ht & Htf & _). destruct (upath_snoc _ _ Hpi) as (Hup & Hi & _).
  induction q as [|j q IH] using rev_ind; intros Hq.
  { destruct (decide _) as [Hpre|]; [|done]. apply prefix_nil_inv in Hpre. by destruct p. }
  destruct (upath_snoc _ _ Hq) as (Hq' & Hj & _). rewrite walk_snoc, IH by done.
  destruct (decide ((p ++ [i]) `prefix_of` q)) as [Hpre|Hnpre].
  - rewrite (decide_True (P:=_ `prefix_of` q ++ [j])) by (apply prefix_snoc_iff; by right).
    rewrite (decide_False (P:=q ++ [j] = _)).
    2:{ intros Heq. rewrite <- Heq in Hpre. apply prefix_length in Hpre. rewrite length_app in Hpre. simpl in Hpre. lia. }
    destruct (decide (q = p ++ [i])) as [->|]; [|done]. simpl. unfold next_table, m'. by rewrite load_graft_new.
  - destruct (decide ((p ++ [i]) `prefix_of` q ++ [j])) as [Hpre|Hnpre'].
    + apply prefix_snoc_iff in Hpre as [Heq|?]; [|done]. rewrite decide_True by done.
      pose proof Heq as Heq'. apply app_inj_tail in Heq as [Hpq Hij]. rewrite <- Hpq, Hp. simpl. unfold next_table.
      rewrite (graft_next_old p t j) by done. rewrite decide_True by (by rewrite <- Hij).
      by rewrite Hv_present, Hv_addr.
    + rewrite walk_snoc. destruct (walk m pml4 q) as [u|] eqn:Hu; [|done]. simpl. unfold next_table.
      rewrite (graft_next_old q u j) by done. rewrite decide_False; [done|].
      intros Heq. apply Hnpre'. by rewrite Heq.
Qed.

Lemma graft_walk_old q u : upath q → walk m pml4 q = Some u → walk m' pml4 q = Some u.
Proof.
  intros Hq Hu. rewrite graft_walk by done. destruct (decide _) as [[r Hr]|]; [|done]. exfalso.
  rewrite Hr, walk_app, walk_snoc, Hp in Hu. simpl in Hu. by rewrite Hnone in Hu.
Qed.

Lemma graft_walk_inv q u : upath q → walk m' pml4 q = Some u →
  q = p ++ [i] ∧ u = f ∨ q ≠ p ++ [i] ∧ walk m pml4 q = Some u.
Proof.
  intros Hq. rewrite graft_walk by done. destruct (decide (_ `prefix_of` _)) as [|Hn].
  - destruct (decide (q = p ++ [i])); [|done]. intros [= <-]. by left.
  - intros Hu. right. split; [|done]. intros ->. by apply Hn.
Qed.

Lemma graft_inv : space_inv m' pml4 pool.
Proof.
  destruct graft_frames as (Hf & Ht & Htf & Hfp).
  assert (∀ q u, upath q → walk m pml4 q = Some u → u ≠ f) as Hold.
  { intros q u Hq Hu ->. destruct (si_frame _ _ _ Hinv q f Hq Hu) as [_ Hin]. apply Hin. left. }
  split.
  - intros q u Hq Hu. apply graft_walk_inv in Hu as [[_ ->]|[_ Hu]]; [done| |done].
    destruct (si_frame _ _ _ Hinv q u Hq Hu) as [Hok Hin]. split; [done|]. intros ?. apply Hin. by right.
  - intros q1 q2 u Hq1 Hq2 Hu1 Hu2. apply graft_walk_inv in Hu1, Hu2; [|done..].
    destruct Hu1 as [[-> ->]|[_ Hu1]], Hu2 as [[-> Hu2]|[_ Hu2]]; try done.
    + by destruct (Hold q2 f).
    + subst u. by destruct (Hold q1 f).
    + by apply (si_inj _ _ _ Hinv q1 q2 u).
  - intros q j u Hqj Hne Hu Hpres. destruct (upath_snoc _ _ Hqj) as (Hq & Hj & _).
    destruct (upath_snoc _ _ Hpi) as (_ & Hi & _).
    apply graft_walk_inv in Hu as [[_ ->]|[_ Hu]]; [| |done].
    + unfold m' in Hpres |- *. by rewrite load_graft_new in Hpres |- *.
    + rewrite (graft_next_old q u j) in Hpres |- * by done.
      destruct (decide _); [done|]. by apply (si_huge _ _ _ Hinv q j u).
  - pose proof (si_pool _ _ _ Hinv) as Hpool. by apply Forall_cons_iff in Hpool as [_ ?].
  - pose proof (si_nodup _ _ _ Hinv) as Hnd. by apply NoDup_cons in Hnd as [_ ?].
  - apply mem_ok_store64, mem_ok_fill; [by destruct Hinv|done].
Qed.

Lemma graft_pte q l : upath q → length q = 3%nat → 0 ≤ l < 512 → pte m' pml4 q l = pte m pml4 q l.
Proof.
  intros Hq Hlen Hl. destruct graft_frames as (Hf & Ht & Htf & _).
  destruct (upath_snoc _ _ Hpi) as (Hup & Hi & _ & Hplen). unfold pte.
  destruct (walk m pml4 q) as [u|] eqn:Hu.
  - rewrite (graft_walk_old q u) by done. simpl. rewrite (graft_next_old q u l) by done.
    rewrite decide_False; [done|]. intros Heq. apply app_inj_tail in Heq as [Heq _]. rewrite Heq in Hlen. lia.
  - destruct (walk m' pml4 q) as [u|] eqn:Hu'; [|done]. simpl.
    apply graft_walk_inv in Hu' as [[_ ->]|[_ Hu']]; [|congruence|done].
    unfold m'. by rewrite load_graft_new.
Qed.

Lemma graft_ext : table_ext pml4 m (f :: pool) m' pool.
Proof.
  destruct graft_frames as (Hf & Ht & Htf & _). destruct (upath_snoc _ _ Hpi) as (Hup & Hi & Hi0 & _). split.
  - apply graft_inv.
  - apply graft_walk_old.
  - apply graft_pte.
  - intros x Hx. unfold m', graft, store64, slot. rewrite store_bytes_out, fill_out; [done| |].
    + intros Hr. apply Hx. left. exists f. split; [left|lia].
    + rewrite length_le_bytes. intros Hr. apply Hx. right. exists p, t. split_and!; try done; try lia.
      all: intros Hnil; specialize (Hi0 Hnil); lia.
  - intros x [(g & Hg & Hx)|(q & u & Hq & Hu & Hx & Hx0)].
    + left. exists g. split; [by right|done].
    + apply graft_walk_inv in Hu as [[_ ->]|[_ Hu]]; [| |done].
      * left. exists f. split; [left|done].
      * right. by exists q, u.
Qed.

End graft.

Lemma table_ext_refl pml4 m pool : space_inv m pml4 pool → table_ext pml4 m pool m pool.
Proof. by split. Qed.

Lemma table_ext_trans pml4 m1 p1 m2 p2 m3 p3 :
  table_ext pml4 m1 p1 m2 p2 → table_ext pml4 m2 p2 m3 p3 → table_ext pml4 m1 p1 m3 p3.
Proof.
  intros [_ Hw1 Ht1 Hf1 Hp1] [Hi2 Hw2 Ht2 Hf2 Hp2]. split; [done|eauto| | |eauto].
  - intros q l Hq Hl Hl'. by rewrite Ht2, Ht1.
  - intros x Hx. rewrite Hf2, Hf1; auto.
Qed.

(** ** Writing a leaf entry *)

Section leaf.
Context (m : mem) (pml4 : Z) (pool : list Z) (q : list Z) (t l v : Z).
Hypothesis Hinv : space_inv m pml4 pool.
Hypothesis Hq : upath q.
Hypothesis Hqlen : length q = 3%nat.
Hypothesis Hqt : walk m pml4 q = Some t.
Hypothesis Hl : 0 ≤ l < 512.
Hypothesis Hv : u64 v.

Let m' : mem := store64 m (slot t l) v.

Lemma leaf_load r u j : upath r → walk m pml4 r = Some u → 0 ≤ j < 512 →
  load64 m' (slot u j) = if decide (r ++ [j] = q ++ [l]) then v else load64 m (slot u j).
Proof.
  intros Hr Hu Hj. destruct (si_frame _ _ _ Hinv r u Hr Hu) as [Huf _], (si_frame _ _ _ Hinv q t Hq Hqt) as [Htf _].
  unfold m'. destruct (decide (r ++ [j] = q ++ [l])) as [Heq|Hne].
  - apply app_inj_tail in Heq as [Hrq ->]. rewrite Hrq in Hu.
    assert (u = t) as -> by congruence. by apply load64_store64.
  - apply load64_store64_ne. unfold slot. destruct (decide (u = t)) as [->|Hut].
    + assert (j ≠ l); [|lia]. intros ->. apply Hne. f_equal. by apply (si_inj _ _ _ Hinv r q t).
    + pose proof (frames_disjoint _ _ Huf Htf Hut). lia.
Qed.

Lemma leaf_walk r : upath r → walk m' pml4 r = walk m pml4 r.
Proof.
  induction r as [|j r IH] using rev_ind; intros Hr; [done|].
  destruct (upath_snoc _ _ Hr) as (Hr' & Hj & _ & Hlen). rewrite !walk_snoc, IH by done.
  destruct (walk m pml4 r) as [u|] eqn:Hu; [|done]. simpl. unfold next_table.
  rewrite (leaf_load r u j) by done. rewrite decide_False; [done|].
  intros Heq. apply app_inj_tail in Heq as [Heq _]. rewrite Heq in Hlen. lia.
Qed.

Lemma leaf_inv : space_inv m' pml4 pool.
Proof.
  split; [| | |by destruct Hinv..|apply mem_ok_store64; by destruct Hinv].
  - intros r u Hr. rewrite leaf_walk by done. by apply (si_frame _ _ _ Hinv).
  - intros r1 r2 u Hr1 Hr2. rewrite !leaf_walk by done. by apply (si_inj _ _ _ Hinv).
  - intros r j u Hrj Hne. destruct (upath_snoc _ _ Hrj) as (Hr & Hj & _ & Hlen). rewrite leaf_walk by done.
    intros Hu. rewrite (leaf_load r u j), decide_False by (done ||
      (intros Heq; apply app_inj_tail in Heq as [Heq _]; rewrite Heq in Hlen; lia)).
    by apply (si_huge _ _ _ Hinv r j u).
Qed.

Lemma leaf_pte r j : upath r → 0 ≤ j < 512 → pte m' pml4 r j =
  if decide (r ++ [j] = q ++ [l]) then (if has v FLAG_PRESENT then Some v else None) else pte m pml4 r j.
Proof.
  intros Hr Hj. unfold pte. rewrite leaf_walk by done. destruct (walk m pml4 r) as [u|] eqn:Hu; simpl.
  - rewrite (leaf_load r u j) by done. by destruct (decide _).
  - destruct (decide _) as [Heq|]; [|done]. apply app_inj_tail in Heq as [Heq _]. congruence.
Qed.

Lemma leaf_frame x : ¬ private m pml4 pool x → m' x = m x.
Proof.
  intros Hx. unfold m', store64, slot. apply store_bytes_out. rewrite length_le_bytes. intros Hr.
  apply Hx. right. exists q, t. split_and!; try done; try lia.
  all: intros ->; simpl in Hqlen; lia.
Qed.

Lemma leaf_private x : private m' pml4 pool x → private m pml4 pool x.
Proof.
  intros [?|(p & u & Hp & Hu & ?)]; [by left|right; exists p, u]. by rewrite leaf_walk in Hu.
Qed.

End leaf.

(** ** Writes that leave the tables alone *)

Section outside.
Context (m m' : mem) (pml4 : Z) (pool : list Z).
Hypothesis Hinv : space_inv m pml4 pool.
Hypothesis Hsame : ∀ x, private m pml4 pool x → m' x = m x.

Lemma outside_load p t i : upath p → walk m pml4 p = Some t → 0 ≤ i < 512 → (p = [] → i < 256) →
  load64 m' (slot t i) = load64 m (slot t i).
Proof.
  intros Hp Ht Hi H0. apply load64_ext. unfold slot. intros x Hx. apply Hsame. right. exists p, t.
  split_and!; try done; try lia. all: intros Hnil; specialize (H0 Hnil); lia.
Qed.

Lemma outside_walk p : upath p → walk m' pml4 p = walk m pml4 p.
Proof.
  induction p as [|i p IH] using rev_ind; intros Hp; [done|]. destruct (upath_snoc _ _ Hp) as (Hp' & Hi & H0 & _).
  rewrite !walk_snoc, IH by done. destruct (walk m pml4 p) as [t|] eqn:Ht; [|done]. simpl. unfold next_table.
  by rewrite (outside_load p t i).
Qed.

Lemma outside_inv : mem_ok m' → space_inv m' pml4 pool.
Proof.
  intros Hm. split; [| | |by destruct Hinv..|done].
  - intros p t Hp. rewrite outside_walk by done. by apply (si_frame _ _ _ Hinv).
  - intros p q t Hp Hq. rewrite !outside_walk by done. by apply (si_inj _ _ _ Hinv).
  - intros p i t Hpi Hne. destruct (upath_snoc _ _ Hpi) as (Hp & Hi & H0 & _). rewrite outside_walk by done.
    intros Ht. rewrite (outside_load p t i) by done. by apply (si_huge _ _ _ Hinv p).
Qed.

Lemma outside_private x : private m' pml4 pool x ↔ private m pml4 pool x.
Proof.
  unfold private. split; (intros [?|(p & t & Hp & Ht & ?)]; [by left|right; exists p, t]).
  - by rewrite outside_walk in Ht.
  - by rewrite outside_walk.
Qed.

Lemma outside_pte q l : upath q → length q = 3%nat → 0 ≤ l < 512 → pte m' pml4 q l = pte m pml4 q l.
Proof.
  intros Hq Hlen Hl. unfold pte. rewrite outside_walk by done.
  destruct (walk m pml4 q) as [t|] eqn:Ht; [|done]. simpl. rewrite (outside_load q t l); try done. by intros ->.
Qed.

End outside.

(** ** The operations *)

(** The lower half as a map from addresses to leaf entries. *)
Definition mapped (m : mem) (pml4 va : Z) : option Z :=
  pte m pml4 [pml4_index va; pdpt_index va; pd_index va] (pt_index va).

Lemma index_bounds va : Forall (λ i, 0 ≤ i < 512) (path va).
Proof. rewrite path_spec. repeat constructor; apply Z.mod_pos_bound; lia. Qed.

Lemma upath_va va : 0 ≤ va < 2 ^ 47 →
  upath ([] ++ [pml4_index va]) ∧ upath ([pml4_index va] ++ [pdpt_index va]) ∧
  upath ([pml4_index va; pdpt_index va] ++ [pd_index va]) ∧ 0 ≤ pt_index va < 512.
Proof.
  intros Hva. pose proof (index_bounds va) as Hb. unfold path in Hb.
  apply Forall_cons_iff in Hb as [H1 Hb]. apply Forall_cons_iff in Hb as [H2 Hb].
  apply Forall_cons_iff in Hb as [H3 Hb]. apply Forall_cons_iff in Hb as [H4 _].
  assert (pml4_index va < 256) as H0.
  { unfold pml4_index. rewrite index_spec by lia. Z.div_mod_to_equations. lia. }
  split_and!; try lia; (split_and!; [simpl; lia|by rewrite ?Forall_app, ?Forall_cons_iff, ?Forall_nil|by intros ? [= <-]]).
Qed.

Lemma mapped_path m pml4 va va' : 0 ≤ va < 2 ^ 47 → 0 ≤ va' < 2 ^ 47 → va / 4096 = va' / 4096 → mapped m pml4 va = mapped m pml4 va'.
Proof.
  intros Hva Hva' Heq. assert (path va = path va') as Hp.
  { rewrite !path_spec. change (2 ^ 12) with 4096. rewrite Heq.
    replace (2 ^ 39) with (4096 * 2 ^ 27) by lia. replace (2 ^ 30) with (4096 * 2 ^ 18) by lia.
    replace (2 ^ 21) with (4096 * 2 ^ 9) by lia. by rewrite <- !Z.div_div, Heq by lia. }
  unfold path in Hp. injection Hp as E1 E2 E3 E4. unfold mapped. by rewrite E1, E2, E3, E4.
Qed.

Lemma outside_mapped m m' pml4 pool va : (∀ x, private m pml4 pool x → m' x = m x) →
  0 ≤ va < 2 ^ 47 → mapped m' pml4 va = mapped m pml4 va.
Proof. intros Hsame Hva. destruct (upath_va va Hva) as (_ & _ & Hp3 & Hl). by apply (outside_pte _ _ _ pool). Qed.

(** One level of a walk: the entry is absent, or leads to the next table. *)
Lemma level_cases {E} m pml4 pool p i t : space_inv m pml4 pool → upath (p ++ [i]) → walk m pml4 p = Some t →
  let e := load64 m (slot t i) in
  has e FLAG_PRESENT = false ∨
  has e FLAG_PRESENT = true ∧ @table_from_phys E (Z.land e ENTRY_ADDR_MASK) = Ok (Z.land e ENTRY_ADDR_MASK) ∧
  walk m pml4 (p ++ [i]) = Some (Z.land e ENTRY_ADDR_MASK) ∧ (p ≠ [] → has e FLAG_HUGE = false).
Proof.
  intros Hinv Hpi Hp e. destruct (has e FLAG_PRESENT) eqn:Hpres; [right|by left].
  assert (walk m pml4 (p ++ [i]) = Some (Z.land e ENTRY_ADDR_MASK)) as Hw.
  { rewrite walk_snoc, Hp. simpl. unfold next_table. fold e. by rewrite Hpres. }
  destruct (si_frame _ _ _ Hinv _ _ Hpi Hw) as [[Hb _] _]. split_and!; try done; [by apply table_from_phys_ok|].
  intros Hne. by apply (si_huge _ _ _ Hinv p i t).
Qed.

Lemma mapped_none m pml4 va p i r t : [pml4_index va; pdpt_index va; pd_index va] = p ++ i :: r →
  walk m pml4 p = Some t → has (load64 m (slot t i)) FLAG_PRESENT = false → mapped m pml4 va = None.
Proof. intros Heq Ht Hh. unfold mapped, pte. rewrite Heq, walk_app, Ht. simpl. unfold next_table. by rewrite Hh. Qed.

Lemma root_ok {E} m pml4 pool : space_inv m pml4 pool → @table_from_phys E pml4 = Ok pml4.
Proof.
  intros Hinv. destruct (si_frame _ _ _ Hinv [] pml4) as [[Hroot _] _]; [|done|by apply table_from_phys_ok].
  split_and!; [simpl; lia|constructor|done].
Qed.

(** [translate] reads the lower half through [mapped]. *)
Lemma translate_mapped {E} m pml4 pool va : space_inv m pml4 pool → 0 ≤ va < 2 ^ 47 →
  @translate E m pml4 va = Ok ((λ e, Z.land e ENTRY_ADDR_MASK + va mod 4096) <$> mapped m pml4 va).
Proof.
  intros Hinv Hva. destruct (upath_va va Hva) as (Hp1 & Hp2 & Hp3 & Hl).
  unfold translate. rewrite (root_ok m pml4 pool) by done. cbn [mbind comp_bind].
  destruct (level_cases (E:=E) m pml4 pool [] _ pml4 Hinv Hp1 eq_refl) as [E1|(E1 & T1 & W1 & _)]; rewrite E1; cbn [negb];
    [by rewrite (mapped_none _ _ _ [] _ _ pml4 eq_refl)|].
  rewrite T1. cbn [mbind comp_bind]. set (t1 := Z.land _ ENTRY_ADDR_MASK) in *.
  destruct (level_cases (E:=E) m pml4 pool [_] _ t1 Hinv Hp2 W1) as [E2|(E2 & T2 & W2 & L2)]; rewrite E2; cbn [negb];
    [by rewrite (mapped_none _ _ _ [_] _ _ t1 eq_refl)|].
  rewrite T2, L2 by done. cbn [mbind comp_bind]. set (t2 := Z.land _ ENTRY_ADDR_MASK) in W2 |- *.
  destruct (level_cases (E:=E) m pml4 pool [_; _] _ t2 Hinv Hp3 W2) as [E3|(E3 & T3 & W3 & L3)]; rewrite E3; cbn [negb];
    [by rewrite (mapped_none _ _ _ [_; _] _ _ t2 eq_refl)|].
  rewrite T3, L3 by done. cbn [mbind comp_bind]. set (t3 := Z.land _ ENTRY_ADDR_MASK) in W3 |- *.
  unfold mapped, pte. cbn [app] in W3. rewrite W3. cbn [mbind option_bind].
  destruct (has (load64 m (slot t3 (pt_index va))) FLAG_PRESENT); [cbn [negb]|done].
  change 0xFFF with (2 ^ 12 - 1). rewrite land_low_mask by lia. change (2 ^ 12) with 4096.
  rewrite add64_ok; [done|]. pose proof (load64_bound m (slot t3 (pt_index va)) (si_mem _ _ _ Hinv)) as [? _].
  rewrite land_mask by done. pose proof (Z.mod_pos_bound va 4096). Z.div_mod_to_equations. lia.
Qed.

(** The entries [translate] reads. *)
Definition reads (m : mem) (pml4 va : Z) : list Z :=
  slot pml4 (pml4_index va) ::
  match next_table m pml4 (pml4_index va) with
  | None => []
  | Some t1 =>
      slot t1 (pdpt_index va) ::
      if has (load64 m (slot t1 (pdpt_index va))) FLAG_HUGE then [] else
      match next_table m t1 (pdpt_index va) with
      | None => []
      | Some t2 =>
          slot t2 (pd_index va) ::
          if has (load64 m (slot t2 (pd_index va))) FLAG_HUGE then [] else
          match next_table m t2 (pd_index va) with
          | None => []
          | Some t3 => [slot t3 (pt_index va)]
          end
      end
  end.

Lemma table_from_phys_inv {E} t u : @table_from_phys E t = Ok u → u = t.
Proof.
  unfold table_from_phys, phys_to_virt, virt_to_phys, add64. destruct (_ <? _); [|done]. cbn [mbind comp_bind].
  unfold sub64. destruct (_ <=? _); [|done]. intros [= <-]. lia.
Qed.

(** Two roots whose entries for [va] agree, and memories that agree on the
    entries read below, give the same translation. *)
Lemma translate_ext2 {E} m m' root root' va : 0 ≤ root < 2 ^ 47 → 0 ≤ root' < 2 ^ 47 →
  load64 m' (slot root' (pml4_index va)) = load64 m (slot root (pml4_index va)) →
  (∀ a, a ∈ tail (reads m root va) → load64 m' a = load64 m a) →
  @translate E m' root' va = translate m root va.
Proof.
  unfold reads, translate, next_table. intros Hr Hr' H0 H. cbn [tail] in H.
  rewrite !table_from_phys_ok by done. cbn [mbind comp_bind]. rewrite H0.
  destruct (has (load64 m (slot root _)) FLAG_PRESENT); [cbn [negb]|done].
  destruct (table_from_phys (Z.land (load64 m (slot root _)) _)) as [t1| | |] eqn:H1; try done. cbn [mbind comp_bind].
  apply table_from_phys_inv in H1. rewrite <- H1 in H. rewrite (H (slot t1 (pdpt_index va))) by left.
  destruct (has (load64 m (slot t1 _)) FLAG_PRESENT); [cbn [negb]|done].
  destruct (has (load64 m (slot t1 _)) FLAG_HUGE); [done|].
  destruct (table_from_phys (Z.land (load64 m (slot t1 _)) _)) as [t2| | |] eqn:H2; try done. cbn [mbind comp_bind].
  apply table_from_phys_inv in H2. rewrite <- H2 in H. rewrite (H (slot t2 (pd_index va))) by (right; left).
  destruct (has (load64 m (slot t2 _)) FLAG_PRESENT); [cbn [negb]|done].
  destruct (has (load64 m (slot t2 _)) FLAG_HUGE); [done|].
  destruct (table_from_phys (Z.land (load64 m (slot t2 _)) _)) as [t3| | |] eqn:H3; try done. cbn [mbind comp_bind].
  apply table_from_phys_inv in H3. rewrite <- H3 in H.
  by rewrite (H (slot t3 (pt_index va))) by (right; right; left).
Qed.

Lemma translate_ext {E} m m' root va : 0 ≤ root < 2 ^ 47 → (∀ a, a ∈ reads m root va → load64 m' a = load64 m a) →
  @translate E m' root va = translate m root va.
Proof. intros Hr H. apply translate_ext2; [done..| |]; [apply H; left|]. intros a Ha. apply H. by right. Qed.

(** ** Empty and cloned address spaces *)

Lemma empty_walk m root p : (∀ i, 0 ≤ i < 256 → load64 m (slot root i) = 0) → upath p → p ≠ [] → walk m root p = None.
Proof.
  intros Hz (_ & Hall & Hhd) Hne. destruct p as [|i p]; [done|]. apply Forall_cons_iff in Hall as [Hi _].
  specialize (Hhd i eq_refl). simpl. unfold next_table. by rewrite Hz by lia.
Qed.

Lemma empty_space_inv m root pool : (∀ i, 0 ≤ i < 256 → load64 m (slot root i) = 0) →
  frame_ok root → root ∉ pool → Forall frame_ok pool → NoDup pool → mem_ok m → space_inv m root pool.
Proof.
  intros Hz Hr Hnr Hok Hnd Hm. split; try done.
  - intros p t Hp Ht. destruct p as [|i p]; [by injection Ht as <-|]. by rewrite empty_walk in Ht.
  - intros p q t Hp Hq Ht Hu. destruct p as [|i p]; [|by rewrite empty_walk in Ht].
    destruct q as [|j q]; [done|by rewrite empty_walk in Hu].
  - intros p i t Hp Hne Ht. rewrite empty_walk in Ht; [done|done|by destruct (upath_snoc _ _ Hp)|done].
Qed.

Lemma empty_mapped m root va : (∀ i, 0 ≤ i < 256 → load64 m (slot root i) = 0) → 0 ≤ va < 2 ^ 47 → mapped m root va = None.
Proof. intros Hz Hva. unfold mapped, pte. rewrite empty_walk; [done|done|by destruct (upath_va va Hva) as (_ & _ & ? & _)|done]. Qed.

(** The memory after [clone_kernel_pml4]. *)
Lemma clone_mem m kernel root : frame_ok kernel → frame_ok root → kernel ≠ root →
  let m' := copy (fill m root 4096 0) (slot kernel 256) (slot root 256) (8 * 256) in
  (∀ i, 0 ≤ i < 256 → load64 m' (slot root i) = 0) ∧
  (∀ i, 256 ≤ i < 512 → load64 m' (slot root i) = load64 m (slot kernel i)) ∧
  (∀ x, ¬ (root ≤ x < root + 4096) → m' x = m x).
Proof.
  intros Hk Hr Hne m'. unfold m', slot. pose proof (frames_disjoint _ _ Hk Hr Hne). split_and!.
  - intros i Hi. trans (load64 (fill m root 4096 0) (root + 8 * i)); [|apply load64_fill; lia].
    apply load64_ext. intros x Hx. apply copy_out. lia.
  - intros i Hi. unfold load64. f_equal. apply load_bytes_ext. intros j Hj.
    rewrite copy_in by lia. rewrite fill_out by lia. f_equal. lia.
  - intros x Hx. rewrite copy_out, fill_out by lia. done.
Qed.

Lemma pml4_index_bounds va : 0 ≤ pml4_index va < 512.
Proof. unfold pml4_index. rewrite index_spec by lia. apply Z.mod_pos_bound. lia. Qed.

(** The root only contributes its own entry. *)
Lemma translate_root_eq {E} m m' kernel root va :
  frame_ok kernel → frame_ok root → 256 ≤ pml4_index va →
  (∀ i, 256 ≤ i < 512 → load64 m' (slot root i) = load64 m (slot kernel i)) →
  (∀ x, ¬ (root ≤ x < root + 4096) → m' x = m x) →
  (∀ a, a ∈ tail (reads m kernel va) → a + 8 ≤ root ∨ root + 4096 ≤ a) →
  @translate E m' root va = translate m kernel va.
Proof.
  intros Hk Hr Hidx Hroot Hout Hreads. pose proof (pml4_index_bounds va) as Hb.
  apply translate_ext2; [apply Hk|apply Hr|apply Hroot; lia|].
  intros a Ha. apply load64_ext. intros x Hx. apply Hout. specialize (Hreads a Ha). lia.
Qed.

Section specs.
Context {S : Type} `{!FrameAlloc S, !FrameAllocLaws S}.
Implicit Types s : pmem S.

Definition pm_inv (pml4 : Z) (s : pmem S) : Prop := fa_inv (pm_fa s) ∧ space_inv (pm_mem s) pml4 (fa_pool (pm_fa s)).

Definition ext (pml4 : Z) (s s' : pmem S) : Prop :=
  fa_inv (pm_fa s') ∧ table_ext pml4 (pm_mem s) (fa_pool (pm_fa s)) (pm_mem s') (fa_pool (pm_fa s')).

Lemma allocate_table_spec s : fa_inv (pm_fa s) → Forall frame_ok (fa_pool (pm_fa s)) →
  match fa_pool (pm_fa s) with
  | [] => ∃ a', allocate_table s = Err (OutOfMemory, mkPmem (pm_mem s) a') ∧ fa_inv a' ∧ fa_pool a' = []
  | f :: fs => ∃ a', allocate_table s = Ok (f, mkPmem (fill (pm_mem s) f 4096 0) a') ∧ fa_inv a' ∧ fa_pool a' = fs
  end.
Proof.
  intros Hinv Hok. unfold allocate_table, alloc_frame, mbind, M_bind, zoom, ok_or, lift, modify, mret, M_ret.
  destruct (fa_pool (pm_fa s)) as [|f fs] eqn:Hpool.
  - destruct (allocate_frame_nil MapError (pm_fa s)) as (a' & -> & ? & ?); [done..|]. by exists a'.
  - destruct (allocate_frame_cons MapError (pm_fa s) f fs) as (a' & -> & ? & ?); [done..|].
    apply Forall_cons_iff in Hok as [[Hf _] _]. rewrite table_from_phys_ok by done. by exists a'.
Qed.

Lemma table_flags_ok (user : bool) :
  let flags := if user then Z.lor (Z.lor FLAG_PRESENT FLAG_WRITABLE) FLAG_USER else Z.lor FLAG_PRESENT FLAG_WRITABLE in
  flags_ok flags ∧ has flags FLAG_PRESENT = true ∧ has flags FLAG_HUGE = false.
Proof. by destruct user. Qed.

Lemma ensure_table_spec pml4 s p i t user :
  pm_inv pml4 s → upath (p ++ [i]) → walk (pm_mem s) pml4 p = Some t →
  (∃ t' s', ensure_table (slot t i) user s = Ok (t', s') ∧ ext pml4 s s' ∧ walk (pm_mem s') pml4 (p ++ [i]) = Some t') ∨
  (∃ s', ensure_table (slot t i) user s = Err (OutOfMemory, s') ∧ ext pml4 s s' ∧ fa_pool (pm_fa s) = []).
Proof.
  intros [Hfa Hinv] Hpi Hp. unfold ensure_table. rewrite !(M_bind_ok (read_entry _) _ s _ s eq_refl).
  destruct (has (load64 (pm_mem s) (slot t i)) FLAG_PRESENT) eqn:Hpres; cbn [negb].
  - left. assert (walk (pm_mem s) pml4 (p ++ [i]) = Some (Z.land (load64 (pm_mem s) (slot t i)) ENTRY_ADDR_MASK)) as Hw.
    { rewrite walk_snoc, Hp. simpl. unfold next_table. by rewrite Hpres. }
    destruct (si_frame _ _ _ Hinv _ _ Hpi Hw) as [[Hb _] _].
    unfold lift. rewrite table_from_phys_ok by done. eexists _, s. split; [done|]. split; [|done].
    split; [done|]. by apply table_ext_refl.
  - pose proof (allocate_table_spec s Hfa (si_pool _ _ _ Hinv)) as Hal. destruct (fa_pool (pm_fa s)) as [|f fs] eqn:Hpool.
    + right. destruct Hal as (a' & Hal & Hfa' & Hpool'). exists (mkPmem (pm_mem s) a').
      unfold mbind, M_bind. rewrite Hal. split; [done|]. split; [|done]. split; [done|].
      cbn [pm_mem pm_fa]. rewrite Hpool, Hpool'. by apply table_ext_refl.
    + left. destruct Hal as (a' & Hal & Hfa' & Hpool'). unfold mbind, M_bind. rewrite Hal.
      unfold write_entry, modify, mret, M_ret. cbn [pm_mem pm_fa].
      destruct (table_flags_ok user) as (Hfl & Hflp & Hflh).
      set (flags := if user then _ else _) in *. pose proof (si_pool _ _ _ Hinv) as Hok.
      apply Forall_cons_iff in Hok as [Hf _].
      assert (u64 f) by (destruct Hf; unfold u64; lia).
      assert (u64 (Z.lor f flags)) by (apply lor_u64; [done|by destruct Hfl]).
      assert (next_table (pm_mem s) t i = None) by (unfold next_table; by rewrite Hpres).
      assert (has (Z.lor f flags) FLAG_PRESENT = true) by by rewrite entry_flag.
      assert (has (Z.lor f flags) FLAG_HUGE = false) by by rewrite entry_flag.
      pose proof (entry_addr f flags Hf Hfl).
      eexists f, _. split; [done|]. split; [split; [done|]|].
      * cbn [pm_mem pm_fa]. rewrite Hpool, Hpool'. by apply (graft_ext _ _ _ _ p).
      * cbn [pm_mem]. change (store64 _ _ _) with (graft (pm_mem s) t i f (Z.lor f flags)).
        rewrite (graft_walk _ _ f fs p) by done. by rewrite !decide_True by done.
Qed.

Lemma ext_refl pml4 s : pm_inv pml4 s → ext pml4 s s.
Proof. intros [? ?]. split; [done|]. by apply table_ext_refl. Qed.

Lemma ext_trans pml4 s1 s2 s3 : ext pml4 s1 s2 → ext pml4 s2 s3 → ext pml4 s1 s3.
Proof. intros [_ H1] [? H2]. split; [done|]. by eapply table_ext_trans. Qed.

Lemma ext_inv pml4 s s' : ext pml4 s s' → pm_inv pml4 s'.
Proof. intros [? []]. by split. Qed.

(** A present entry below the root is not a huge page. *)
Lemma entry_not_huge pml4 s p i t u : pm_inv pml4 s → upath (p ++ [i]) → p ≠ [] →
  walk (pm_mem s) pml4 p = Some t → walk (pm_mem s) pml4 (p ++ [i]) = Some u →
  has (load64 (pm_mem s) (slot t i)) FLAG_HUGE = false.
Proof.
  intros [_ Hinv] Hpi Hne Hp Hu. apply (si_huge _ _ _ Hinv p i t); try done.
  rewrite walk_snoc, Hp in Hu. simpl in Hu. unfold next_table in Hu. by destruct (has _ FLAG_PRESENT).
Qed.

(** What [map_page] does after the checks on alignment. *)
Definition map_result (pml4 va entry : Z) (s : pmem S) (r : comp (MapError * pmem S) (unit * pmem S)) : Prop :=
  ∃ s1, ext pml4 s s1 ∧
  ((r = Err (OutOfMemory, s1) ∧ (length (fa_pool (pm_fa s)) < 3)%nat) ∨
   (r = Err (AlreadyMapped, s1) ∧ mapped (pm_mem s) pml4 va ≠ None) ∨
   (∃ t, mapped (pm_mem s) pml4 va = None ∧
      walk (pm_mem s1) pml4 [pml4_index va; pdpt_index va; pd_index va] = Some t ∧
      r = Ok (tt, mkPmem (store64 (pm_mem s1) (slot t (pt_index va)) entry) (pm_fa s1)))).

Lemma ensure_pool pml4 s p i t user t' s' :
  pm_inv pml4 s → upath (p ++ [i]) → walk (pm_mem s) pml4 p = Some t →
  ensure_table (slot t i) user s = Ok (t', s') →
  (length (fa_pool (pm_fa s)) ≤ Datatypes.S (length (fa_pool (pm_fa s'))))%nat.
Proof.
  intros [Hfa Hinv] Hpi Hp. unfold ensure_table. rewrite (M_bind_ok (read_entry _) _ s _ s eq_refl).
  destruct (has (load64 (pm_mem s) (slot t i)) FLAG_PRESENT) eqn:Hpres; cbn [negb].
  - unfold lift. destruct (table_from_phys _); [|done..]. intros [= _ ->]. lia.
  - pose proof (allocate_table_spec s Hfa (si_pool _ _ _ Hinv)) as Hal.
    destruct (fa_pool (pm_fa s)) as [|f fs] eqn:Hpool; [simpl; lia|].
    destruct Hal as (a' & Hal & Hfa' & Hpool'). rewrite (M_bind_ok _ _ _ _ _ Hal).
    unfold mbind, M_bind, write_entry, modify, mret, M_ret. intros [= _ <-]. simpl. rewrite Hpool'. lia.
Qed.

Lemma map_page_run pml4 va frame flags s :
  pm_inv pml4 s → 0 ≤ va < 2 ^ 47 → va mod 4096 = 0 → frame_ok frame →
  map_result pml4 va (Z.lor frame (Z.lor flags FLAG_PRESENT)) s (map_page pml4 va frame flags s).
Proof.
  intros Hinv Hva Ham Hfr. destruct (upath_va va Hva) as (Hp1 & Hp2 & Hp3 & Hl).
  unfold map_page. change 0xFFF with (2 ^ 12 - 1). rewrite !land_low_mask by lia. change (2 ^ 12) with 4096.
  destruct Hfr as [_ Hfm]. rewrite Ham, Hfm.
  change (negb (0 =? 0) || negb (0 =? 0)) with false. cbv iota zeta.
  destruct (si_frame _ _ _ (proj2 Hinv) [] pml4) as [[Hroot _] _]; [by destruct (upath_snoc _ _ Hp1)|done|].
  rewrite (M_bind_lift _ _ _ pml4) by (by apply table_from_phys_ok). cbv zeta.
  destruct (ensure_table_spec pml4 s [] (pml4_index va) pml4 (has flags FLAG_USER))
    as [(t1 & s1 & He1 & Hx1 & Hw1)|(s1 & He1 & Hx1 & Hnil)]; try done.
  2:{ exists s1. split; [done|]. left. rewrite (M_bind_err _ _ _ _ He1). rewrite Hnil. simpl. split; [done|lia]. }
  pose proof (ensure_pool _ _ _ _ _ _ _ _ Hinv Hp1 eq_refl He1) as Hl1.
  rewrite (M_bind_ok _ _ _ _ _ He1). pose proof (ext_inv _ _ _ Hx1) as Hinv1.
  destruct (ensure_table_spec pml4 s1 [pml4_index va] (pdpt_index va) t1 (has flags FLAG_USER))
    as [(t2 & s2 & He2 & Hx2 & Hw2)|(s2 & He2 & Hx2 & Hnil)]; try done.
  2:{ exists s2. split; [by eapply ext_trans|]. left. rewrite (M_bind_err _ _ _ _ He2). rewrite Hnil in Hl1. simpl in Hl1.
      split; [done|lia]. }
  pose proof (ensure_pool _ _ _ _ _ _ _ _ Hinv1 Hp2 Hw1 He2) as Hl2.
  rewrite (M_bind_ok _ _ _ _ _ He2). pose proof (ext_inv _ _ _ Hx2) as Hinv2.
  rewrite (M_bind_ok (read_entry _) _ s2 _ s2 eq_refl).
  assert (walk (pm_mem s2) pml4 [pml4_index va] = Some t1) as Hw1'.
  { apply (te_walk _ _ _ _ _ (proj2 Hx2)); [by destruct (upath_snoc _ _ Hp2)|done]. }
  rewrite (entry_not_huge pml4 s2 [pml4_index va] (pdpt_index va) t1 t2) by done.
  destruct (ensure_table_spec pml4 s2 [pml4_index va; pdpt_index va] (pd_index va) t2 (has flags FLAG_USER))
    as [(t3 & s3 & He3 & Hx3 & Hw3)|(s3 & He3 & Hx3 & Hnil)]; try done.
  2:{ exists s3. split; [by eapply ext_trans, ext_trans|]. left. rewrite (M_bind_err _ _ _ _ He3).
      rewrite Hnil in Hl2. simpl in Hl2. split; [done|lia]. }
  rewrite (M_bind_ok _ _ _ _ _ He3). pose proof (ext_inv _ _ _ Hx3) as Hinv3.
  rewrite (M_bind_ok (read_entry _) _ s3 _ s3 eq_refl).
  assert (walk (pm_mem s3) pml4 [pml4_index va; pdpt_index va] = Some t2) as Hw2'.
  { apply (te_walk _ _ _ _ _ (proj2 Hx3)); [by destruct (upath_snoc _ _ Hp3)|done]. }
  rewrite (entry_not_huge pml4 s3 [pml4_index va; pdpt_index va] (pd_index va) t2 t3) by done.
  rewrite (M_bind_ok (read_entry _) _ s3 _ s3 eq_refl).
  assert (ext pml4 s s3) as Hx by (by eapply ext_trans, ext_trans).
  exists s3. split; [done|]. right.
  assert (mapped (pm_mem s) pml4 va = mapped (pm_mem s3) pml4 va) as -> by (symmetry; by apply (te_pte _ _ _ _ _ (proj2 Hx))).
  unfold mapped, pte. cbn [app] in Hw3. rewrite Hw3. simpl.
  destruct (has (load64 (pm_mem s3) (slot t3 (pt_index va))) FLAG_PRESENT); [by left|right]. by exists t3.
Qed.

(** Reading back a leaf written for page [va]. *)
Lemma mapped_leaf m pml4 pool va t v va' : space_inv m pml4 pool → 0 ≤ va < 2 ^ 47 → 0 ≤ va' < 2 ^ 47 → u64 v →
  walk m pml4 [pml4_index va; pdpt_index va; pd_index va] = Some t →
  mapped (store64 m (slot t (pt_index va)) v) pml4 va' =
    if va' / 4096 =? va / 4096 then (if has v FLAG_PRESENT then Some v else None) else mapped m pml4 va'.
Proof.
  intros Hinv Hva Hva' Hv Ht. destruct (upath_va va Hva) as (_ & _ & Hp3 & Hl), (upath_va va' Hva') as (_ & _ & Hp3' & Hl').
  unfold mapped at 1. rewrite (leaf_pte _ _ pool [pml4_index va; pdpt_index va; pd_index va]) by done.
  change ([pml4_index va'; pdpt_index va'; pd_index va'] ++ [pt_index va']) with (path va').
  change ([pml4_index va; pdpt_index va; pd_index va] ++ [pt_index va]) with (path va).
  destruct (Z.eqb_spec (va' / 4096) (va / 4096)) as [Heq|Hne], (decide (path va' = path va)) as [Hp|Hp]; try done.
  - exfalso. apply Hp. rewrite !path_spec. change (2 ^ 12) with 4096.
    replace (2 ^ 39) with (4096 * 2 ^ 27) by lia. replace (2 ^ 30) with (4096 * 2 ^ 18) by lia.
    replace (2 ^ 21) with (4096 * 2 ^ 9) by lia. by rewrite <- !Z.div_div, Heq by lia.
  - exfalso. apply Hne, path_inj; done || lia.
Qed.

(** What a successful [map_page] establishes; shared by the properties below. *)
Lemma map_page_ok pml4 va frame flags s s' :
  pm_inv pml4 s → 0 ≤ va < 2 ^ 47 → va mod 4096 = 0 → frame_ok frame → flags_ok flags →
  map_page pml4 va frame flags s = Ok (tt, s') →
  mapped (pm_mem s) pml4 va = None ∧ pm_inv pml4 s' ∧
  (∀ va', 0 ≤ va' < 2 ^ 47 → mapped (pm_mem s') pml4 va' =
     if va' / 4096 =? va / 4096 then Some (Z.lor frame (Z.lor flags FLAG_PRESENT)) else mapped (pm_mem s) pml4 va') ∧
  (∀ x, ¬ private (pm_mem s) pml4 (fa_pool (pm_fa s)) x → pm_mem s' x = pm_mem s x) ∧
  (∀ x, private (pm_mem s') pml4 (fa_pool (pm_fa s')) x → private (pm_mem s) pml4 (fa_pool (pm_fa s)) x).
Proof.
  intros Hinv Hva Ham Hfr Hfl Heq. destruct (map_page_run pml4 va frame flags s Hinv Hva Ham Hfr) as (s1 & Hx & Hc).
  rewrite Heq in Hc. destruct Hc as [[? _]|[[? _]|(t & Hn & Ht & Hr)]]; [done..|]. injection Hr as ->.
  pose proof (ext_inv _ _ _ Hx) as [Hfa1 Hinv1]. destruct (upath_va va Hva) as (_ & _ & Hp3 & Hl).
  assert (u64 (Z.lor frame (Z.lor flags FLAG_PRESENT))) as Hu.
  { destruct Hfr, Hfl. apply lor_u64; [unfold u64; lia|]. by apply lor_u64. }
  assert (has (Z.lor frame (Z.lor flags FLAG_PRESENT)) FLAG_PRESENT = true) as Hpres.
  { rewrite entry_flag by done. unfold has. rewrite Z.land_lor_distr_l. apply negb_true_iff, Z.eqb_neq.
    intros Hz. apply Z.lor_eq_0_iff in Hz as [_ Hz]. done. }
  split_and!; [done| | | |].
  - split; [done|]. simpl. by apply leaf_inv with (q := [pml4_index va; pdpt_index va; pd_index va]).
  - intros va' Hva'. simpl. rewrite (mapped_leaf _ _ (fa_pool (pm_fa s1))) by done. rewrite Hpres.
    destruct (_ =? _); [done|]. destruct (upath_va va' Hva') as (_ & _ & Hp3' & Hl').
    by apply (te_pte _ _ _ _ _ (proj2 Hx)).
  - intros x Hnp. simpl. trans (pm_mem s1 x); [|by apply (te_frame _ _ _ _ _ (proj2 Hx))].
    eapply (leaf_frame _ pml4 (fa_pool (pm_fa s1)) [pml4_index va; pdpt_index va; pd_index va]); try done.
    intros Hp. by apply Hnp, (te_private _ _ _ _ _ (proj2 Hx)).
  - intros x Hp. simpl in Hp. apply (te_private _ _ _ _ _ (proj2 Hx)).
    by eapply (leaf_private _ pml4 (fa_pool (pm_fa s1)) [pml4_index va; pdpt_index va; pd_index va]).
Qed.


(** [unmap_page] reaches the leaf table, or finds that nothing is mapped. *)
Lemma unmap_page_run {E} pml4 va s : pm_inv pml4 s → 0 ≤ va < 2 ^ 47 →
  (@unmap_page S E pml4 va s = Ok (tt, s) ∧ (va mod 4096 = 0 → mapped (pm_mem s) pml4 va = None)) ∨
  (∃ t, va mod 4096 = 0 ∧ walk (pm_mem s) pml4 [pml4_index va; pdpt_index va; pd_index va] = Some t ∧
     @unmap_page S E pml4 va s = Ok (tt, mkPmem (store64 (pm_mem s) (slot t (pt_index va)) 0) (pm_fa s))).
Proof.
  intros [Hfa Hinv] Hva. destruct (upath_va va Hva) as (Hp1 & Hp2 & Hp3 & Hl). set (m := pm_mem s) in *.
  unfold unmap_page. change 0xFFF with (2 ^ 12 - 1). rewrite land_low_mask by lia. change (2 ^ 12) with 4096.
  destruct (Z.eqb_spec (va mod 4096) 0) as [Ham|]; cbn [negb]; [|by left].
  rewrite (M_bind_lift _ _ _ pml4) by (by apply (root_ok m pml4 (fa_pool (pm_fa s)))).
  rewrite (M_bind_ok (read_entry _) _ s _ s eq_refl). fold m.
  destruct (level_cases (E:=E) m pml4 _ [] _ pml4 Hinv Hp1 eq_refl) as [E1|(E1 & T1 & W1 & _)]; rewrite E1; cbn [negb];
    [left; by rewrite (mapped_none _ _ _ [] _ _ pml4 eq_refl)|].
  rewrite (M_bind_lift _ _ _ _ T1), (M_bind_ok (read_entry _) _ s _ s eq_refl). fold m.
  set (t1 := Z.land _ ENTRY_ADDR_MASK) in *.
  destruct (level_cases (E:=E) m pml4 _ [_] _ t1 Hinv Hp2 W1) as [E2|(E2 & T2 & W2 & L2)]; rewrite E2; cbn [negb orb];
    [left; by rewrite (mapped_none _ _ _ [_] _ _ t1 eq_refl)|].
  rewrite L2, (M_bind_lift _ _ _ _ T2), (M_bind_ok (read_entry _) _ s _ s eq_refl) by done. fold m.
  set (t2 := Z.land _ ENTRY_ADDR_MASK) in W2 |- *.
  destruct (level_cases (E:=E) m pml4 _ [_; _] _ t2 Hinv Hp3 W2) as [E3|(E3 & T3 & W3 & L3)]; rewrite E3; cbn [negb orb];
    [left; by rewrite (mapped_none _ _ _ [_; _] _ _ t2 eq_refl)|].
  rewrite L3, (M_bind_lift _ _ _ _ T3) by done. right. by eexists.
Qed.

(** ** Properties *)

(** C31. [map_page] implements insertion into the map of the address space.  In
    the lower half of a well-formed address space it never panics and keeps the
    tables well formed, whatever its outcome.  It succeeds exactly by adding the
    one entry; it reports [AlreadyMapped] only for a page that is mapped, and
    [OutOfMemory] only when fewer than three frames are left, and then no
    mapping has changed.  It never writes outside the process's own tables and
    the free frames. *)
Theorem map_page_correct pml4 va frame flags s :
  pm_inv pml4 s → 0 ≤ va < 2 ^ 47 → va mod 4096 = 0 → frame_ok frame → flags_ok flags →
  ∃ s', pm_inv pml4 s' ∧ (∀ x, ¬ private (pm_mem s) pml4 (fa_pool (pm_fa s)) x → pm_mem s' x = pm_mem s x) ∧
  ((map_page pml4 va frame flags s = Ok (tt, s') ∧ mapped (pm_mem s) pml4 va = None ∧
    ∀ va', 0 ≤ va' < 2 ^ 47 → mapped (pm_mem s') pml4 va' =
      if va' / 4096 =? va / 4096 then Some (Z.lor frame (Z.lor flags FLAG_PRESENT)) else mapped (pm_mem s) pml4 va') ∨
   (∃ e, map_page pml4 va frame flags s = Err (e, s') ∧
    (e = AlreadyMapped ∧ mapped (pm_mem s) pml4 va ≠ None ∨
     e = OutOfMemory ∧ (length (fa_pool (pm_fa s)) < 3)%nat) ∧
    ∀ va', 0 ≤ va' < 2 ^ 47 → mapped (pm_mem s') pml4 va' = mapped (pm_mem s) pml4 va')).
Proof.
  intros Hinv Hva Ham Hfr Hfl. destruct (map_page_run pml4 va frame flags s Hinv Hva Ham Hfr) as (s1 & Hx & Hc).
  assert (∀ va', 0 ≤ va' < 2 ^ 47 → mapped (pm_mem s1) pml4 va' = mapped (pm_mem s) pml4 va') as Hsame.
  { intros va' Hva'. destruct (upath_va va' Hva') as (_ & _ & Hp3' & Hl'). by apply (te_pte _ _ _ _ _ (proj2 Hx)). }
  pose proof (te_frame _ _ _ _ _ (proj2 Hx)) as Hframe. pose proof (ext_inv _ _ _ Hx) as Hinv1.
  destruct Hc as [[Hr Hp]|[[Hr Hp]|(t & Hn & Ht & Hr)]].
  - exists s1. split_and!; [done..|]. right. exists OutOfMemory. auto.
  - exists s1. split_and!; [done..|]. right. exists AlreadyMapped. auto.
  - destruct (map_page_ok pml4 va frame flags s _ Hinv Hva Ham Hfr Hfl Hr) as (_ & Hinv' & Hm & Hf & _).
    eexists. split_and!; [exact Hinv'|exact Hf|]. left. by split_and!.
Qed.

(** Mapping and translation round trip.  After [map_page] has mapped [frame]
    at [va], [translate] sends every byte of the page to the same offset in the
    frame, and every other address of the lower half where it went before; so
    does every address of any other page-table root whose walk reads no table of
    this lower half and no free frame, in particular the kernel half. *)
Theorem map_page_translate pml4 va frame flags s s' :
  pm_inv pml4 s → 0 ≤ va < 2 ^ 47 → va mod 4096 = 0 → frame_ok frame → flags_ok flags →
  map_page pml4 va frame flags s = Ok (tt, s') →
  (∀ off, 0 ≤ off < 4096 → @translate Empty_set (pm_mem s') pml4 (va + off) = Ok (Some (frame + off))) ∧
  (∀ va', 0 ≤ va' < 2 ^ 47 → va' / 4096 ≠ va / 4096 →
     @translate Empty_set (pm_mem s') pml4 va' = translate (pm_mem s) pml4 va') ∧
  (∀ root va', 0 ≤ root < 2 ^ 47 → (∀ a x, a ∈ reads (pm_mem s) root va' → a ≤ x < a + 8 →
       ¬ private (pm_mem s) pml4 (fa_pool (pm_fa s)) x) →
     @translate Empty_set (pm_mem s') root va' = translate (pm_mem s) root va').
Proof.
  intros Hinv Hva Ham Hfr Hfl Hr.
  destruct (map_page_ok pml4 va frame flags s s' Hinv Hva Ham Hfr Hfl Hr) as (_ & [_ Hinv'] & Hm & Hf & _).
  destruct Hinv as [_ Hinv]. split_and!.
  - intros off Hoff. assert (0 ≤ va + off < 2 ^ 47) by (Z.div_mod_to_equations; lia).
    rewrite (translate_mapped _ _ (fa_pool (pm_fa s'))), Hm by done.
    replace ((va + off) / 4096 =? va / 4096) with true by (symmetry; apply Z.eqb_eq; Z.div_mod_to_equations; lia).
    simpl. rewrite entry_addr; [|done|].
    + do 2 f_equal. Z.div_mod_to_equations. lia.
    + destruct Hfl as [Hu Hz]. split; [by apply lor_u64|]. by rewrite Z.land_lor_distr_l, Hz.
  - intros va' Hva' Hne. rewrite (translate_mapped _ _ (fa_pool (pm_fa s'))), Hm by done.
    rewrite (translate_mapped (pm_mem s) _ (fa_pool (pm_fa s))) by done.
    by replace (va' / 4096 =? va / 4096) with false by (symmetry; by apply Z.eqb_neq).
  - intros root va' Hrt Hout. apply translate_ext; [done|]. intros a Ha. apply load64_ext. intros x Hx. apply Hf. by apply (Hout a).
Qed.

(** [unmap_page] implements deletion: it removes the entry of [va] and no
    other, keeps the tables well formed, writes nothing else, and does nothing
    when [va] is not page aligned.  It cannot fail or panic. *)
Theorem unmap_page_correct pml4 va s :
  pm_inv pml4 s → 0 ≤ va < 2 ^ 47 →
  ∃ s', @unmap_page S Empty_set pml4 va s = Ok (tt, s') ∧ pm_inv pml4 s' ∧
    (∀ va', 0 ≤ va' < 2 ^ 47 → mapped (pm_mem s') pml4 va' =
       if (va mod 4096 =? 0) && (va' / 4096 =? va / 4096) then None else mapped (pm_mem s) pml4 va') ∧
    (∀ x, ¬ private (pm_mem s) pml4 (fa_pool (pm_fa s)) x → pm_mem s' x = pm_mem s x).
Proof.
  intros Hinv Hva. destruct (upath_va va Hva) as (Hp1 & Hp2 & Hp3 & Hl). pose proof Hinv as [Hfa Hsi].
  destruct (unmap_page_run (E:=Empty_set) pml4 va s Hinv Hva) as [[Hr Hsame]|(t & Ham & Ht & Hr)].
  - exists s. split_and!; try done. intros va' Hva'. destruct (Z.eqb_spec (va mod 4096) 0) as [Ham|]; [simpl|done].
    destruct (Z.eqb_spec (va' / 4096) (va / 4096)) as [Heq|]; [|done].
    rewrite (mapped_path _ _ va' va) by done. by apply Hsame.
  - eexists. split; [exact Hr|]. split_and!.
    + split; [done|]. simpl. by apply leaf_inv with (q := [pml4_index va; pdpt_index va; pd_index va]).
    + intros va' Hva'. simpl. rewrite (mapped_leaf _ _ (fa_pool (pm_fa s))) by done. by rewrite Ham.
    + intros x Hx. simpl. by eapply (leaf_frame _ pml4 (fa_pool (pm_fa s)) [pml4_index va; pdpt_index va; pd_index va]).
Qed.

Lemma clone_kernel_pml4_spec kernel s :
  fa_inv (pm_fa s) → Forall frame_ok (fa_pool (pm_fa s)) → NoDup (fa_pool (pm_fa s)) → mem_ok (pm_mem s) →
  frame_ok kernel → kernel ∉ fa_pool (pm_fa s) →
  match fa_pool (pm_fa s) with
  | [] => ∃ s', clone_kernel_pml4 kernel s = Err (OutOfMemory, s') ∧ pm_mem s' = pm_mem s
  | root :: rest => ∃ s', clone_kernel_pml4 kernel s = Ok (root, s') ∧ pm_inv root s' ∧ fa_pool (pm_fa s') = rest ∧
      (∀ va, 0 ≤ va < 2 ^ 47 → mapped (pm_mem s') root va = None) ∧
      (∀ va, 256 ≤ pml4_index va → (∀ a, a ∈ tail (reads (pm_mem s) kernel va) → a + 8 ≤ root ∨ root + 4096 ≤ a) →
         @translate Empty_set (pm_mem s') root va = translate (pm_mem s) kernel va) ∧
      (∀ x, ¬ (root ≤ x < root + 4096) → pm_mem s' x = pm_mem s x)
  end.
Proof.
  intros Hfa Hok Hnd Hm Hk Hkp. pose proof (allocate_table_spec s Hfa Hok) as Hal.
  unfold clone_kernel_pml4. destruct (fa_pool (pm_fa s)) as [|root rest] eqn:Hpool.
  - destruct Hal as (a' & Hal & _). eexists. rewrite (M_bind_lift _ _ _ kernel) by (apply table_from_phys_ok; apply Hk).
    by rewrite (M_bind_err _ _ _ _ Hal).
  - destruct Hal as (a' & Hal & Hfa' & Hpool'). apply Forall_cons_iff in Hok as [Hroot Hok]. apply NoDup_cons in Hnd as [Hnr Hnd].
    assert (kernel ≠ root) as Hne by (intros ->; apply Hkp; left).
    eexists. split.
    { rewrite (M_bind_lift _ _ _ kernel) by (apply table_from_phys_ok; apply Hk).
      rewrite (M_bind_ok _ _ _ _ _ Hal). reflexivity. }
    cbn [pm_mem pm_fa]. pose proof (clone_mem (pm_mem s) kernel root Hk Hroot Hne) as (Hlow & Hhigh & Hout).
    unfold PAGE_TABLE_ENTRIES in *. set (m' := copy _ _ _ _) in *.
    assert (mem_ok m') by (by apply mem_ok_copy, mem_ok_fill).
    split_and!; try done.
    + split; [done|]. cbn [pm_mem pm_fa]. rewrite Hpool'. by apply empty_space_inv.
    + intros va Hva. by apply (empty_mapped m' root va).
    + intros va Hidx Hreads. by apply translate_root_eq.
Qed.

(** [clone_kernel_pml4] builds a fresh address space.  It takes one frame
    for the new root; every address of its lower half is unmapped, every address
    of its upper half translates as it does under the kernel's root, and no
    memory but the new frame is written.  It fails only when no frame is left. *)
Theorem clone_kernel_pml4_correct kernel s :
  fa_inv (pm_fa s) → Forall frame_ok (fa_pool (pm_fa s)) → NoDup (fa_pool (pm_fa s)) → mem_ok (pm_mem s) →
  frame_ok kernel → kernel ∉ fa_pool (pm_fa s) →
  match fa_pool (pm_fa s) with
  | [] => ∃ s', clone_kernel_pml4 kernel s = Err (OutOfMemory, s') ∧ pm_mem s' = pm_mem s
  | root :: rest => ∃ s', clone_kernel_pml4 kernel s = Ok (root, s') ∧ pm_inv root s' ∧ fa_pool (pm_fa s') = rest ∧
      (∀ va, 0 ≤ va < 2 ^ 47 → mapped (pm_mem s') root va = None) ∧
      (∀ va, 256 ≤ pml4_index va → (∀ a, a ∈ tail (reads (pm_mem s) kernel va) → a + 8 ≤ root ∨ root + 4096 ≤ a) →
         @translate Empty_set (pm_mem s') root va = translate (pm_mem s) kernel va) ∧
      (∀ x, ¬ (root ≤ x < root + 4096) → pm_mem s' x = pm_mem s x)
  end.
Proof. apply clone_kernel_pml4_spec. Qed.

End specs.





(** ** Witnesses: an empty address space over the real frame allocator *)

Definition example_space : pmem Phys.phys :=
  mkPmem (λ _, 0) (Phys.mkPhys Phys.example_symbols [Phys.mkRegion 0xC00000 0x8000] (Phys.mkFA 0xC00000 0xC08000 1)).

Lemma example_pool : fa_pool (pm_fa example_space) =
  [0xC00000; 0xC01000; 0xC02000; 0xC03000; 0xC04000; 0xC05000; 0xC06000; 0xC07000].
Proof. by vm_compute. Qed.

Lemma example_pool_ok : Forall frame_ok (fa_pool (pm_fa example_space)) ∧ NoDup (fa_pool (pm_fa example_space)).
Proof.
  rewrite example_pool. split; [repeat (apply Forall_cons_2; [by vm_compute|]); by apply Forall_nil_2|].
  repeat (apply NoDup_cons_2; [rewrite ?elem_of_cons, elem_of_nil; lia|]). apply NoDup_nil_2.
Qed.

Lemma example_fa_inv : fa_inv (pm_fa example_space).
Proof. split_and!; [apply Phys.example_symbols_ok| |by vm_compute]. repeat constructor; by vm_compute. Qed.

Lemma example_not_pool : 0x800000 ∉ fa_pool (pm_fa example_space).
Proof. rewrite example_pool, !elem_of_cons, elem_of_nil. lia. Qed.

Lemma example_inv : pm_inv 0x800000 example_space.
Proof.
  split; [apply example_fa_inv|]. destruct example_pool_ok.
  apply empty_space_inv; try done; apply example_not_pool.
Qed.

Definition user_flags : Z := Z.lor FLAG_USER FLAG_WRITABLE.

Lemma map_page_correct_witness :
  ∃ s', map_page 0x800000 0x400000 0xD00000 user_flags example_space = Ok (tt, s') ∧ pm_inv 0x800000 s'.
Proof.
  destruct (map_page_correct 0x800000 0x400000 0xD00000 user_flags example_space)
    as (s' & Hinv & _ & [(Heq & _)|(e & _ & [[_ Hm]|[_ Hp]] & _)]).
  - apply example_inv.
  - done.
  - done.
  - done.
  - done.
  - exists s'. split; [exact Heq|exact Hinv].
  - exfalso. by apply Hm, empty_mapped.
  - exfalso. rewrite example_pool in Hp. simpl in Hp. lia.
Defined.

Lemma map_page_translate_witness :
  ∃ s', map_page 0x800000 0x400000 0xD00000 user_flags example_space = Ok (tt, s') ∧
    @translate Empty_set (pm_mem s') 0x800000 0x400123 = Ok (Some 0xD00123).
Proof.
  assert (∃ s', map_page 0x800000 0x400000 0xD00000 user_flags example_space = Ok (tt, s')) as [s' Heq].
  { destruct (map_page 0x800000 0x400000 0xD00000 user_flags example_space) as [[[] s']| | |] eqn:Heq; [by eexists|exfalso..].
    all: by apply (f_equal (λ r, match r with Ok _ => true | _ => false end)) in Heq; vm_compute in Heq. }
  exists s'. split; [exact Heq|].
  destruct (map_page_translate 0x800000 0x400000 0xD00000 user_flags example_space s') as (Htr & _);
    [apply example_inv|done|done|done|done|exact Heq|].
  by apply (Htr 0x123).
Defined.

Lemma unmap_page_correct_witness :
  ∃ s', @unmap_page Phys.phys Empty_set 0x800000 0x400000 example_space = Ok (tt, s') ∧ pm_inv 0x800000 s'.
Proof.
  destruct (unmap_page_correct 0x800000 0x400000 example_space) as (s' & Heq & Hinv & _); [apply example_inv|done|].
  by exists s'.
Defined.

Lemma clone_kernel_pml4_correct_witness :
  ∃ s', clone_kernel_pml4 0x800000 example_space = Ok (0xC00000, s') ∧ pm_inv 0xC00000 s'.
Proof.
  pose proof (clone_kernel_pml4_correct 0x800000 example_space) as H. rewrite example_pool in H.
  destruct H as (s' & Heq & Hinv & _); try done.
  - apply example_fa_inv.
  - rewrite <- example_pool. apply example_pool_ok.
  - rewrite <- example_pool. apply example_pool_ok.
  - rewrite <- example_pool. apply example_not_pool.
  - exists s'. split; [exact Heq|exact Hinv].
Defined.

(** ** The upper half is reachable through other addresses

    Only the low 48 bits of an address take part in a translation. *)
Lemma translate_alias {E} m root va k : 0 ≤ k → @translate E m root (va + 2 ^ 48 * k) = translate m root va.
Proof.
  intros Hk.
  assert (∀ n, 0 ≤ n ≤ 39 → (va + 2 ^ 48 * k) / 2 ^ n mod 512 = va / 2 ^ n mod 512) as Hidx.
  { intros n Hn. replace (2 ^ 48 * k) with (2 ^ (39 - n) * 512 * k * 2 ^ n).
    - rewrite Z.div_add by (apply Z.pow_nonzero; lia).
      replace (2 ^ (39 - n) * 512 * k) with (2 ^ (39 - n) * k * 512) by lia. by rewrite Z.mod_add.
    - replace (2 ^ 48) with (2 ^ (39 - n) * 2 ^ n * 512); [lia|]. rewrite <- Z.pow_add_r by lia.
      by replace (39 - n + n) with 39 by lia. }
  assert (∀ n, 0 ≤ n ≤ 48 → Z.land (va + 2 ^ 48 * k) (2 ^ n - 1) = Z.land va (2 ^ n - 1)) as Hoff.
  { intros n Hn. rewrite !land_low_mask by lia. replace (2 ^ 48 * k) with (2 ^ (48 - n) * k * 2 ^ n).
    - apply Z.mod_add. apply Z.pow_nonzero; lia.
    - replace (2 ^ 48) with (2 ^ (48 - n) * 2 ^ n); [lia|]. rewrite <- Z.pow_add_r by lia.
      by replace (48 - n + n) with 48 by lia. }
  unfold translate, pml4_index, pdpt_index, pd_index, pt_index. rewrite !index_spec by lia.
  change 0xFFF with (2 ^ 12 - 1). by rewrite !Hidx, !Hoff by lia.
Qed.

End Paging.
