(* ===== verification/Types.v ===== *)
(** * Types shared by the process subsystem

    The enums and plain structs of src/src/kernel/process/mod.rs and the
    credentials of src/src/kernel/user/mod.rs. *)

From S2P Require Import Prelude.
From stdpp Require Export strings.
Local Open Scope Z_scope.

Definition Pid := Z.

Definition STDIN_FD : Z := 0.
Definition STDOUT_FD : Z := 1.
Definition STDERR_FD : Z := 2.
Definition SCRATCH_FD : Z := 3.
Definition MAX_FDS : nat := 16.
Definition KERNEL_STACK_SIZE : Z := 16 * 1024.

Inductive SeekFrom := SeekStart (pos : Z) | SeekCurrent (delta : Z) | SeekEnd (delta : Z).

Inductive MemoryRegionKind := Stack | HeapRegion | Other.

Record MemoryPermissions := mkPerm { perm_read : bool; perm_write : bool; perm_execute : bool }.
Definition read_write : MemoryPermissions := mkPerm true true false.
Definition read_only : MemoryPermissions := mkPerm true false false.
Definition read_execute : MemoryPermissions := mkPerm true false true.

Record MemoryRegion := mkMemoryRegion {
  region_base : Z; region_layout : Layout; region_kind : MemoryRegionKind; region_permissions : MemoryPermissions
}.

Record Context := mkContext {
  r15 : Z; r14 : Z; r13 : Z; r12 : Z; rbx : Z; rbp : Z; rsp : Z; rip : Z; rflags : Z
}.
Definition Context_new : Context := mkContext 0 0 0 0 0 0 0 0 0x202.

Inductive AddressSpaceKind := Kernel | User.

Record AddressSpace := mkAddressSpace { cr3 : Z; kind : AddressSpaceKind }.
Definition with_cr3 : Z → AddressSpaceKind → AddressSpace := mkAddressSpace.
Definition is_user (a : AddressSpace) : bool := match kind a with User => true | Kernel => false end.

Record UserStack := mkUserStack { stack_top : Z; stack_size : Z }.
Definition UserStack_base {E} (s : UserStack) : comp E Z := sub64 (stack_top s) (stack_size s).

Inductive ProcessState := Ready | Running | Blocked | Zombie.

Inductive WaitChannel := KeyboardInput | ChildAny | Child (p : Pid).

Definition matches_event (self event : WaitChannel) : bool :=
  match self, event with
  | KeyboardInput, KeyboardInput => true
  | ChildAny, Child _ => true
  | Child wait_pid, Child event_pid => wait_pid =? event_pid
  | _, _ => false
  end.

Definition is_child_event (self : WaitChannel) : bool :=
  match self with Child _ | ChildAny => true | KeyboardInput => false end.

Inductive ProcessError :=
| AllocationFailed
| TooManyProcesses
| InvalidFileDescriptor
| ProcessNotFound
| PathNotFound
| StackAllocationFailed
| NotInitialized
| MemoryRegionNotFound
| IdleAlreadyExists
| NoChildren
| ChildNotFound
| NoFreeFileDescriptors
| AddressSpaceAllocationFailed
| InvalidUserPointer
| UserMemoryNotPresent
| InvalidElf
| UserImageIo.

(** *** Credentials *)

Definition ROOT_UID : Z := 0.
Definition ROOT_GID : Z := 0.

Record Credentials := mkCredentials { real_uid : Z; effective_uid : Z; real_gid : Z; effective_gid : Z }.

Definition Credentials_new (uid gid : Z) : Credentials := mkCredentials uid uid gid gid.
Definition Credentials_root : Credentials := Credentials_new ROOT_UID ROOT_GID.
Definition set_effective_uid (c : Credentials) (uid : Z) : Credentials :=
  mkCredentials (real_uid c) uid (real_gid c) (effective_gid c).
Definition set_effective_gid (c : Credentials) (gid : Z) : Credentials :=
  mkCredentials (real_uid c) (effective_uid c) (real_gid c) gid.
Definition set_real_uid (c : Credentials) (uid : Z) : Credentials :=
  mkCredentials uid (effective_uid c) (real_gid c) (effective_gid c).
Definition set_real_gid (c : Credentials) (gid : Z) : Credentials :=
  mkCredentials (real_uid c) (effective_uid c) gid (effective_gid c).
Definition with_effective (c : Credentials) (uid gid : Z) : Credentials :=
  mkCredentials (real_uid c) uid (real_gid c) gid.
Definition is_privileged (c : Credentials) : bool := effective_uid c =? ROOT_UID.

(** *** The layout of user space: [user::space] *)

Definition USER_ADDR_LIMIT : Z := 0x80000000.
Definition DEFAULT_STACK_PAGES : Z := 8.
Definition user_stack_top : Z := USER_ADDR_LIMIT.

(** *** Decidable equality *)

#[export] Instance MemoryRegionKind_eq_dec : EqDecision MemoryRegionKind.
Proof. solve_decision. Defined.
#[export] Instance ProcessState_eq_dec : EqDecision ProcessState.
Proof. solve_decision. Defined.
#[export] Instance WaitChannel_eq_dec : EqDecision WaitChannel.
Proof. solve_decision. Defined.
#[export] Instance ProcessError_eq_dec : EqDecision ProcessError.
Proof. solve_decision. Defined.
#[export] Instance AddressSpaceKind_eq_dec : EqDecision AddressSpaceKind.
Proof. solve_decision. Defined.
#[export] Instance Layout_eq_dec : EqDecision Layout.
Proof. solve_decision. Defined.
#[export] Instance MemoryPermissions_eq_dec : EqDecision MemoryPermissions.
Proof. solve_decision. Defined.
#[export] Instance MemoryRegion_eq_dec : EqDecision MemoryRegion.
Proof. solve_decision. Defined.
