(* ===== verification/RawVec.v ===== *)
(** * Growable arrays on the kernel heap

    [MemoryRegionList], [ProcessTable] (src/src/kernel/process/mod.rs) and
    [DriverRegistry] (src/src/kernel/drivers/mod.rs) each manage a raw heap
    array by hand, with the same code up to the element type, the errors and the
    doubling of the capacity.  The element's size is an argument: the layout of
    a Rust struct is not specified. *)

From S2P Require Import Prelude Mem Heap.
Local Open Scope Z_scope.

Module RawVec.

(** The array's address, its elements (their number is [len]) and its capacity. *)
Record rawvec (A : Type) := mkRawVec { ptr : Z; elems : list A; capacity : Z }.
Arguments mkRawVec {_} _ _ _.
Arguments ptr {_} _.
Arguments elems {_} _.
Arguments capacity {_} _.

Definition new {A} : rawvec A := mkRawVec 0 [] 0.
Definition len {A} (v : rawvec A) : Z := Z.of_nat (length (elems v)).

(** What differs between the three arrays: the element's layout, the doubling,
    whether the [debug_assert!] is there, and the errors for an overflow of the
    length, of the capacity and of the layout, and for an exhausted heap. *)
Record config (E : Type) := mkConfig {
  elem_size : Z; elem_align : Z; double : Z → option Z; asserts : bool;
  e_len : E; e_capacity : E; e_layout : E; e_heap : E
}.
Arguments mkConfig {_}.
Arguments elem_size {_} _.
Arguments elem_align {_} _.
Arguments double {_} _ _.
Arguments asserts {_} _.
Arguments e_len {_} _.
Arguments e_capacity {_} _.
Arguments e_layout {_} _.
Arguments e_heap {_} _.

Section ops.
Context {A E : Type} (c : config E).

(** The array and the free list of the heap. *)
Definition st : Type := rawvec A * list Heap.ListNode.

(** [while new_capacity < required { new_capacity *= 2 }]: a [usize] doubles at
    most 64 times. *)
Fixpoint grow (fuel : nat) (new_capacity required : Z) : comp E Z :=
  if required <=? new_capacity then mret new_capacity
  else
    match fuel with
    | O => Hang
    | S fuel => match double c new_capacity with None => Err (e_capacity c) | Some n => grow fuel n required end
    end.

Definition heap_alloc (layout : Layout) : M st E Z := λ s,
  match @Heap.allocate E s.2 layout with
  | Ok (p, l) => Ok (p, (s.1, l))
  | Err e => Err (e, s)
  | Panic => Panic
  | Hang => Hang
  end.

Definition heap_free (p : Z) (layout : Layout) : M st E unit := λ s,
  match @Heap.deallocate E s.2 p layout with
  | Ok l => Ok (tt, (s.1, l))
  | Err e => Err (e, s)
  | Panic => Panic
  | Hang => Hang
  end.

Definition array_layout (n : Z) : option Layout := layout_array (elem_size c) (elem_align c) n.

Definition ensure_capacity (additional : Z) : M st E unit :=
  v ← gets fst;
  required ← ok_or (checked_add64 (len v) additional) (e_len c);
  if required <=? capacity v then mret tt
  else
    _ ← (if asserts c && negb (Bool.eqb (ptr v =? 0) (capacity v =? 0)) then panic else mret tt);
    new_capacity ← lift (grow 64 (if capacity v =? 0 then 4 else capacity v) required);
    layout ← ok_or (array_layout new_capacity) (e_layout c);
    new_ptr ← heap_alloc layout;
    if new_ptr =? 0 then throw (e_heap c)
    else
      _ ← (if negb (capacity v =? 0) then
             old_layout ← ok_or (array_layout (capacity v)) (e_layout c);
             heap_free (ptr v) old_layout
           else mret tt);
      modify (λ s, (mkRawVec new_ptr (elems v) new_capacity, s.2)).

(** [register], [push] and [insert] *)
Definition push (x : A) : M st E unit :=
  _ ← ensure_capacity 1;
  modify (λ s, (mkRawVec (ptr s.1) (elems s.1 ++ [x]) (capacity s.1), s.2)).

Fixpoint push_all (xs : list A) : M st E unit :=
  match xs with
  | [] => mret tt
  | x :: xs => _ ← push x; push_all xs
  end.

(** Dropping the array (its elements are dropped before). *)
Definition drop_array : M st E unit :=
  v ← gets fst;
  _ ← (if negb (capacity v =? 0) && negb (ptr v =? 0) then
         match array_layout (capacity v) with
         | Some layout => heap_free (ptr v) layout
         | None => mret tt
         end
       else mret tt);
  modify (λ s, (new, s.2)).

End ops.

(** [checked_mul(2)] and [saturating_mul(2)] *)
Definition checked_double (n : Z) : option Z := checked_mul64 n 2.
Definition saturating_double (n : Z) : option Z := Some (Z.min (n * 2) (U64 - 1)).

(** Taking element [index] out and filling the gap with the last one
    ([remove_by_ptr], [remove_index]). *)
Definition swap_remove {A} (index : nat) (v : rawvec A) : option (A * rawvec A) :=
  removed ← elems v !! index;
  last ← elems v !! pred (length (elems v));
  Some (removed, mkRawVec (ptr v) (take (pred (length (elems v))) (<[index := last]> (elems v))) (capacity v)).

(** Whatever happens to the block, the elements stay, and a push adds one. *)
Lemma ensure_capacity_elems {A E} (c : config E) n :
  preserves (λ s s' : rawvec A * list Heap.ListNode, elems s'.1 = elems s.1) (ensure_capacity c n).
Proof.
  intros [v l]. unfold ensure_capacity. rewrite !(M_bind_ok (gets fst) _ (v, l) v (v, l) eq_refl).
  unfold mbind, M_bind, ok_or, lift, heap_alloc, heap_free, throw, modify, mret, M_ret, panic.
  destruct (checked_add64 (len v) n) as [required|]; [|done]. destruct (required <=? capacity v); [done|].
  destruct (asserts c && _); [done|]. destruct (grow c 64 _ required) as [m|e| |]; try done.
  destruct (array_layout c m) as [layout|]; [|done]. cbn [fst snd].
  destruct (Heap.allocate l layout) as [[p l']|e| |]; try done. destruct (p =? 0); [done|].
  destruct (negb (capacity v =? 0)); [|done]. destruct (array_layout c (capacity v)) as [old|]; [|done].
  cbn [fst snd]. by destruct (Heap.deallocate l' (ptr v) old).
Qed.

Lemma push_elems {A E} (c : config E) (x : A) s r : push c x s = Ok r → elems r.2.1 = elems s.1 ++ [x].
Proof.
  intros ([] & s' & Hs & Heq)%M_bind_inv. apply (preserves_ok _ _ _ _ _ (ensure_capacity_elems c 1)) in Hs.
  injection Heq as <-. simpl. by rewrite Hs.
Qed.

Lemma push_err_elems {A E} (c : config E) (x : A) s e s' : push c x s = Err (e, s') → elems s'.1 = elems s.1.
Proof.
  unfold push. pose proof (ensure_capacity_elems (A:=A) c 1 s) as H. unfold mbind, M_bind.
  destruct (ensure_capacity c 1 s) as [[? ?]|[? ?]| |]; [done|..|done|done]. by intros [= -> ->].
Qed.

(** Taking an element out leaves the others, in another order. *)
(** Within the capacity nothing moves. *)
Lemma push_fits {A E} (c : config E) (x : A) (v : rawvec A) (l : list Heap.ListNode) : len v + 1 ≤ capacity v → capacity v < U64 →
  push c x (v, l) = Ok (tt, (mkRawVec (ptr v) (elems v ++ [x]) (capacity v), l)).
Proof.
  intros Hlen Hcap. unfold push. rewrite (M_bind_ok (ensure_capacity c 1) _ _ tt (v, l)); [done|].
  unfold ensure_capacity. rewrite (M_bind_ok (gets fst) _ (v, l) v (v, l) eq_refl). unfold checked_add64.
  rewrite (proj2 (Z.ltb_lt (len v + 1) U64)) by lia. rewrite (M_bind_ok (ok_or (Some (len v + 1)) _) _ (v, l) (len v + 1) (v, l) eq_refl).
  by rewrite (proj2 (Z.leb_le _ _) Hlen).
Qed.

Lemma swap_remove_perm {A} index (v : rawvec A) x v' : swap_remove index v = Some (x, v') →
  elems v !! index = Some x ∧ elems v ≡ₚ x :: elems v' ∧ capacity v' = capacity v ∧ ptr v' = ptr v.
Proof.
  intros (y & Hy & (last & Hlast & [= -> <-])%bind_Some)%bind_Some. simpl. split_and!; try done.
  destruct (elems v) as [|z l _] eqn:Heq using rev_ind; [done|].
  rewrite length_app in *. simpl in *. rewrite Nat.add_1_r in *. simpl in *.
  rewrite list_lookup_middle in Hlast by done. injection Hlast as ->.
  destruct (decide (index = length l)) as [->|Hne].
  - rewrite list_lookup_middle in Hy by done. injection Hy as ->.
    rewrite insert_app_r_alt, Nat.sub_diag by lia. simpl. rewrite take_app_length. by rewrite Permutation_app_comm.
  - assert (index < length l)%nat as Hlt. { apply lookup_lt_Some in Hy. rewrite length_app in Hy. simpl in Hy. lia. }
    rewrite lookup_app_l in Hy by done. rewrite insert_app_l by done.
    rewrite take_app_length' by (by rewrite length_insert).
    rewrite <- (take_drop_middle l index x) at 1 by done. rewrite (insert_take_drop l index last) by done.
    rewrite Permutation_app_comm. simpl. rewrite <- !Permutation_middle. apply perm_swap.
Qed.

(** ** Invariant: the array owns a live heap block that holds its elements *)

Definition double_ok {E} (c : config E) : Prop :=
  ∀ n m, 0 < n < U64 - 1 → double c n = Some m → n < m < U64 ∧ (m = n * 2 ∨ m = U64 - 1).

Lemma checked_double_ok {E} sz al b (e1 e2 e3 e4 : E) : double_ok (mkConfig sz al checked_double b e1 e2 e3 e4).
Proof.
  intros n m Hn. simpl. unfold checked_double, checked_mul64. destruct (Z.ltb_spec (n * 2) U64); [|done].
  intros [= <-]. lia.
Qed.

Lemma saturating_double_ok {E} sz al b (e1 e2 e3 e4 : E) : double_ok (mkConfig sz al saturating_double b e1 e2 e3 e4).
Proof. intros n m Hn. simpl. unfold saturating_double. intros [= <-]. lia. Qed.

Section inv.
Context {A E : Type} (c : config E) (lo hi : Z).
Hypothesis Hlo : 0 < lo.
Hypothesis Hle : lo ≤ hi + 1.
Hypothesis Hhi : hi + Z.max (elem_align c) 8 < U64.
Hypothesis Halign : pow2 (elem_align c).
Hypothesis Hsize : 0 < elem_size c.
Hypothesis Hdouble : double_ok c.

Definition block (v : rawvec A) : Layout := mkLayout (elem_size c * capacity v) (elem_align c).

Definition owns (l : list Heap.ListNode) (v : rawvec A) : Prop :=
  capacity v = 0 ∧ ptr v = 0 ∨
  0 < capacity v ∧ array_layout c (capacity v) = Some (block v) ∧ lo ≤ ptr v ∧ ptr v mod 8 = 0 ∧
  ptr v + Heap.block_size (block v) ≤ hi ∧
  Heap.disjoint_from (ptr v) (ptr v + Heap.block_size (block v)) l.

Definition ok (s : rawvec A * list Heap.ListNode) : Prop :=
  Heap.free_list lo hi s.2 ∧ owns s.2 s.1 ∧ len s.1 ≤ capacity s.1 < U64.

Lemma grow_spec fuel n required : 0 < n < U64 → required ≤ n * 2 ^ Z.of_nat fuel → required < U64 →
  (∃ m, grow c fuel n required = Ok m ∧ n ≤ m < U64 ∧ required ≤ m) ∨ grow c fuel n required = Err (e_capacity c).
Proof.
  intros Hn Hf Hr. revert n Hn Hf. induction fuel as [|fuel IH]; intros n Hn Hf; simpl.
  - destruct (Z.leb_spec required n); [|lia]. left. exists n. split_and!; done || lia.
  - destruct (Z.leb_spec required n); [left; exists n; split_and!; done || lia|].
    destruct (double c n) as [m|] eqn:Hm; [|by right].
    destruct (Hdouble n m) as [Hnm Hd]; [lia|done|].
    destruct (IH m) as [(k & -> & Hk & Hk')|Herr]; [lia| |left; exists k; split_and!; done || lia|by right].
    destruct Hd as [-> | ->].
    + rewrite Nat2Z.inj_succ, Z.pow_succ_r in Hf by lia. lia.
    + assert (1 ≤ 2 ^ Z.of_nat fuel) by (change 1 with (2 ^ 0); apply Z.pow_le_mono_r; lia). nia.
Qed.

Lemma array_layout_ok n layout : 0 ≤ n → array_layout c n = Some layout →
  layout = mkLayout (elem_size c * n) (elem_align c) ∧ layout_ok layout.
Proof.
  intros Hn. unfold array_layout, layout_array.
  destruct (Z.leb_spec (elem_size c * n) (I64 - elem_align c)); [|done]. intros [= <-].
  split; [done|]. split; [done|]. simpl. nia.
Qed.

(** The heap part of a growth: take the new block, give the old one back. *)
Lemma replace_block l (v : rawvec A) n layout : Heap.free_list lo hi l → owns l v → 0 < n →
  array_layout c n = Some layout →
  ∃ p l1, @Heap.allocate E l layout = Ok (p, l1) ∧ Heap.free_list lo hi l1 ∧
    (p = 0 ∧ l1 = l ∨ p ≠ 0 ∧ ∃ l2,
       (if negb (capacity v =? 0) then @Heap.deallocate E l1 (ptr v) (block v) else mret l1) = Ok l2 ∧
       Heap.free_list lo hi l2 ∧ owns l2 (mkRawVec p (elems v) n)).
Proof.
  intros Hl Ho Hn Hlay. destruct (array_layout_ok n layout ltac:(lia) Hlay) as [-> Hlok].
  destruct (Heap.allocate_spec (E:=E) lo hi l (mkLayout (elem_size c * n) (elem_align c)))
    as (p & l1 & Heq & Hl1 & Hc); try done.
  exists p, l1. split_and!; [done..|]. destruct Hc as [(-> & -> & _)|Hc]; [by left|right].
  destruct Hc as (Hp1 & Hp2 & Hp3 & Hp4 & Hp5 & _). split; [lia|].
  pose proof (Heap.block_size_ge (mkLayout (elem_size c * n) (elem_align c))) as Hbs.
  assert (p mod 8 = 0) as Hp8.
  { destruct (Heap.pow2_max8 _ Halign) as [Hq Hq8]. pose proof (pow2_pos _ Hq).
    apply (Heap.mod_mod_8 p (Z.max (elem_align c) 8)); [lia|done..]. }
  assert (∀ l2, Heap.free_list lo hi l2 →
    (∀ a, Heap.free_addr l2 a → p ≤ a < p + Heap.block_size (mkLayout (elem_size c * n) (elem_align c)) → False) →
    owns l2 (mkRawVec p (elems v) n)) as Hnew.
  { intros l2 Hl2 Hdis. right. unfold block. simpl. split_and!; try done.
    apply (Heap.disjoint_from_free lo hi); [done|lia|]. intros a Ha Hf. by apply (Hdis a). }
  destruct Ho as [[Hc0 _]|(Hc0 & Hla & Hv1 & Hv8 & Hv2 & Hv3)].
  - rewrite Hc0. simpl. exists l1. split_and!; try done. apply Hnew; [done|]. intros a Ha Hin. by apply Hp5 in Ha as [_ ?].
  - destruct (Z.eqb_spec (capacity v) 0); [lia|]. simpl. pose proof (Heap.block_size_ge (block v)) as Hvs.
    rewrite (Heap.disjoint_from_free lo hi) in Hv3 by (done || lia).
    destruct (Heap.deallocate_spec (E:=E) lo hi l1 (ptr v) (block v)) as (l2 & Hd & Hl2 & _ & Hcov); try done; [lia..| |].
    { apply (Heap.disjoint_from_free lo hi); [done|lia|]. intros a Ha Hf. apply Hp5 in Hf as [Hf _]. by apply (Hv3 a). }
    exists l2. split_and!; try done. apply Hnew; [done|]. intros a Ha Hin. apply Hcov in Ha as [Ha|Ha].
    + by apply Hp5 in Ha as [_ ?].
    + by apply (Hv3 a), Hp4.
Qed.

(** The errors a growth can report. *)
Definition config_error (e : E) : Prop := e ∈ [e_len c; e_capacity c; e_layout c; e_heap c].

Lemma ensure_capacity_spec (s : rawvec A * list Heap.ListNode) : ok s →
  ∃ s', ok s' ∧ elems s'.1 = elems s.1 ∧
    (ensure_capacity c 1 s = Ok (tt, s') ∧ len s.1 + 1 ≤ capacity s'.1 ∨
     s' = s ∧ ∃ e, config_error e ∧ ensure_capacity c 1 s = Err (e, s)).
Proof.
  intros (Hl & Ho & Hcap). destruct s as [v l]. cbn [fst snd] in *.
  unfold ensure_capacity. rewrite !(M_bind_ok (gets fst) _ (v, l) v (v, l) eq_refl).
  assert (0 ≤ len v) by (unfold len; lia).
  destruct (checked_add64 (len v) 1) as [required|] eqn:Hreq.
  2:{ exists (v, l). split_and!; [done..|]. right. split; [done|]. exists (e_len c). split; [left|done]. }
  unfold checked_add64 in Hreq. destruct (Z.ltb_spec (len v + 1) U64); [|done]. injection Hreq as <-.
  rewrite !(M_bind_ok (ok_or (Some (len v + 1)) _) _ (v, l) (len v + 1) (v, l) eq_refl).
  destruct (Z.leb_spec (len v + 1) (capacity v)) as [Hfit|Hbig].
  { exists (v, l). split_and!; [done..|]. left. split; [done|]. simpl. lia. }
  assert (Bool.eqb (ptr v =? 0) (capacity v =? 0) = true) as ->.
  { destruct Ho as [[-> ->]|(? & _ & ? & _)]; [done|]. destruct (Z.eqb_spec (ptr v) 0), (Z.eqb_spec (capacity v) 0); done || lia. }
  rewrite andb_false_r. rewrite !(M_bind_ok (mret tt) _ (v, l) tt (v, l) eq_refl).
  destruct (grow_spec 64 (if capacity v =? 0 then 4 else capacity v) (len v + 1)) as [(n & Hg & Hn & Hrn)|Hg]; [| |lia| |].
  { destruct (Z.eqb_spec (capacity v) 0); lia. }
  { destruct (Z.eqb_spec (capacity v) 0); nia. }
  2:{ exists (v, l). split_and!; [done..|]. right. split; [done|]. exists (e_capacity c).
      split; [right; left|]. unfold mbind, M_bind, lift. by rewrite Hg. }
  rewrite !(M_bind_lift _ _ _ _ Hg). destruct (array_layout c n) as [layout|] eqn:Hlay.
  2:{ exists (v, l). split_and!; [done..|]. right. split; [done|]. exists (e_layout c). split; [right; right; left|done]. }
  rewrite !(M_bind_ok (ok_or (Some layout) _) _ (v, l) layout (v, l) eq_refl).
  assert (0 < n) by (destruct (Z.eqb_spec (capacity v) 0); lia).
  destruct (replace_block l v n layout) as (p & l1 & Ha & Hl1 & Hc); try done.
  rewrite !(M_bind_ok (heap_alloc _) _ (v, l) p (v, l1)) by (unfold heap_alloc; cbn [fst snd]; by rewrite Ha).
  destruct Hc as [[-> ->]|(Hp & l2 & Hd & Hl2 & Hown)].
  { exists (v, l). split_and!; [done..|]. right. split; [done|]. exists (e_heap c). split; [right; right; right; left|done]. }
  destruct (Z.eqb_spec p 0); [done|].
  exists (mkRawVec p (elems v) n, l2). split; [|split; [done|]].
  { split_and!; [done..| |]; unfold len in *; simpl in *; lia. }
  left. split; [|simpl; lia].
  rewrite (M_bind_ok _ _ (v, l1) tt (v, l2)); [done|]. destruct Ho as [[Hc0 Hp0]|(Hc0 & Hla & _)].
  - rewrite Hc0 in Hd |- *. simpl in *. by injection Hd as ->.
  - destruct (Z.eqb_spec (capacity v) 0); [lia|]. cbn [negb] in *. rewrite Hla.
    unfold mbind, M_bind, ok_or, heap_free. cbn [fst snd]. by rewrite Hd.
Qed.

Lemma push_spec (s : rawvec A * list Heap.ListNode) x : ok s →
  ∃ s', ok s' ∧
    (push c x s = Ok (tt, s') ∧ elems s'.1 = elems s.1 ++ [x] ∨
     s' = s ∧ ∃ e, config_error e ∧ push c x s = Err (e, s)).
Proof.
  intros Hok. destruct (ensure_capacity_spec s Hok) as (s' & Hok' & Hel & [[Heq Hcap]|(-> & e & He & Heq)]).
  - exists (mkRawVec (ptr s'.1) (elems s'.1 ++ [x]) (capacity s'.1), s'.2). split.
    + destruct Hok' as (Hl & Ho & Hc). split_and!; [done..| |]; simpl; [|lia].
      unfold len in *. simpl. rewrite length_app, Hel. simpl. lia.
    + left. unfold push. rewrite (M_bind_ok _ _ _ _ _ Heq). split; [done|]. simpl. by rewrite Hel.
  - exists s. split; [done|]. right. split; [done|]. exists e. split; [done|]. unfold push. by rewrite (M_bind_err _ _ _ _ Heq).
Qed.

(** Heap arrays are safe and keep their contents.  From a state where the
    array owns a live heap block of its capacity, pushing elements one after the
    other appends them in order, moving the array to a larger block whenever it
    is full; the first push that fails (heap exhausted or size overflow) changes
    nothing and ends the sequence.  Throughout, the array's block stays apart
    from the free regions and the length never exceeds the capacity. *)
Theorem push_all_correct (s : rawvec A * list Heap.ListNode) xs : ok s →
  ∃ s' k, ok s' ∧ elems s'.1 = elems s.1 ++ take k xs ∧
    (push_all c xs s = Ok (tt, s') ∧ k = length xs ∨
     (k < length xs)%nat ∧ ∃ e, config_error e ∧ push_all c xs s = Err (e, s')).
Proof.
  revert s. induction xs as [|x xs IH]; intros s Hok.
  { exists s, O. split_and!; [done|by rewrite app_nil_r|by left]. }
  cbn [push_all]. destruct (push_spec s x Hok) as (s1 & Hok1 & [[Heq Hel]|(-> & e & He & Heq)]).
  - rewrite !(M_bind_ok _ _ _ _ _ Heq). destruct (IH s1 Hok1) as (s' & k & Hok' & Hel' & Hc). exists s', (S k).
    split_and!; [done|rewrite Hel', Hel, <- app_assoc; done|].
    destruct Hc as [[Hr ->]|(Hk & e & He & Hr)]; [by left|right]. simpl. split; [lia|]. by exists e.
  - exists s, O. split_and!; [done|by rewrite app_nil_r|]. right. simpl. split; [lia|]. exists e.
    split; [done|]. by rewrite (M_bind_err _ _ _ _ Heq).
Qed.

End inv.

Definition example_config : config unit := mkConfig 24 8 checked_double true tt tt tt tt.

(** Two more elements move a full array of four to a block of eight. *)
Lemma push_all_correct_witness :
  ∃ s', push_all example_config [5; 6] (mkRawVec 4096 [1; 2; 3; 4] 4, [Heap.Node 8192 65536]) = Ok (tt, s') ∧
    elems s'.1 = [1; 2; 3; 4; 5; 6].
Proof.
  destruct (@push_all_correct Z unit example_config 4096 131072)
    with (s := (mkRawVec 4096 [1; 2; 3; 4] 4, [Heap.Node 8192 65536])) (xs := [5; 6])
    as (s' & k & _ & Hel & [[Heq ->]|(_ & e & _ & Heq)]); try done.
  - by apply (pow2_intro 3).
  - apply checked_double_ok.
  - split_and!; try done. right. split_and!; try done. constructor; [right; by vm_compute|constructor].
  - exists s'. split; [exact Heq|exact Hel].
Defined.

End RawVec.
