(* ===== verification/UserMem.v ===== *)
(** * Copying between the kernel and user memory

    [ensure_user_range], [copy_from_user], [copy_to_user], [read_user_buffer]
    and [write_user_buffer] of src/src/kernel/process/mod.rs.  A buffer filled
    by the kernel is returned; when the copy fails the code discards it. *)

From S2P Require Import Prelude Mem Heap Phys Paging Types.
Local Open Scope Z_scope.

Module UserMem.
Import Paging.

Definition ensure_user_range (ptr len : Z) : comp ProcessError unit :=
  if len =? 0 then mret tt
  else
    let limit := Phys.KERNEL_VMA_BASE in
    if limit <=? ptr then Err InvalidUserPointer
    else
      match checked_add64 ptr len with
      | None => Err InvalidUserPointer
      | Some end_ => if limit <? end_ then Err InvalidUserPointer else mret tt
      end.

(** The part of [phys]'s frame from [phys] on, and its direct-map address. *)
Definition page_chunk (phys remaining : Z) : comp ProcessError (Z * Z) :=
  let page_base := Z.land phys (not64 0xFFF) in
  let page_offset := Z.land phys 0xFFF in
  avail ← sub64 PAGE_SIZE page_offset;
  let n := Z.min avail remaining in
  virt ← phys_to_virt page_base;
  base ← virt_to_phys virt;
  mret (base + page_offset, n).

(** The loop of [copy_from_user_internal]; every round copies at least a byte,
    so [len] rounds are enough. *)
Fixpoint copy_from_loop (fuel : nat) (m : mem) (root user_ptr len copied : Z) (dst : list Z)
    : comp ProcessError (list Z) :=
  if negb (copied <? len) then mret dst
  else
    match fuel with
    | O => Hang
    | S fuel =>
        virt_addr ← add64 user_ptr copied;
        phys ← translate m root virt_addr;
        match phys with
        | None => Err UserMemoryNotPresent
        | Some phys =>
            remaining ← sub64 len copied;
            '(src_ptr, to_copy) ← page_chunk phys remaining;
            copied ← add64 copied to_copy;
            copy_from_loop fuel m root user_ptr len copied (dst ++ load_bytes m src_ptr (Z.to_nat to_copy))
        end
    end.

Definition copy_from_user_internal (m : mem) (a : AddressSpace) (user_ptr len : Z) : comp ProcessError (list Z) :=
  if len =? 0 then mret []
  else
    _ ← ensure_user_range user_ptr len;
    copy_from_loop (Z.to_nat len) m (cr3 a) user_ptr len 0 [].

(** The loop of [copy_to_user_internal]. *)
Fixpoint copy_to_loop (fuel : nat) (root user_ptr : Z) (src : list Z) (written : Z) : M mem ProcessError unit :=
  let len := Z.of_nat (length src) in
  if negb (written <? len) then mret tt
  else
    match fuel with
    | O => λ _, Hang
    | S fuel =>
        virt_addr ← lift (add64 user_ptr written);
        m ← get;
        phys ← lift (translate m root virt_addr);
        match phys with
        | None => throw UserMemoryNotPresent
        | Some phys =>
            remaining ← lift (sub64 len written);
            '(dst_ptr, to_copy) ← lift (page_chunk phys remaining);
            _ ← modify (λ m, store_bytes m dst_ptr (take (Z.to_nat to_copy) (drop (Z.to_nat written) src)));
            written ← lift (add64 written to_copy);
            copy_to_loop fuel root user_ptr src written
        end
    end.

Definition copy_to_user_internal (a : AddressSpace) (user_ptr : Z) (src : list Z) : M mem ProcessError unit :=
  if (length src =? 0)%nat then mret tt
  else
    _ ← lift (ensure_user_range user_ptr (Z.of_nat (length src)));
    copy_to_loop (length src) (cr3 a) user_ptr src 0.

(** *** Direct accesses

    For a kernel address space the pointer is dereferenced as it is.  A byte
    access goes through the page tables; an address that is not canonical or
    not mapped faults, and the kernel's fault handler does not return. *)

Definition canonical (va : Z) : bool := (va <? 2 ^ 47) || (2 ^ 64 - 2 ^ 47 <=? va).

Definition hw_address {E} (m : mem) (root va : Z) : comp E Z :=
  if canonical va then
    match translate m root va with
    | Ok (Some pa) => Ok pa
    | Ok None => Panic
    | Err e => Err e
    | Panic => Panic
    | Hang => Hang
    end
  else Panic.

Fixpoint hw_load {E} (m : mem) (root va : Z) (n : nat) : comp E (list Z) :=
  match n with
  | O => mret []
  | S n => pa ← hw_address m root va; rest ← hw_load m root (va + 1) n; mret (m pa :: rest)
  end.

Fixpoint hw_store {E} (root va : Z) (bs : list Z) : M mem E unit :=
  match bs with
  | [] => mret tt
  | b :: bs =>
      m ← get;
      pa ← lift (hw_address m root va);
      _ ← modify (λ m, store_bytes m pa [b]);
      hw_store root (va + 1) bs
  end.

Definition copy_from_user (m : mem) (a : AddressSpace) (user_ptr len : Z) : comp ProcessError (list Z) :=
  match kind a with
  | Kernel => if len =? 0 then mret [] else hw_load m (cr3 a) user_ptr (Z.to_nat len)
  | User => copy_from_user_internal m a user_ptr len
  end.

Definition copy_to_user (a : AddressSpace) (user_ptr : Z) (src : list Z) : M mem ProcessError unit :=
  match kind a with
  | Kernel => if (length src =? 0)%nat then mret tt else hw_store (cr3 a) user_ptr src
  | User => copy_to_user_internal a user_ptr src
  end.

(** [vec![0u8; len]]: a request above [isize::MAX] is a capacity overflow, and
    [handle_alloc_error] spins when the heap cannot serve it. *)
Definition vec_zeroed {E} (len : Z) : M (list Heap.ListNode) E Z := λ l,
  if len =? 0 then Ok (0, l)
  else if I64 - 1 <? len then Panic
  else
    match @Heap.allocate E l (mkLayout len 1) with
    | Ok (p, l') => if p =? 0 then Hang else Ok (p, l')
    | Err e => Err (e, l)
    | Panic => Panic
    | Hang => Hang
    end.

Definition vec_drop {E} (ptr len : Z) : M (list Heap.ListNode) E unit := λ l,
  if len =? 0 then Ok (tt, l)
  else
    match @Heap.deallocate E l ptr (mkLayout len 1) with
    | Ok l' => Ok (tt, l')
    | Err e => Err (e, l)
    | Panic => Panic
    | Hang => Hang
    end.

(** The buffer and its heap block; the early return of [?] drops it. *)
Definition read_user_buffer (m : mem) (a : AddressSpace) (user_ptr len : Z)
    : M (list Heap.ListNode) ProcessError (Z * list Z) :=
  buffer ← vec_zeroed len;
  r ← attempt (lift (copy_from_user m a user_ptr len));
  match r with
  | inl bytes => mret (buffer, bytes)
  | inr e => _ ← vec_drop buffer len; throw e
  end.

Definition write_user_buffer (a : AddressSpace) (user_ptr : Z) (data : list Z) : M mem ProcessError unit :=
  copy_to_user a user_ptr data.

(** ** What user memory holds

    The bytes a process sees, through the map of its lower half. *)

Definition user_addr (m : mem) (root va : Z) : option Z :=
  (λ e, Z.land e ENTRY_ADDR_MASK + va mod 4096) <$> mapped m root va.

Definition user_byte (m : mem) (root va : Z) : option Z := m <$> user_addr m root va.

Fixpoint user_bytes (m : mem) (root va : Z) (n : nat) : option (list Z) :=
  match n with
  | O => Some []
  | S n => b ← user_byte m root va; bs ← user_bytes m root (va + 1) n; Some (b :: bs)
  end.

(** A process's address space: its tables form a tree, and its pages are mapped
    to frames of their own, apart from the tables and from the free frames. *)
Record user_ok (m : mem) (root : Z) (pool : list Z) : Prop := {
  uo_inv : space_inv m root pool;
  uo_frame : ∀ va e, 0 ≤ va < 2 ^ 47 → mapped m root va = Some e → frame_ok (Z.land e ENTRY_ADDR_MASK);
  uo_data : ∀ va e x, 0 ≤ va < 2 ^ 47 → mapped m root va = Some e →
    Z.land e ENTRY_ADDR_MASK ≤ x < Z.land e ENTRY_ADDR_MASK + 4096 → ¬ private m root pool x;
  uo_inj : ∀ va va' e e', 0 ≤ va < 2 ^ 47 → 0 ≤ va' < 2 ^ 47 → mapped m root va = Some e → mapped m root va' = Some e' →
    Z.land e ENTRY_ADDR_MASK = Z.land e' ENTRY_ADDR_MASK → va / 4096 = va' / 4096
}.

Lemma page_chunk_ok phys n : 0 ≤ phys < 2 ^ 47 →
  page_chunk phys n = Ok (phys, Z.min (4096 - phys mod 4096) n).
Proof.
  intros Hp. unfold page_chunk, PAGE_SIZE, phys_to_virt, virt_to_phys, Phys.KERNEL_VMA_BASE.
  change (not64 0xFFF) with (not64 (4096 - 1)). rewrite land_not_mask; [|unfold u64; lia|by apply (pow2_intro 12)].
  change 0xFFF with (2 ^ 12 - 1). rewrite land_low_mask by lia. change (2 ^ 12) with 4096.
  pose proof (Z.mod_pos_bound phys 4096). pose proof (Z.mod_le phys 4096). comp_simpl. do 2 f_equal. lia.
Qed.

(** Inside a page, addresses translate in step. *)
Lemma user_addr_step m root va k : 0 ≤ va < 2 ^ 47 → 0 ≤ k → va mod 4096 + k < 4096 →
  user_addr m root (va + k) = (λ a, a + k) <$> user_addr m root va.
Proof.
  intros Hva Hk Hpage. assert (0 ≤ va + k < 2 ^ 47) by (Z.div_mod_to_equations; lia).
  unfold user_addr. rewrite (mapped_path m root (va + k) va); [|done..|Z.div_mod_to_equations; lia].
  destruct (mapped m root va); [|done]. simpl. f_equal. Z.div_mod_to_equations. lia.
Qed.

Lemma user_addr_bound m root pool va pa : user_ok m root pool → 0 ≤ va < 2 ^ 47 → user_addr m root va = Some pa →
  0 ≤ pa < 2 ^ 47 ∧ pa mod 4096 = va mod 4096.
Proof.
  intros Hok Hva. unfold user_addr. destruct (mapped m root va) as [e|] eqn:He; [|done]. intros [= <-].
  destruct (uo_frame _ _ _ Hok va e Hva He) as [Hb Hm]. Z.div_mod_to_equations. lia.
Qed.

Lemma user_bytes_app m root va n1 n2 :
  user_bytes m root va (n1 + n2) = b1 ← user_bytes m root va n1; b2 ← user_bytes m root (va + Z.of_nat n1) n2; Some (b1 ++ b2).
Proof.
  revert va. induction n1 as [|n1 IH]; intros va; cbn [user_bytes Nat.add].
  - simpl. rewrite Z.add_0_r. by destruct (user_bytes m root va n2).
  - destruct (user_byte m root va); simpl; [|done]. rewrite IH.
    replace (va + Z.of_nat (S n1)) with (va + 1 + Z.of_nat n1) by lia.
    destruct (user_bytes m root (va + 1) n1); simpl; [|done].
    by destruct (user_bytes m root (va + 1 + Z.of_nat n1) n2).
Qed.

Lemma load_bytes_S m a n : load_bytes m a (S n) = m a :: load_bytes m (a + 1) n.
Proof.
  change (S n) with (1 + n)%nat. rewrite load_bytes_app. simpl. f_equal. f_equal. lia.
Qed.

(** A chunk inside one page is a run of physical memory. *)
Lemma user_bytes_page m root va pa n : 0 ≤ va < 2 ^ 47 → user_addr m root va = Some pa →
  va mod 4096 + Z.of_nat n ≤ 4096 → user_bytes m root va n = Some (load_bytes m pa n).
Proof.
  intros Hva Hpa Hn. assert (∀ k, 0 ≤ k → k + Z.of_nat n ≤ 4096 - va mod 4096 →
    user_bytes m root (va + k) n = Some (load_bytes m (pa + k) n)) as H.
  { clear Hn. induction n as [|n IH]; intros k Hk Hkn; [done|]. rewrite load_bytes_S. cbn [user_bytes].
    unfold user_byte at 1. rewrite user_addr_step, Hpa by lia. simpl.
    rewrite <- !Z.add_assoc, IH by lia. done. }
  specialize (H 0). rewrite !Z.add_0_r in H. apply H; lia.
Qed.

Lemma translate_user {E} m root pool va : space_inv m root pool → 0 ≤ va < 2 ^ 47 →
  @translate E m root va = Ok (user_addr m root va).
Proof. intros Hinv Hva. by rewrite (translate_mapped _ _ pool). Qed.

Lemma copy_from_loop_spec fuel m root pool ptr len copied dst :
  user_ok m root pool → 0 ≤ ptr → ptr + len ≤ 2 ^ 47 → 0 ≤ copied ≤ len → len - copied ≤ Z.of_nat fuel →
  copy_from_loop fuel m root ptr len copied dst =
    match user_bytes m root (ptr + copied) (Z.to_nat (len - copied)) with
    | Some bs => Ok (dst ++ bs)
    | None => Err UserMemoryNotPresent
    end.
Proof.
  intros Hok Hptr Hlen. revert copied dst. induction fuel as [|fuel IH]; intros copied dst Hc Hf.
  { assert (copied = len) as -> by lia. simpl. rewrite Z.ltb_irrefl, Z.sub_diag. simpl. by rewrite app_nil_r. }
  simpl. destruct (Z.ltb_spec copied len) as [Hlt|]; simpl.
  2:{ replace (len - copied) with 0 by lia. simpl. by rewrite app_nil_r. }
  rewrite add64_ok by lia. cbn [mbind comp_bind]. rewrite (translate_user _ _ pool) by (apply Hok || lia).
  cbn [mbind comp_bind]. destruct (user_addr m root (ptr + copied)) as [pa|] eqn:Hpa.
  2:{ replace (Z.to_nat (len - copied)) with (S (Z.to_nat (len - copied - 1))) by lia. cbn [user_bytes].
      unfold user_byte. by rewrite Hpa. }
  destruct (user_addr_bound m root pool (ptr + copied) pa) as [Hb Hm]; [done|lia|done|].
  rewrite sub64_ok by lia. cbn [mbind comp_bind]. rewrite page_chunk_ok by lia. cbn [mbind comp_bind]. rewrite Hm.
  pose proof (Z.mod_pos_bound (ptr + copied) 4096 ltac:(lia)) as Hmb.
  set (n := Z.min (4096 - (ptr + copied) mod 4096) (len - copied)).
  rewrite add64_ok by lia. cbn [mbind comp_bind]. rewrite IH by lia.
  replace (Z.to_nat (len - copied)) with (Z.to_nat n + Z.to_nat (len - (copied + n)))%nat by lia.
  rewrite user_bytes_app, (user_bytes_page m root (ptr + copied) pa) by (done || lia). simpl.
  replace (ptr + copied + Z.of_nat (Z.to_nat n)) with (ptr + (copied + n)) by lia.
  destruct (user_bytes m root (ptr + (copied + n)) (Z.to_nat (len - (copied + n)))); simpl; [|done].
  by rewrite app_assoc.
Qed.

(** ** Writing user memory *)

(** [m'] is [m] after the bytes [bs] were written at the user address [va]. *)
Record copied (m m' : mem) (root : Z) (pool : list Z) (va : Z) (bs : list Z) : Prop := {
  cp_ok : user_ok m' root pool;
  cp_mapped : ∀ v, 0 ≤ v < 2 ^ 47 → mapped m' root v = mapped m root v;
  cp_bytes : ∀ v, 0 ≤ v < 2 ^ 47 → user_byte m' root v =
    if decide (va ≤ v < va + Z.of_nat (length bs)) then bs !! Z.to_nat (v - va) else user_byte m root v;
  cp_frame : ∀ x, (∀ v, va ≤ v < va + Z.of_nat (length bs) → user_addr m root v ≠ Some x) → m' x = m x
}.

Lemma copied_nil m root pool va : user_ok m root pool → copied m m root pool va [].
Proof. intros Hok. split; try done. intros v Hv. simpl. destruct (decide _); [lia|done]. Qed.

Lemma user_addr_mapped m m' root v : mapped m' root v = mapped m root v → user_addr m' root v = user_addr m root v.
Proof. unfold user_addr. by intros ->. Qed.

Lemma copied_app m m1 m2 root pool va bs1 bs2 : 0 ≤ va → va + Z.of_nat (length (bs1 ++ bs2)) ≤ 2 ^ 47 →
  copied m m1 root pool va bs1 → copied m1 m2 root pool (va + Z.of_nat (length bs1)) bs2 →
  copied m m2 root pool va (bs1 ++ bs2).
Proof.
  rewrite length_app. intros Hva Hend [_ Hm1 Hb1 Hf1] [Hok2 Hm2 Hb2 Hf2]. split; [done| | |].
  - intros v Hv. by rewrite Hm2, Hm1.
  - intros v Hv. rewrite Hb2, Hb1 by done. rewrite length_app.
    destruct (decide (va + _ ≤ v < _)) as [Hin2|Hout2].
    + rewrite decide_True by lia. rewrite lookup_app_r by lia. f_equal. lia.
    + destruct (decide (va ≤ v < va + Z.of_nat (length bs1))) as [Hin1|Hout1].
      * rewrite decide_True by lia. by rewrite lookup_app_l by lia.
      * by rewrite decide_False by lia.
  - intros x Hx. rewrite length_app in Hx. rewrite Hf2, Hf1; [done|..].
    + intros v Hv. apply Hx. lia.
    + intros v Hv. rewrite (user_addr_mapped m) by (apply Hm1; lia). apply Hx. lia.
Qed.

(** Equal physical addresses come from equal user addresses. *)
Lemma user_addr_inj m root pool v v' pa pa' : user_ok m root pool → 0 ≤ v < 2 ^ 47 → 0 ≤ v' < 2 ^ 47 →
  user_addr m root v = Some pa → user_addr m root v' = Some pa' → pa / 4096 = pa' / 4096 → v / 4096 = v' / 4096.
Proof.
  intros Hok Hv Hv' Ha Ha' Heq. unfold user_addr in Ha, Ha'.
  destruct (mapped m root v) as [e|] eqn:He; [|done]. destruct (mapped m root v') as [e'|] eqn:He'; [|done].
  simpl in Ha, Ha'. injection Ha as <-. injection Ha' as <-.
  destruct (uo_frame _ _ _ Hok v e Hv He) as [_ Hm], (uo_frame _ _ _ Hok v' e' Hv' He') as [_ Hm'].
  apply (uo_inj _ _ _ Hok v v' e e'); try done. Z.div_mod_to_equations. lia.
Qed.

Lemma copied_page m root pool va pa bs : user_ok m root pool → 0 ≤ va < 2 ^ 47 → Forall byte bs →
  user_addr m root va = Some pa → va mod 4096 + Z.of_nat (length bs) ≤ 4096 →
  copied m (store_bytes m pa bs) root pool va bs.
Proof.
  intros Hok Hva Hbs Hpa Hn. set (m' := store_bytes m pa bs).
  destruct (user_addr_bound m root pool va pa) as [Hb Hmod]; try done.
  assert (∀ x, private m root pool x → m' x = m x) as Hsame.
  { intros x Hx. apply store_bytes_out. intros Hr. unfold user_addr in Hpa.
    destruct (mapped m root va) as [e|] eqn:He; [|done]. simpl in Hpa. injection Hpa as Hpa.
    apply (uo_data _ _ _ Hok va e x Hva He); [|done]. destruct (uo_frame _ _ _ Hok va e Hva He) as [_ Hm].
    Z.div_mod_to_equations. lia. }
  assert (∀ v, 0 ≤ v < 2 ^ 47 → mapped m' root v = mapped m root v) as Hmap.
  { intros v Hv. by apply (outside_mapped _ _ _ pool). }
  split; [|done| |].
  - split.
    + apply (outside_inv m); [apply Hok|done|]. apply mem_ok_store; [apply (si_mem _ _ _ (uo_inv _ _ _ Hok))|done].
    + intros v e Hv. rewrite Hmap by done. by apply (uo_frame _ _ _ Hok).
    + intros v e x Hv. rewrite Hmap by done. rewrite (outside_private m) by done. by apply (uo_data _ _ _ Hok).
    + intros v v' e e' Hv Hv'. rewrite !Hmap by done. by apply (uo_inj _ _ _ Hok).
  - intros v Hv. unfold user_byte. rewrite (user_addr_mapped m) by (by apply Hmap).
    destruct (decide (va ≤ v < va + Z.of_nat (length bs))) as [Hin|Hout].
    + replace v with (va + (v - va)) at 1 by lia. rewrite user_addr_step, Hpa by lia. simpl.
      unfold m'. replace (v - va) with (Z.of_nat (Z.to_nat (v - va))) at 1 by lia.
      rewrite store_bytes_in by lia.
      destruct (lookup_lt_is_Some_2 bs (Z.to_nat (v - va))) as [b Hlk]; [lia|]. rewrite Hlk. f_equal.
      by apply nth_lookup_Some.
    + destruct (user_addr m root v) as [pa'|] eqn:Hpa'; [|done]. simpl. f_equal. apply store_bytes_out. intros Hr.
      destruct (user_addr_bound m root pool v pa') as [_ Hmod']; try done.
      assert (v / 4096 = va / 4096).
      { apply (user_addr_inj m root pool v va pa' pa); try done. Z.div_mod_to_equations. lia. }
      apply Hout. Z.div_mod_to_equations. lia.
  - intros x Hx. apply store_bytes_out. intros Hr. apply (Hx (va + (x - pa))); [lia|].
    rewrite user_addr_step, Hpa by lia. simpl. f_equal. lia.
Qed.

(** Whether a range is mapped does not depend on its contents. *)
Lemma user_bytes_none m m' root va n : 0 ≤ va → va + Z.of_nat n ≤ 2 ^ 47 →
  (∀ v, 0 ≤ v < 2 ^ 47 → mapped m' root v = mapped m root v) →
  user_bytes m' root va n = None ↔ user_bytes m root va n = None.
Proof.
  intros Hva Hn Hmap. revert va Hva Hn. induction n as [|n IH]; intros va Hva Hn; [done|]. cbn [user_bytes].
  unfold user_byte. rewrite (user_addr_mapped m) by (apply Hmap; lia).
  destruct (user_addr m root va); simpl; [|done]. specialize (IH (va + 1) ltac:(lia) ltac:(lia)).
  destruct (user_bytes m' root (va + 1) n), (user_bytes m root (va + 1) n); simpl in *; intuition congruence.
Qed.

Lemma copy_to_loop_spec fuel root pool ptr src written m :
  user_ok m root pool → Forall byte src → 0 ≤ ptr → ptr + Z.of_nat (length src) ≤ 2 ^ 47 →
  0 ≤ written ≤ Z.of_nat (length src) → Z.of_nat (length src) - written ≤ Z.of_nat fuel →
  match user_bytes m root (ptr + written) (Z.to_nat (Z.of_nat (length src) - written)) with
  | Some _ => ∃ m', copy_to_loop fuel root ptr src written m = Ok (tt, m') ∧
      copied m m' root pool (ptr + written) (drop (Z.to_nat written) src)
  | None => ∃ m' k, copy_to_loop fuel root ptr src written m = Err (UserMemoryNotPresent, m') ∧
      copied m m' root pool (ptr + written) (take k (drop (Z.to_nat written) src))
  end.
Proof.
  intros Hok Hsrc Hptr Hlen. set (len := Z.of_nat (length src)) in *.
  revert written m Hok. induction fuel as [|fuel IH]; intros written m Hok Hw Hf.
  { assert (written = len) as -> by lia. simpl. fold len. rewrite Z.ltb_irrefl, Z.sub_diag. simpl. exists m.
    split; [done|]. rewrite drop_ge by lia. by apply copied_nil. }
  cbn [copy_to_loop]. fold len. destruct (Z.ltb_spec written len) as [Hlt|]; cbn [negb].
  2:{ replace (len - written) with 0 by lia. simpl. exists m. split; [done|]. rewrite drop_ge by lia. by apply copied_nil. }
  rewrite !(M_bind_lift _ _ _ (ptr + written)) by (apply add64_ok; lia).
  rewrite !(M_bind_ok get _ m m m eq_refl).
  rewrite !(M_bind_lift _ _ _ (user_addr m root (ptr + written))) by (apply (translate_user _ _ pool); [apply Hok|lia]).
  destruct (user_addr m root (ptr + written)) as [pa|] eqn:Hpa.
  2:{ replace (Z.to_nat (len - written)) with (S (Z.to_nat (len - written - 1))) by lia. cbn [user_bytes].
      unfold user_byte. rewrite Hpa. simpl. exists m, O. split; [done|]. by apply copied_nil. }
  destruct (user_addr_bound m root pool (ptr + written) pa) as [Hb Hm]; [done|lia|done|].
  rewrite !(M_bind_lift _ _ _ (len - written)) by (apply sub64_ok; lia).
  pose proof (Z.mod_pos_bound (ptr + written) 4096 ltac:(lia)) as Hmb.
  set (n := Z.min (4096 - (ptr + written) mod 4096) (len - written)).
  rewrite !(M_bind_lift _ _ _ (pa, n)) by (rewrite page_chunk_ok by lia; by rewrite Hm).
  rewrite !(M_bind_ok (modify _) _ m tt _ eq_refl).
  rewrite !(M_bind_lift _ _ _ (written + n)) by (apply add64_ok; lia).
  set (bs := take (Z.to_nat n) (drop (Z.to_nat written) src)).
  assert (length bs = Z.to_nat n) as Hbs by (unfold bs; rewrite length_take, length_drop; lia).
  assert (copied m (store_bytes m pa bs) root pool (ptr + written) bs) as Hc1.
  { apply copied_page; try done; [lia|by apply Forall_take, Forall_drop|lia]. }
  assert (drop (Z.to_nat written) src = bs ++ drop (Z.to_nat (written + n)) src) as Hsplit.
  { unfold bs. rewrite <- (take_drop (Z.to_nat n) (drop (Z.to_nat written) src)) at 1. f_equal.
    rewrite drop_drop. f_equal. lia. }
  specialize (IH (written + n) (store_bytes m pa bs) (cp_ok _ _ _ _ _ _ Hc1) ltac:(lia) ltac:(lia)).
  replace (Z.to_nat (len - written)) with (Z.to_nat n + Z.to_nat (len - (written + n)))%nat by lia.
  rewrite user_bytes_app, (user_bytes_page m root (ptr + written) pa) by (done || lia). cbn [mbind option_bind].
  replace (ptr + written + Z.of_nat (Z.to_nat n)) with (ptr + (written + n)) by lia.
  pose proof (user_bytes_none m (store_bytes m pa bs) root (ptr + (written + n)) (Z.to_nat (len - (written + n)))
    ltac:(lia) ltac:(lia) (cp_mapped _ _ _ _ _ _ Hc1)) as Hnone.
  replace (ptr + (written + n)) with (ptr + written + Z.of_nat (length bs)) in IH, Hnone |- * by lia.
  destruct (user_bytes (store_bytes m pa bs) root _ _), (user_bytes m root _ _); cbn [mbind option_bind];
    try (exfalso; intuition congruence); rewrite Hsplit.
  - destruct IH as (m' & Hr & Hc2). exists m'. split; [done|]. apply (copied_app m (store_bytes m pa bs)); try done; [lia|].
    rewrite <- Hsplit, length_drop. lia.
  - destruct IH as (m' & k & Hr & Hc2). exists m', (length bs + k)%nat. split; [done|].
    rewrite take_app_add. apply (copied_app m (store_bytes m pa bs)); try done; [lia|].
    rewrite length_app, length_take, length_drop. lia.
Qed.

Lemma ensure_user_range_ok ptr len : 0 ≤ ptr → 0 ≤ len → ptr + len ≤ Phys.KERNEL_VMA_BASE → len ≠ 0 →
  ensure_user_range ptr len = Ok tt.
Proof.
  intros. unfold ensure_user_range, Phys.KERNEL_VMA_BASE in *. destruct (Z.eqb_spec len 0); [done|].
  destruct (Z.leb_spec 0xFFFF800000000000 ptr); [lia|]. rewrite checked_add64_some by lia.
  destruct (Z.ltb_spec 0xFFFF800000000000 (ptr + len)); [lia|done].
Qed.

Lemma ensure_user_range_over ptr len : 0 < len → Phys.KERNEL_VMA_BASE < ptr + len →
  ensure_user_range ptr len = Err InvalidUserPointer.
Proof.
  intros H0 Hover. unfold ensure_user_range.
  destruct (Z.eqb_spec len 0); [lia|]. destruct (Z.leb_spec Phys.KERNEL_VMA_BASE ptr); [done|].
  unfold checked_add64. destruct (Z.ltb_spec (ptr + len) U64); [|done].
  by destruct (Z.ltb_spec Phys.KERNEL_VMA_BASE (ptr + len)); [|lia].
Qed.

Lemma copy_from_user_user m a pool ptr len : kind a = User → user_ok m (cr3 a) pool → 0 ≤ ptr → 0 ≤ len → ptr + len ≤ 2 ^ 47 →
  copy_from_user m a ptr len =
    match user_bytes m (cr3 a) ptr (Z.to_nat len) with Some bs => Ok bs | None => Err UserMemoryNotPresent end.
Proof.
  intros Hk Hok Hptr Hlen Hend. unfold copy_from_user. rewrite Hk. unfold copy_from_user_internal.
  destruct (Z.eqb_spec len 0) as [->|]; [done|].
  rewrite ensure_user_range_ok by (done || unfold Phys.KERNEL_VMA_BASE; lia). cbn [mbind comp_bind].
  rewrite (copy_from_loop_spec _ _ _ pool) by (done || lia). rewrite Z.add_0_r, Z.sub_0_r. done.
Qed.

Lemma copy_to_user_user a pool ptr src m : kind a = User → user_ok m (cr3 a) pool → Forall byte src →
  0 ≤ ptr → ptr + Z.of_nat (length src) ≤ 2 ^ 47 →
  match user_bytes m (cr3 a) ptr (length src) with
  | Some _ => ∃ m', copy_to_user a ptr src m = Ok (tt, m') ∧ copied m m' (cr3 a) pool ptr src
  | None => ∃ m' k, copy_to_user a ptr src m = Err (UserMemoryNotPresent, m') ∧
      copied m m' (cr3 a) pool ptr (take k src)
  end.
Proof.
  intros Hk Hok Hsrc Hptr Hend. unfold copy_to_user. rewrite Hk. unfold copy_to_user_internal.
  destruct (Nat.eqb_spec (length src) 0) as [H0|H0].
  - rewrite H0. simpl. exists m. split; [done|]. apply nil_length_inv in H0 as ->. by apply copied_nil.
  - pose proof (copy_to_loop_spec (length src) (cr3 a) pool ptr src 0 m) as H.
    rewrite Z.add_0_r, Z.sub_0_r, Nat2Z.id, drop_0 in H.
    rewrite !(M_bind_lift _ _ _ tt) by (apply ensure_user_range_ok; unfold Phys.KERNEL_VMA_BASE; lia).
    apply H; done || lia.
Qed.

(** ** Properties *)



Lemma user_bytes_copied m m' root pool ptr bs : 0 ≤ ptr → ptr + Z.of_nat (length bs) ≤ 2 ^ 47 →
  copied m m' root pool ptr bs → user_bytes m' root ptr (length bs) = Some bs.
Proof.
  intros Hptr Hend Hc. assert (∀ k n, (k + n = length bs)%nat →
    user_bytes m' root (ptr + Z.of_nat k) n = Some (drop k bs)) as H.
  { intros k n. revert k. induction n as [|n IH]; intros k Hkn; [simpl; by rewrite drop_ge by lia|].
    cbn [user_bytes]. rewrite (cp_bytes _ _ _ _ _ _ Hc), decide_True by lia.
    replace (Z.to_nat (ptr + Z.of_nat k - ptr)) with k by lia.
    destruct (lookup_lt_is_Some_2 bs k) as [b Hb]; [lia|]. rewrite Hb. cbn [mbind option_bind].
    replace (ptr + Z.of_nat k + 1) with (ptr + Z.of_nat (S k)) by lia. rewrite IH by lia. simpl.
    by rewrite (drop_S bs b k). }
  specialize (H O (length bs) eq_refl). by rewrite Z.add_0_r, drop_0 in H.
Qed.

(** What the kernel writes to a process it reads back: after a successful
    [write_user_buffer] the same range read by [copy_from_user] is the data. *)
Theorem user_buffer_roundtrip a pool ptr data m m' :
  kind a = User → user_ok m (cr3 a) pool → Forall byte data → 0 ≤ ptr → ptr + Z.of_nat (length data) ≤ 2 ^ 47 →
  write_user_buffer a ptr data m = Ok (tt, m') → copy_from_user m' a ptr (Z.of_nat (length data)) = Ok data.
Proof.
  intros Hk Hok Hd Hptr Hend Hw. pose proof (copy_to_user_user a pool ptr data m Hk Hok Hd Hptr Hend) as H.
  unfold write_user_buffer in Hw. rewrite Hw in H.
  destruct (user_bytes m (cr3 a) ptr (length data)); [|by destruct H as (? & ? & ? & _)].
  destruct H as (m1 & [= <-] & Hc). rewrite (copy_from_user_user _ _ pool) by (apply Hc || done || lia).
  by rewrite Nat2Z.id, (user_bytes_copied m m' (cr3 a) pool).
Qed.

(** ** Mapping a page keeps the address space well formed *)

Lemma map_page_user_ok {S} `{!FrameAlloc S, !FrameAllocLaws S} root va frame flags (s s' : pmem S) :
  fa_inv (pm_fa s) → user_ok (pm_mem s) root (fa_pool (pm_fa s)) →
  0 ≤ va < 2 ^ 47 → va mod 4096 = 0 → frame_ok frame → flags_ok flags →
  (∀ x, frame ≤ x < frame + 4096 → ¬ private (pm_mem s) root (fa_pool (pm_fa s)) x) →
  (∀ v e, 0 ≤ v < 2 ^ 47 → mapped (pm_mem s) root v = Some e → Z.land e ENTRY_ADDR_MASK ≠ frame) →
  map_page root va frame flags s = Ok (tt, s') → user_ok (pm_mem s') root (fa_pool (pm_fa s')).
Proof.
  intros Hfa Hok Hva Ham Hfr Hfl Hdata Hnew Hrun.
  destruct (map_page_ok root va frame flags s s') as (_ & [_ Hinv'] & Hm & _ & Hpriv); try done; [split; [done|apply Hok]|].
  assert (Z.land (Z.lor frame (Z.lor flags FLAG_PRESENT)) ENTRY_ADDR_MASK = frame) as Haddr.
  { apply entry_addr; [done|]. destruct Hfl as [Hu Hz]. split; [by apply lor_u64|]. by rewrite Z.land_lor_distr_l, Hz. }
  split; [done| | |].
  - intros v e Hv. rewrite Hm by done. destruct (_ =? _); [|by apply (uo_frame _ _ _ Hok)].
    intros [= <-]. by rewrite Haddr.
  - intros v e x Hv. rewrite Hm by done. destruct (_ =? _).
    + intros [= <-]. rewrite Haddr. intros Hx Hp. by apply (Hdata x Hx), Hpriv.
    + intros He Hx Hp. by apply (uo_data _ _ _ Hok v e x Hv He Hx), Hpriv.
  - intros v v' e e' Hv Hv'. rewrite !Hm by done.
    destruct (Z.eqb_spec (v / 4096) (va / 4096)), (Z.eqb_spec (v' / 4096) (va / 4096)).
    + intros _ _ _. lia.
    + intros [= <-] He'. rewrite Haddr. intros Heq. by destruct (Hnew v' e' Hv' He').
    + intros He [= <-]. rewrite Haddr. intros Heq. by destruct (Hnew v e Hv He).
    + by apply (uo_inj _ _ _ Hok).
Qed.

(** ** Witnesses: one page at 0x400000 *)

Definition example_run := map_page 0x800000 0x400000 0xD00000 user_flags example_space.
Definition example_state : pmem Phys.phys := match example_run with Ok (_, s) => s | _ => example_space end.
Definition example_as : AddressSpace := with_cr3 0x800000 User.

Lemma example_run_ok : example_run = Ok (tt, example_state).
Proof.
  unfold example_state. destruct example_run as [[[] s]| | |] eqn:Heq; [done|exfalso..].
  all: by apply (f_equal (λ r, match r with Ok _ => true | _ => false end)) in Heq; vm_compute in Heq.
Qed.

Lemma example_user_ok : user_ok (pm_mem example_state) 0x800000 (fa_pool (pm_fa example_state)).
Proof.
  assert (∀ i, 0 ≤ i < 256 → load64 (pm_mem example_space) (slot 0x800000 i) = 0) as Hz by done.
  apply (map_page_user_ok 0x800000 0x400000 0xD00000 user_flags example_space);
    [apply example_fa_inv| |done|done|done|done| | |exact example_run_ok].
  - split; [apply example_inv| | |]; intros v; intros; by rewrite empty_mapped in *.
  - intros x Hx [(f & Hf & Hfx)|(p & t & Hp & Ht & Htx & Ht0)].
    + rewrite example_pool, !elem_of_cons, elem_of_nil in Hf. lia.
    + destruct p as [|i p]; [|by rewrite empty_walk in Ht]. injection Ht as <-. specialize (Ht0 eq_refl). lia.
  - intros v e Hv. by rewrite empty_mapped.
Qed.


Lemma example_mapped : user_bytes (pm_mem example_state) 0x800000 0x400010 3 = Some [0; 0; 0].
Proof. by vm_compute. Qed.


Lemma user_buffer_roundtrip_witness :
  ∃ m', write_user_buffer example_as 0x400010 [1; 2; 3] (pm_mem example_state) = Ok (tt, m') ∧
    copy_from_user m' example_as 0x400010 3 = Ok [1; 2; 3].
Proof.
  pose proof (copy_to_user_user example_as _ 0x400010 [1; 2; 3] (pm_mem example_state) eq_refl
    example_user_ok ltac:(by apply list_forallb_byte) ltac:(done) ltac:(done)) as H.
  cbn [length cr3 example_as with_cr3] in H. rewrite example_mapped in H. destruct H as (m' & Heq & _).
  exists m'. split; [exact Heq|].
  exact (user_buffer_roundtrip example_as _ 0x400010 [1; 2; 3] (pm_mem example_state) m' eq_refl example_user_ok
    ltac:(by apply list_forallb_byte) ltac:(done) ltac:(done) Heq).
Defined.

(** ** Limits of the code *)

(** The range check admits addresses that are not canonical, and translation
    ignores their upper bits: for every kernel address there is an accepted user
    pointer that reaches the same physical memory, since the kernel half is part
    of every process's root and no permission bit is looked at. *)
Lemma user_pointer_reaches_kernel m root kva : Phys.KERNEL_VMA_BASE ≤ kva < U64 →
  ensure_user_range (kva mod 2 ^ 48) 1 = Ok tt ∧
  @translate ProcessError m root (kva mod 2 ^ 48) = translate m root kva.
Proof.
  intros Hk. unfold Phys.KERNEL_VMA_BASE in Hk. pose proof (Z.mod_pos_bound kva (2 ^ 48) ltac:(lia)). split.
  - apply ensure_user_range_ok; unfold Phys.KERNEL_VMA_BASE; lia.
  - rewrite <- (translate_alias m root (kva mod 2 ^ 48) (kva / 2 ^ 48)) by (apply Z.div_pos; lia).
    f_equal. pose proof (Z.div_mod kva (2 ^ 48)). lia.
Qed.

(** The buffer is allocated before the range is looked at: a length the heap
    cannot serve stops the kernel, whatever the pointer. *)
Lemma read_user_buffer_hangs m a ptr len lo hi l :
  0 < len < I64 → 0 < lo → lo ≤ hi + 1 → hi + 8 < U64 → Heap.free_list lo hi l → hi - lo < len →
  read_user_buffer m a ptr len l = Hang.
Proof.
  intros Hlen Hlo Hle Hhi Hl Hbig. unfold read_user_buffer, mbind, M_bind, vec_zeroed.
  destruct (Z.eqb_spec len 0); [lia|]. destruct (Z.ltb_spec (I64 - 1) len); [lia|].
  destruct (Heap.allocate_spec (E:=ProcessError) lo hi l (mkLayout len 1)) as (p & l' & -> & _ & Hc); try done.
  { split; [by apply (pow2_intro 0)|simpl; lia]. }
  destruct Hc as [(-> & _)|(Hp & Hp' & _)]; [done|]. unfold Heap.block_size, Heap.min_region_size in Hp'. simpl in Hp'. lia.
Qed.

End UserMem.
