(* ===== verification/Drivers.v ===== *)
(** * Drivers: src/src/kernel/drivers/mod.rs and builtin.rs

    A [&'static dyn CharDevice] or [&'static dyn BlockDevice] is a record of its
    methods, which act on the state [W] of the machine.  A read fills a buffer
    of the given length; the bytes it stored are returned.  [BlockDeviceLaws] is
    what file systems rely on; the in-memory device of the ares-core crate
    (src/crates/ares-core/src/drivers/mock.rs) satisfies it. *)

From S2P Require Import Prelude Mem Heap RawVec Types.
Local Open Scope Z_scope.

Inductive DriverKind := Block | Char.

Inductive DriverError := RegistryFull | InitFailed | Unsupported | IoError.

#[export] Instance DriverKind_eq_dec : EqDecision DriverKind.
Proof. solve_decision. Defined.
#[export] Instance DriverError_eq_dec : EqDecision DriverError.
Proof. solve_decision. Defined.

Record BlockDevice (W : Type) := mkBlockDevice {
  bd_name : string;
  bd_init : M W DriverError unit;
  block_size : Z;
  read_blocks : Z → Z → M W DriverError (list Z);
  write_blocks : Z → list Z → M W DriverError unit;
  bd_flush : M W DriverError unit
}.
Arguments mkBlockDevice {_}.
Arguments bd_name {_} _.
Arguments bd_init {_} _.
Arguments block_size {_} _.
Arguments read_blocks {_} _ _ _.
Arguments write_blocks {_} _ _ _.
Arguments bd_flush {_} _.

Record CharDevice (W : Type) := mkCharDevice {
  cd_name : string;
  cd_init : M W DriverError unit;
  cd_read : Z → M W DriverError (list Z);
  cd_write : list Z → M W DriverError Z
}.
Arguments mkCharDevice {_}.
Arguments cd_name {_} _.
Arguments cd_init {_} _.
Arguments cd_read {_} _ _.
Arguments cd_write {_} _ _.

(** ** What a block device promises

    It holds [bd_disk], an array of blocks: a read inside it returns its
    contents, a write replaces them. *)

Class BlockDeviceLaws {W} (d : BlockDevice W) := {
  bd_disk : W → list Z;
  bd_inv : W → Prop;
  bd_block_pos : 0 < block_size d;
  bd_read_ok : ∀ w lba n, bd_inv w → 0 ≤ lba →
    (lba + Z.of_nat n) * block_size d ≤ Z.of_nat (length (bd_disk w)) →
    ∃ w', read_blocks d lba (Z.of_nat n * block_size d) w =
        Ok (take (n * Z.to_nat (block_size d)) (drop (Z.to_nat (lba * block_size d)) (bd_disk w)), w') ∧
      bd_inv w' ∧ bd_disk w' = bd_disk w;
  bd_write_ok : ∀ w lba n bs, bd_inv w → 0 ≤ lba → Forall byte bs → length bs = (n * Z.to_nat (block_size d))%nat →
    (lba + Z.of_nat n) * block_size d ≤ Z.of_nat (length (bd_disk w)) →
    ∃ w', write_blocks d lba bs w = Ok (tt, w') ∧ bd_inv w' ∧
      bd_disk w' = take (Z.to_nat (lba * block_size d)) (bd_disk w) ++ bs ++
        drop (Z.to_nat (lba * block_size d) + length bs) (bd_disk w);
  bd_flush_ok : ∀ w, bd_inv w → ∃ w', bd_flush d w = Ok (tt, w') ∧ bd_inv w' ∧ bd_disk w' = bd_disk w;
  bd_disk_bytes : ∀ w, bd_inv w → Forall byte (bd_disk w)
}.

Module Drivers.

(** *** The registry *)

Section registry.
Context {W : Type} (slot_size : Z).

Inductive DriverSlot := Empty | BlockSlot (dev : BlockDevice W) | CharSlot (dev : CharDevice W).

Definition slot_kind (s : DriverSlot) : option DriverKind :=
  match s with Empty => None | BlockSlot _ => Some Block | CharSlot _ => Some Char end.
Definition slot_name (s : DriverSlot) : option string :=
  match s with Empty => None | BlockSlot dev => Some (bd_name dev) | CharSlot dev => Some (cd_name dev) end.
Definition as_char (s : DriverSlot) : option (CharDevice W) :=
  match s with CharSlot dev => Some dev | _ => None end.
Definition as_block (s : DriverSlot) : option (BlockDevice W) :=
  match s with BlockSlot dev => Some dev | _ => None end.

(** The registry's array; its growth saturates and reports [RegistryFull]. *)
Definition registry_config : RawVec.config DriverError :=
  RawVec.mkConfig slot_size 8 RawVec.saturating_double true RegistryFull RegistryFull RegistryFull RegistryFull.

Definition DriverRegistry : Type := RawVec.rawvec DriverSlot.

(** The machine, the registry and the heap's free list. *)
Record dstate := mkDstate { ds_world : W; ds_registry : DriverRegistry; ds_heap : list Heap.ListNode }.

Definition on_world {E A} (m : M W E A) : M dstate E A :=
  zoom ds_world (λ w s, mkDstate w (ds_registry s) (ds_heap s)) m.
Definition on_registry {E A} (m : M (DriverRegistry * list Heap.ListNode) E A) : M dstate E A :=
  zoom (λ s, (ds_registry s, ds_heap s)) (λ r s, mkDstate (ds_world s) r.1 r.2) m.

(** [DriverRegistry::insert] *)
Definition insert_slot (s : DriverSlot) : M dstate DriverError unit := on_registry (RawVec.push registry_config s).

Definition register_block (device : BlockDevice W) : M dstate DriverError unit :=
  _ ← map_err (λ _, InitFailed) (on_world (bd_init device));
  insert_slot (BlockSlot device).

Definition register_char (device : CharDevice W) : M dstate DriverError unit :=
  _ ← map_err (λ _, InitFailed) (on_world (cd_init device));
  insert_slot (CharSlot device).

Fixpoint find_char (name : string) (slots : list DriverSlot) : option (CharDevice W) :=
  match slots with
  | [] => None
  | slot :: rest =>
      match as_char slot with
      | Some dev => if decide (cd_name dev = name) then Some dev else find_char name rest
      | None => find_char name rest
      end
  end.

Fixpoint find_block (name : string) (slots : list DriverSlot) : option (BlockDevice W) :=
  match slots with
  | [] => None
  | slot :: rest =>
      match as_block slot with
      | Some dev => if decide (bd_name dev = name) then Some dev else find_block name rest
      | None => find_block name rest
      end
  end.

Definition char_device_by_name (name : string) (s : dstate) : option (CharDevice W) :=
  find_char name (RawVec.elems (ds_registry s)).
Definition block_device_by_name (name : string) (s : dstate) : option (BlockDevice W) :=
  find_block name (RawVec.elems (ds_registry s)).

(** The devices [for_each_char_device] and [for_each_block_device] visit. *)
Definition for_each_char_device (s : dstate) : list (CharDevice W) := omap as_char (RawVec.elems (ds_registry s)).
Definition for_each_block_device (s : dstate) : list (BlockDevice W) := omap as_block (RawVec.elems (ds_registry s)).

(** *** The built-in devices *)

Definition NULL_DRIVER : CharDevice W :=
  mkCharDevice "null"%string (mret tt) (λ _, mret []) (λ buf, mret (Z.of_nat (length buf))).

Definition ZERO_DRIVER : CharDevice W :=
  mkCharDevice "zero"%string (mret tt) (λ n, mret (replicate (Z.to_nat n) 0)) (λ buf, mret (Z.of_nat (length buf))).

(** [builtin::register]: a registration that fails is only logged. *)
Definition ignore {E} (m : M dstate DriverError unit) : M dstate E unit := _ ← attempt m; mret tt.

Definition register {E} (console keyboard : CharDevice W) (ata : BlockDevice W) : M dstate E unit :=
  _ ← ignore (register_char console);
  _ ← ignore (register_char keyboard);
  _ ← ignore (register_block ata);
  _ ← ignore (register_char NULL_DRIVER);
  ignore (register_char ZERO_DRIVER).

End registry.
Arguments DriverSlot : clear implicits.
Arguments dstate : clear implicits.

(** *** The in-memory block device *)

Section mem_block_device.
Context (name : string) (block : Z).

Definition mem_read_blocks (lba n : Z) : M (list Z) DriverError (list Z) := λ storage,
  if negb (n mod block =? 0) then Err (Unsupported, storage)
  else
    match checked_mul64 lba block with
    | None => Err (IoError, storage)
    | Some offset =>
        lift (end_ ← add64 offset n;
              if Z.of_nat (length storage) <? end_ then Err IoError
              else mret (take (Z.to_nat n) (drop (Z.to_nat offset) storage))) storage
    end.

Definition mem_write_blocks (lba : Z) (buf : list Z) : M (list Z) DriverError unit := λ storage,
  let n := Z.of_nat (length buf) in
  if negb (n mod block =? 0) then Err (Unsupported, storage)
  else
    match checked_mul64 lba block with
    | None => Err (IoError, storage)
    | Some offset =>
        match @add64 DriverError offset n with
        | Ok end_ =>
            if Z.of_nat (length storage) <? end_ then Err (IoError, storage)
            else Ok (tt, take (Z.to_nat offset) storage ++ buf ++ drop (Z.to_nat end_) storage)
        | Err e => Err (e, storage)
        | Panic => Panic
        | Hang => Hang
        end
    end.

Definition MemBlockDevice : BlockDevice (list Z) :=
  mkBlockDevice name (mret tt) block mem_read_blocks mem_write_blocks (mret tt).

End mem_block_device.

(** ** The in-memory device is a block device *)

Definition mem_inv (block : Z) (storage : list Z) : Prop :=
  Z.of_nat (length storage) < U64 ∧ Forall byte storage.

#[global] Instance mem_block_laws name block (Hb : 0 < block) : BlockDeviceLaws (MemBlockDevice name block).
Proof.
  refine (Build_BlockDeviceLaws _ (MemBlockDevice name block) (λ w, w) (mem_inv block) Hb _ _ _ _); simpl.
  - intros w lba n [Hlen Hbytes] Hlba Hend. exists w. split; [|done]. unfold mem_read_blocks.
    rewrite Z.mod_mul by lia. simpl. unfold checked_mul64. destruct (Z.ltb_spec (lba * block) U64); [|nia].
    unfold lift. rewrite add64_ok by nia. cbn [mbind comp_bind].
    destruct (Z.ltb_spec (Z.of_nat (length w)) (lba * block + Z.of_nat n * block)); [nia|].
    unfold mret, comp_ret. do 3 f_equal. nia.
  - intros w lba n bs [Hlen Hbytes] Hlba Hbs Hbslen Hend. unfold mem_write_blocks. rewrite Hbslen.
    replace (Z.of_nat (n * Z.to_nat block)) with (Z.of_nat n * block) by nia.
    rewrite Z.mod_mul by lia. simpl. unfold checked_mul64. destruct (Z.ltb_spec (lba * block) U64); [|nia].
    rewrite add64_ok by nia.
    destruct (Z.ltb_spec (Z.of_nat (length w)) (lba * block + Z.of_nat n * block)); [nia|].
    eexists. split; [done|]. replace (Z.to_nat (lba * block + Z.of_nat n * block))
      with (Z.to_nat (lba * block) + n * Z.to_nat block)%nat by nia. split; [|done]. split.
    + rewrite !length_app, length_take, length_drop, Hbslen. nia.
    + apply Forall_app. split; [by apply Forall_take|]. apply Forall_app. split; [done|by apply Forall_drop].
  - intros w Hw. by exists w.
  - by intros w [_ ?].
Defined.

(** ** The registry *)

Section registry_laws.
Context {W : Type} (slot_size lo hi : Z).
Hypothesis Hlo : 0 < lo.
Hypothesis Hle : lo ≤ hi + 1.
Hypothesis Hhi : hi + 8 < U64.
Hypothesis Hsize : 0 < slot_size.

(** The registry's array and the heap are well formed. *)
Definition registry_ok (s : dstate W) : Prop :=
  RawVec.ok (registry_config slot_size) lo hi (ds_registry s, ds_heap s).

Lemma find_char_app name (l1 l2 : list (DriverSlot W)) :
  find_char name (l1 ++ l2) = match find_char name l1 with Some d => Some d | None => find_char name l2 end.
Proof.
  induction l1 as [|s l1 IH]; simpl; [done|]. destruct (as_char s); [|done]. by destruct (decide _).
Qed.

Lemma find_block_app name (l1 l2 : list (DriverSlot W)) :
  find_block name (l1 ++ l2) = match find_block name l1 with Some d => Some d | None => find_block name l2 end.
Proof.
  induction l1 as [|s l1 IH]; simpl; [done|]. destruct (as_block s); [|done]. by destruct (decide _).
Qed.

Lemma insert_slot_spec slot (s : dstate W) : registry_ok s →
  ∃ s', registry_ok s' ∧ ds_world s' = ds_world s ∧
    (insert_slot slot_size slot s = Ok (tt, s') ∧ RawVec.elems (ds_registry s') = RawVec.elems (ds_registry s) ++ [slot] ∨
     insert_slot slot_size slot s = Err (RegistryFull, s') ∧ ds_registry s' = ds_registry s).
Proof.
  intros Hok. destruct s as [w r h]. unfold insert_slot, on_registry, zoom. cbn [ds_world ds_registry ds_heap].
  pose proof (RawVec.push_spec (registry_config slot_size) lo hi Hlo Hle Hhi ltac:(by apply (pow2_intro 3)) Hsize
    (RawVec.saturating_double_ok _ _ _ _ _ _ _) (r, h) slot Hok) as ([r' h'] & Hok' & [[Heq Hel]|([= -> ->] & e & He & Heq)]).
  - rewrite Heq. exists (mkDstate w r' h'). split_and!; [done..|]. by left.
  - rewrite Heq. exists (mkDstate w r h). split_and!; [done..|]. right. split; [|done].
    assert (e = RegistryFull) as -> by (unfold RawVec.config_error in He; rewrite !elem_of_cons, elem_of_nil in He; simpl in He; tauto).
    done.
Qed.

(** Registration and lookup.  Registering a character device whose [init]
    succeeds makes it the answer for its name unless an earlier character device
    has that name, and changes no other lookup, in particular none of a block
    device; when [init] fails or the table cannot grow, the registry is as
    before and the error is [InitFailed] or [RegistryFull]. *)
Theorem register_char_lookup (d : CharDevice W) (s : dstate W) :
  registry_ok s → cd_init d (ds_world s) ≠ Panic → cd_init d (ds_world s) ≠ Hang →
  ∃ s', registry_ok s' ∧ (∀ name, block_device_by_name name s' = block_device_by_name name s) ∧
    (register_char slot_size d s = Ok (tt, s') ∧
       (∀ name, char_device_by_name name s' = match char_device_by_name name s with
          | Some d' => Some d'
          | None => if decide (cd_name d = name) then Some d else None
          end) ∨
     (∃ e, register_char slot_size d s = Err (e, s') ∧ (e = InitFailed ∨ e = RegistryFull)) ∧
       (∀ name, char_device_by_name name s' = char_device_by_name name s)).
Proof.
  intros Hok Hnp Hnh. unfold register_char, char_device_by_name, block_device_by_name.
  destruct (cd_init d (ds_world s)) as [[[] w]|[e w]| |] eqn:Hinit; try done.
  - set (s1 := mkDstate w (ds_registry s) (ds_heap s)).
    assert (map_err (λ _, InitFailed) (on_world (cd_init d)) s = Ok (tt, s1)) as H1
      by (unfold map_err, on_world, zoom; by rewrite Hinit).
    destruct (insert_slot_spec (CharSlot d) s1 Hok) as (s2 & Hok2 & _ & [[Heq Hel]|[Heq Hel]]); exists s2;
      rewrite (M_bind_ok _ _ _ _ _ H1); rewrite Hel; (split; [done|]).
    + split; [intros name; rewrite find_block_app; simpl; by destruct (find_block _ _)|]. left. split; [done|].
      intros name. rewrite find_char_app. simpl. by destruct (find_char _ _).
    + split; [done|]. right. split; [|done]. exists RegistryFull. auto.
  - set (s1 := mkDstate w (ds_registry s) (ds_heap s)). exists s1. split_and!; [done..|]. right. split; [|done].
    exists InitFailed. split; [|by left]. apply M_bind_err. unfold map_err, on_world, zoom. by rewrite Hinit.
Qed.

End registry_laws.

Lemma register_char_lookup_witness :
  ∃ s', registry_ok 24 4096 65536 s' ∧
    char_device_by_name "null" s' = Some (NULL_DRIVER (W:=unit)).
Proof.
  destruct (register_char_lookup 24 4096 65536 ltac:(done) ltac:(done) ltac:(done) ltac:(done) (NULL_DRIVER (W:=unit))
    (mkDstate tt RawVec.new [Heap.Node 4096 61440])) as (s' & Hok & _ & [[_ Hl]|[[e [Heq _]] _]]).
  - split_and!; try done. by left.
  - done.
  - done.
  - exists s'. split; [exact Hok|]. by rewrite Hl.
  - by vm_compute in Heq.
Defined.

End Drivers.
