(* ===== verification/Vfs.v ===== *)
(** * Files: src/src/kernel/vfs/mod.rs, vfs/ata.rs and the file descriptors of
    src/src/kernel/process/mod.rs

    A [&'static dyn VfsFile] is a record of its methods over the machine state
    [W].  The scratch file is one sector of a block device; a [VfsHandle] is a
    file with an offset; a [FileDescriptor] is a character device or a handle.
    The ares-core crate has the same scratch file and traits. *)

From S2P Require Import Prelude Mem Heap RawVec Types Drivers.
Local Open Scope Z_scope.

Inductive VfsError := VfsIo | VfsUnsupported | InvalidOffset.

#[export] Instance VfsError_eq_dec : EqDecision VfsError.
Proof. solve_decision. Defined.

(** [impl From<DriverError> for VfsError] *)
Definition vfs_from_driver (_ : DriverError) : VfsError := VfsIo.

Record VfsFile (W : Type) := mkVfsFile {
  vf_name : string;
  read_at : Z → Z → M W VfsError (list Z);
  write_at : Z → list Z → M W VfsError Z;
  vf_flush : M W VfsError unit;
  vf_size : M W VfsError Z
}.
Arguments mkVfsFile {_}.
Arguments vf_name {_} _.
Arguments read_at {_} _ _ _.
Arguments write_at {_} _ _ _.
Arguments vf_flush {_} _.
Arguments vf_size {_} _.

Module Vfs.

Section vfs.
Context {W : Type}.

(** *** The scratch file *)

Definition SCRATCH_BYTES : Z := 512.

Record AtaScratchFile := mkScratch { device : BlockDevice W; lba : Z; name : string }.

Definition sector_size (f : AtaScratchFile) : Z := block_size (device f).

Definition ensure_scratch_capacity (f : AtaScratchFile) : comp VfsError unit :=
  if SCRATCH_BYTES <? sector_size f then Err VfsUnsupported else mret tt.

(** The checks both accesses share: the range of the sector they touch. *)
Definition scratch_range (f : AtaScratchFile) (offset n : Z) : comp VfsError (Z * Z) :=
  let sector_size := sector_size f in
  if sector_size <=? offset then Err InvalidOffset
  else
    match checked_add64 offset n with
    | None => Err VfsUnsupported
    | Some end_ => if sector_size <? end_ then Err VfsUnsupported else mret (offset, end_)
    end.

Definition scratch_read_at (f : AtaScratchFile) (offset n : Z) : M W VfsError (list Z) :=
  _ ← lift (ensure_scratch_capacity f);
  if n =? 0 then mret []
  else
    '(start, end_) ← lift (scratch_range f offset n);
    sector ← map_err vfs_from_driver (read_blocks (device f) (lba f) (sector_size f));
    mret (take (Z.to_nat (end_ - start)) (drop (Z.to_nat start) sector)).

Definition scratch_write_at (f : AtaScratchFile) (offset : Z) (buf : list Z) : M W VfsError Z :=
  _ ← lift (ensure_scratch_capacity f);
  if (length buf =? 0)%nat then mret 0
  else
    '(start, end_) ← lift (scratch_range f offset (Z.of_nat (length buf)));
    sector ← map_err vfs_from_driver (read_blocks (device f) (lba f) (sector_size f));
    let sector := take (Z.to_nat start) sector ++ buf ++ drop (Z.to_nat end_) sector in
    _ ← map_err vfs_from_driver (write_blocks (device f) (lba f) sector);
    _ ← map_err vfs_from_driver (bd_flush (device f));
    mret (Z.of_nat (length buf)).

Definition scratch_flush (f : AtaScratchFile) : M W VfsError unit := map_err vfs_from_driver (bd_flush (device f)).

Definition scratch_size (f : AtaScratchFile) : M W VfsError Z :=
  _ ← lift (ensure_scratch_capacity f); mret (sector_size f).

Definition scratch_file (f : AtaScratchFile) : VfsFile W :=
  mkVfsFile (name f) (scratch_read_at f) (scratch_write_at f) (scratch_flush f) (scratch_size f).

(** *** Handles *)

Record VfsHandle := mkHandle { file : VfsFile W; offset : Z }.

Definition VfsHandle_new (f : VfsFile W) : VfsHandle := mkHandle f 0.

(** The handle's new state is returned; on an error it is unchanged. *)
Definition handle_read (h : VfsHandle) (n : Z) : M W VfsError (list Z * VfsHandle) :=
  buf ← read_at (file h) (offset h) n;
  mret (buf, mkHandle (file h) (saturating_add64 (offset h) (Z.of_nat (length buf)))).

Definition handle_write (h : VfsHandle) (buf : list Z) : M W VfsError (Z * VfsHandle) :=
  count ← write_at (file h) (offset h) buf;
  mret (count, mkHandle (file h) (saturating_add64 (offset h) count)).

Definition handle_flush (h : VfsHandle) : M W VfsError unit := vf_flush (file h).

Definition handle_seek (h : VfsHandle) (pos : SeekFrom) : M W VfsError (Z * VfsHandle) :=
  size ← vf_size (file h);
  new_offset ← lift match pos with
    | SeekStart pos => mret pos
    | SeekCurrent delta =>
        let base := offset h + delta in if base <? 0 then Err InvalidOffset else mret (as_u64 base)
    | SeekEnd delta =>
        let base := size + delta in if base <? 0 then Err InvalidOffset else mret (as_u64 base)
    end;
  if size <? new_offset then throw InvalidOffset
  else mret (new_offset, mkHandle (file h) new_offset).

(** *** Descriptors *)

Inductive FileDescriptor := FdChar (dev : CharDevice W) | FdVfs (h : VfsHandle).

Inductive FileIoError := IoDriver (e : DriverError) | IoVfs (e : VfsError).

Definition fd_as_char (d : FileDescriptor) : option (CharDevice W) :=
  match d with FdChar dev => Some dev | FdVfs _ => None end.

Definition fd_write (d : FileDescriptor) (buf : list Z) : M W FileIoError (Z * FileDescriptor) :=
  match d with
  | FdChar dev => n ← map_err IoDriver (cd_write dev buf); mret (n, d)
  | FdVfs h => '(n, h') ← map_err IoVfs (handle_write h buf); mret (n, FdVfs h')
  end.

Definition fd_read (d : FileDescriptor) (n : Z) : M W FileIoError (list Z * FileDescriptor) :=
  match d with
  | FdChar dev => buf ← map_err IoDriver (cd_read dev n); mret (buf, d)
  | FdVfs h => '(buf, h') ← map_err IoVfs (handle_read h n); mret (buf, FdVfs h')
  end.

Definition fd_flush (d : FileDescriptor) : M W FileIoError unit :=
  match d with
  | FdChar _ => mret tt
  | FdVfs h => map_err IoVfs (handle_flush h)
  end.

Definition fd_seek (d : FileDescriptor) (pos : SeekFrom) : M W FileIoError (Z * FileDescriptor) :=
  match d with
  | FdChar _ => throw (IoDriver Unsupported)
  | FdVfs h => '(n, h') ← map_err IoVfs (handle_seek h pos); mret (n, FdVfs h')
  end.

End vfs.
Arguments AtaScratchFile : clear implicits.
Arguments VfsHandle : clear implicits.
Arguments FileDescriptor : clear implicits.

(** ** The scratch file stores a sector *)

Section scratch.
Context {W : Type} (f : AtaScratchFile W) `{!BlockDeviceLaws (device f)}.
Hypothesis Hsector : sector_size f ≤ SCRATCH_BYTES.
Hypothesis Hlba : 0 ≤ lba f.

(** The scratch sector lies on the device. *)
Definition scratch_ok (w : W) : Prop :=
  bd_inv w ∧ (lba f + 1) * sector_size f ≤ Z.of_nat (length (bd_disk w)).

Definition start_of : nat := Z.to_nat (lba f * sector_size f).

(** Its contents. *)
Definition contents (w : W) : list Z := take (Z.to_nat (sector_size f)) (drop start_of (bd_disk w)).

Lemma length_contents w : scratch_ok w → Z.of_nat (length (contents w)) = sector_size f.
Proof.
  intros [_ Hend]. pose proof bd_block_pos as Hpos. fold (sector_size f) in Hpos.
  unfold contents, start_of. rewrite length_take, length_drop. nia.
Qed.

Lemma read_sector w : scratch_ok w →
  ∃ w', read_blocks (device f) (lba f) (sector_size f) w = Ok (contents w, w') ∧ scratch_ok w' ∧ bd_disk w' = bd_disk w.
Proof.
  intros [Hinv Hend]. destruct (bd_read_ok w (lba f) 1) as (w' & Heq & Hinv' & Hd); [done|done|done|].
  rewrite Z.mul_1_l, Nat.mul_1_l in Heq. exists w'. split; [exact Heq|]. split; [|done]. split; [done|]. by rewrite Hd.
Qed.

Lemma scratch_capacity {A} (k : unit → M W VfsError A) w : (lift (ensure_scratch_capacity f) ≫= k) w = k tt w.
Proof. apply M_bind_lift. unfold ensure_scratch_capacity. by destruct (Z.ltb_spec SCRATCH_BYTES (sector_size f)); [lia|]. Qed.

Lemma scratch_range_ok off n : 0 ≤ off → 0 < n → off + n ≤ sector_size f → scratch_range f off n = Ok (off, off + n).
Proof.
  intros Ho Hn Hend. unfold SCRATCH_BYTES in Hsector. unfold scratch_range. destruct (Z.leb_spec (sector_size f) off); [lia|].
  rewrite checked_add64_some by lia. destruct (Z.ltb_spec (sector_size f) (off + n)); [lia|done].
Qed.

Lemma scratch_read_spec w off n : scratch_ok w → 0 ≤ off → 0 ≤ n → off + n ≤ sector_size f →
  ∃ w', scratch_read_at f off n w = Ok (take (Z.to_nat n) (drop (Z.to_nat off) (contents w)), w') ∧
    scratch_ok w' ∧ bd_disk w' = bd_disk w.
Proof.
  intros Hok Ho Hn Hend. unfold scratch_read_at. rewrite scratch_capacity.
  destruct (Z.eqb_spec n 0) as [->|]; [by exists w|].
  rewrite (M_bind_lift _ _ _ _ (scratch_range_ok off n Ho ltac:(lia) Hend)).
  destruct (read_sector w Hok) as (w' & Heq & Hok' & Hd). exists w'.
  rewrite (M_bind_ok _ _ _ (contents w) w') by (unfold map_err; by rewrite Heq).
  split; [|done]. unfold mret, M_ret. do 3 f_equal. lia.
Qed.

Lemma sector_in_disk (disk sector : list Z) (i n : nat) : (i + n ≤ length disk)%nat → length sector = n →
  take n (drop i (take i disk ++ sector ++ drop (i + n) disk)) = sector.
Proof.
  intros Hlen Hs. rewrite drop_app_ge by (rewrite length_take; lia).
  rewrite length_take, Nat.min_l, Nat.sub_diag, drop_0 by lia. by rewrite take_app_le, take_ge by lia.
Qed.

Lemma scratch_write_spec w off bs : scratch_ok w → 0 ≤ off → Forall byte bs → bs ≠ [] →
  off + Z.of_nat (length bs) ≤ sector_size f →
  ∃ w', scratch_write_at f off bs w = Ok (Z.of_nat (length bs), w') ∧ scratch_ok w' ∧
    contents w' = take (Z.to_nat off) (contents w) ++ bs ++ drop (Z.to_nat off + length bs) (contents w) ∧
    (∀ i, (i < start_of ∨ start_of + Z.to_nat (sector_size f) ≤ i)%nat → bd_disk w' !! i = bd_disk w !! i).
Proof.
  intros Hok Ho Hbs Hne Hend. unfold scratch_write_at. rewrite scratch_capacity.
  destruct (Nat.eqb_spec (length bs) 0) as [Hz|Hz]; [by apply nil_length_inv in Hz|].
  rewrite (M_bind_lift _ _ _ _ (scratch_range_ok off (Z.of_nat (length bs)) Ho ltac:(lia) Hend)).
  destruct (read_sector w Hok) as (w1 & Heq & Hok1 & Hd1).
  rewrite (M_bind_ok _ _ _ (contents w) w1) by (unfold map_err; by rewrite Heq).
  pose proof (length_contents w Hok) as Hlen. replace (Z.to_nat (off + Z.of_nat (length bs))) with (Z.to_nat off + length bs)%nat by lia.
  set (sector := take (Z.to_nat off) (contents w) ++ bs ++ drop (Z.to_nat off + length bs) (contents w)).
  assert (length sector = Z.to_nat (sector_size f)) as Hsl.
  { unfold sector. rewrite !length_app, length_take, length_drop. lia. }
  destruct Hok1 as [Hinv1 Hend1]. assert (Forall byte (contents w)) as Hcb.
  { apply Forall_take, Forall_drop, bd_disk_bytes. by destruct Hok. }
  destruct (bd_write_ok w1 (lba f) 1 sector) as (w2 & Hw & Hinv2 & Hd2); try done.
  { apply Forall_app. split; [by apply Forall_take|]. apply Forall_app. split; [done|by apply Forall_drop]. }
  { by rewrite Nat.mul_1_l. }
  rewrite (M_bind_ok _ _ _ tt w2) by (unfold map_err; by rewrite Hw).
  destruct (bd_flush_ok w2 Hinv2) as (w3 & Hf & Hinv3 & Hd3).
  rewrite (M_bind_ok _ _ _ tt w3) by (unfold map_err; by rewrite Hf).
  exists w3. split; [done|]. fold (sector_size f) in Hd2. fold start_of in Hd2. rewrite Hd1 in Hd2.
  destruct Hok as [Hinv Hend0]. pose proof bd_block_pos as Hpos. fold (sector_size f) in Hpos.
  assert (start_of + length sector ≤ length (bd_disk w))%nat as Hfit by (unfold start_of; nia).
  split_and!.
  - split; [done|]. rewrite Hd3, Hd2, !length_app, length_take, length_drop. unfold start_of in *. nia.
  - unfold contents at 1. rewrite Hd3, Hd2, <- Hsl. by apply sector_in_disk.
  - intros i Hi. rewrite Hd3, Hd2. destruct Hi as [Hi|Hi].
    + rewrite lookup_app_l by (rewrite length_take; lia). by rewrite lookup_take_lt.
    + rewrite lookup_app_r by (rewrite length_take; lia). rewrite length_take, lookup_app_r by lia.
      rewrite lookup_drop. f_equal. lia.
Qed.

End scratch.

(** ** Properties *)

Section properties.
Context {W : Type} (f : AtaScratchFile W) `{!BlockDeviceLaws (device f)}.

Lemma scratch_handle_write off bs w w1 : off + Z.of_nat (length bs) < U64 → scratch_write_at f off bs w = Ok (Z.of_nat (length bs), w1) →
  fd_write (FdVfs (mkHandle (scratch_file f) off)) bs w =
    Ok ((Z.of_nat (length bs), FdVfs (mkHandle (scratch_file f) (off + Z.of_nat (length bs)))), w1).
Proof.
  intros Hlt Hw. cbn [fd_write]. rewrite (M_bind_ok _ _ w (Z.of_nat (length bs), mkHandle (scratch_file f) (off + Z.of_nat (length bs))) w1); [done|]. apply map_err_ok. unfold handle_write. cbn [file offset scratch_file write_at].
  rewrite (M_bind_ok _ _ _ _ _ Hw). unfold saturating_add64. by rewrite Z.min_l by lia.
Qed.

Lemma scratch_handle_read off n bs w w1 : off + Z.of_nat (length bs) < U64 → scratch_read_at f off n w = Ok (bs, w1) →
  fd_read (FdVfs (mkHandle (scratch_file f) off)) n w = Ok ((bs, FdVfs (mkHandle (scratch_file f) (off + Z.of_nat (length bs)))), w1).
Proof.
  intros Hlt Hr. cbn [fd_read]. rewrite (M_bind_ok _ _ w (bs, mkHandle (scratch_file f) (off + Z.of_nat (length bs))) w1); [done|]. apply map_err_ok. unfold handle_read. cbn [file offset scratch_file read_at].
  rewrite (M_bind_ok _ _ _ _ _ Hr). unfold saturating_add64. by rewrite Z.min_l by lia.
Qed.

Lemma scratch_handle_seek off pos w : sector_size f ≤ SCRATCH_BYTES → 0 ≤ pos ≤ sector_size f →
  fd_seek (FdVfs (mkHandle (scratch_file f) off)) (SeekStart pos) w = Ok ((pos, FdVfs (mkHandle (scratch_file f) pos)), w).
Proof.
  intros Hs Hp. cbn [fd_seek]. rewrite (M_bind_ok _ _ w (pos, mkHandle (scratch_file f) pos) w); [done|]. apply map_err_ok. unfold handle_seek. cbn [file scratch_file vf_size].
  rewrite (M_bind_ok _ _ w (sector_size f) w).
  - rewrite (M_bind_lift _ _ _ pos) by done. by rewrite (proj2 (Z.ltb_ge _ _)) by lia.
  - unfold scratch_size, ensure_scratch_capacity. by rewrite (proj2 (Z.ltb_ge _ _)) by lia.
Qed.

(** The scratch file stores what is written to it.  On any device that obeys
    [BlockDeviceLaws], a write through a descriptor inside the sector succeeds,
    returns the number of bytes, moves the offset past them and changes exactly
    these bytes of the file and none of the device outside its sector; seeking back
    and reading returns the data and moves the offset again. *)
Theorem scratch_roundtrip w off bs :
  sector_size f ≤ SCRATCH_BYTES → 0 ≤ lba f → scratch_ok f w → 0 ≤ off → Forall byte bs → bs ≠ [] →
  off + Z.of_nat (length bs) ≤ sector_size f →
  let at_ pos := FdVfs (mkHandle (scratch_file f) pos) in
  let n := Z.of_nat (length bs) in
  ∃ w1 w2, fd_write (at_ off) bs w = Ok ((n, at_ (off + n)), w1) ∧
    contents f w1 = take (Z.to_nat off) (contents f w) ++ bs ++ drop (Z.to_nat off + length bs) (contents f w) ∧
    (∀ i, (i < start_of f ∨ start_of f + Z.to_nat (sector_size f) ≤ i)%nat → bd_disk w1 !! i = bd_disk w !! i) ∧
    fd_seek (at_ (off + n)) (SeekStart off) w1 = Ok ((off, at_ off), w1) ∧
    fd_read (at_ off) n w1 = Ok ((bs, at_ (off + n)), w2) ∧ scratch_ok f w2.
Proof.
  intros Hs Hl Hok Ho Hbs Hne Hend at_ n. unfold SCRATCH_BYTES in Hs.
  destruct (scratch_write_spec f Hs Hl w off bs) as (w1 & Hw & Hok1 & Hc & Hout); try done.
  destruct (scratch_read_spec f Hs Hl w1 off n) as (w2 & Hr & Hok2 & _); try done; [lia|].
  exists w1, w2. split_and!; [by apply scratch_handle_write; [lia|]|done|done|apply scratch_handle_seek; [done|lia]| |done].
  apply scratch_handle_read; [lia|]. rewrite Hr. do 2 f_equal. unfold n. rewrite Hc, Nat2Z.id.
  pose proof (length_contents f Hs Hl w Hok) as Hlen.
  apply (sector_in_disk (contents f w) bs (Z.to_nat off) (length bs)); lia || done.
Qed.

(** Seeking.  A successful [seek] returns the position it sets, which never
    lies beyond the end of the file, and is the one asked for; a failed one
    leaves the handle as it was.  It fails with [InvalidOffset] exactly when the
    target lies before the start or beyond the end. *)
Theorem seek_correct (h : VfsHandle W) pos w w' size :
  vf_size (file h) w = Ok (size, w') → 0 ≤ size ≤ I64 → 0 ≤ offset h ≤ size →
  (match pos with SeekStart p => 0 ≤ p < U64 | SeekCurrent d | SeekEnd d => - I64 ≤ d < I64 end) →
  let target := match pos with SeekStart p => p | SeekCurrent d => offset h + d | SeekEnd d => size + d end in
  handle_seek h pos w =
    if (target <? 0) || (size <? target) then Err (InvalidOffset, w')
    else Ok ((target, mkHandle (file h) target), w').
Proof.
  intros Hsize Hs Ho Hp target.
  unfold handle_seek. rewrite (M_bind_ok _ _ _ _ _ Hsize). destruct pos as [p|d|d]; unfold target in *; simpl in *.
  - destruct (Z.ltb_spec p 0); [lia|]. rewrite (M_bind_lift (mret _) _ _ _ eq_refl). simpl. by destruct (Z.ltb_spec size p).
  - destruct (Z.ltb_spec (offset h + d) 0); [done|]. rewrite (M_bind_lift (mret _) _ _ _ eq_refl). unfold as_u64.
    rewrite Z.mod_small by lia. simpl. by destruct (Z.ltb_spec size (offset h + d)).
  - destruct (Z.ltb_spec (size + d) 0); [done|]. rewrite (M_bind_lift (mret _) _ _ _ eq_refl). unfold as_u64.
    rewrite Z.mod_small by lia. simpl. by destruct (Z.ltb_spec size (size + d)).
Qed.

End properties.

(** *** Witnesses on an in-memory disk of four sectors of eight bytes *)

Definition example_disk : list Z := replicate 32 0.
Definition example_scratch : AtaScratchFile (list Z) := mkScratch (Drivers.MemBlockDevice "mem" 8) 2 "scratch".

#[local] Instance example_laws : BlockDeviceLaws (device example_scratch) := Drivers.mem_block_laws "mem" 8 eq_refl.

Lemma scratch_roundtrip_witness :
  let at_ pos := FdVfs (mkHandle (scratch_file example_scratch) pos) in
  ∃ w1 w2, fd_write (at_ 3) [7; 8; 9] example_disk = Ok ((3, at_ 6), w1) ∧ fd_read (at_ 3) 3 w1 = Ok (([7; 8; 9], at_ 6), w2).
Proof.
  destruct (scratch_roundtrip example_scratch example_disk 3 [7; 8; 9]) as (w1 & w2 & Hw & _ & _ & _ & Hr & _); try done.
  - split; [|done]. split; [done|]. by apply Forall_replicate.
  - by apply list_forallb_byte.
  - by exists w1, w2.
Defined.

Lemma seek_correct_witness :
  handle_seek (mkHandle (scratch_file example_scratch) 3) (SeekEnd (-2)) example_disk =
    Ok ((6, mkHandle (scratch_file example_scratch) 6), example_disk).
Proof.
  exact (seek_correct (mkHandle (scratch_file example_scratch) 3) (SeekEnd (-2)) example_disk example_disk 8
    eq_refl ltac:(done) ltac:(done) ltac:(done)).
Defined.

End Vfs.
