(* ===== verification/Process.v ===== *)
(** * Processes: [Process] and [MemoryRegionList] of src/src/kernel/process/mod.rs

    A process with its descriptors and memory regions, its creation and its
    destruction.  The devices and the scratch file the constructor installs, and
    the addresses of the code it refers to, are arguments. *)

From S2P Require Import Prelude Mem Heap RawVec Types Drivers Vfs.
Local Open Scope Z_scope.

Module Proc.

Section process.
Context {W : Type}.

Record Process := mkProcess {
  p_pid : Pid;
  p_parent : option Pid;
  p_name : string;
  p_credentials : Credentials;
  p_address_space : AddressSpace;
  p_state : ProcessState;
  p_wait_channel : option WaitChannel;
  p_exit_code : option Z;
  p_is_idle : bool;
  p_preempt_return : option Z;
  p_cpu_slices : Z;
  p_fds : list (option (Vfs.FileDescriptor W));
  p_context : Context;
  p_stack_ptr : Z;
  p_stack_layout : option Layout;
  p_regions : RawVec.rawvec MemoryRegion;
  p_user_stack : option UserStack;
  p_user_entry : option Z
}.

Definition set_credentials (x : Credentials) (p : Process) : Process :=
  mkProcess (p_pid p) (p_parent p) (p_name p) x (p_address_space p) (p_state p) (p_wait_channel p)
    (p_exit_code p) (p_is_idle p) (p_preempt_return p) (p_cpu_slices p) (p_fds p) (p_context p) (p_stack_ptr
    p) (p_stack_layout p) (p_regions p) (p_user_stack p) (p_user_entry p).
Definition set_address_space (x : AddressSpace) (p : Process) : Process :=
  mkProcess (p_pid p) (p_parent p) (p_name p) (p_credentials p) x (p_state p) (p_wait_channel p) (p_exit_code
    p) (p_is_idle p) (p_preempt_return p) (p_cpu_slices p) (p_fds p) (p_context p) (p_stack_ptr p)
    (p_stack_layout p) (p_regions p) (p_user_stack p) (p_user_entry p).
Definition set_state (x : ProcessState) (p : Process) : Process :=
  mkProcess (p_pid p) (p_parent p) (p_name p) (p_credentials p) (p_address_space p) x (p_wait_channel p)
    (p_exit_code p) (p_is_idle p) (p_preempt_return p) (p_cpu_slices p) (p_fds p) (p_context p) (p_stack_ptr
    p) (p_stack_layout p) (p_regions p) (p_user_stack p) (p_user_entry p).
Definition set_wait_channel (x : option WaitChannel) (p : Process) : Process :=
  mkProcess (p_pid p) (p_parent p) (p_name p) (p_credentials p) (p_address_space p) (p_state p) x (p_exit_code
    p) (p_is_idle p) (p_preempt_return p) (p_cpu_slices p) (p_fds p) (p_context p) (p_stack_ptr p)
    (p_stack_layout p) (p_regions p) (p_user_stack p) (p_user_entry p).
Definition set_exit_code (x : option Z) (p : Process) : Process :=
  mkProcess (p_pid p) (p_parent p) (p_name p) (p_credentials p) (p_address_space p) (p_state p)
    (p_wait_channel p) x (p_is_idle p) (p_preempt_return p) (p_cpu_slices p) (p_fds p) (p_context p)
    (p_stack_ptr p) (p_stack_layout p) (p_regions p) (p_user_stack p) (p_user_entry p).
Definition set_preempt (x : option Z) (p : Process) : Process :=
  mkProcess (p_pid p) (p_parent p) (p_name p) (p_credentials p) (p_address_space p) (p_state p)
    (p_wait_channel p) (p_exit_code p) (p_is_idle p) x (p_cpu_slices p) (p_fds p) (p_context p) (p_stack_ptr
    p) (p_stack_layout p) (p_regions p) (p_user_stack p) (p_user_entry p).
Definition set_cpu_slices (x : Z) (p : Process) : Process :=
  mkProcess (p_pid p) (p_parent p) (p_name p) (p_credentials p) (p_address_space p) (p_state p)
    (p_wait_channel p) (p_exit_code p) (p_is_idle p) (p_preempt_return p) x (p_fds p) (p_context p)
    (p_stack_ptr p) (p_stack_layout p) (p_regions p) (p_user_stack p) (p_user_entry p).
Definition set_fds (x : list (option (Vfs.FileDescriptor W))) (p : Process) : Process :=
  mkProcess (p_pid p) (p_parent p) (p_name p) (p_credentials p) (p_address_space p) (p_state p)
    (p_wait_channel p) (p_exit_code p) (p_is_idle p) (p_preempt_return p) (p_cpu_slices p) x (p_context p)
    (p_stack_ptr p) (p_stack_layout p) (p_regions p) (p_user_stack p) (p_user_entry p).
Definition set_context (x : Context) (p : Process) : Process :=
  mkProcess (p_pid p) (p_parent p) (p_name p) (p_credentials p) (p_address_space p) (p_state p)
    (p_wait_channel p) (p_exit_code p) (p_is_idle p) (p_preempt_return p) (p_cpu_slices p) (p_fds p) x
    (p_stack_ptr p) (p_stack_layout p) (p_regions p) (p_user_stack p) (p_user_entry p).
Definition set_stack_layout (x : option Layout) (p : Process) : Process :=
  mkProcess (p_pid p) (p_parent p) (p_name p) (p_credentials p) (p_address_space p) (p_state p)
    (p_wait_channel p) (p_exit_code p) (p_is_idle p) (p_preempt_return p) (p_cpu_slices p) (p_fds p)
    (p_context p) (p_stack_ptr p) x (p_regions p) (p_user_stack p) (p_user_entry p).
Definition set_regions (x : RawVec.rawvec MemoryRegion) (p : Process) : Process :=
  mkProcess (p_pid p) (p_parent p) (p_name p) (p_credentials p) (p_address_space p) (p_state p)
    (p_wait_channel p) (p_exit_code p) (p_is_idle p) (p_preempt_return p) (p_cpu_slices p) (p_fds p)
    (p_context p) (p_stack_ptr p) (p_stack_layout p) x (p_user_stack p) (p_user_entry p).
Definition set_user_stack (x : option UserStack) (p : Process) : Process :=
  mkProcess (p_pid p) (p_parent p) (p_name p) (p_credentials p) (p_address_space p) (p_state p)
    (p_wait_channel p) (p_exit_code p) (p_is_idle p) (p_preempt_return p) (p_cpu_slices p) (p_fds p)
    (p_context p) (p_stack_ptr p) (p_stack_layout p) (p_regions p) x (p_user_entry p).
Definition set_user_entry (x : option Z) (p : Process) : Process :=
  mkProcess (p_pid p) (p_parent p) (p_name p) (p_credentials p) (p_address_space p) (p_state p)
    (p_wait_channel p) (p_exit_code p) (p_is_idle p) (p_preempt_return p) (p_cpu_slices p) (p_fds p)
    (p_context p) (p_stack_ptr p) (p_stack_layout p) (p_regions p) (p_user_stack p) x.

(** *** File descriptors *)

Definition set_fd (index : Z) (descriptor : Vfs.FileDescriptor W) (p : Process) : comp ProcessError Process :=
  if Z.of_nat MAX_FDS <=? index then Err InvalidFileDescriptor
  else mret (set_fds (<[Z.to_nat index := Some descriptor]> (p_fds p)) p).

(** The first free slot from index [i] on. *)
Fixpoint first_free (i : nat) (fds : list (option (Vfs.FileDescriptor W))) : option nat :=
  match fds with
  | [] => None
  | None :: _ => Some i
  | Some _ :: rest => first_free (S i) rest
  end.

Definition allocate_fd_slot (descriptor : Vfs.FileDescriptor W) (p : Process) : comp ProcessError (Z * Process) :=
  match first_free 0 (p_fds p) with
  | Some index => mret (Z.of_nat index, set_fds (<[index := Some descriptor]> (p_fds p)) p)
  | None => Err NoFreeFileDescriptors
  end.

Definition release_fd_slot (index : Z) (p : Process) : comp ProcessError (Vfs.FileDescriptor W * Process) :=
  if Z.of_nat MAX_FDS <=? index then Err InvalidFileDescriptor
  else
    match p_fds p !! Z.to_nat index with
    | Some (Some d) => mret (d, set_fds (<[Z.to_nat index := None]> (p_fds p)) p)
    | _ => Err InvalidFileDescriptor
    end.

(** [fd] and [fd_mut] *)
Definition fd (index : Z) (p : Process) : option (Vfs.FileDescriptor W) := mjoin (p_fds p !! Z.to_nat index).

(** *** Memory regions *)

Section regions.
Context (region_size : Z).

Definition regions_config : RawVec.config ProcessError :=
  RawVec.mkConfig region_size 8 RawVec.checked_double false AllocationFailed AllocationFailed AllocationFailed AllocationFailed.

(** [MemoryRegionList::remove_by_ptr] *)
Fixpoint region_index (i : nat) (ptr : Z) (l : list MemoryRegion) : option nat :=
  match l with
  | [] => None
  | r :: rest => if region_base r =? ptr then Some i else region_index (S i) ptr rest
  end.

Definition remove_by_ptr (ptr : Z) (v : RawVec.rawvec MemoryRegion) : option (MemoryRegion * RawVec.rawvec MemoryRegion) :=
  index ← region_index 0 ptr (RawVec.elems v); RawVec.swap_remove index v.

(** A process together with the free list of the heap. *)
Definition pheap : Type := Process * list Heap.ListNode.

Definition heap_op {A} (f : list Heap.ListNode → comp ProcessError (A * list Heap.ListNode)) : M pheap ProcessError A := λ s,
  match f s.2 with
  | Ok (a, l) => Ok (a, (s.1, l))
  | Err e => Err (e, s)
  | Panic => Panic
  | Hang => Hang
  end.

Definition dealloc (ptr : Z) (layout : Layout) (l : list Heap.ListNode) : comp ProcessError (unit * list Heap.ListNode) :=
  l' ← Heap.deallocate l ptr layout; mret (tt, l').

Definition register (r : MemoryRegion) : M pheap ProcessError unit :=
  zoom (λ s, (p_regions s.1, s.2)) (λ r s, (set_regions r.1 s.1, r.2)) (RawVec.push regions_config r).

Definition allocate_region_with_permissions (layout : Layout) (kind : MemoryRegionKind) (permissions : MemoryPermissions)
    : M pheap ProcessError Z :=
  ptr ← heap_op (λ l, Heap.allocate l layout);
  if ptr =? 0 then throw AllocationFailed
  else
    _ ← register (mkMemoryRegion ptr layout kind permissions);
    mret ptr.

Definition allocate_region (layout : Layout) (kind : MemoryRegionKind) : M pheap ProcessError Z :=
  allocate_region_with_permissions layout kind read_write.

Definition release_region (ptr : Z) : M pheap ProcessError unit :=
  p ← gets fst;
  match remove_by_ptr ptr (p_regions p) with
  | Some (region, regions) =>
      _ ← modify (λ s, (set_regions regions s.1, s.2));
      if negb (region_base region =? 0) then heap_op (dealloc (region_base region) (region_layout region)) else mret tt
  | None => throw MemoryRegionNotFound
  end.

(** [Drop for Process]: the regions are drained from the last to the first; the
    first one of kind [Stack] releases the kernel stack, later ones nothing.
    The array of regions goes when the field is dropped afterwards. *)
Fixpoint drain (regions : list MemoryRegion) : M pheap ProcessError unit :=
  match regions with
  | [] => mret tt
  | region :: rest =>
      p ← gets fst;
      _ ← (match region_kind region with
           | Stack =>
               match p_stack_layout p with
               | Some layout =>
                   _ ← modify (λ s, (set_stack_layout None s.1, s.2));
                   heap_op (dealloc (p_stack_ptr p) layout)
               | None => mret tt
               end
           | _ => heap_op (dealloc (region_base region) (region_layout region))
           end);
      drain rest
  end.

Definition drop : M pheap ProcessError unit :=
  p ← gets fst;
  _ ← drain (rev (RawVec.elems (p_regions p)));
  zoom (λ s, (p_regions s.1, s.2)) (λ r s, (set_regions r.1 s.1, r.2)) (RawVec.drop_array regions_config).

(** *** Creation *)

(** The static objects a process starts with: the console, the keyboard, the
    scratch file if there is one, and the address of [process_exit]. *)
Record env := mkEnv {
  console : CharDevice W; keyboard : CharDevice W; scratch : option (VfsFile W); process_exit : Z
}.
Context (e : env).

Definition install_fds (p : Process) : comp ProcessError Process :=
  p ← set_fd STDOUT_FD (Vfs.FdChar (console e)) p;
  p ← set_fd STDERR_FD (Vfs.FdChar (console e)) p;
  p ← set_fd STDIN_FD (Vfs.FdChar (keyboard e)) p;
  match scratch e with
  | Some file => set_fd SCRATCH_FD (Vfs.FdVfs (Vfs.VfsHandle_new file)) p
  | None => mret p
  end.

(** A kernel stack with the address of [process_exit] pushed on it: its base
    and the stack pointer. *)
Definition new_stack : M Heap.allocator ProcessError (Z * Layout * Z) :=
  layout ← ok_or (from_size_align KERNEL_STACK_SIZE 16) StackAllocationFailed;
  stack_ptr ← Heap.heap_allocate layout;
  if stack_ptr =? 0 then throw StackAllocationFailed
  else
    let stack_top := stack_ptr + KERNEL_STACK_SIZE in
    let aligned_top := Z.land stack_top (not64 0xF) in
    let aligned_top := saturating_sub64 aligned_top 8 in
    _ ← modify (Heap.heap_write (λ m, store64 m aligned_top (process_exit e)));
    mret (stack_ptr, layout, aligned_top).

(** Register the kernel stack; when that fails the half-built process is
    dropped before the error is returned. *)
Definition register_stack (p : Process) (layout : Layout) : M Heap.allocator ProcessError Process := λ s,
  match register (mkMemoryRegion (p_stack_ptr p) layout Stack read_write) (p, Heap.ga_free s) with
  | Ok (_, (p', l)) => Ok (p', Heap.mkAllocator l (Heap.ga_mem s))
  | Err (err, (p', l)) =>
      match drop (p', l) with
      | Ok (_, (_, l')) => Err (err, Heap.mkAllocator l' (Heap.ga_mem s))
      | Err (_, (_, l')) => Err (err, Heap.mkAllocator l' (Heap.ga_mem s))
      | Panic => Panic
      | Hang => Hang
      end
  | Panic => Panic
  | Hang => Hang
  end.

(** [AddressSpace::kernel] takes the page tables that are loaded, [read_cr3]. *)
Definition new_kernel (read_cr3 : Z) (pid : Pid) (name : string) (parent : option Pid) (entry : Z) (is_idle : bool)
    (credentials : Credentials) : M Heap.allocator ProcessError Process :=
  '(stack_ptr, layout, aligned_top) ← new_stack;
  let context := mkContext 0 0 0 0 0 aligned_top aligned_top entry (rflags Context_new) in
  let process := mkProcess pid parent name credentials (with_cr3 read_cr3 Kernel) Ready None None is_idle None 0
    (replicate MAX_FDS None) context stack_ptr (Some layout) RawVec.new None None in
  process ← lift (install_fds process);
  register_stack process layout.

End regions.

End process.
Arguments Process : clear implicits.
Arguments env : clear implicits.

End Proc.
