(* ===== verification/Sched.v ===== *)
(** * The process table and the scheduler of src/src/kernel/process/mod.rs

    [ProcessTable] with its spawning, lookup and reaping, and the round-robin
    scheduler with its context switch.  The kernel state holds the statics the
    code touches (the table, the current pid, the boot context, the resched
    flag), the registers of the processor, and the heap. *)

From S2P Require Import Prelude Mem Heap RawVec Types Drivers Vfs Process.
Local Open Scope Z_scope.

Module Sched.
Import Proc.

Section sched.
Context {W : Type}.

Record ProcessTable := mkTable {
  entries : RawVec.rawvec (Process W); next_pid : Z; init_pid : option Pid; idle_pid : option Pid; initialized : bool
}.

Definition table_new : ProcessTable := mkTable RawVec.new 1 None None false.

(** [slice] *)
Definition procs (t : ProcessTable) : list (Process W) := RawVec.elems (entries t).

Definition set_procs (l : list (Process W)) (t : ProcessTable) : ProcessTable :=
  mkTable (RawVec.mkRawVec (RawVec.ptr (entries t)) l (RawVec.capacity (entries t)))
    (next_pid t) (init_pid t) (idle_pid t) (initialized t).
Definition set_entries (v : RawVec.rawvec (Process W)) (t : ProcessTable) : ProcessTable :=
  mkTable v (next_pid t) (init_pid t) (idle_pid t) (initialized t).
Definition set_next_pid (n : Z) (t : ProcessTable) : ProcessTable :=
  mkTable (entries t) n (init_pid t) (idle_pid t) (initialized t).
Definition set_init_pid (x : option Pid) (t : ProcessTable) : ProcessTable :=
  mkTable (entries t) (next_pid t) x (idle_pid t) (initialized t).
Definition set_idle_pid (x : option Pid) (t : ProcessTable) : ProcessTable :=
  mkTable (entries t) (next_pid t) (init_pid t) x (initialized t).
Definition set_initialized (b : bool) (t : ProcessTable) : ProcessTable :=
  mkTable (entries t) (next_pid t) (init_pid t) (idle_pid t) b.

(** [slice().iter().position(..)] *)
Fixpoint position {A} (f : A → bool) (l : list A) : option nat :=
  match l with
  | [] => None
  | x :: l => if f x then Some O else S <$> position f l
  end.

Definition find_index_by_pid (t : ProcessTable) (pid : Pid) : option nat := position (λ p, p_pid p =? pid) (procs t).

Definition get (t : ProcessTable) (pid : Pid) : option (Process W) := idx ← find_index_by_pid t pid; procs t !! idx.

(** [get_mut] followed by the assignments [f]. *)
Definition update_index (idx : nat) (f : Process W → Process W) (t : ProcessTable) : ProcessTable :=
  set_procs (alter f idx (procs t)) t.
Definition get_mut (pid : Pid) (f : Process W → Process W) (t : ProcessTable) : option ProcessTable :=
  idx ← find_index_by_pid t pid; Some (update_index idx f t).

Definition opt_eqb (a b : option Pid) : bool := bool_decide (a = b).

Definition is_child (parent : Pid) (target : option Pid) (p : Process W) : bool :=
  opt_eqb (p_parent p) (Some parent) && match target with Some target_pid => p_pid p =? target_pid | None => true end.

Definition has_child (t : ProcessTable) (parent : Pid) (target : option Pid) : bool :=
  existsb (is_child parent target) (procs t).

(** [state == ..] *)
Definition in_state (st : ProcessState) (p : Process W) : bool := bool_decide (p_state p = st).

Definition is_zombie_child (parent : Pid) (target : option Pid) (p : Process W) : bool :=
  opt_eqb (p_parent p) (Some parent) && in_state Zombie p &&
  match target with Some target_pid => p_pid p =? target_pid | None => true end.

(** The loop of [next_ready_index]; [remaining] is [len - inspected]. *)
Fixpoint scan (l : list (Process W)) (remaining index : nat) (idle_candidate : option nat) : comp ProcessError (option nat) :=
  match remaining with
  | O => mret idle_candidate
  | S remaining =>
      match l !! index with
      | None => Panic
      | Some process =>
          let next := ((index + 1) `mod` length l)%nat in
          let candidate := match idle_candidate with None => Some index | Some _ => idle_candidate end in
          match p_state process with
          | Ready => if p_is_idle process then scan l remaining next candidate else mret (Some index)
          | Running => if p_is_idle process then scan l remaining next candidate else scan l remaining next idle_candidate
          | _ => scan l remaining next idle_candidate
          end
      end
  end.

Definition next_ready_index (t : ProcessTable) (start : option nat) : comp ProcessError (option nat) :=
  if (length (procs t) =? 0)%nat then mret None
  else
    let index := match start with Some i => ((i + 1) `mod` length (procs t))%nat | None => O end in
    scan (procs t) (length (procs t)) index None.

(** *** The table and the heap *)

Definition theap : Type := ProcessTable * Heap.allocator.

Section table_heap.
Context (process_size region_size : Z) (e : env W).

Definition table_config : RawVec.config ProcessError :=
  RawVec.mkConfig process_size 8 RawVec.checked_double true TooManyProcesses TooManyProcesses AllocationFailed AllocationFailed.

Definition allocate_pid : M theap ProcessError Pid :=
  t ← gets fst;
  let pid := next_pid t in
  next ← ok_or (if pid + 1 <? 2 ^ 32 then Some (pid + 1) else None) TooManyProcesses;
  _ ← modify (λ s, (set_next_pid next s.1, s.2));
  mret pid.

Definition push (p : Process W) : M theap ProcessError unit := λ s,
  let '(t, a) := s in
  match RawVec.push table_config p (entries t, Heap.ga_free a) with
  | Ok (_, (v, l)) => Ok (tt, (set_entries v t, Heap.mkAllocator l (Heap.ga_mem a)))
  | Err (err, (v, l)) =>
      (* [process] is dropped with the argument *)
      match drop region_size (p, l) with
      | Ok (_, (_, l')) => Err (err, (set_entries v t, Heap.mkAllocator l' (Heap.ga_mem a)))
      | Err (_, (_, l')) => Err (err, (set_entries v t, Heap.mkAllocator l' (Heap.ga_mem a)))
      | Panic => Panic
      | Hang => Hang
      end
  | Panic => Panic
  | Hang => Hang
  end.

Definition spawn_credentials (t : ProcessTable) (parent : option Pid) : Credentials :=
  match parent with
  | Some parent_pid => default Credentials_root (p_credentials <$> get t parent_pid)
  | None => Credentials_root
  end.

(** [ProcessTable::spawn_kernel_process] *)
Definition table_spawn_kernel (read_cr3 : Z) (name : string) (parent : option Pid) (entry : Z) (is_idle : bool) : M theap ProcessError Pid :=
  pid ← allocate_pid;
  t ← gets fst;
  let credentials := spawn_credentials t parent in
  process ← zoom snd (λ a s, (s.1, a)) (new_kernel region_size e read_cr3 pid name parent entry is_idle credentials);
  _ ← push process;
  _ ← modify (λ s : theap, (if is_idle then set_idle_pid (Some pid) s.1
                    else match init_pid s.1 with None => set_init_pid (Some pid) s.1 | Some _ => s.1 end, s.2));
  mret pid.

(** [ProcessTable::spawn_user_process]; the constructor [Process::new_user] is the
    loader's and comes as an argument.  It also works on the rest of the kernel's
    world, where the files and the page tables are. *)
Definition on_theap {A} (m : M theap ProcessError A) : M (theap * W) ProcessError A := zoom fst (λ t s, (t, s.2)) m.

Definition table_spawn_user (new_user : Pid → option Pid → Credentials → M (theap * W) ProcessError (Process W)) (parent : option Pid)
    : M (theap * W) ProcessError Pid :=
  pid ← on_theap allocate_pid;
  t ← gets (λ s, s.1.1);
  let credentials := spawn_credentials t parent in
  process ← new_user pid parent credentials;
  _ ← on_theap (push process);
  mret pid.

(** [remove_index]: the assertion fails outside the table. *)
Definition remove_index (index : nat) : M theap ProcessError (Process W) := λ s,
  let '(t, a) := s in
  match RawVec.swap_remove index (entries t) with
  | None => Panic
  | Some (removed, v) =>
      let t := set_entries v t in
      let t := if opt_eqb (Some (p_pid removed)) (idle_pid t) then set_idle_pid None t else t in
      let t := if opt_eqb (Some (p_pid removed)) (init_pid t) then set_init_pid None t else t in
      Ok (removed, (t, a))
  end.

Definition drop_process (p : Process W) : M theap ProcessError unit := λ s,
  match drop region_size (p, Heap.ga_free s.2) with
  | Ok (_, (_, l)) => Ok (tt, (s.1, Heap.mkAllocator l (Heap.ga_mem s.2)))
  | Err (err, (_, l)) => Err (err, (s.1, Heap.mkAllocator l (Heap.ga_mem s.2)))
  | Panic => Panic
  | Hang => Hang
  end.

Definition take_zombie_child (parent : Pid) (target : option Pid) : M theap ProcessError (option (Pid * Z)) :=
  t ← gets fst;
  match position (is_zombie_child parent target) (procs t) with
  | None => mret None
  | Some index =>
      process ← remove_index index;
      _ ← drop_process process;
      mret (Some (p_pid process, default 0 (p_exit_code process)))
  end.

End table_heap.

(** *** The kernel *)

Record kernel := mkKernel {
  k_table : ProcessTable; k_current : Z; k_boot : Context; k_need_resched : bool;
  k_cpu : Context; k_cr3 : Z; k_rsp0 : Z; k_heap : Heap.allocator; k_world : W
}.

Definition set_table (t : ProcessTable) (k : kernel) : kernel :=
  mkKernel t (k_current k) (k_boot k) (k_need_resched k) (k_cpu k) (k_cr3 k) (k_rsp0 k) (k_heap k) (k_world k).
Definition set_current_pid (pid : Pid) (k : kernel) : kernel :=
  mkKernel (k_table k) pid (k_boot k) (k_need_resched k) (k_cpu k) (k_cr3 k) (k_rsp0 k) (k_heap k) (k_world k).
Definition set_boot (c : Context) (k : kernel) : kernel :=
  mkKernel (k_table k) (k_current k) c (k_need_resched k) (k_cpu k) (k_cr3 k) (k_rsp0 k) (k_heap k) (k_world k).
Definition set_need_resched (b : bool) (k : kernel) : kernel :=
  mkKernel (k_table k) (k_current k) (k_boot k) b (k_cpu k) (k_cr3 k) (k_rsp0 k) (k_heap k) (k_world k).
Definition set_cpu (c : Context) (k : kernel) : kernel :=
  mkKernel (k_table k) (k_current k) (k_boot k) (k_need_resched k) c (k_cr3 k) (k_rsp0 k) (k_heap k) (k_world k).
Definition write_cr3 (x : Z) (k : kernel) : kernel :=
  mkKernel (k_table k) (k_current k) (k_boot k) (k_need_resched k) (k_cpu k) x (k_rsp0 k) (k_heap k) (k_world k).
Definition set_kernel_stack (x : Z) (k : kernel) : kernel :=
  mkKernel (k_table k) (k_current k) (k_boot k) (k_need_resched k) (k_cpu k) (k_cr3 k) x (k_heap k) (k_world k).
Definition set_heap (a : Heap.allocator) (k : kernel) : kernel :=
  mkKernel (k_table k) (k_current k) (k_boot k) (k_need_resched k) (k_cpu k) (k_cr3 k) (k_rsp0 k) a (k_world k).
Definition set_world (w : W) (k : kernel) : kernel :=
  mkKernel (k_table k) (k_current k) (k_boot k) (k_need_resched k) (k_cpu k) (k_cr3 k) (k_rsp0 k) (k_heap k) w.

Definition current_pid (k : kernel) : option Pid := if k_current k =? 0 then None else Some (k_current k).

(** An operation on the table and the heap. *)
Definition with_table {A} (m : M theap ProcessError A) : M kernel ProcessError A :=
  zoom (λ k, (k_table k, k_heap k)) (λ s k, set_heap s.2 (set_table s.1 k)) m.

Definition with_table_world {A} (m : M (theap * W) ProcessError A) : M kernel ProcessError A :=
  zoom (λ k, ((k_table k, k_heap k), k_world k)) (λ s k, set_world s.2 (set_heap s.1.2 (set_table s.1.1 k))) m.

(** [context_switch(current, next)]: what is written to [current] (the return
    point is the label the routine resumes at) and what the processor continues
    with. *)
Definition saved_context (return_point : Z) (cpu : Context) : Context :=
  mkContext (r15 cpu) (r14 cpu) (r13 cpu) (r12 cpu) (rbx cpu) (rbp cpu) (rsp cpu) return_point (rflags cpu).

Section switch.
Context (return_point : Z).

(** The current context goes to the slot of the current process, or to the boot
    context when no process runs; the next one is read after that write. *)
Definition context_switch (current_index : option nat) (next_index : nat) (k : kernel) : comp ProcessError kernel :=
  let saved := saved_context return_point (k_cpu k) in
  let k := match current_index with
           | Some idx => set_table (update_index idx (set_context saved) (k_table k)) k
           | None => set_boot saved k
           end in
  match procs (k_table k) !! next_index with
  | Some next => mret (set_cpu (p_context next) k)
  | None => Panic
  end.

(** Demote the running current process and promote the next one. *)
Definition demote (p : Process W) : Process W := if in_state Running p then set_state Ready p else p.
Definition promote (p : Process W) : Process W :=
  set_cpu_slices (saturating_add64 (p_cpu_slices p) 1) (set_state Running p).

Definition schedule_internal (k : kernel) : comp ProcessError (bool * kernel) :=
  let t := k_table k in
  if (length (procs t) =? 0)%nat then mret (false, k)
  else
    let current_index := pid ← current_pid k; find_index_by_pid t pid in
    next ← next_ready_index t current_index;
    match next with
    | None => mret (false, k)
    | Some next_index =>
        if bool_decide (current_index = Some next_index) then mret (false, k)
        else
          let current_space := idx ← current_index; p_address_space <$> procs t !! idx in
          match procs t !! next_index with
          | None => Panic
          | Some next_process =>
              let next_space := p_address_space next_process in
              let t := match current_index with Some idx => update_index idx demote t | None => t end in
              let t := update_index next_index promote t in
              let k := set_kernel_stack (rsp (p_context next_process)) (set_table t k) in
              let need_switch :=
                match current_space with Some space => negb (cr3 space =? cr3 next_space) | None => true end in
              let k := if need_switch then write_cr3 (cr3 next_space) k else k in
              let k := set_current_pid (p_pid next_process) k in
              k ← context_switch current_index next_index k;
              mret (true, k)
          end
    end.

(** [while !schedule_internal() {}]: a call that does not switch changes nothing,
    so the loop ends in its first round or spins until an interrupt changes the
    table. *)
Definition reschedule (k : kernel) : comp ProcessError kernel :=
  '(switched, k) ← schedule_internal k;
  if switched : bool then mret k else Hang.

Definition yield_now (k : kernel) : comp ProcessError kernel := '(_, k) ← schedule_internal k; mret k.

(** The assignments that block a process. *)
Definition block (channel : WaitChannel) (p : Process W) : Process W :=
  set_preempt None (set_wait_channel (Some channel) (set_state Blocked p)).

Definition block_current (channel : WaitChannel) (k : kernel) : comp ProcessError kernel :=
  match current_pid k with
  | None => Err ProcessNotFound
  | Some pid =>
      match get_mut pid (block channel) (k_table k) with
      | None => Err ProcessNotFound
      | Some t => reschedule (set_table t k)
      end
  end.

(** The body of the loop of [wake_channel]. *)
Definition wake (event : WaitChannel) (p : Process W) : Process W :=
  if in_state Blocked p then
    match p_wait_channel p with
    | Some channel =>
        if matches_event channel event then set_preempt None (set_state Ready (set_wait_channel None p)) else p
    | None => p
    end
  else p.

Definition wake_channel (event : WaitChannel) (k : kernel) : kernel :=
  set_table (set_procs (wake event <$> procs (k_table k)) (k_table k)) k.

(** [request_preempt]: [locked] says that the interrupted code holds the table's
    lock.  The result is the address the interrupt returns to. *)
Definition KERNEL_BASE : Z := 0xFFFF800000000000.
Definition KERNEL_TOP_BITS : Z := 0xFFFF.

Definition request_preempt (preempt_trampoline : Z) (locked : bool) (frame_rip : Z) (k : kernel) : Z * kernel :=
  let k := set_need_resched true k in
  if frame_rip <? KERNEL_BASE then (frame_rip, k)
  else if negb (Z.shiftr frame_rip 48 =? KERNEL_TOP_BITS) then (frame_rip, k)
  else
    match current_pid k with
    | None => (frame_rip, k)
    | Some pid =>
        if locked then (frame_rip, k)
        else
          match find_index_by_pid (k_table k) pid with
          | None => (frame_rip, k)
          | Some idx =>
              match procs (k_table k) !! idx with
              | None => (frame_rip, k)
              | Some process =>
                  if negb (in_state Running process) || p_is_idle process then (frame_rip, k)
                  else
                    match p_preempt_return process with
                    | Some _ => (frame_rip, k)
                    | None =>
                        (preempt_trampoline, set_table (update_index idx (set_preempt (Some frame_rip)) (k_table k)) k)
                    end
              end
          end
    end.

(** [preempt_do_switch] up to the switch, and what it does when the process runs
    again: the address the trampoline jumps to. *)
Definition preempt_do_switch (k : kernel) : comp ProcessError kernel := reschedule (set_need_resched false k).

Definition preempt_resume (k : kernel) : comp ProcessError (Z * kernel) :=
  match current_pid k with
  | None => Panic
  | Some pid =>
      match find_index_by_pid (k_table k) pid with
      | None => Panic
      | Some idx =>
          match procs (k_table k) !! idx with
          | None => Panic
          | Some p =>
              mret (default (rip (p_context p)) (p_preempt_return p), set_table (update_index idx (set_preempt None) (k_table k)) k)
          end
      end
  end.

Definition zombify (exit_code : Z) (p : Process W) : Process W :=
  set_preempt None (set_exit_code (Some exit_code) (set_wait_channel None (set_state Zombie p))).

Definition exit_current (exit_code : Z) (k : kernel) : comp ProcessError kernel :=
  match current_pid k with
  | None => Panic
  | Some pid =>
      match get (k_table k) pid, get_mut pid (zombify exit_code) (k_table k) with
      | Some process, Some t =>
          let k := set_table t k in
          let k := match p_parent process with Some parent_pid => wake_channel (Child parent_pid) k | None => k end in
          reschedule k
      | _, _ => Panic
      end
  end.

(** One round of [wait_for_child]: it returns, or the caller is blocked and the
    processor given away; when the caller runs again the next round follows. *)
Inductive wait_result := WaitDone (pid : Pid) (code : Z) | WaitBlocked.

Definition wait_channel_of (target : option Pid) : WaitChannel := match target with Some pid => Child pid | None => ChildAny end.

Definition wait_for_child (region_size : Z) (target : option Pid) : M kernel ProcessError wait_result :=
  k ← Prelude.get;
  current ← ok_or (current_pid k) ProcessNotFound;
  if negb (has_child (k_table k) current target) then
    throw match target with Some _ => ChildNotFound | None => NoChildren end
  else
    zombie ← with_table (take_zombie_child region_size current target);
    match zombie with
    | Some (pid, code) => mret (WaitDone pid code)
    | None =>
        k ← Prelude.get;
        t ← ok_or (get_mut current (block (wait_channel_of target)) (k_table k)) ProcessNotFound;
        k' ← lift (reschedule (set_table t k));
        _ ← put k';
        mret WaitBlocked
    end.

End switch.

(** *** Entry points *)

Section entry.
Context (process_size region_size : Z) (e : env W) (idle_task : Z).

Definition init : M kernel ProcessError unit :=
  k ← Prelude.get;
  if initialized (k_table k) then mret tt
  else
    _ ← modify (λ k, set_table (set_initialized true (k_table k)) k);
    _ ← with_table (table_spawn_kernel process_size region_size e (k_cr3 k) "idle" None idle_task true);
    mret tt.

Definition spawn_kernel_process (name : string) (entry : Z) : M kernel ProcessError Pid :=
  k ← Prelude.get;
  if negb (initialized (k_table k)) then throw NotInitialized
  else with_table (table_spawn_kernel process_size region_size e (k_cr3 k) name (current_pid k) entry false).

Definition spawn_user_process (new_user : Pid → option Pid → Credentials → M (theap * W) ProcessError (Process W))
    : M kernel ProcessError Pid :=
  k ← Prelude.get;
  if negb (initialized (k_table k)) then throw NotInitialized
  else with_table_world (table_spawn_user process_size region_size new_user (current_pid k)).

Definition spawn_idle_process (name : string) (entry : Z) : M kernel ProcessError Pid :=
  k ← Prelude.get;
  if negb (initialized (k_table k)) then throw NotInitialized
  else
    match idle_pid (k_table k) with
    | Some _ => throw IdleAlreadyExists
    | None => with_table (table_spawn_kernel process_size region_size e (k_cr3 k) name None entry true)
    end.

(** A process of the table by pid, with the heap: [table.get_mut(pid)] followed by
    a method of the process. *)
Definition with_process_heap {A} (pid : Pid) (m : M pheap ProcessError A) : M kernel ProcessError A := λ k,
  match find_index_by_pid (k_table k) pid with
  | None => Err (ProcessNotFound, k)
  | Some idx =>
      match procs (k_table k) !! idx with
      | None => Panic
      | Some p =>
          let put_back (s : pheap) :=
            set_heap (Heap.mkAllocator s.2 (Heap.ga_mem (k_heap k))) (set_table (update_index idx (λ _, s.1) (k_table k)) k) in
          match m (p, Heap.ga_free (k_heap k)) with
          | Ok (a, s) => Ok (a, put_back s)
          | Err (err, s) => Err (err, put_back s)
          | Panic => Panic
          | Hang => Hang
          end
      end
  end.

Definition allocate_for_process_with_permissions (pid : Pid) (layout : Layout) (kind : MemoryRegionKind)
    (permissions : MemoryPermissions) : M kernel ProcessError Z :=
  with_process_heap pid (allocate_region_with_permissions region_size layout kind permissions).

Definition allocate_for_process (pid : Pid) (layout : Layout) (kind : MemoryRegionKind) : M kernel ProcessError Z :=
  allocate_for_process_with_permissions pid layout kind read_write.

Definition free_for_process (pid : Pid) (ptr : Z) : M kernel ProcessError unit := with_process_heap pid (release_region ptr).

(** [with_process_mut] with a closure that returns a value and the new process. *)
Definition with_process_mut {R} (pid : Pid) (f : Process W → R * Process W) : M kernel ProcessError R :=
  k ← Prelude.get;
  idx ← ok_or (find_index_by_pid (k_table k) pid) ProcessNotFound;
  p ← ok_or (procs (k_table k) !! idx) ProcessNotFound;
  _ ← put (set_table (update_index idx (λ _, (f p).2) (k_table k)) k);
  mret (f p).1.

(** [with_process_mut] with a fallible method of [Process] that keeps the process
    when it fails. *)
Definition with_process_try {R} (pid : Pid) (f : Process W → comp ProcessError (R * Process W)) : M kernel ProcessError R :=
  k ← Prelude.get;
  idx ← ok_or (find_index_by_pid (k_table k) pid) ProcessNotFound;
  p ← ok_or (procs (k_table k) !! idx) ProcessNotFound;
  '(r, p') ← lift (f p);
  _ ← put (set_table (update_index idx (λ _, p') (k_table k)) k);
  mret r.

(** [close_fd]: a failing flush is only logged. *)
Definition close_fd (pid : Pid) (fd : Z) : M kernel ProcessError unit :=
  descriptor ← with_process_try pid (release_fd_slot fd);
  _ ← attempt (zoom k_world set_world (Vfs.fd_flush descriptor));
  mret tt.

(** [slot.take()] and the restore of [with_fd_mut]. *)
Definition take_slot (fd : Z) (p : Process W) : comp ProcessError (Vfs.FileDescriptor W * Process W) :=
  match p_fds p !! Z.to_nat fd with
  | Some (Some d) => mret (d, set_fds (<[Z.to_nat fd := None]> (p_fds p)) p)
  | _ => Err InvalidFileDescriptor
  end.

Definition restore_slot (fd : Z) (d : Vfs.FileDescriptor W) (p : Process W) : comp ProcessError (unit * Process W) :=
  match p_fds p !! Z.to_nat fd with
  | None => Err InvalidFileDescriptor
  | Some (Some _) => Panic
  | Some None => mret (tt, set_fds (<[Z.to_nat fd := Some d]> (p_fds p)) p)
  end.

(** The closure returns its value and the descriptor it leaves; it has no error
    path of its own. *)
Definition with_fd_mut {R} (pid : Pid) (fd : Z) (f : Vfs.FileDescriptor W → M kernel Empty_set (R * Vfs.FileDescriptor W))
    : M kernel ProcessError R :=
  descriptor ← with_process_try pid (take_slot fd);
  '(result, descriptor) ← map_err (λ x : Empty_set, match x with end) (f descriptor);
  _ ← with_process_try pid (restore_slot fd descriptor);
  mret result.

End entry.

(** *** Reports *)

Record SchedulerStats := mkStats {
  total : Z; ready : Z; running : Z; blocked : Z; zombie : Z; total_slices : Z; need_resched : bool
}.

Definition count_process (s : SchedulerStats) (p : Process W) : SchedulerStats :=
  let slices := saturating_add64 (total_slices s) (p_cpu_slices p) in
  let total := total s + 1 in
  match p_state p with
  | Ready => mkStats total (ready s + 1) (running s) (blocked s) (zombie s) slices (need_resched s)
  | Running => mkStats total (ready s) (running s + 1) (blocked s) (zombie s) slices (need_resched s)
  | Blocked => mkStats total (ready s) (running s) (blocked s + 1) (zombie s) slices (need_resched s)
  | Zombie => mkStats total (ready s) (running s) (blocked s) (zombie s + 1) slices (need_resched s)
  end.

Definition scheduler_stats (k : kernel) : SchedulerStats :=
  foldl count_process (mkStats 0 0 0 0 0 0 (k_need_resched k)) (procs (k_table k)).

Record ProcessSnapshot := mkSnapshot {
  s_pid : Pid; s_parent : option Pid; s_name : string; s_state : ProcessState; s_cpu_slices : Z; s_is_idle : bool;
  s_credentials : Credentials; s_address_space : AddressSpace; s_user_stack : option UserStack; s_user_entry : option Z
}.

Definition snapshot (p : Process W) : ProcessSnapshot :=
  mkSnapshot (p_pid p) (p_parent p) (p_name p) (p_state p) (p_cpu_slices p) (p_is_idle p)
    (p_credentials p) (p_address_space p) (p_user_stack p) (p_user_entry p).

Definition get_process (k : kernel) (pid : Pid) : option ProcessSnapshot := snapshot <$> get (k_table k) pid.

Definition current_credentials (k : kernel) : option Credentials :=
  pid ← current_pid k; p_credentials <$> get (k_table k) pid.

Definition current_address_space (k : kernel) : option AddressSpace :=
  pid ← current_pid k; p_address_space <$> get (k_table k) pid.

End sched.
Arguments ProcessTable : clear implicits.
Arguments kernel : clear implicits.

End Sched.
