(* ===== verification/SchedSpec.v ===== *)
(** * Theorems on the process table and the scheduler *)

From S2P Require Import Prelude Mem Heap RawVec Types Drivers Vfs Process Sched.
Local Open Scope Z_scope.

Module SchedSpec.
Import Proc Sched.

(** ** Lookups *)

Section lookup.
Context {A : Type}.

Lemma position_some (f : A → bool) l i : position f l = Some i →
  ∃ x, l !! i = Some x ∧ f x = true ∧ ∀ j y, (j < i)%nat → l !! j = Some y → f y = false.
Proof.
  revert i. induction l as [|x l IH]; intros i; simpl; [done|]. destruct (f x) eqn:Hf.
  - intros [= <-]. exists x. split_and!; [done..|lia].
  - intros (j & Hj & ->)%fmap_Some. destruct (IH j Hj) as (y & Hy & Hfy & Hlt). exists y. split_and!; [done..|].
    intros [|i] z Hi; simpl; [by intros [= <-]|]. apply Hlt. lia.
Qed.

Lemma position_none (f : A → bool) l : position f l = None ↔ ∀ i x, l !! i = Some x → f x = false.
Proof.
  induction l as [|x l IH]; simpl; [done|]. destruct (f x) eqn:Hf.
  - split; [done|]. intros H. specialize (H O x eq_refl). congruence.
  - rewrite fmap_None, IH. split.
    + intros H [|i] y; simpl; [by intros [= <-]|apply H].
    + intros H i y. apply (H (S i)).
Qed.

(** The same up to a change of the elements that [f] does not see. *)
Lemma position_alter (f : A → bool) g (i : nat) (l : list A) : (∀ x, f (g x) = f x) → position f (alter g i l) = position f l.
Proof.
  intros Hg. revert i. induction l as [|x l IH]; intros i; [done|]. destruct i as [|i]; simpl; [by rewrite Hg|].
  change (position f (x :: alter g i l) = position f (x :: l)). simpl. by rewrite IH.
Qed.

Lemma fmap_alter {B} (h : A → B) g (i : nat) (l : list A) : (∀ x, l !! i = Some x → h (g x) = h x) → h <$> alter g i l = h <$> l.
Proof.
  intros Hg. apply list_eq. intros j. rewrite !list_lookup_fmap. destruct (decide (i = j)) as [<-|Hne].
  - rewrite list_lookup_alter_eq. destruct (l !! i) as [x|] eqn:Hx; simpl; [by rewrite Hg|done].
  - by rewrite list_lookup_alter_ne.
Qed.

End lookup.

Section pid_lookup.
Context {W : Type}.
Implicit Types (t : ProcessTable W) (p : Process W).

Definition pids (t : ProcessTable W) : list Pid := p_pid <$> procs t.

Lemma find_index_some t pid i : NoDup (pids t) →
  find_index_by_pid t pid = Some i ↔ ∃ p, procs t !! i = Some p ∧ p_pid p = pid.
Proof.
  intros Hnd. unfold find_index_by_pid. split.
  - intros (p & Hp & Hpid & _)%position_some. exists p. split; [done|lia].
  - intros (p & Hp & Hpid). destruct (position _ _) as [j|] eqn:Hj.
    + apply position_some in Hj as (q & Hq & Hqid & _). f_equal. apply (NoDup_lookup _ j i pid Hnd); unfold pids;
        rewrite list_lookup_fmap; [rewrite Hq|rewrite Hp]; simpl; f_equal; lia.
    + rewrite position_none in Hj. specialize (Hj i p Hp). simpl in Hj. lia.
Qed.

Lemma find_index_none t pid : find_index_by_pid t pid = None ↔ pid ∉ pids t.
Proof.
  unfold find_index_by_pid. rewrite position_none. unfold pids. rewrite list_elem_of_fmap. split.
  - intros H (p & -> & [i Hi]%list_elem_of_lookup). specialize (H i p Hi). simpl in H. lia.
  - intros H i p Hp. apply Z.eqb_neq. intros <-. apply H. exists p. split; [done|]. by apply list_elem_of_lookup_2 in Hp.
Qed.

Lemma get_some t pid p : NoDup (pids t) → get t pid = Some p ↔ p ∈ procs t ∧ p_pid p = pid.
Proof.
  intros Hnd. unfold get. rewrite bind_Some. split.
  - intros (i & (q & Hq & Hpid)%find_index_some & Hp); [|done]. assert (q = p) as -> by congruence.
    split; [by apply list_elem_of_lookup_2 in Hp|done].
  - intros [[i Hi]%list_elem_of_lookup Hpid]. exists i. split; [|done]. apply find_index_some; [done|]. by exists p.
Qed.

Lemma get_none t pid : get t pid = None ↔ pid ∉ pids t.
Proof.
  rewrite <- find_index_none. unfold get. destruct (find_index_by_pid t pid) as [i|] eqn:Hi; [|done]. simpl. split; [|done].
  apply position_some in Hi as (p & Hp & _). by rewrite Hp.
Qed.

End pid_lookup.

(** ** The choice of the next process *)

Section next_ready.
Context {W : Type}.
Implicit Types (l : list (Process W)).

(** The indices of a table of [n] entries in round-robin order from [i]. *)
Definition ring (n i : nat) : list nat := (λ j, (i + j) `mod` n)%nat <$> seq 0 n.

Definition runnable l (i : nat) : bool :=
  match l !! i with Some p => in_state Ready p && negb (p_is_idle p) | None => false end.
Definition idle_runnable l (i : nat) : bool :=
  match l !! i with Some p => (in_state Ready p || in_state Running p) && p_is_idle p | None => false end.

(** The reference: the first ready process that is not idle, and an idle one only
    when there is none. *)
Definition round_robin l (first : nat) : option nat :=
  match List.find (runnable l) (ring (length l) first) with
  | Some i => Some i
  | None => List.find (idle_runnable l) (ring (length l) first)
  end.

Definition arc (n i r : nat) : list nat := (λ j, (i + j) `mod` n)%nat <$> seq 0 r.

Lemma arc_S n i r : (i < n)%nat → arc n i (S r) = i :: arc n ((i + 1) `mod` n) r.
Proof.
  intros Hi. unfold arc. change (seq 0 (S r)) with (0 :: seq 1 r)%nat. cbn [fmap list_fmap].
  rewrite Nat.add_0_r, Nat.mod_small by done. f_equal. rewrite <- (fmap_S_seq 0 r), <- list_fmap_compose.
  apply list_fmap_ext. intros j x Hx. unfold compose. rewrite Nat.Div0.add_mod_idemp_l. f_equal. lia.
Qed.

Lemma scan_spec l r i cand : (i < length l)%nat →
  scan l r i cand = Ok (match List.find (runnable l) (arc (length l) i r) with
                        | Some j => Some j
                        | None => match cand with Some c => Some c | None => List.find (idle_runnable l) (arc (length l) i r) end
                        end).
Proof.
  revert i cand. induction r as [|r IH]; intros i cand Hi; [simpl; by destruct cand|].
  rewrite arc_S by done. cbn [scan List.find]. unfold runnable at 1, idle_runnable at 1.
  destruct (lookup_lt_is_Some_2 l i Hi) as [p Hp]. rewrite Hp.
  assert ((i + 1) `mod` length l < length l)%nat as Hnext by (apply Nat.mod_upper_bound; lia).
  unfold in_state. destruct (p_state p), (p_is_idle p); simpl; try (rewrite IH by done); try done;
    destruct (List.find (runnable l) _), cand; done.
Qed.

Lemma next_ready_index_spec (t : ProcessTable W) start : (∀ i, start = Some i → i < length (procs t))%nat →
  next_ready_index t start = Ok (round_robin (procs t) (match start with Some i => (i + 1) `mod` length (procs t) | None => 0 end)%nat).
Proof.
  intros Hs. unfold next_ready_index. destruct (Nat.eqb_spec (length (procs t)) 0) as [H0|H0].
  - unfold round_robin, ring. by rewrite H0.
  - rewrite scan_spec; [done|]. destruct start; [apply Nat.mod_upper_bound; lia|lia].
Qed.

(** C7. The scheduler's choice is round robin.  For every table and every
    current index (or none) the search of [next_ready_index] neither panics nor
    misses: it returns the first process after the current one, in cyclic order
    and the current one last, that is ready and not idle; only when there is none
    it returns the first idle process that can run; otherwise nothing. *)
Theorem next_ready_index_round_robin (t : ProcessTable W) (start : option nat) :
  match start with Some i => (i < length (procs t))%nat | None => True end →
  next_ready_index t start =
    Ok (round_robin (procs t) (match start with Some i => (i + 1) `mod` length (procs t) | None => 0 end)%nat).
Proof. intros Hs. apply next_ready_index_spec. by intros i ->. Qed.

End next_ready.

(** Three processes, the last one running: the search wraps around past the idle
    one to the ready one. *)
Definition example_entry (pid : Pid) (st : ProcessState) (idle : bool) : Process unit :=
  mkProcess pid None "p" Credentials_root (with_cr3 0x1000 Kernel) st None None idle None 0 [] Context_new 0 None RawVec.new None None.
Definition example_table : ProcessTable unit :=
  mkTable (RawVec.mkRawVec 4096 [example_entry 1 Ready true; example_entry 2 Ready false; example_entry 3 Running false] 4) 4 (Some 2) (Some 1) true.

Lemma next_ready_index_round_robin_witness : (2 < length (procs example_table))%nat ∧ next_ready_index example_table (Some 2%nat) = Ok (Some 1%nat).
Proof.
  split; [vm_compute; lia|]. rewrite (next_ready_index_round_robin example_table (Some 2%nat)); [reflexivity|vm_compute; lia].
Defined.

(** ** One call of the scheduler *)

Section schedule.
Context {W : Type} (rp : Z).
Implicit Types (k : kernel W).

(** The index of the current process. *)
Definition current_index k : option nat := pid ← current_pid k; find_index_by_pid (k_table k) pid.

Definition next_index k : option nat :=
  round_robin (procs (k_table k))
    (match current_index k with Some i => (i + 1) `mod` length (procs (k_table k)) | None => 0 end)%nat.

Lemma current_index_lt k i : current_index k = Some i → (i < length (procs (k_table k)))%nat.
Proof.
  unfold current_index. destruct (current_pid k) as [pid|]; [|done]. cbn [mbind option_bind].
  intros (p & Hp & _)%position_some. by apply lookup_lt_Some in Hp.
Qed.

Lemma next_index_spec k : next_ready_index (k_table k) (current_index k) = Ok (next_index k).
Proof. apply next_ready_index_spec, current_index_lt. Qed.

Lemma round_robin_lt (l : list (Process W)) first i : round_robin l first = Some i → ∃ p, l !! i = Some p ∧
  (p_is_idle p = false ∧ p_state p = Ready ∨ p_is_idle p = true ∧ (p_state p = Ready ∨ p_state p = Running)).
Proof.
  unfold round_robin. destruct (List.find (runnable l) _) as [j|] eqn:Hf.
  - intros [= ->]. apply List.find_some in Hf as [_ Hf]. unfold runnable in Hf. destruct (l !! i) as [p|]; [|done].
    exists p. split; [done|]. apply andb_true_iff in Hf as [Hr%bool_decide_eq_true Hi%negb_true_iff]. by left.
  - intros Hi. apply List.find_some in Hi as [_ Hi]. unfold idle_runnable in Hi. destruct (l !! i) as [p|]; [|done].
    exists p. split; [done|]. apply andb_true_iff in Hi as [[Hr%bool_decide_eq_true|Hr%bool_decide_eq_true]%orb_true_iff Hi]; eauto.
Qed.

(** The entries after a switch from [ci] to [ni]. *)
Definition switched_entry (ci : option nat) (ni : nat) (cpu : Context) (j : nat) (p : Process W) : Process W :=
  if bool_decide (j = ni) then promote p
  else if bool_decide (ci = Some j) then set_context (saved_context rp cpu) (demote p)
  else p.

Definition switched k (ni : nat) (next : Process W) : kernel W :=
  mkKernel (set_procs (imap (switched_entry (current_index k) ni (k_cpu k)) (procs (k_table k))) (k_table k))
    (p_pid next)
    match current_index k with None => saved_context rp (k_cpu k) | Some _ => k_boot k end
    (k_need_resched k) (p_context next)
    match idx ← current_index k; p_address_space <$> procs (k_table k) !! idx with
    | Some space => if cr3 space =? cr3 (p_address_space next) then k_cr3 k else cr3 (p_address_space next)
    | None => cr3 (p_address_space next)
    end
    (rsp (p_context next)) (k_heap k) (k_world k).

Lemma alter_imap (f : Process W → Process W) i l : alter f i l = imap (λ j p, if bool_decide (j = i) then f p else p) l.
Proof.
  apply list_eq. intros j. rewrite list_lookup_imap. destruct (decide (j = i)) as [->|Hne].
  - rewrite list_lookup_alter_eq, bool_decide_true by done. by destruct (l !! i).
  - rewrite list_lookup_alter_ne, bool_decide_false by done. by destruct (l !! j).
Qed.

Lemma switched_procs_some ci ni cpu (l : list (Process W)) : ci ≠ ni →
  alter (set_context (saved_context rp cpu)) ci (alter promote ni (alter demote ci l)) = imap (switched_entry (Some ci) ni cpu) l.
Proof.
  intros Hne. apply list_eq. intros j. rewrite list_lookup_imap. unfold switched_entry.
  destruct (decide (j = ni)) as [->|Hj].
  - rewrite list_lookup_alter_ne, list_lookup_alter_eq, list_lookup_alter_ne, bool_decide_true by done. by destruct (l !! ni).
  - rewrite (bool_decide_false (j = ni)) by done. destruct (decide (j = ci)) as [->|Hj'].
    + rewrite list_lookup_alter_eq, list_lookup_alter_ne, list_lookup_alter_eq, bool_decide_true by done. by destruct (l !! ci).
    + rewrite !list_lookup_alter_ne, bool_decide_false by congruence. by destruct (l !! j).
Qed.

Lemma switched_procs_none ni cpu (l : list (Process W)) : alter promote ni l = imap (switched_entry None ni cpu) l.
Proof. rewrite alter_imap. apply imap_ext. intros j p _. unfold switched_entry. by destruct (bool_decide (j = ni)). Qed.

Lemma schedule_internal_spec k :
  schedule_internal rp k = Ok (false, k) ∧ (next_index k = None ∨ next_index k = current_index k) ∨
  ∃ ni next, schedule_internal rp k = Ok (true, switched k ni next) ∧ next_index k = Some ni ∧
    procs (k_table k) !! ni = Some next ∧ current_index k ≠ Some ni.
Proof.
  unfold schedule_internal. destruct (Nat.eqb_spec (length (procs (k_table k))) 0) as [H0|H0].
  { left. split; [done|left]. unfold next_index, round_robin, ring. by rewrite H0. }
  fold (current_index k). rewrite next_index_spec. cbn [mbind comp_bind].
  destruct (next_index k) as [ni|] eqn:Hni; [|by left; auto].
  destruct (bool_decide_reflect (current_index k = Some ni)) as [Heq|Hne]; [left; split; [done|by right]|].
  right. destruct (round_robin_lt _ _ _ Hni) as (next & Hnext & _). rewrite Hnext. unfold context_switch.
  exists ni, next. split_and!; [|done..]. destruct k as [t cur boot nr cpu cr hp w]. simpl in *.
  unfold switched. cbn [k_table k_cpu k_cr3 k_boot k_need_resched k_heap k_world].
  destruct (current_index _) as [ci|] eqn:Hci.
  - assert (ci ≠ ni) by congruence. cbn [mbind option_bind]. apply current_index_lt in Hci as Hlt. simpl in Hlt.
    destruct (lookup_lt_is_Some_2 _ _ Hlt) as [cp Hcp]. rewrite Hcp. cbn [fmap option_fmap option_map].
    rewrite <- switched_procs_some by done.
    destruct (cr3 _ =? _); cbn; unfold procs in *; rewrite list_lookup_alter_ne, list_lookup_alter_eq, list_lookup_alter_ne, Hnext by done; done.
  - cbn. rewrite <- (switched_procs_none ni cpu). unfold procs in *. rewrite list_lookup_alter_eq, Hnext. done.
Qed.


End schedule.

(** ** Invariant of the table *)

Section table_inv.
Context {W : Type}.
Implicit Types (t : ProcessTable W) (p : Process W).

(** The fields of an entry agree with its state. *)
Definition proc_ok p : Prop :=
  (p_state p = Blocked ↔ is_Some (p_wait_channel p)) ∧
  (p_state p = Zombie ↔ is_Some (p_exit_code p)) ∧
  (p_is_idle p = true → p_state p = Ready ∨ p_state p = Running) ∧
  (is_Some (p_preempt_return p) → p_state p = Ready ∨ p_state p = Running).

(** What no operation on a process of the table changes. *)
Definition ids p : Pid * bool := (p_pid p, p_is_idle p).

Record table_inv t : Prop := {
  ti_nodup : NoDup (pids t);
  ti_pids : Forall (λ p, 1 ≤ p_pid p < next_pid t) (procs t);
  ti_next : 1 ≤ next_pid t < 2 ^ 32;
  ti_procs : Forall proc_ok (procs t);
  ti_idle : ∃ p, p ∈ procs t ∧ p_is_idle p = true;
  ti_idle_pid : Forall (λ p, p_is_idle p = true → idle_pid t = Some (p_pid p)) (procs t)
}.

Lemma pids_ids t : pids t = fst <$> (ids <$> procs t).
Proof. unfold pids. by rewrite <- list_fmap_compose. Qed.

(** Entries may change as long as they keep their identity. *)
Lemma table_inv_update t t' : table_inv t → ids <$> procs t' = ids <$> procs t → Forall proc_ok (procs t') →
  next_pid t ≤ next_pid t' < 2 ^ 32 → idle_pid t' = idle_pid t → table_inv t'.
Proof.
  intros [Hnd Hp Hn Hok (p & Hin & Hi) Hip] Hids Hok' Hn' Hi'.
  assert (∀ q, q ∈ procs t' → ∃ q', q' ∈ procs t ∧ ids q' = ids q) as Hback.
  { intros q Hq. assert (ids q ∈ ids <$> procs t) as Hq' by (rewrite <- Hids; apply list_elem_of_fmap; eauto).
    apply list_elem_of_fmap in Hq' as (q' & ? & ?). eauto. }
  constructor; [by rewrite pids_ids, Hids, <- pids_ids|..]; rewrite ?Hi'; try done.
  - apply Forall_forall. intros q (q' & Hq' & [= Heq _])%Hback. rewrite <- Heq.
    pose proof (proj1 (Forall_forall _ _) Hp q' Hq') as Hb. cbn beta in Hb. lia.
  - lia.
  - assert (ids p ∈ ids <$> procs t') as Hp' by (rewrite Hids; apply list_elem_of_fmap; eauto).
    apply list_elem_of_fmap in Hp' as (q & [= _ Hq] & Hq'). exists q. split; [done|congruence].
  - apply Forall_forall. intros q (q' & Hq' & [= Heq Heq'])%Hback Hidle. rewrite <- Heq.
    apply (proj1 (Forall_forall _ _) Hip); [done|congruence].
Qed.

Lemma table_inv_alter t f i : table_inv t → (∀ p, procs t !! i = Some p → ids (f p) = ids p) →
  (∀ p, procs t !! i = Some p → proc_ok p → proc_ok (f p)) → table_inv (update_index i f t).
Proof.
  intros Ht Hids Hok. apply (table_inv_update t); [done|by apply fmap_alter| |destruct Ht; simpl; lia|done].
  destruct Ht as [_ _ _ Hp _ _]. apply Forall_lookup. intros j q. cbn. unfold procs in *.
  destruct (decide (i = j)) as [<-|Hne].
  - rewrite list_lookup_alter_eq. intros (p & Hp' & ->)%fmap_Some. apply Hok; [done|]. by eapply Forall_lookup_1.
  - rewrite list_lookup_alter_ne by done. by apply Forall_lookup_1.
Qed.

(** Adding a process with a fresh pid. *)
Lemma table_inv_push t t' p : table_inv t → procs t' = procs t ++ [p] → p_pid p = next_pid t → p_is_idle p = false → proc_ok p →
  next_pid t' = next_pid t + 1 → next_pid t' < 2 ^ 32 → idle_pid t' = idle_pid t → table_inv t'.
Proof.
  intros [Hnd Hp Hn Hok (i & Hin & Hi) Hip] Hprocs Hpid Hidle Hpok Hn' Hlt Hi'.
  assert (next_pid t ∉ pids t) as Hfresh.
  { unfold pids. rewrite list_elem_of_fmap. intros (q & Hq & Hin'). rewrite Forall_forall in Hp. specialize (Hp q Hin'). cbn beta in Hp. lia. }
  constructor; unfold pids; rewrite ?Hprocs, ?Hn', ?Hi'.
  - rewrite fmap_app. apply NoDup_app. split_and!; [done| |apply NoDup_singleton].
    intros x Hx Hx'%list_elem_of_singleton. subst x. by rewrite Hpid in Hx.
  - apply Forall_app. split; [apply (Forall_impl _ _ _ Hp); simpl; intros; lia|]. apply Forall_singleton. lia.
  - lia.
  - apply Forall_app. by rewrite Forall_singleton.
  - exists i. split; [|done]. apply elem_of_app. by left.
  - apply Forall_app. split; [done|]. apply Forall_singleton. congruence.
Qed.

(** Removing a process that is not idle. *)
Lemma table_inv_remove t t' p : table_inv t → procs t ≡ₚ p :: procs t' → p_is_idle p = false →
  next_pid t' = next_pid t → idle_pid t' = idle_pid t → table_inv t'.
Proof.
  intros [Hnd Hp Hn Hok (i & Hin & Hi) Hip] Hperm Hidle Hn' Hi'. unfold pids in Hnd. rewrite Hperm in Hnd, Hp, Hok, Hin, Hip.
  apply Forall_cons_iff in Hp as [_ Hp]. apply Forall_cons_iff in Hok as [_ Hok]. apply Forall_cons_iff in Hip as [_ Hip].
  constructor; rewrite ?Hn', ?Hi'; try done.
  - by apply NoDup_cons in Hnd as [_ ?].
  - exists i. split; [|done]. apply elem_of_cons in Hin as [-> | ?]; [congruence|done].
Qed.

End table_inv.

(** ** Invariant of the scheduler *)

Section kernel_inv.
Context {W : Type} (rp : Z).
Implicit Types (k : kernel W) (p : Process W).

(** At most the current process is running, and the page tables in use are its
    own.  Between blocking the current process and giving up the processor this
    is all that holds; at the other times the current process is running. *)
Record sched_inv k : Prop := {
  si_table : table_inv (k_table k);
  si_running : Forall (λ p, p_state p = Running → p_pid p = k_current k) (procs (k_table k));
  si_current : k_current k = 0 ∨ ∃ p, p ∈ procs (k_table k) ∧ p_pid p = k_current k ∧ cr3 (p_address_space p) = k_cr3 k
}.

Definition kernel_inv k : Prop :=
  sched_inv k ∧ (k_current k = 0 ∨ ∃ p, p ∈ procs (k_table k) ∧ p_pid p = k_current k ∧ p_state p = Running).

Lemma current_index_some k i : table_inv (k_table k) →
  current_index k = Some i ↔ ∃ p, procs (k_table k) !! i = Some p ∧ p_pid p = k_current k.
Proof.
  intros Ht. unfold current_index, current_pid. destruct (Z.eqb_spec (k_current k) 0) as [H0|H0]; cbn [mbind option_bind].
  - split; [done|]. intros (p & Hp & Hpid). destruct Ht as [_ Hpids _ _ _ _]. apply (Forall_lookup_1 _ _ _ _ Hpids) in Hp. lia.
  - apply find_index_some. by destruct Ht.
Qed.

Lemma fmap_imap_ids {B} (h : Process W → B) (f : nat → Process W → Process W) l : (∀ i p, h (f i p) = h p) → h <$> imap f l = h <$> l.
Proof. intros Hf. apply list_eq. intros i. rewrite !list_lookup_fmap, list_lookup_imap. destruct (l !! i); simpl; by rewrite ?Hf. Qed.

Lemma proc_ok_promote p : proc_ok p → p_state p = Ready ∨ p_state p = Running → proc_ok (promote p).
Proof.
  intros (Hb & Hz & _ & _) Hst.
  assert (p_wait_channel p = None) as Hw by (apply eq_None_not_Some; rewrite <- Hb; by destruct Hst as [-> | ->]).
  assert (p_exit_code p = None) as He by (apply eq_None_not_Some; rewrite <- Hz; by destruct Hst as [-> | ->]).
  unfold proc_ok. simpl. rewrite Hw, He. split_and!; [by split; [|intros []]..|by right|by right].
Qed.

Lemma proc_ok_demote p c : proc_ok p → proc_ok (set_context c (demote p)).
Proof.
  unfold demote, in_state. destruct (bool_decide_reflect (p_state p = Running)) as [Hr|Hr]; [|done].
  intros (Hb & Hz & _ & _). rewrite Hr in Hb, Hz. unfold proc_ok. simpl. rewrite <- Hb, <- Hz. split_and!; [done..|by left|by left].
Qed.

Lemma ids_switched_entry ci ni cpu i p : ids (switched_entry rp ci ni cpu i p) = ids p.
Proof.
  unfold switched_entry, demote, ids. destruct (bool_decide (i = ni)); [done|]. destruct (bool_decide (ci = Some i)); [|done].
  by destruct (in_state Running p).
Qed.

Lemma switched_inv k ni next : sched_inv k → next_index k = Some ni → procs (k_table k) !! ni = Some next →
  current_index k ≠ Some ni → kernel_inv (switched rp k ni next).
Proof.
  intros [Ht Hrun Hcur] Hni Hnext Hne. destruct (round_robin_lt _ _ _ Hni) as (next' & Hnext' & Hready).
  assert (next' = next) as -> by congruence.
  assert (p_state next = Ready ∨ p_state next = Running) as Hst by tauto.
  assert (promote next ∈ procs (k_table (switched rp k ni next))) as Hin.
  { apply (list_elem_of_lookup_2 _ ni). cbn. rewrite list_lookup_imap. rewrite Hnext. simpl.
    unfold switched_entry. by rewrite bool_decide_true. }
  split; [constructor|right; by exists (promote next)].
  - apply (table_inv_update (k_table k)); [done|apply fmap_imap_ids, ids_switched_entry| |destruct Ht; simpl; lia|done].
    destruct Ht as [_ _ _ Hok _ _]. apply Forall_lookup. intros j q. cbn. rewrite list_lookup_imap.
    intros (p & Hp & ->)%fmap_Some. apply (Forall_lookup_1 _ _ _ _ Hok) in Hp as Hpok. unfold switched_entry.
    destruct (bool_decide_reflect (j = ni)) as [->|_].
    { apply proc_ok_promote; [done|]. by simplify_eq. }
    destruct (bool_decide (current_index k = Some j)); [by apply proc_ok_demote|done].
  - apply Forall_lookup. intros j q. cbn. rewrite list_lookup_imap. intros (p & Hp & ->)%fmap_Some. unfold switched_entry.
    destruct (bool_decide_reflect (j = ni)) as [->|_]; [by simplify_eq|].
    destruct (bool_decide_reflect (current_index k = Some j)) as [_|Hnc].
    + unfold demote, in_state. destruct (bool_decide_reflect (p_state p = Running)); simpl; congruence.
    + intros Hr. destruct Hnc. apply current_index_some; [done|]. exists p. split; [done|].
      by apply (Forall_lookup_1 _ _ _ _ Hrun) in Hp as Hpr; auto.
  - right. exists (promote next). split_and!; [done..|]. cbn. destruct (current_index k) as [ci|] eqn:Hci; [|done].
    apply current_index_some in Hci as (p & Hp & Hpid); [|done]. cbn. rewrite Hp. simpl.
    destruct (Z.eqb_spec (cr3 (p_address_space p)) (cr3 (p_address_space next))) as [Heq|]; [|done].
    rewrite <- Heq. destruct Hcur as [H0|(p' & Hp' & Hpid' & Hcr)].
    + destruct Ht as [_ Hpids _ _ _ _]. apply (Forall_lookup_1 _ _ _ _ Hpids) in Hp. lia.
    + destruct Ht as [Hnd _ _ _ _ _]. assert (get (k_table k) (k_current k) = Some p') as Hg' by (by apply get_some).
      assert (get (k_table k) (k_current k) = Some p) as Hg; [|congruence].
      apply get_some; [done|]. split; [by apply list_elem_of_lookup_2 in Hp|done].
Qed.

Lemma schedule_inv k b k' : sched_inv k → schedule_internal rp k = Ok (b, k') → (b = false ∧ k' = k) ∨ (b = true ∧ kernel_inv k').
Proof.
  intros Hk Hs. destruct (schedule_internal_spec rp k) as [[Heq _]|(ni & next & Heq & Hni & Hnext & Hne)];
    rewrite Heq in Hs; injection Hs as <- <-; [by left|right]. split; [done|]. by apply switched_inv.
Qed.

Lemma reschedule_inv k k' : sched_inv k → reschedule rp k = Ok k' → kernel_inv k'.
Proof.
  intros Hk. unfold reschedule. destruct (schedule_internal rp k) as [[b k1]|e| |] eqn:Hs; [|done..].
  cbn [mbind comp_bind]. destruct (schedule_inv k b k1 Hk Hs) as [[-> ->]|[-> Hk1]]; [done|]. by intros [= ->].
Qed.

(** *** The operations *)

(** A new table with the same processes but for some that stopped running. *)
Lemma sched_inv_table k t' a : sched_inv k → table_inv t' →
  (∀ q, q ∈ procs t' → p_state q = Running → ∃ p, p ∈ procs (k_table k) ∧ p_pid p = p_pid q ∧ p_state p = Running) →
  (∀ p, p ∈ procs (k_table k) → p_pid p = k_current k → ∃ q, q ∈ procs t' ∧ p_pid q = p_pid p ∧ p_address_space q = p_address_space p) →
  sched_inv (set_heap a (set_table t' k)).
Proof.
  intros [Ht Hrun Hcur] Ht' Hr Hkeep. constructor; cbn; [done| |].
  - apply Forall_forall. intros q Hq Hst. destruct (Hr q Hq Hst) as (p & Hp & <- & Hps).
    rewrite Forall_forall in Hrun. by apply Hrun.
  - destruct Hcur as [?|(p & Hp & Hpid & Hcr)]; [by left|right]. destruct (Hkeep p Hp Hpid) as (q & Hq & Hqpid & Hqs).
    exists q. split_and!; [done|congruence|congruence].
Qed.

Lemma set_heap_same k t : set_heap (k_heap k) (set_table t k) = set_table t k.
Proof. by destruct k. Qed.

(** A change of one entry. *)
Lemma sched_inv_alter k i f a : sched_inv k →
  (∀ p, procs (k_table k) !! i = Some p → ids (f p) = ids p ∧ p_address_space (f p) = p_address_space p ∧
     (p_state (f p) = Running → p_state p = Running) ∧ (proc_ok p → proc_ok (f p))) →
  sched_inv (set_heap a (set_table (update_index i f (k_table k)) k)).
Proof.
  intros Hk Hf. apply sched_inv_table; [done|apply table_inv_alter; [by destruct Hk|intros p Hp; by apply Hf..]|..].
  - intros q [j Hj]%list_elem_of_lookup Hq. cbn in Hj. destruct (decide (i = j)) as [<-|Hne].
    + rewrite list_lookup_alter_eq in Hj. apply fmap_Some in Hj as (p & Hp & ->). exists p.
      destruct (Hf p Hp) as ([= -> _] & _ & Hst & _). split_and!; [by apply list_elem_of_lookup_2 in Hp|done|by apply Hst].
    + rewrite list_lookup_alter_ne in Hj by done. exists q. split_and!; [by apply list_elem_of_lookup_2 in Hj|done..].
  - intros p [j Hj]%list_elem_of_lookup Hp. destruct (decide (i = j)) as [<-|Hne].
    + exists (f p). destruct (Hf p Hj) as ([= -> _] & -> & _ & _). split_and!; [|done..].
      apply (list_elem_of_lookup_2 _ i). cbn. by rewrite list_lookup_alter_eq, Hj.
    + exists p. split_and!; [|done..]. apply (list_elem_of_lookup_2 _ j). cbn. by rewrite list_lookup_alter_ne.
Qed.

(** A change of one entry that does not stop the current process. *)
Lemma kernel_inv_alter k i f a : kernel_inv k →
  (∀ p, procs (k_table k) !! i = Some p → ids (f p) = ids p ∧ p_address_space (f p) = p_address_space p ∧
     p_state (f p) = p_state p ∧ (proc_ok p → proc_ok (f p))) →
  kernel_inv (set_heap a (set_table (update_index i f (k_table k)) k)).
Proof.
  intros [Hk Hcur] Hf. split.
  { apply sched_inv_alter; [done|]. intros p (-> & -> & -> & ?)%Hf. done. }
  destruct Hcur as [?|(p & [j Hj]%list_elem_of_lookup & Hpid & Hr)]; [by left|right].
  destruct (decide (i = j)) as [<-|Hne].
  - exists (f p). destruct (Hf p Hj) as ([= -> _] & _ & -> & _). split_and!; [|done..].
    apply (list_elem_of_lookup_2 _ i). cbn. by rewrite list_lookup_alter_eq, Hj.
  - exists p. split_and!; [|done..]. apply (list_elem_of_lookup_2 _ j). cbn. by rewrite list_lookup_alter_ne.
Qed.

(** The process that runs is not the idle one. *)
Definition current_not_idle k : Prop := ∀ p, p ∈ procs (k_table k) → p_pid p = k_current k → p_is_idle p = false.

Lemma current_running k i p : kernel_inv k → procs (k_table k) !! i = Some p → p_pid p = k_current k → p_state p = Running.
Proof.
  intros [[[Hnd Hpids _ _ _ _] _ _] [H0|(q & Hq & Hqpid & Hr)]] Hp Hpid.
  - apply (Forall_lookup_1 _ _ _ _ Hpids) in Hp. lia.
  - assert (get (k_table k) (k_current k) = Some q) as Hg by (by apply get_some).
    assert (get (k_table k) (k_current k) = Some p) as Hg'; [|congruence].
    apply get_some; [done|]. split; [by apply list_elem_of_lookup_2 in Hp|done].
Qed.

Lemma proc_ok_block ch p : p_is_idle p = false → p_state p = Running → proc_ok p → proc_ok (block ch p).
Proof.
  intros Hi Hr (Hb & Hz & _ & _). unfold proc_ok. simpl. rewrite Hi, <- Hz, Hr. split_and!; try done.
Qed.

Lemma proc_ok_zombify code p : p_is_idle p = false → proc_ok (zombify code p).
Proof. intros Hi. unfold proc_ok. simpl. rewrite Hi. split_and!; try done; by split; [|intros []]. Qed.

Lemma proc_ok_wake ev p : proc_ok p → proc_ok (wake ev p).
Proof.
  unfold wake, in_state. destruct (bool_decide_reflect (p_state p = Blocked)) as [Hb|]; [|done].
  destruct (p_wait_channel p) as [ch|] eqn:Hw; [|done]. destruct (matches_event ch ev); [|done].
  intros (_ & Hz & _ & _). unfold proc_ok. simpl. rewrite <- Hz, Hb. split_and!; [by split; [|intros []]|done|by left|by left].
Qed.

Lemma wake_ids ev p : ids (wake ev p) = ids p ∧ p_address_space (wake ev p) = p_address_space p ∧
  p_context (wake ev p) = p_context p ∧ p_parent (wake ev p) = p_parent p.
Proof. unfold wake. destruct (in_state Blocked p), (p_wait_channel p) as [ch|]; try done. by destruct (matches_event ch ev). Qed.

Lemma wake_running ev p : p_state (wake ev p) = Running ↔ p_state p = Running.
Proof.
  unfold wake, in_state. destruct (bool_decide_reflect (p_state p = Blocked)) as [Hb|]; [|done].
  destruct (p_wait_channel p) as [ch|]; [|done]. destruct (matches_event ch ev); [|done]. simpl. by rewrite Hb.
Qed.

(** The current process leaves the running state. *)
Lemma stop_current_inv k i f p : kernel_inv k → (∀ p, ids (f p) = ids p) → (∀ p, p_address_space (f p) = p_address_space p) →
  (∀ p, p_state (f p) ≠ Running) → procs (k_table k) !! i = Some p → (proc_ok p → proc_ok (f p)) →
  sched_inv (set_table (update_index i f (k_table k)) k).
Proof.
  intros [Hk _] Hids Has Hst Hp Hok. rewrite <- set_heap_same. apply sched_inv_alter; [done|].
  intros q Hq. assert (q = p) as -> by congruence. split_and!; [done..| |done]. intros Hr. by destruct (Hst p).
Qed.

Lemma wake_sched_inv ev k : sched_inv k → sched_inv (wake_channel ev k).
Proof.
  intros Hk. unfold wake_channel. rewrite <- set_heap_same. apply sched_inv_table; [done|..].
  - destruct Hk as [Ht _ _]. apply (table_inv_update (k_table k)); [done|..|destruct Ht; simpl; lia|done].
    + cbn. rewrite <- list_fmap_compose. apply list_fmap_ext. intros j p _. apply wake_ids.
    + cbn. apply Forall_fmap. destruct Ht as [_ _ _ Hok _ _]. apply (Forall_impl _ _ _ Hok). intros p. apply proc_ok_wake.
  - intros q (p & -> & Hp)%list_elem_of_fmap Hr%wake_running. exists p. destruct (wake_ids ev p) as [[= -> _] _]. done.
  - intros p Hp _. exists (wake ev p). destruct (wake_ids ev p) as ([= -> _] & -> & _). split_and!; [|done..].
    apply list_elem_of_fmap. eauto.
Qed.

Lemma wake_kernel_inv ev k : kernel_inv k → kernel_inv (wake_channel ev k).
Proof.
  intros [Hk Hcur]. split; [by apply wake_sched_inv|]. destruct Hcur as [?|(p & Hp & Hpid & Hr)]; [by left|right].
  exists (wake ev p). destruct (wake_ids ev p) as ([= -> _] & _). split_and!; [|done|by apply wake_running].
  apply list_elem_of_fmap. eauto.
Qed.

Lemma block_current_inv ch k k' : kernel_inv k → current_not_idle k → block_current rp ch k = Ok k' → kernel_inv k'.
Proof.
  intros Hk Hidle. unfold block_current, get_mut. destruct (current_pid k) as [pid|] eqn:Hpid; [|done].
  destruct (find_index_by_pid (k_table k) pid) as [i|] eqn:Hi; [|done]. cbn [mbind option_bind].
  intros Hr. refine (reschedule_inv _ _ _ Hr).
  assert (current_index k = Some i) as (p & Hp & Hpc)%current_index_some by (by unfold current_index; rewrite Hpid); [|by destruct Hk as [[]]].
  apply (stop_current_inv _ _ _ p); try done. apply proc_ok_block.
  - apply Hidle; [by apply list_elem_of_lookup_2 in Hp|done].
  - by apply (current_running k i).
Qed.

Lemma exit_current_inv code k k' : kernel_inv k → current_not_idle k → exit_current rp code k = Ok k' → kernel_inv k'.
Proof.
  intros Hk Hidle. unfold exit_current, get_mut, get. destruct (current_pid k) as [pid|] eqn:Hpid; [|done].
  destruct (find_index_by_pid (k_table k) pid) as [i|] eqn:Hi; [|done]. cbn [mbind option_bind].
  destruct (procs (k_table k) !! i) as [p|] eqn:Hp; [|done].
  assert (current_index k = Some i) as (p' & Hp' & Hpc)%current_index_some by (by unfold current_index; rewrite Hpid); [|by destruct Hk as [[]]].
  assert (p' = p) as -> by congruence.
  assert (sched_inv (set_table (update_index i (zombify code) (k_table k)) k)).
  { apply (stop_current_inv _ _ _ p); try done. intros _. apply proc_ok_zombify. apply Hidle; [by apply list_elem_of_lookup_2 in Hp|done]. }
  intros Hr. refine (reschedule_inv _ _ _ Hr). destruct (p_parent p); [by apply wake_sched_inv|done].
Qed.

Lemma set_need_resched_inv b k : kernel_inv k → kernel_inv (set_need_resched b k).
Proof. intros [[? ? ?] ?]. split; [by constructor|done]. Qed.

Lemma request_preempt_inv tr locked r k : kernel_inv k → kernel_inv (request_preempt tr locked r k).2.
Proof.
  intros Hk%(set_need_resched_inv true). unfold request_preempt. destruct (r <? KERNEL_BASE); [done|].
  destruct (negb _); [done|]. destruct (current_pid _) as [pid|]; [|done]. destruct locked; [done|].
  destruct (find_index_by_pid _ _) as [i|]; [|done]. destruct (procs _ !! i) as [p|] eqn:Hp; [|done].
  unfold in_state. destruct (bool_decide_reflect (p_state p = Running)) as [Hr|]; [|done].
  destruct (p_is_idle p); [done|]. destruct (p_preempt_return p); [done|]. cbn [negb orb snd].
  rewrite <- set_heap_same. apply kernel_inv_alter; [done|]. intros q Hq. split_and!; try done. intros (Hb & Hz & Hi & _).
  assert (q = p) as -> by congruence. unfold proc_ok. simpl. split_and!; auto.
Qed.

Lemma preempt_resume_inv k x k' : kernel_inv k → preempt_resume k = Ok (x, k') → kernel_inv k'.
Proof.
  intros Hk. unfold preempt_resume. destruct (current_pid k) as [pid|]; [|done]. destruct (find_index_by_pid _ _) as [i|]; [|done].
  destruct (procs _ !! i) as [p|] eqn:Hp; [|done]. intros [= <- <-]. rewrite <- set_heap_same.
  apply kernel_inv_alter; [done|]. intros q Hq. split_and!; try done. intros (Hb & Hz & Hi & _). unfold proc_ok. simpl.
  split_and!; auto. by intros [].
Qed.

(** *** Reaping *)

(** [t'] is [t] without the zombie child [p]. *)
Definition reaped (parent : Pid) (target : option Pid) (t t' : ProcessTable W) p : Prop :=
  is_zombie_child parent target p = true ∧ procs t ≡ₚ p :: procs t' ∧ next_pid t' = next_pid t ∧
  (idle_pid t ≠ Some (p_pid p) → idle_pid t' = idle_pid t).

Lemma remove_index_spec i (t : ProcessTable W) (a : Heap.allocator) p s' : remove_index i (t, a) = Ok (p, s') →
  procs t !! i = Some p ∧ procs t ≡ₚ p :: procs s'.1 ∧ next_pid s'.1 = next_pid t ∧
  (idle_pid t ≠ Some (p_pid p) → idle_pid s'.1 = idle_pid t).
Proof.
  unfold remove_index. destruct (RawVec.swap_remove i (entries t)) as [[q v]|] eqn:Hs; [|done].
  apply RawVec.swap_remove_perm in Hs as (Hi & Hperm & _). intros [= -> <-]. unfold procs, opt_eqb. cbn [fst set_entries idle_pid].
  assert (∀ b1 b2 : bool, b1 = false ∨ idle_pid t = Some (p_pid p) →
    let t1 := if b1 then set_idle_pid None (set_entries v t) else set_entries v t in
    let t2 := if b2 then set_init_pid None t1 else t1 in
    RawVec.elems (entries t2) = RawVec.elems v ∧ next_pid t2 = next_pid t ∧ (idle_pid t ≠ Some (p_pid p) → idle_pid t2 = idle_pid t)) as H.
  { intros b1 b2 Hb. destruct b1, b2; simpl; split_and!; try done; intros; destruct Hb; done. }
  cbv zeta in H. match goal with |- context [if ?b1 then set_idle_pid _ _ else _] => set (B1 := b1) in * end.
  match goal with |- context [if ?b2 then set_init_pid _ _ else _] => set (B2 := b2) in * end.
  destruct (H B1 B2) as (-> & -> & ?); [|done]. unfold B1. destruct (bool_decide_reflect (Some (p_pid p) = idle_pid t)); auto.
Qed.

Lemma remove_index_ok i (t : ProcessTable W) (a : Heap.allocator) p : procs t !! i = Some p → ∃ t', remove_index i (t, a) = Ok (p, (t', a)).
Proof.
  unfold remove_index, RawVec.swap_remove, procs. intros Hp. rewrite Hp. cbn [mbind option_bind].
  destruct (lookup_lt_is_Some_2 (RawVec.elems (entries t)) (pred (length (RawVec.elems (entries t))))) as [z Hz].
  { apply lookup_lt_Some in Hp. lia. }
  rewrite Hz. cbn [mbind option_bind]. eauto.
Qed.

Lemma take_zombie_child_cases rs parent target (t : ProcessTable W) (a : Heap.allocator) :
  take_zombie_child rs parent target (t, a) = Ok (None, (t, a)) ∧ (∀ p, p ∈ procs t → is_zombie_child parent target p = false) ∨
  ∃ p t', reaped parent target t t' p ∧
    take_zombie_child rs parent target (t, a) =
      match drop rs (p, Heap.ga_free a) with
      | Ok (_, (_, l)) => Ok (Some (p_pid p, default 0 (p_exit_code p)), (t', Heap.mkAllocator l (Heap.ga_mem a)))
      | Err (err, (_, l)) => Err (err, (t', Heap.mkAllocator l (Heap.ga_mem a)))
      | Panic => Panic
      | Hang => Hang
      end.
Proof.
  unfold take_zombie_child. rewrite (M_bind_ok (gets fst) _ (t, a) t (t, a) eq_refl).
  destruct (position _ (procs t)) as [i|] eqn:Hpos.
  - right. apply position_some in Hpos as (p & Hp & Hz & _). destruct (remove_index_ok i t a p Hp) as [t' Hrm].
    exists p, t'. rewrite !(M_bind_ok _ _ _ _ _ Hrm). apply remove_index_spec in Hrm as (_ & Hperm & Hn & Hi).
    split; [done|]. unfold mbind, M_bind, drop_process. cbn [fst snd].
    by destruct (drop rs (p, Heap.ga_free a)) as [[? [? ?]]|[? [? ?]]| |].
  - left. split; [done|]. intros p [j Hj]%list_elem_of_lookup. rewrite position_none in Hpos. by apply (Hpos j).
Qed.

Lemma take_zombie_child_spec rs parent target (t : ProcessTable W) (a : Heap.allocator) :
  match take_zombie_child rs parent target (t, a) with
  | Ok (None, s') => s' = (t, a) ∧ ∀ p, p ∈ procs t → is_zombie_child parent target p = false
  | Ok (Some (pid, code), s') => ∃ p, reaped parent target t s'.1 p ∧ pid = p_pid p ∧ code = default 0 (p_exit_code p)
  | Err (_, s') => ∃ p, reaped parent target t s'.1 p
  | Panic | Hang => True
  end.
Proof.
  destruct (take_zombie_child_cases rs parent target t a) as [[-> Hz]|(p & t' & Hr & ->)]; [done|].
  destruct (drop rs (p, Heap.ga_free a)) as [[? [? ?]]|[? [? ?]]| |]; [by exists p|by exists p|done|done].
Qed.

Lemma reaped_inv k parent target t' p a : kernel_inv k → reaped parent target (k_table k) t' p → kernel_inv (set_heap a (set_table t' k)).
Proof.
  intros [Hk Hcur] (Hz & Hperm & Hn & Hidle). pose proof Hk as [Ht Hrun _].
  assert (p ∈ procs (k_table k)) as Hin by (rewrite Hperm; left).
  assert (p_state p = Zombie) as Hst.
  { unfold is_zombie_child, in_state in Hz. by destruct (bool_decide_reflect (p_state p = Zombie)), (opt_eqb (p_parent p) (Some parent)). }
  pose proof Ht as [Hnd _ _ Hok _ Hip]. rewrite Forall_forall in Hok, Hip. destruct (Hok p Hin) as (_ & _ & Hni & _).
  assert (p_is_idle p = false) as Hpi. { destruct (p_is_idle p); [|done]. destruct Hni as [?|?]; congruence. }
  assert (idle_pid (k_table k) ≠ Some (p_pid p)) as Hne.
  { destruct Ht as [_ _ _ _ (i & Hi & Hii) _]. rewrite (Hip i Hi Hii). intros [= Heq].
    assert (get (k_table k) (p_pid p) = Some i) as Hg1 by (by apply get_some).
    assert (get (k_table k) (p_pid p) = Some p) as Hg2 by (by apply get_some). congruence. }
  assert (∀ q, q ∈ procs (k_table k) → p_state q ≠ Zombie → q ∈ procs t') as Hkeep.
  { intros q Hq Hqs. rewrite Hperm in Hq. apply elem_of_cons in Hq as [-> | ?]; done. }
  split.
  - apply sched_inv_table; [done|by apply (table_inv_remove (k_table k) t' p); auto| |].
    + intros q Hq Hr. exists q. split_and!; [|done..]. rewrite Hperm. by right.
    + intros q Hq Hqc. exists q. split_and!; [|done..]. apply Hkeep; [done|].
      apply list_elem_of_lookup in Hq as [j Hj]. by rewrite (current_running k j q).
  - destruct Hcur as [?|(q & Hq & Hqc & Hr)]; [by left|right]. exists q. split_and!; [|done..]. apply Hkeep; [done|congruence].
Qed.

Lemma wait_for_child_inv rs target k : kernel_inv k → current_not_idle k →
  match wait_for_child rp rs target k with Ok (_, k') | Err (_, k') => kernel_inv k' | Panic | Hang => True end.
Proof.
  intros Hk Hidle. unfold wait_for_child. rewrite (M_bind_ok Prelude.get _ k k k eq_refl).
  destruct (current_pid k) as [pid|] eqn:Hpid; [|done].
  rewrite (M_bind_ok (ok_or (Some pid) _) _ k pid k eq_refl). destruct (negb _); [done|].
  unfold mbind at 1, M_bind at 1, with_table, zoom. pose proof (take_zombie_child_spec rs pid target (k_table k) (k_heap k)) as Hz.
  destruct (take_zombie_child _ _ _ _) as [[[[zp code]|] s']|[e s']| |]; try done.
  - destruct Hz as (p & Hr & _). by apply (reaped_inv k pid target _ p).
  - destruct Hz as [-> _]. cbn [fst snd]. replace (set_heap (k_heap k) (set_table (k_table k) k)) with k by (by destruct k).
    rewrite (M_bind_ok Prelude.get _ k k k eq_refl). unfold get_mut.
    destruct (find_index_by_pid (k_table k) pid) as [i|] eqn:Hi; cbn [mbind option_bind]; [|done].
    match goal with |- context [ok_or (Some ?t) ?e] => rewrite (M_bind_ok (ok_or (Some t) e) _ k t k eq_refl) end.
    unfold mbind, M_bind, lift. destruct (reschedule rp _) as [k'|e| |] eqn:Hr; try done. cbn. refine (reschedule_inv _ _ _ Hr).
    assert (current_index k = Some i) as (p & Hp & Hpc)%current_index_some by (by unfold current_index; rewrite Hpid); [|by destruct Hk as [[]]].
    apply (stop_current_inv _ _ _ p); try done. apply proc_ok_block; [|by apply (current_running k i)].
    apply Hidle; [by apply list_elem_of_lookup_2 in Hp|done].
  - destruct Hz as (p & Hr). by apply (reaped_inv k pid target _ p).
Qed.

End kernel_inv.

(** ** Spawning *)

Section spawn.
Context {W : Type} (process_size region_size : Z) (e : env W).
Implicit Types (t : ProcessTable W) (p : Process W).

(** A process as its constructor leaves it. *)
Record fresh (pid : Pid) (parent : option Pid) (idle : bool) (credentials : Credentials) p : Prop := {
  fr_pid : p_pid p = pid; fr_parent : p_parent p = parent; fr_idle : p_is_idle p = idle;
  fr_credentials : p_credentials p = credentials; fr_state : p_state p = Ready;
  fr_wait : p_wait_channel p = None; fr_exit : p_exit_code p = None; fr_preempt : p_preempt_return p = None
}.

Lemma fresh_proc_ok pid parent idle c p : fresh pid parent idle c p → proc_ok p.
Proof.
  intros [_ _ _ _ Hs Hw He Hp]. unfold proc_ok. rewrite Hs, Hw, He, Hp.
  split_and!; [by split; [|intros []]..|by left|by left].
Qed.

Lemma set_fd_shape i d p p' : set_fd i d p = Ok p' → ∃ fds, p' = set_fds fds p.
Proof. unfold set_fd. destruct (_ <=? _); [done|]. intros [= <-]. eauto. Qed.

Lemma install_fds_shape p p' : install_fds e p = Ok p' → ∃ fds, p' = set_fds fds p.
Proof.
  unfold install_fds. destruct (set_fd STDOUT_FD _ p) as [p1|x| |] eqn:H1; [|done..]. apply set_fd_shape in H1 as [f1 ->].
  cbn [mbind comp_bind]. destruct (set_fd STDERR_FD _ _) as [p2|x| |] eqn:H2; [|done..]. apply set_fd_shape in H2 as [f2 ->].
  cbn [mbind comp_bind]. destruct (set_fd STDIN_FD _ _) as [p3|x| |] eqn:H3; [|done..]. apply set_fd_shape in H3 as [f3 ->].
  cbn [mbind comp_bind]. destruct (scratch e).
  - intros [f4 ->]%set_fd_shape. by exists f4.
  - intros [= <-]. by exists f3.
Qed.

Lemma register_stack_shape p layout s p' s' : register_stack region_size p layout s = Ok (p', s') →
  ∃ regions, p' = set_regions regions p.
Proof.
  unfold register_stack, register, zoom. cbn [fst snd]. destruct (RawVec.push _ _ _) as [[? [v l]]|[? [v l]]| |]; [|..|done|done].
  - intros [= <- _]. by exists v.
  - by destruct (drop region_size _) as [[? [? ?]]|[? [? ?]]| |].
Qed.

Lemma new_stack_top s sp layout top s' : new_stack e s = Ok ((sp, layout, top), s') →
  top = saturating_sub64 (Z.land (sp + KERNEL_STACK_SIZE) (not64 0xF)) 8.
Proof.
  unfold new_stack. intros (l & s1 & _ & H)%M_bind_inv. apply M_bind_inv in H as (q & s2 & _ & H). destruct (q =? 0); [done|].
  apply M_bind_inv in H as (? & s3 & _ & H). by injection H as <- <- <- _.
Qed.

(** A kernel process starts at its entry, on its own stack and the given tables. *)
Record starts_at (name : string) (cr entry : Z) p : Prop := {
  sa_name : p_name p = name; sa_space : p_address_space p = with_cr3 cr Kernel;
  sa_context : p_context p = mkContext 0 0 0 0 0 (rsp (p_context p)) (rsp (p_context p)) entry 0x202;
  sa_stack : rsp (p_context p) = saturating_sub64 (Z.land (p_stack_ptr p + KERNEL_STACK_SIZE) (not64 0xF)) 8
}.

Lemma new_kernel_fresh cr pid name parent entry idle c s p s' :
  new_kernel region_size e cr pid name parent entry idle c s = Ok (p, s') → fresh pid parent idle c p ∧ starts_at name cr entry p.
Proof.
  intros (((sp, layout), top) & s1 & Hst & Hk)%M_bind_inv. apply M_bind_inv in Hk as (p1 & s2 & Hi & Hr).
  unfold lift in Hi. destruct (install_fds e _) as [p2|x| |] eqn:Hinst; [|done..]. injection Hi as -> ->.
  apply install_fds_shape in Hinst as [fds ->]. apply register_stack_shape in Hr as [rs ->].
  split; constructor; try done. by eapply new_stack_top.
Qed.

(** A constructor for user processes as the table expects it: it gives a fresh
    process and leaves the table alone. *)
Definition constructs (new_user : Pid → option Pid → Credentials → M (@theap W * W) ProcessError (Process W)) : Prop :=
  ∀ pid parent c s, match new_user pid parent c s with
                    | Ok (p, s') => fresh pid parent false c p ∧ s'.1.1 = s.1.1
                    | Err (_, s') => s'.1.1 = s.1.1
                    | Panic | Hang => True
                    end.

Lemma table_push_spec p t a :
  match push process_size region_size p (t, a) with
  | Ok (_, s') => procs s'.1 = procs t ++ [p] ∧ next_pid s'.1 = next_pid t ∧ idle_pid s'.1 = idle_pid t ∧ init_pid s'.1 = init_pid t
  | Err (_, s') => procs s'.1 = procs t ∧ next_pid s'.1 = next_pid t ∧ idle_pid s'.1 = idle_pid t
  | Panic | Hang => True
  end.
Proof.
  unfold push. destruct (RawVec.push _ p (entries t, _)) as [[[] [v l]]|[err [v l]]| |] eqn:Hp; [..|done|done].
  - apply RawVec.push_elems in Hp. done.
  - apply RawVec.push_err_elems in Hp. cbn [fst] in Hp.
    destruct (drop region_size (p, l)) as [[? [? ?]]|[? [? ?]]| |]; try done; cbn; by rewrite <- Hp.
Qed.

Lemma allocate_pid_spec t a :
  allocate_pid (t, a) = if next_pid t + 1 <? 2 ^ 32 then Ok (next_pid t, (set_next_pid (next_pid t + 1) t, a))
                        else Err (TooManyProcesses, (t, a)).
Proof. unfold allocate_pid, ok_or. rewrite (M_bind_ok (gets fst) _ (t, a) t (t, a) eq_refl). by destruct (next_pid t + 1 <? 2 ^ 32). Qed.

(** What spawning does to the table, a part of the state it runs on. *)
Definition spawned {T} (tbl : T → ProcessTable W) (idle : bool) (parent : option Pid) t (r : comp (ProcessError * T) (Pid * T)) : Prop :=
  match r with
  | Ok (pid, s') => ∃ p, fresh pid parent idle (spawn_credentials t parent) p ∧ pid = next_pid t ∧ procs (tbl s') = procs t ++ [p] ∧
      next_pid (tbl s') = next_pid t + 1 ∧ next_pid t + 1 < 2 ^ 32 ∧ idle_pid (tbl s') = if idle then Some pid else idle_pid t
  | Err (_, s') => procs (tbl s') = procs t ∧
      (next_pid (tbl s') = next_pid t ∨ next_pid (tbl s') = next_pid t + 1 ∧ next_pid t + 1 < 2 ^ 32) ∧ idle_pid (tbl s') = idle_pid t
  | Panic | Hang => True
  end.

Lemma table_spawn_kernel_spec cr name parent entry idle t a :
  spawned fst idle parent t (table_spawn_kernel process_size region_size e cr name parent entry idle (t, a)).
Proof.
  unfold table_spawn_kernel. unfold mbind at 1, M_bind at 1. rewrite allocate_pid_spec.
  destruct (Z.ltb_spec (next_pid t + 1) (2 ^ 32)) as [Hlt|]; [|cbn; auto].
  set (t1 := set_next_pid (next_pid t + 1) t). rewrite (M_bind_ok (gets fst) _ (t1, a) t1 (t1, a) eq_refl).
  unfold mbind at 1, M_bind at 1, zoom. cbn [fst snd].
  destruct (new_kernel _ _ _ _ _ _ _ _ _ _) as [[p a1]|[err a1]| |] eqn:Hnew; [|cbn; by auto|done|done].
  apply new_kernel_fresh in Hnew as [Hnew _]. unfold mbind at 1, M_bind at 1. pose proof (table_push_spec p t1 a1) as Hpush.
  destruct (push _ _ p (t1, a1)) as [[[] s2]|[err s2]| |]; [|destruct Hpush as (? & ? & ?); cbn; by auto|done|done].
  destruct Hpush as (Hprocs & Hnext & Hidle & Hinit). cbn. exists p. split; [done|]. split; [done|].
  destruct idle; [|destruct (init_pid s2.1)]; cbn; auto.
Qed.

Lemma table_spawn_kernel_starts cr name parent entry idle s pid s' :
  table_spawn_kernel process_size region_size e cr name parent entry idle s = Ok (pid, s') →
  ∃ p, procs s'.1 = procs s.1 ++ [p] ∧ starts_at name cr entry p.
Proof.
  destruct s as [t a]. unfold table_spawn_kernel. intros (pid' & s1 & Hpid & H)%M_bind_inv. rewrite allocate_pid_spec in Hpid.
  assert (procs s1.1 = procs t) as Hs1 by (destruct (_ <? _); [by injection Hpid as _ <-|done]).
  apply M_bind_inv in H as (t1 & s2 & Ht1 & H). injection Ht1 as <- <-. apply M_bind_inv in H as (p & s3 & Hnew & H).
  assert (starts_at name cr entry p ∧ s3.1 = s1.1) as [Hp Hs3].
  { unfold zoom in Hnew. destruct (new_kernel _ _ _ _ _ _ _ _ _ _) as [[p' a1]|[? ?]| |] eqn:Hk; [|done..].
    injection Hnew as -> <-. by apply new_kernel_fresh in Hk as [_ ?]. }
  apply M_bind_inv in H as ([] & s4 & Hpush & H). apply M_bind_inv in H as ([] & s5 & Hm & H). injection H as _ <-. injection Hm as <-.
  exists p. split; [|done]. cbn [fst]. destruct s3 as [t3 a3]. pose proof (table_push_spec p t3 a3) as Hp3. rewrite Hpush in Hp3.
  destruct Hp3 as (Hprocs & _). cbn [fst] in Hs3. subst t3. rewrite Hs1 in Hprocs. by destruct idle; [|destruct (init_pid s4.1)].
Qed.

Lemma table_spawn_user_spec nu parent t a w : constructs nu →
  spawned (λ s, s.1.1) false parent t (table_spawn_user process_size region_size nu parent ((t, a), w)).
Proof.
  intros Hnu. unfold table_spawn_user. unfold mbind at 1, M_bind at 1, on_theap at 1, zoom. cbn [fst snd]. rewrite allocate_pid_spec.
  destruct (Z.ltb_spec (next_pid t + 1) (2 ^ 32)) as [Hlt|]; [|cbn; auto].
  set (t1 := set_next_pid (next_pid t + 1) t). rewrite (M_bind_ok (gets (λ s, s.1.1)) _ ((t1, a), w) t1 ((t1, a), w) eq_refl).
  unfold mbind at 1, M_bind at 1. specialize (Hnu (next_pid t) parent (spawn_credentials t1 parent) ((t1, a), w)).
  destruct (nu _ _ _ ((t1, a), w)) as [[p [[t2 a1] w1]]|[err [[t2 a1] w1]]| |]; [..|done|done].
  - destruct Hnu as [Hfr Ht2]. cbn in Ht2. subst t2. unfold mbind, M_bind, on_theap, zoom. cbn [fst snd].
    pose proof (table_push_spec p t1 a1) as Hpush.
    destruct (push _ _ p (t1, a1)) as [[[] s2]|[err s2]| |]; [|destruct Hpush as (? & ? & ?); cbn; by auto|done|done].
    destruct Hpush as (Hprocs & Hnext & Hidle & _). cbn. exists p. by auto.
  - cbn in Hnu. subst t2. cbn. by auto.
Qed.

(** A ready process more keeps the invariant, whatever else changes outside the
    table, the current pid and the page tables. *)
Lemma grown_inv (k k' : kernel W) l : kernel_inv k → table_inv (k_table k') → k_current k' = k_current k → k_cr3 k' = k_cr3 k →
  procs (k_table k') = procs (k_table k) ++ l → Forall (λ p, p_state p = Ready) l → kernel_inv k'.
Proof.
  intros [Hk Hcur] Ht' Hc Hcr Hl Hready. split.
  - destruct Hk as [Ht Hr Hcr3]. constructor; [done|rewrite Hc, Hl..].
    + apply Forall_app. split; [done|]. eapply Forall_impl; [exact Hready|]. cbn. congruence.
    + destruct Hcr3 as [?|(q & Hq & Hqc & Hq')]; [by left|right]. exists q. rewrite Hcr. split_and!; [apply elem_of_app; by left|done..].
  - destruct Hcur as [?|(q & Hq & Hqc & Hr)]; [left; by rewrite Hc|right]. exists q. rewrite Hc, Hl. split_and!; [apply elem_of_app; by left|done..].
Qed.

(** Spawning keeps the invariant, whether it succeeds or fails. *)
Lemma spawned_inv {T} (tbl : T → ProcessTable W) (put_back : T → kernel W) (k : kernel W) parent r : kernel_inv k →
  (∀ s, k_table (put_back s) = tbl s ∧ k_current (put_back s) = k_current k ∧ k_cr3 (put_back s) = k_cr3 k) →
  spawned tbl false parent (k_table k) r →
  match r with Ok (_, s') | Err (_, s') => kernel_inv (put_back s') | Panic | Hang => True end.
Proof.
  intros Hk Hput Hs. pose proof Hk as [[Ht _ _] _].
  destruct r as [[pid s']|[err s']| |]; [..|done|done]; destruct (Hput s') as (Htbl & Hc & Hcr).
  - destruct Hs as (p & Hfr & -> & Hp & Hn & Hlt & Hi). apply (grown_inv k _ [p]); [done| |done|done|by rewrite Htbl|].
    + rewrite Htbl. apply (table_inv_push (k_table k) _ p); try done; try (by destruct Hfr); [by eapply fresh_proc_ok|cbn in *; lia].
    + apply Forall_singleton. by destruct Hfr.
  - destruct Hs as (Hp & Hn & Hi). apply (grown_inv k _ []); [done| |done|done|by rewrite Htbl, app_nil_r|constructor].
    rewrite Htbl. apply (table_inv_update (k_table k)); [done|by rewrite Hp|rewrite Hp; by destruct Ht| |done]. destruct Ht. cbn. lia.
Qed.

End spawn.

End SchedSpec.
