(* ===== verification/SchedSteps.v ===== *)
(** * The scheduler as a transition system

    The operations of the process subsystem as steps of one relation, the
    invariant over every reachable state, and what follows for the processes. *)

From S2P Require Import Prelude Mem Heap RawVec Types Drivers Vfs Process Sched SchedSpec.
Local Open Scope Z_scope.

Module SchedSteps.
Import Proc Sched SchedSpec.

(** ** Operations on one process *)

(** What the scheduler reads of a process, apart from its identity and state. *)
Record core := mkCore {
  c_pid : Pid; c_parent : option Pid; c_idle : bool; c_state : ProcessState; c_wait : option WaitChannel;
  c_exit : option Z; c_preempt : option Z; c_space : AddressSpace; c_context : Context
}.
Definition core_of {W} (p : Process W) : core :=
  mkCore (p_pid p) (p_parent p) (p_is_idle p) (p_state p) (p_wait_channel p) (p_exit_code p) (p_preempt_return p)
    (p_address_space p) (p_context p).

Section process_ops.
Context {W : Type} (region_size : Z).
Implicit Types (p : Process W) (k : kernel W).

Definition same_core (s s' : @pheap W) : Prop := core_of s'.1 = core_of s.1.

#[export] Instance same_core_preorder : PreOrder same_core.
Proof. split; unfold same_core; repeat intro; congruence. Qed.

Lemma heap_op_core {A} (f : list Heap.ListNode → comp ProcessError (A * list Heap.ListNode)) : preserves same_core (heap_op f).
Proof. intros s. unfold heap_op. destruct (f s.2) as [[? ?]|?| |]; done. Qed.

Lemma register_core r : preserves same_core (register region_size r).
Proof. intros s. unfold register, zoom. destruct (RawVec.push _ _ _) as [[? ?]|[? ?]| |]; done. Qed.

Hint Resolve heap_op_core register_core : preserves.

Lemma allocate_region_core layout kind perms : preserves same_core (allocate_region_with_permissions region_size layout kind perms).
Proof. unfold allocate_region_with_permissions. preserves. Qed.

Lemma release_region_core ptr : preserves same_core (release_region (W:=W) ptr).
Proof. unfold release_region. preserves. by apply preserves_modify. Qed.

(** The final state of a computation. *)
Definition ends_in {S E A} (r : comp (E * S) (A * S)) (s' : S) : Prop :=
  match r with Ok (_, s1) | Err (_, s1) => s1 = s' | Panic | Hang => False end.

Lemma core_inv k i q a p : kernel_inv k → procs (k_table k) !! i = Some p → core_of q = core_of p →
  kernel_inv (set_heap a (set_table (update_index i (λ _, q) (k_table k)) k)).
Proof.
  intros Hk Hp [= H1 H2 H3 H4 H5 H6 H7 H8 H9]. apply kernel_inv_alter; [done|]. intros p' Hp'. assert (p' = p) as -> by congruence.
  unfold ids, proc_ok. rewrite H1, H3, H4, H5, H6, H7, H8. done.
Qed.

Lemma with_process_heap_inv {A} pid (m : M pheap ProcessError A) k k' : preserves same_core m → kernel_inv k →
  ends_in (with_process_heap pid m k) k' → kernel_inv k'.
Proof.
  intros Hm Hk. unfold with_process_heap. destruct (find_index_by_pid _ _) as [i|]; [|by intros <-].
  destruct (procs (k_table k) !! i) as [p|] eqn:Hp; [|done]. specialize (Hm (p, Heap.ga_free (k_heap k))).
  destruct (m _) as [[? s]|[? s]| |]; try done; intros <-; by apply (core_inv k i _ _ p).
Qed.

Lemma with_process_try_inv {A} pid (f : Process W → comp ProcessError (A * Process W)) k k' :
  (∀ p r p', f p = Ok (r, p') → core_of p' = core_of p) → kernel_inv k →
  ends_in (with_process_try pid f k) k' → kernel_inv k'.
Proof.
  intros Hf Hk. unfold with_process_try, mbind, M_bind, ok_or, Prelude.get, lift, put.
  destruct (find_index_by_pid _ _) as [i|]; [|by intros <-]. destruct (procs (k_table k) !! i) as [p|] eqn:Hp; [|by intros <-].
  destruct (f p) as [[r p']|err| |] eqn:Hfp; [|by intros <-|done..]. intros <-. rewrite <- set_heap_same.
  apply (core_inv k i _ _ p); [done..|]. by eapply Hf.
Qed.

Lemma release_fd_core fd p d p' : release_fd_slot fd p = Ok (d, p') → core_of p' = core_of p.
Proof.
  unfold release_fd_slot. destruct (_ <=? _); [done|]. destruct (_ !! _) as [[d'|]|]; [|done..]. by intros [= _ <-].
Qed.

Lemma close_fd_inv pid fd k k' : kernel_inv k → ends_in (close_fd pid fd k) k' → kernel_inv k'.
Proof.
  intros Hk. unfold close_fd. unfold mbind at 1, M_bind at 1.
  pose proof (with_process_try_inv pid (release_fd_slot fd) k) as Htry.
  destruct (with_process_try pid _ k) as [[d k1]|[err k1]| |]; [|intros <-; apply Htry; [apply release_fd_core|done..]|done..].
  assert (kernel_inv k1) as [[? ? ?] ?] by (apply Htry; [apply release_fd_core|done..]).
  unfold mbind, M_bind, attempt, zoom. destruct (Vfs.fd_flush d (k_world k1)) as [[? ?]|[? ?]| |]; try done;
    intros <-; (split; [by constructor|done]).
Qed.

End process_ops.

(** ** Steps *)

Section steps.
Context {W : Type} (rp process_size region_size idle_task : Z) (e : env W).
Implicit Types (k : kernel W).

(** One operation of the kernel, or the current code changing the registers, the
    devices, user memory or the heap.  The
    operations that stop the current process are
    never called by the idle task, whose body only halts and yields. *)
Inductive step : kernel W → kernel W → Prop :=
| step_run cpu k : step k (set_cpu cpu k)
| step_yield k k' : yield_now rp k = Ok k' → step k k'
| step_block ch k k' : current_not_idle k → block_current rp ch k = Ok k' → step k k'
| step_wake ev k : step k (wake_channel ev k)
| step_exit code k k' : current_not_idle k → exit_current rp code k = Ok k' → step k k'
| step_wait target k k' : current_not_idle k → ends_in (wait_for_child rp region_size target k) k' → step k k'
| step_tick trampoline locked frame_rip k : step k (request_preempt trampoline locked frame_rip k).2
| step_preempt k k' : preempt_do_switch rp k = Ok k' → step k k'
| step_resume k target k' : preempt_resume k = Ok (target, k') → step k k'
| step_spawn name entry k k' : ends_in (spawn_kernel_process process_size region_size e name entry k) k' → step k k'
| step_spawn_idle name entry k k' : ends_in (spawn_idle_process process_size region_size e name entry k) k' → step k k'
| step_spawn_user nu k k' : constructs nu → ends_in (spawn_user_process process_size region_size nu k) k' → step k k'
| step_allocate pid layout kind perms k k' :
    ends_in (allocate_for_process_with_permissions region_size pid layout kind perms k) k' → step k k'
| step_free pid ptr k k' : ends_in (free_for_process pid ptr k) k' → step k k'
| step_close pid fd k k' : ends_in (close_fd pid fd k) k' → step k k'
| step_process A pid (f : Process W → comp ProcessError (A * Process W)) k k' :
    (∀ p r p', f p = Ok (r, p') → core_of p' = core_of p) → ends_in (with_process_try pid f k) k' → step k k'
| step_outside a w k : step k (set_heap a (set_world w k)).

Lemma with_table_ends {A} (m : M theap ProcessError A) k k' : ends_in (with_table m k) k' →
  ∃ s', ends_in (m (k_table k, k_heap k)) s' ∧ k' = set_heap s'.2 (set_table s'.1 k).
Proof. unfold with_table, zoom. destruct (m _) as [[? s']|[? s']| |]; try done; intros <-; by exists s'. Qed.

Lemma spawned_step_inv k (m : M theap ProcessError Pid) parent k' : kernel_inv k →
  spawned fst false parent (k_table k) (m (k_table k, k_heap k)) → ends_in (with_table m k) k' → kernel_inv k'.
Proof.
  intros Hk Hs. pose proof (spawned_inv fst (λ s, set_heap s.2 (set_table s.1 k)) k parent _ Hk ltac:(done) Hs) as Hinv.
  unfold with_table, zoom. destruct (m _) as [[? ?]|[? ?]| |]; try done; by intros <-.
Qed.

Lemma spawned_user_inv k (m : M (theap * W) ProcessError Pid) parent k' : kernel_inv k →
  spawned (λ s, s.1.1) false parent (k_table k) (m ((k_table k, k_heap k), k_world k)) → ends_in (with_table_world m k) k' → kernel_inv k'.
Proof.
  intros Hk Hs.
  pose proof (spawned_inv (λ s, s.1.1) (λ s, set_world s.2 (set_heap s.1.2 (set_table s.1.1 k))) k parent _ Hk ltac:(done) Hs) as Hinv.
  unfold with_table_world, zoom. destruct (m _) as [[? ?]|[? ?]| |]; try done; by intros <-.
Qed.

Lemma step_inv k k' : kernel_inv k → step k k' → kernel_inv k'.
Proof.
  intros Hk Hstep. destruct Hstep as [cpu k|k k' H|ch k k' Hi H|ev k|code k k' Hi H|target k k' Hi H|tr locked r k|k k' H|k x k' H
    |name entry k k' H|name entry k k' H|nu k k' Hnu H|pid layout kind perms k k' H|pid ptr k k' H|pid fd k k' H|A pid f k k' Hf H|a w k].
  - destruct Hk as [[? ? ?] ?]. split; [by constructor|done].
  - unfold yield_now in H. destruct (schedule_internal rp k) as [[b k1]|err| |] eqn:Hs; try done. injection H as <-.
    destruct (schedule_inv rp k b k1) as [[_ ->]|[_ ?]]; try done. by destruct Hk.
  - by eapply block_current_inv.
  - by apply wake_kernel_inv.
  - by eapply exit_current_inv.
  - pose proof (wait_for_child_inv rp region_size target k Hk Hi) as Hw.
    destruct (wait_for_child _ _ _ _) as [[? ?]|[? ?]| |]; cbn in H; subst; done.
  - by apply request_preempt_inv.
  - apply (reschedule_inv rp (set_need_resched false k)); [|done]. by apply (set_need_resched_inv false) in Hk as [? _].
  - by eapply preempt_resume_inv.
  - unfold spawn_kernel_process in H. rewrite (M_bind_ok Prelude.get _ k k k eq_refl) in H.
    destruct (negb _); [by cbn in H; subst|]. revert H. eapply spawned_step_inv; [done|]. apply table_spawn_kernel_spec.
  - unfold spawn_idle_process in H. rewrite (M_bind_ok Prelude.get _ k k k eq_refl) in H.
    destruct (negb _); [by cbn in H; subst|]. destruct (idle_pid (k_table k)) eqn:Hidle; [by cbn in H; subst|].
    destruct Hk as [[[_ _ _ _ (i & Hin & Hii) Hip] _ _] _]. rewrite Forall_forall in Hip. specialize (Hip i Hin Hii). congruence.
  - unfold spawn_user_process in H. rewrite (M_bind_ok Prelude.get _ k k k eq_refl) in H.
    destruct (negb _); [by cbn in H; subst|]. revert H. eapply spawned_user_inv; [done|]. by apply table_spawn_user_spec.
  - eapply with_process_heap_inv; [apply allocate_region_core|done..].
  - eapply with_process_heap_inv; [apply release_region_core|done..].
  - by eapply close_fd_inv.
  - by eapply with_process_try_inv.
  - destruct Hk as [[? ? ?] ?]. split; [by constructor|done].
Qed.

(** The state the kernel boots in, before [process::init]. *)
Definition boot_kernel (a : Heap.allocator) (cpu : Context) (cr : Z) (w : W) : kernel W :=
  mkKernel table_new 0 Context_new false cpu cr 0 a w.

Definition reachable k : Prop :=
  ∃ a cpu cr w k0, init process_size region_size e idle_task (boot_kernel a cpu cr w) = Ok (tt, k0) ∧ rtc step k0 k.

Lemma process_init_inv a cpu cr w k0 : init process_size region_size e idle_task (boot_kernel a cpu cr w) = Ok (tt, k0) → kernel_inv k0.
Proof.
  unfold init. set (b := boot_kernel a cpu cr w). rewrite (M_bind_ok Prelude.get _ b b b eq_refl). cbn [b boot_kernel k_table table_new initialized].
  set (b1 := set_table (set_initialized true (k_table b)) b).
  rewrite (M_bind_ok (modify (λ k, set_table (set_initialized true (k_table k)) k)) _ b tt b1 eq_refl). intros (pid & k1 & Hs & [= <-])%M_bind_inv.
  pose proof (table_spawn_kernel_spec process_size region_size e (k_cr3 b) "idle" None idle_task true (k_table b1) (k_heap b1)) as Hsp.
  assert (ends_in (with_table (table_spawn_kernel process_size region_size e (k_cr3 b) "idle" None idle_task true) b1) k1) as (s' & Hs' & ->)%with_table_ends by (by rewrite Hs).
  unfold with_table, zoom in Hs. destruct (table_spawn_kernel _ _ _ _ _ _ _ _ _) as [[pid' s1]|[? ?]| |]; try done. cbn in Hs'. subst s'.
  destruct Hsp as (p & Hfr & -> & Hp & Hn & Hlt & Hi). destruct s1 as [t1 a1]. cbn in Hp, Hn, Hi. pose proof (fresh_proc_ok _ _ _ _ _ Hfr) as Hok.
  destruct Hfr as [Hpid Hpar Hidle Hcr Hst Hw He Hpr]. split; [|by left]. constructor; cbn; [|rewrite Hp; apply Forall_singleton; congruence|by left].
  constructor; unfold pids; rewrite ?Hp, ?Hn.
  - apply NoDup_singleton.
  - apply Forall_singleton. rewrite Hpid. cbn. lia.
  - done.
  - by apply Forall_singleton.
  - exists p. split; [left|done].
  - apply Forall_singleton. intros _. by rewrite Hi, Hpid.
Qed.

Lemma reachable_inv k : reachable k → kernel_inv k.
Proof.
  intros (a & cpu & cr & w & k0 & Hinit & Hsteps). apply process_init_inv in Hinit. induction Hsteps as [k|k1 k2 k3 H12 _ IH]; [done|].
  apply IH. by eapply step_inv.
Qed.


End steps.

(** A kernel with one character device for the console and the keyboard. *)
Definition example_char : CharDevice unit := mkCharDevice "example" (mret tt) (λ _, mret []) (λ b, mret (Z.of_nat (length b))).
Definition example_env : env unit := mkEnv example_char example_char None 0xFFFF800000001000.
Definition example_heap : Heap.allocator := Heap.mkAllocator [Heap.Node 0x100000 0x100000] (λ _, 0).
Definition run_ok {S E A} (c : comp (E * S) (A * S)) (d : S) : S := match c with Ok (_, s) => s | _ => d end.
Definition value_ok {E A} (c : comp E A) (d : A) : A := match c with Ok a => a | _ => d end.
Definition is_ok {E A} (c : comp E A) : bool := match c with Ok _ => true | _ => false end.
Definition example_boot : kernel unit := boot_kernel example_heap Context_new 0x1000 tt.
Definition example_init : kernel unit := run_ok (init 512 64 example_env 0xFFFF800000002000 example_boot) example_boot.
Definition example_spawned : kernel unit :=
  run_ok (spawn_kernel_process 512 64 example_env "shell" 0xFFFF800000003000 example_init) example_init.
Definition example_running : kernel unit := value_ok (yield_now 7 example_spawned) example_spawned.

Lemma run_ok_ends {S E A} (c : comp (E * S) (A * S)) d : is_ok c = true → ends_in c (run_ok c d).
Proof. by destruct c as [[? ?]|?| |]. Qed.
Lemma run_ok_eq {S E} (c : comp (E * S) (unit * S)) d : is_ok c = true → c = Ok (tt, run_ok c d).
Proof. by destruct c as [[[] ?]|?| |]. Qed.
Lemma value_ok_eq {E A} (c : comp E A) d : is_ok c = true → c = Ok (value_ok c d).
Proof. by destruct c. Qed.

Lemma example_reachable : reachable 7 512 64 0xFFFF800000002000 example_env example_running.
Proof.
  exists example_heap, Context_new, 0x1000, tt, example_init. split; [apply run_ok_eq; by vm_compute|].
  apply (rtc_l _ _ example_spawned); [|apply rtc_once].
  - apply (step_spawn _ _ _ _ "shell" 0xFFFF800000003000), run_ok_ends. by vm_compute.
  - apply step_yield, value_ok_eq. by vm_compute.
Qed.


End SchedSteps.
