(* ===== verification/SchedLive.v ===== *)
(** * Progress, fairness and the contexts of processes *)

From S2P Require Import Prelude Mem Heap RawVec Types Drivers Vfs Process Sched SchedSpec SchedSteps.
Local Open Scope Z_scope.

Module SchedLive.
Import Proc Sched SchedSpec SchedSteps.

(** ** The round-robin search *)

Section search.

Lemma elem_of_ring n first i : (i < n)%nat → i ∈ ring n first.
Proof.
  intros Hi. unfold ring. apply list_elem_of_fmap. exists ((i + n - first `mod` n) `mod` n)%nat. split.
  - rewrite Nat.Div0.add_mod_idemp_r. pose proof (Nat.mod_upper_bound first n ltac:(lia)).
    pose proof (Nat.div_mod_eq first n) as Hd.
    replace (first + (i + n - first `mod` n))%nat with (i + (1 + first / n) * n)%nat by nia.
    by rewrite Nat.Div0.mod_add, Nat.mod_small.
  - apply elem_of_seq. split; [lia|]. apply Nat.mod_upper_bound. lia.
Qed.

Lemma find_is_some {A} (f : A → bool) l x : x ∈ l → f x = true → is_Some (List.find f l).
Proof.
  intros Hx Hf. destruct (List.find f l) as [y|] eqn:Hy; [by eexists|]. pose proof (List.find_none f l Hy x) as Hn.
  rewrite Hn in Hf; [done|]. by apply list_elem_of_In.
Qed.

(** The first hit of a search lies at or before any known hit. *)
Lemma find_first (f : nat → bool) l d x : l !! d = Some x → f x = true → ∃ d' y, (d' ≤ d)%nat ∧ l !! d' = Some y ∧ List.find f l = Some y.
Proof.
  revert d. induction l as [|z l IH]; intros d Hd Hf; [done|]. cbn [List.find]. destruct (f z) eqn:Hz.
  - exists O, z. split_and!; [lia|done..].
  - destruct d as [|d]; [injection Hd as ->; congruence|]. destruct (IH d Hd Hf) as (d' & y & Hle & Hy & Hfind).
    exists (S d'), y. split_and!; [lia|done..].
Qed.

Lemma ring_lookup n first d : (d < n)%nat → ring n first !! d = Some ((first + d) `mod` n)%nat.
Proof. intros Hd. unfold ring. rewrite list_lookup_fmap, lookup_seq_lt by done. done. Qed.

End search.

(** ** Progress *)

Section progress.
Context {W : Type} (rp process_size region_size idle_task : Z) (e : env W).
Implicit Types (k : kernel W) (p : Process W).

(** When the current process is neither ready nor idle, the scheduler switches. *)
Lemma schedule_switches k : sched_inv k →
  (∀ p, p ∈ procs (k_table k) → p_pid p = k_current k → p_is_idle p = false ∧ p_state p ≠ Ready) →
  ∃ k', schedule_internal rp k = Ok (true, k').
Proof.
  intros [Ht Hrun _] Hcur. destruct (schedule_internal_spec rp k) as [[_ Hnext]|(ni & next & Heq & _)]; [|eauto]. exfalso.
  pose proof Ht as [_ _ _ Hok (i & Hin & Hidle) _]. rewrite Forall_forall in Hok. destruct (Hok i Hin) as (_ & _ & Hst & _).
  specialize (Hst Hidle). apply list_elem_of_lookup in Hin as [j Hj].
  assert (is_Some (next_index k)) as [ni Hni].
  { unfold next_index, round_robin. destruct (List.find (runnable _) _); [by eexists|].
    apply (find_is_some _ _ j); [apply elem_of_ring; by apply lookup_lt_Some in Hj|]. unfold idle_runnable, in_state. rewrite Hj, Hidle.
    by destruct Hst as [-> | ->]. }
  destruct Hnext as [?|Hsame]; [congruence|]. rewrite Hni in Hsame. symmetry in Hsame.
  apply current_index_some in Hsame as (p & Hp & Hpc); [|done].
  destruct (Hcur p) as [Hpi Hps]; [by apply list_elem_of_lookup_2 in Hp|done|].
  destruct (round_robin_lt _ _ _ Hni) as (p' & Hp' & Hready). assert (p' = p) as -> by congruence.
  destruct Hready as [[_ ?]|[? _]]; congruence.
Qed.

Lemma reschedule_returns k : sched_inv k →
  (∀ p, p ∈ procs (k_table k) → p_pid p = k_current k → p_is_idle p = false ∧ p_state p ≠ Ready) →
  ∃ k', reschedule rp k = Ok k'.
Proof. intros Hk Hc. destruct (schedule_switches k Hk Hc) as [k' Hs]. exists k'. unfold reschedule. by rewrite Hs. Qed.

(** The entry of the current process after a change of it. *)
Lemma alter_current k i f p : table_inv (k_table k) → procs (k_table k) !! i = Some p → p_pid p = k_current k →
  (∀ p, p_pid (f p) = p_pid p) →
  ∀ q, q ∈ procs (update_index i f (k_table k)) → p_pid q = k_current k → q = f p.
Proof.
  intros [Hnd _ _ _ _ _] Hp Hpc Hf q [j Hj]%list_elem_of_lookup Hqc. cbn in Hj. destruct (decide (i = j)) as [<-|Hne].
  - rewrite list_lookup_alter_eq, Hp in Hj. by injection Hj as <-.
  - rewrite list_lookup_alter_ne in Hj by done. destruct Hne. apply (NoDup_lookup _ i j (k_current k) Hnd);
      unfold pids; rewrite list_lookup_fmap; [rewrite Hp|rewrite Hj]; simpl; congruence.
Qed.

Lemma current_process k : kernel_inv k → k_current k ≠ 0 →
  ∃ i p, current_pid k = Some (k_current k) ∧ find_index_by_pid (k_table k) (k_current k) = Some i ∧
    procs (k_table k) !! i = Some p ∧ p_pid p = k_current k ∧ p_state p = Running.
Proof.
  intros [[[Hnd _ _ _ _ _] _ _] Hcur] H0. destruct Hcur as [?|(p & Hp & Hpc & Hr)]; [done|].
  apply list_elem_of_lookup in Hp as [i Hi]. exists i, p. split_and!; try done.
  - unfold current_pid. by destruct (Z.eqb_spec (k_current k) 0).
  - apply find_index_some; [done|]. by exists p.
Qed.

(** A running process that is preempted hands the processor over. *)
Lemma preempt_returns k : kernel_inv k → k_current k ≠ 0 → current_not_idle k → ∃ k', preempt_do_switch rp k = Ok k'.
Proof.
  intros Hk H0 Hidle. destruct (current_process k Hk H0) as (i & p & Hcp & Hi & Hp & Hpc & Hr).
  assert (p_is_idle p = false) by (apply Hidle; [by apply list_elem_of_lookup_2 in Hp|done]).
  pose proof Hk as [[Ht _ _] _]. apply (reschedule_returns (set_need_resched false k)); [by apply (set_need_resched_inv false) in Hk as [? _]|].
  intros q Hq Hqc. assert (get (k_table k) (k_current k) = Some q) as Hg by (apply get_some; [by destruct Ht|done]).
  assert (get (k_table k) (k_current k) = Some p) as Hg'; [|by assert (q = p) as -> by congruence; rewrite Hr].
  apply get_some; [by destruct Ht|]. split; [by apply list_elem_of_lookup_2 in Hp|done].
Qed.


End progress.


(** ** Fairness *)

Section fairness.
Context {W : Type} (rp process_size region_size idle_task : Z) (e : env W).
Implicit Types (k : kernel W) (p : Process W).

Fixpoint yields (n : nat) k : comp ProcessError (kernel W) :=
  match n with
  | O => mret k
  | S n => k ← yield_now rp k; yields n k
  end.

(** Where the search for the next process starts. *)
Definition search_start k : nat :=
  match current_index k with Some i => (i + 1) `mod` length (procs (k_table k)) | None => 0 end.

Lemma current_not_ready k i p : kernel_inv k → procs (k_table k) !! i = Some p → p_state p = Ready → current_index k ≠ Some i.
Proof.
  intros Hk Hp Hr Hi. pose proof Hk as [[Ht _ _] _]. apply current_index_some in Hi as (p' & Hp' & Hpc); [|done].
  assert (p' = p) as -> by congruence. pose proof (current_running k i p Hk Hp Hpc). congruence.
Qed.

Lemma runnable_true (l : list (Process W)) i : runnable l i = true ↔ ∃ p, l !! i = Some p ∧ p_state p = Ready ∧ p_is_idle p = false.
Proof.
  unfold runnable, in_state. destruct (l !! i) as [p|]; [|by split; [|intros (p & ? & _)]]. rewrite andb_true_iff, bool_decide_eq_true, negb_true_iff.
  split; [intros []; eauto|]. by intros (q & [= ->] & ? & ?).
Qed.

(** One yield moves to the first runnable process after the current one. *)
Lemma yield_next k d j p : kernel_inv k → procs (k_table k) !! j = Some p → p_state p = Ready → p_is_idle p = false →
  (d < length (procs (k_table k)))%nat → j = ((search_start k + d) `mod` length (procs (k_table k)))%nat →
  ∃ d' i q, (d' ≤ d)%nat ∧ i = ((search_start k + d') `mod` length (procs (k_table k)))%nat ∧
    procs (k_table k) !! i = Some q ∧ yield_now rp k = Ok (switched rp k i q) ∧ kernel_inv (switched rp k i q).
Proof.
  intros Hk Hj Hr Hi Hd Heq.
  destruct (find_first (runnable (procs (k_table k))) (ring (length (procs (k_table k))) (search_start k)) d j)
    as (d' & i & Hle & Hi' & Hfind); [rewrite ring_lookup by done; by rewrite <- Heq|apply runnable_true; eauto|].
  rewrite ring_lookup in Hi' by lia. injection Hi' as Hi'.
  assert (next_index k = Some i) as Hni by (unfold next_index, round_robin; fold (search_start k); by rewrite Hfind).
  apply List.find_some in Hfind as [_ (q & Hq & Hqr & _)%runnable_true].
  pose proof (current_not_ready k i q Hk Hq Hqr) as Hne. exists d', i, q. split_and!; [done..| |].
  - unfold yield_now. destruct (schedule_internal_spec rp k) as [[_ [?|?]]|(ni & next & Hs & Hni' & Hnext & _)]; [congruence..|].
    assert (ni = i) as -> by congruence. assert (next = q) as -> by congruence. by rewrite Hs.
  - apply switched_inv; [by destruct Hk|done..].
Qed.

Lemma yields_reach d k j p : kernel_inv k → procs (k_table k) !! j = Some p → p_state p = Ready → p_is_idle p = false →
  (d < length (procs (k_table k)))%nat → j = ((search_start k + d) `mod` length (procs (k_table k)))%nat →
  ∃ m k', (m ≤ S d)%nat ∧ yields m k = Ok k' ∧ k_current k' = p_pid p ∧ k_cpu k' = p_context p.
Proof.
  revert k. induction d as [d IH] using lt_wf_ind. intros k Hk Hj Hr Hidle Hd Heq.
  destruct (yield_next k d j p) as (d' & i & q & Hle & Hi & Hq & Hy & Hk1); try done.
  destruct (decide (i = j)) as [->|Hne].
  { assert (q = p) as -> by congruence. exists 1%nat, (switched rp k j p). split_and!; [lia| |done..].
    cbn [yields]. by rewrite Hy. }
  set (n := length (procs (k_table k))) in *. set (k1 := switched rp k i q) in *.
  assert (length (procs (k_table k1)) = n) as Hn by (unfold k1; cbn; apply length_imap).
  assert (procs (k_table k1) !! j = Some p) as Hj1.
  { unfold k1. cbn. rewrite list_lookup_imap, Hj. cbn. unfold switched_entry. rewrite bool_decide_false by congruence.
    rewrite bool_decide_false; [done|]. by apply (current_not_ready k j p). }
  assert (current_index k1 = Some i) as Hci.
  { apply current_index_some; [by destruct Hk1 as [[]]|]. exists (promote q). split; [|done]. unfold k1. cbn.
    rewrite list_lookup_imap, Hq. cbn. unfold switched_entry. by rewrite bool_decide_true. }
  assert (d' ≠ d) as Hdd by congruence.
  destruct (IH (d - d' - 1)%nat ltac:(lia) k1) as (m & k' & Hm & Hys & Hcur & Hcpu); try done; rewrite ?Hn; [lia| |].
  { unfold search_start. rewrite Hci, Hn, Nat.Div0.add_mod_idemp_l, Hi, <- Nat.add_assoc, Nat.Div0.add_mod_idemp_l, Heq. f_equal. lia. }
  exists (S m), k'. split_and!; [lia| |done..]. cbn [yields]. rewrite Hy. exact Hys.
Qed.

(** C13. Fairness.  From every reachable state, a ready process that is not idle
    gets the processor, with the registers it was saved with, after at most as
    many yields as the table has entries, wherever it stands and whichever
    processes are ready besides it. *)
Theorem ready_process_runs k j p : reachable rp process_size region_size idle_task e k →
  procs (k_table k) !! j = Some p → p_state p = Ready → p_is_idle p = false →
  ∃ m k', (m ≤ length (procs (k_table k)))%nat ∧ yields m k = Ok k' ∧ k_current k' = p_pid p ∧ k_cpu k' = p_context p.
Proof.
  intros Hk%reachable_inv Hj Hr Hi. assert (j < length (procs (k_table k)))%nat as Hlt by (by apply lookup_lt_Some in Hj).
  pose proof (elem_of_ring _ (search_start k) j Hlt) as [d Hd]%list_elem_of_lookup.
  assert (d < length (procs (k_table k)))%nat as Hdl.
  { apply lookup_lt_Some in Hd. unfold ring in Hd. by rewrite length_fmap, length_seq in Hd. }
  rewrite ring_lookup in Hd by done. injection Hd as Hd.
  destruct (yields_reach d k j p) as (m & k' & Hm & Hrest); try done. exists m, k'. split; [lia|done].
Qed.

End fairness.

(** The shell, spawned but not yet run. *)
Lemma ready_process_runs_witness : ∃ m k', (m ≤ 2)%nat ∧ yields 7 m example_spawned = Ok k' ∧ k_current k' = 2.
Proof.
  destruct (lookup_lt_is_Some_2 (procs (k_table example_spawned)) 1) as [p Hp]; [vm_compute; lia|].
  assert (option_map (λ p, (p_pid p, p_state p, p_is_idle p)) (procs (k_table example_spawned) !! 1%nat) = Some (2, Ready, false)) as Hf
    by (by vm_compute).
  rewrite Hp in Hf. cbn in Hf. injection Hf as Hf1 Hf2 Hf3.
  assert (length (procs (k_table example_spawned)) = 2%nat) as Hlen by (by vm_compute).
  destruct (ready_process_runs 7 512 64 0xFFFF800000002000 example_env example_spawned 1 p) as (m & k' & Hm & Hy & Hc & _);
    [|exact Hp|exact Hf2|exact Hf3|].
  - exists example_heap, Context_new, 0x1000, tt, example_init. split; [apply run_ok_eq; by vm_compute|].
    apply rtc_once, (step_spawn _ _ _ _ "shell" 0xFFFF800000003000), run_ok_ends. by vm_compute.
  - rewrite Hlen in Hm. rewrite Hf1 in Hc. exists m, k'. split_and!; [exact Hm|exact Hy|exact Hc].
Defined.

(** ** Contexts *)

Section contexts.
Context {W : Type} (rp process_size region_size idle_task : Z) (e : env W).
Implicit Types (k : kernel W) (p q : Process W).

(** The processor stays with the current process and the processes there were
    keep their saved contexts. *)
Record frame k k1 : Prop := {
  fm_next : next_pid (k_table k) ≤ next_pid (k_table k1);
  fm_current : k_current k1 = k_current k;
  fm_cpu : k_cpu k1 = k_cpu k;
  fm_procs : ∀ q, q ∈ procs (k_table k1) → p_pid q < next_pid (k_table k) →
    ∃ p, p ∈ procs (k_table k) ∧ p_pid p = p_pid q ∧ p_context p = p_context q
}.

Lemma frame_refl k : frame k k.
Proof. constructor; [lia|done..|eauto]. Qed.

Lemma frame_trans k1 k2 k3 : frame k1 k2 → frame k2 k3 → frame k1 k3.
Proof.
  intros [Hn Hc Hu Hp] [Hn' Hc' Hu' Hp']. constructor; [lia|congruence..|]. intros r Hr Hlt.
  destruct (Hp' r Hr) as (q & Hq & Hqr & Hqx); [lia|]. destruct (Hp q Hq) as (p & ? & ? & ?); [lia|].
  exists p. split_and!; [done|congruence..].
Qed.

Lemma frame_alter k i f a : (∀ p, procs (k_table k) !! i = Some p → p_pid (f p) = p_pid p ∧ p_context (f p) = p_context p) →
  frame k (set_heap a (set_table (update_index i f (k_table k)) k)).
Proof.
  intros Hf. constructor; [cbn; lia|done..|]. intros q [j Hj]%list_elem_of_lookup _. cbn in Hj. destruct (decide (i = j)) as [<-|Hne].
  - rewrite list_lookup_alter_eq in Hj. apply fmap_Some in Hj as (p & Hp & ->). exists p. destruct (Hf p Hp) as [-> ->].
    split; [by apply list_elem_of_lookup_2 in Hp|done].
  - rewrite list_lookup_alter_ne in Hj by done. exists q. split; [by apply list_elem_of_lookup_2 in Hj|done].
Qed.

Lemma frame_alter_table k i f : (∀ p, procs (k_table k) !! i = Some p → p_pid (f p) = p_pid p ∧ p_context (f p) = p_context p) →
  frame k (set_table (update_index i f (k_table k)) k).
Proof. rewrite <- set_heap_same. apply frame_alter. Qed.

Lemma frame_get_mut k pid f t : (∀ p, p_pid (f p) = p_pid p ∧ p_context (f p) = p_context p) →
  get_mut pid f (k_table k) = Some t → frame k (set_table t k).
Proof. intros Hf (i & _ & [= <-])%bind_Some. apply frame_alter_table. auto. Qed.

Lemma frame_wake ev k : frame k (wake_channel ev k).
Proof.
  constructor; [cbn; lia|done..|]. intros q (p & -> & Hp)%list_elem_of_fmap _. exists p.
  destruct (wake_ids ev p) as ([= -> _] & _ & -> & _). done.
Qed.

Lemma frame_spawned {T} (tbl : T → ProcessTable W) (put_back : T → kernel W) idle k parent r :
  (∀ s, k_table (put_back s) = tbl s ∧ k_current (put_back s) = k_current k ∧ k_cpu (put_back s) = k_cpu k) →
  spawned tbl idle parent (k_table k) r →
  match r with Ok (_, s') | Err (_, s') => frame k (put_back s') | Panic | Hang => True end.
Proof.
  intros Hput. destruct r as [[pid s']|[err s']| |]; cbn; [..|done|done]; destruct (Hput s') as (Htbl & Hc & Hcpu).
  - intros (p & [Hpid _ _ _ _ _ _ _] & -> & Hp & Hn & _). constructor; rewrite ?Htbl; [lia|done..|]. intros q Hq Hlt. rewrite Hp in Hq.
    apply elem_of_app in Hq as [Hq|Hq%list_elem_of_singleton]; [eauto|]. subst q. lia.
  - intros (Hp & Hn & _). constructor; rewrite ?Htbl; [lia|done..|]. rewrite Hp. eauto.
Qed.

Lemma frame_with_table idle (m : M theap ProcessError Pid) parent k k' :
  spawned fst idle parent (k_table k) (m (k_table k, k_heap k)) → ends_in (with_table m k) k' → frame k k'.
Proof.
  intros Hs. pose proof (frame_spawned fst (λ s, set_heap s.2 (set_table s.1 k)) idle k parent _ ltac:(done) Hs) as Hf.
  unfold with_table, zoom. destruct (m _) as [[? ?]|[? ?]| |]; try done; by intros <-.
Qed.

Lemma frame_with_table_world (m : M (theap * W) ProcessError Pid) parent k k' :
  spawned (λ s, s.1.1) false parent (k_table k) (m ((k_table k, k_heap k), k_world k)) → ends_in (with_table_world m k) k' → frame k k'.
Proof.
  intros Hs.
  pose proof (frame_spawned (λ s, s.1.1) (λ s, set_world s.2 (set_heap s.1.2 (set_table s.1.1 k))) false k parent _ ltac:(done) Hs) as Hf.
  unfold with_table_world, zoom. destruct (m _) as [[? ?]|[? ?]| |]; try done; by intros <-.
Qed.

Lemma frame_reaped k parent target t' p a : reaped parent target (k_table k) t' p → frame k (set_heap a (set_table t' k)).
Proof.
  intros (_ & Hperm & Hn & _). constructor; [cbn; lia|done..|]. cbn. intros q Hq _. exists q. split; [|done]. rewrite Hperm. by right.
Qed.

Lemma frame_process_heap {A} pid (m : M pheap ProcessError A) k k' : preserves same_core m →
  ends_in (with_process_heap pid m k) k' → frame k k'.
Proof.
  intros Hm. unfold with_process_heap. destruct (find_index_by_pid _ _) as [i|]; [|intros <-; apply frame_refl].
  destruct (procs (k_table k) !! i) as [p|] eqn:Hp; [|done]. specialize (Hm (p, Heap.ga_free (k_heap k))).
  destruct (m _) as [[? s]|[? s]| |]; try done; intros <-; apply frame_alter; intros q Hq; assert (q = p) as -> by congruence;
    injection Hm; done.
Qed.

Lemma frame_process_try {A} pid (f : Process W → comp ProcessError (A * Process W)) k k' :
  (∀ p r p', f p = Ok (r, p') → core_of p' = core_of p) → ends_in (with_process_try pid f k) k' → frame k k'.
Proof.
  intros Hf. unfold with_process_try, mbind, M_bind, ok_or, Prelude.get, lift, put.
  destruct (find_index_by_pid _ _) as [i|]; [|intros <-; apply frame_refl].
  destruct (procs (k_table k) !! i) as [p|] eqn:Hp; [|intros <-; apply frame_refl].
  destruct (f p) as [[r p']|err| |] eqn:Hfp; [|intros <-; apply frame_refl|done..]. intros <-. apply frame_alter_table.
  intros q Hq. assert (q = p) as -> by congruence. apply Hf in Hfp. by injection Hfp.
Qed.

Lemma frame_close pid fd k k' : ends_in (close_fd pid fd k) k' → frame k k'.
Proof.
  unfold close_fd. unfold mbind at 1, M_bind at 1. pose proof (frame_process_try pid (release_fd_slot fd) k) as Htry.
  destruct (with_process_try pid _ k) as [[d k1]|[err k1]| |]; [|intros <-; apply Htry; [apply release_fd_core|done]|done..].
  assert (frame k k1) as [? ? ? ?] by (apply Htry; [apply release_fd_core|done]).
  unfold mbind, M_bind, attempt, zoom. destruct (Vfs.fd_flush d (k_world k1)) as [[? ?]|[? ?]| |]; try done; intros <-; by constructor.
Qed.

(** A step either leaves the processor with the current process or, after that,
    switches. *)
Definition switches k k' : Prop :=
  ∃ ni next, k' = switched rp k ni next ∧ procs (k_table k) !! ni = Some next ∧ current_index k ≠ Some ni.

Definition framed k k' : Prop := ∃ k1, frame k k1 ∧ (k' = k1 ∨ switches k1 k').

Lemma framed_same k k' : frame k k' → framed k k'.
Proof. intros Hf. exists k'. auto. Qed.

Lemma framed_schedule k k1 b k' : frame k k1 → schedule_internal rp k1 = Ok (b, k') → framed k k'.
Proof.
  intros Hf Hs. exists k1. split; [done|]. destruct (schedule_internal_spec rp k1) as [[Heq _]|(ni & next & Heq & _ & Hn & Hne)];
    rewrite Heq in Hs; injection Hs as _ <-; [by left|right]. by exists ni, next.
Qed.

Lemma framed_reschedule k k1 k' : frame k k1 → reschedule rp k1 = Ok k' → framed k k'.
Proof.
  intros Hf. unfold reschedule. destruct (schedule_internal rp k1) as [[[] k2]|err| |] eqn:Hs; cbn; try done. intros [= <-].
  by eapply framed_schedule.
Qed.

Lemma framed_wait target k k' : ends_in (wait_for_child rp region_size target k) k' → framed k k'.
Proof.
  unfold wait_for_child. rewrite (M_bind_ok Prelude.get _ k k k eq_refl).
  destruct (current_pid k) as [pid|]; [|intros <-; apply framed_same, frame_refl].
  rewrite (M_bind_ok (ok_or (Some pid) _) _ k pid k eq_refl). destruct (negb _); [intros <-; apply framed_same, frame_refl|].
  unfold mbind at 1, M_bind at 1, with_table, zoom. pose proof (take_zombie_child_spec region_size pid target (k_table k) (k_heap k)) as Hz.
  destruct (take_zombie_child _ _ _ _) as [[[[zp code]|] s']|[err s']| |]; try done.
  - destruct Hz as (p & Hr & _). intros <-. by eapply framed_same, frame_reaped.
  - destruct Hz as [-> _]. cbn [fst snd]. replace (set_heap (k_heap k) (set_table (k_table k) k)) with k by (by destruct k).
    rewrite (M_bind_ok Prelude.get _ k k k eq_refl). destruct (get_mut pid _ (k_table k)) as [t|] eqn:Hg;
      [|intros <-; apply framed_same, frame_refl].
    rewrite (M_bind_ok (ok_or (Some t) _) _ k t k eq_refl). unfold mbind, M_bind, lift.
    destruct (reschedule rp _) as [k1|err| |] eqn:Hr; [|intros <-; apply framed_same, frame_refl|done..].
    intros <-. refine (framed_reschedule _ _ _ _ Hr). by apply (frame_get_mut k pid _ t) in Hg.
  - destruct Hz as (p & Hr). intros <-. by eapply framed_same, frame_reaped.
Qed.

Lemma framed_exit code k k' : exit_current rp code k = Ok k' → framed k k'.
Proof.
  unfold exit_current. destruct (current_pid k) as [pid|]; [|done]. destruct (get (k_table k) pid) as [p|]; [|done].
  destruct (get_mut pid _ (k_table k)) as [t|] eqn:Hg; [|done]. apply (frame_get_mut k pid _ t) in Hg; [|done].
  apply framed_reschedule. destruct (p_parent p); [|done]. eapply frame_trans; [exact Hg|apply frame_wake].
Qed.

Lemma frame_tick tr locked r k : frame k (request_preempt tr locked r k).2.
Proof.
  assert (∀ k1, frame (set_need_resched true k) k1 → frame k k1) as Hf by (intros k1 [? ? ? ?]; by constructor).
  unfold request_preempt. apply Hf. destruct (r <? KERNEL_BASE); [apply frame_refl|]. destruct (negb _); [apply frame_refl|].
  destruct (current_pid _) as [pid|]; [|apply frame_refl]. destruct locked; [apply frame_refl|].
  destruct (find_index_by_pid _ _) as [i|]; [|apply frame_refl]. destruct (procs _ !! i) as [p|]; [|apply frame_refl].
  destruct (_ || _); [apply frame_refl|]. destruct (p_preempt_return p); [apply frame_refl|]. by apply frame_alter_table.
Qed.

Lemma step_framed k k' : step rp process_size region_size e k k' → (∃ cpu, k' = set_cpu cpu k) ∨ framed k k'.
Proof.
  intros Hstep. destruct Hstep as [cpu k|k k' H|ch k k' Hi H|ev k|code k k' Hi H|target k k' Hi H|tr locked r k|k k' H|k x k' H
    |name entry k k' H|name entry k k' H|nu k k' Hnu H|pid layout kind perms k k' H|pid ptr k k' H|pid fd k k' H|A pid f k k' Hf H|a w k];
    [left; by exists cpu|right..].
  - unfold yield_now in H. destruct (schedule_internal rp k) as [[b k1]|err| |] eqn:Hs; try done. injection H as <-.
    refine (framed_schedule _ _ _ _ _ Hs). apply frame_refl.
  - unfold block_current in H. destruct (current_pid k) as [pid|]; [|done]. destruct (get_mut pid _ _) as [t|] eqn:Hg; [|done].
    refine (framed_reschedule _ _ _ _ H). by apply (frame_get_mut k pid _ t) in Hg.
  - apply framed_same, frame_wake.
  - by eapply framed_exit.
  - by eapply framed_wait.
  - apply framed_same, frame_tick.
  - refine (framed_reschedule _ _ _ _ H). by constructor; [cbn; lia|..|eauto].
  - unfold preempt_resume in H. destruct (current_pid k) as [pid|]; [|done]. destruct (find_index_by_pid _ _) as [i|]; [|done].
    destruct (procs _ !! i) as [p|]; [|done]. injection H as <- <-. by apply framed_same, frame_alter_table.
  - unfold spawn_kernel_process in H. rewrite (M_bind_ok Prelude.get _ k k k eq_refl) in H. apply framed_same.
    destruct (negb _); [cbn in H; subst; apply frame_refl|]. refine (frame_with_table _ _ _ _ _ _ H). apply table_spawn_kernel_spec.
  - unfold spawn_idle_process in H. rewrite (M_bind_ok Prelude.get _ k k k eq_refl) in H. apply framed_same.
    destruct (negb _); [cbn in H; subst; apply frame_refl|]. destruct (idle_pid (k_table k)); [cbn in H; subst; apply frame_refl|].
    refine (frame_with_table _ _ _ _ _ _ H). apply table_spawn_kernel_spec.
  - unfold spawn_user_process in H. rewrite (M_bind_ok Prelude.get _ k k k eq_refl) in H. apply framed_same.
    destruct (negb _); [cbn in H; subst; apply frame_refl|]. refine (frame_with_table_world _ _ _ _ _ H). by apply table_spawn_user_spec.
  - eapply framed_same, frame_process_heap; [apply allocate_region_core|done].
  - eapply framed_same, frame_process_heap; [apply release_region_core|done].
  - by eapply framed_same, frame_close.
  - by eapply framed_same, frame_process_try.
  - apply framed_same. by constructor; [cbn; lia|..|eauto].
Qed.

(** Process [pid], if it is there, has the saved context [c]. *)
Definition saved_in (pid : Pid) (c : Context) k : Prop :=
  pid < next_pid (k_table k) ∧ ∀ q, q ∈ procs (k_table k) → p_pid q = pid → p_context q = c.

Lemma saved_in_frame pid c k k1 : frame k k1 → saved_in pid c k → saved_in pid c k1.
Proof.
  intros [Hn _ _ Hp] [Hlt Hc]. split; [lia|]. intros q Hq Hpid. destruct (Hp q Hq) as (p & ? & ? & ?); [lia|].
  rewrite <- (Hc p); congruence.
Qed.

Lemma switched_elem k ni next q : q ∈ procs (k_table (switched rp k ni next)) →
  ∃ j p, procs (k_table k) !! j = Some p ∧ q = switched_entry rp (current_index k) ni (k_cpu k) j p.
Proof. intros [j Hj]%list_elem_of_lookup. cbn in Hj. rewrite list_lookup_imap in Hj. apply fmap_Some in Hj as (p & Hp & ->). eauto. Qed.

(** Leaving the processor saves its registers. *)
Lemma switch_out k k1 : kernel_inv k → step rp process_size region_size e k k1 → k_current k ≠ 0 → k_current k1 ≠ k_current k →
  saved_in (k_current k) (saved_context rp (k_cpu k)) k1.
Proof.
  intros Hk Hstep H0 Hne. pose proof (step_inv _ _ _ _ _ _ Hk Hstep) as Hk1.
  apply step_framed in Hstep as [[cpu ->]|(k2 & [Hn Hc Hu Hp] & [-> |(ni & next & -> & Hnext & Hnc)])]; [done..|].
  assert (NoDup (pids (k_table k2))) as Hnd.
  { destruct Hk1 as [[[Hnd _ _ _ _ _] _ _] _]. unfold pids in Hnd. cbn in Hnd.
    rewrite (fmap_imap_ids p_pid) in Hnd; [done|]. intros i p. by injection (ids_switched_entry rp (current_index k2) ni (k_cpu k2) i p). }
  split.
  - cbn. destruct (current_process k Hk H0) as (i & p & _ & _ & Hpi & Hpc & _). rewrite <- Hpc.
    destruct Hk as [[[_ Hpids _ _ _ _] _ _] _]. apply (Forall_lookup_1 _ _ _ _ Hpids) in Hpi. lia.
  - intros q (j & p & Hj & ->)%switched_elem. unfold switched_entry. destruct (bool_decide_reflect (j = ni)) as [->|_].
    { intros Hq. cbn in Hq, Hne. congruence. }
    destruct (bool_decide_reflect (current_index k2 = Some j)) as [_|Hj']; [intros _; by rewrite <- Hu|].
    intros Hpid. destruct Hj'. unfold current_index, current_pid. rewrite Hc. destruct (Z.eqb_spec (k_current k) 0); [done|].
    cbn [mbind option_bind]. apply find_index_some; [done|]. by exists p.
Qed.

(** While others run the saved context stays, and it is what the process resumes
    with. *)
Lemma stay_away pid c k k1 : step rp process_size region_size e k k1 → k_current k ≠ pid → saved_in pid c k →
  saved_in pid c k1 ∧ (k_current k1 = pid → pid ∈ pids (k_table k1) → k_cpu k1 = c).
Proof.
  intros Hstep Hne Hs. apply step_framed in Hstep as [[cpu ->]|(k2 & Hf & Hk1)]; [done|].
  pose proof (saved_in_frame _ _ _ _ Hf Hs) as Hs2. destruct Hf as [_ Hc _ _].
  destruct Hk1 as [-> |(ni & next & -> & Hnext & Hnc)]; [split; [done|congruence]|]. destruct Hs2 as [Hlt Hs2]. split; [split; [done|]|].
  - intros q (j & p & Hj & ->)%switched_elem Hpid. unfold switched_entry in *.
    destruct (bool_decide (j = ni)); [by apply (Hs2 p); [apply list_elem_of_lookup_2 in Hj|]|].
    destruct (bool_decide_reflect (current_index k2 = Some j)) as [Hj'|_]; [|by apply (Hs2 p); [apply list_elem_of_lookup_2 in Hj|]].
    exfalso. unfold current_index, current_pid in Hj'. destruct (Z.eqb_spec (k_current k2) 0); [done|]. cbn [mbind option_bind] in Hj'.
    apply position_some in Hj' as (p' & Hp' & Heq & _). assert (p' = p) as -> by congruence.
    assert (p_pid p = pid) by (rewrite <- Hpid; unfold demote; by destruct (in_state Running p)). lia.
  - intros Hpid _. cbn in *. apply (Hs2 next); [by apply list_elem_of_lookup_2 in Hnext|done].
Qed.


End contexts.

(** The shell yields to the idle process and gets the processor back. *)
Definition example_idle : kernel unit := value_ok (preempt_do_switch 7 example_running) example_running.
Definition example_back : kernel unit := value_ok (yield_now 7 example_idle) example_idle.


End SchedLive.
