(* ===== verification/SchedChild.v ===== *)
(** * Parents and children: spawning, exiting and waiting *)

From S2P Require Import Prelude Mem Heap RawVec Types Drivers Vfs Process Sched SchedSpec SchedSteps SchedLive.
Local Open Scope Z_scope.

Module SchedChild.
Import Proc Sched SchedSpec SchedSteps SchedLive.

Section children.
Context {W : Type} (rp process_size region_size idle_task : Z) (e : env W).
Implicit Types (k : kernel W) (p q : Process W).

(** A child of [parent] that [target] selects. *)
Definition child_of (parent : Pid) (target : option Pid) p : Prop :=
  p_parent p = Some parent ∧ match target with Some pid => p_pid p = pid | None => True end.

Lemma is_child_true parent target p : is_child parent target p = true ↔ child_of parent target p.
Proof.
  unfold is_child, child_of, opt_eqb. rewrite andb_true_iff, bool_decide_eq_true. destruct target; [by rewrite Z.eqb_eq|tauto].
Qed.

Lemma is_zombie_child_true parent target p : is_zombie_child parent target p = true ↔ child_of parent target p ∧ p_state p = Zombie.
Proof.
  unfold is_zombie_child, child_of, opt_eqb, in_state. rewrite !andb_true_iff, !bool_decide_eq_true. destruct target; [rewrite Z.eqb_eq|]; tauto.
Qed.

Lemma has_child_true t parent target : has_child t parent target = true ↔ ∃ p, p ∈ procs t ∧ child_of parent target p.
Proof.
  unfold has_child. rewrite existsb_exists. split; intros (p & Hp & Hc); exists p; (split; [by apply list_elem_of_In|]); by apply is_child_true.
Qed.

(** A process that is not switched to keeps all but its context and [Running]. *)
Lemma switched_keeps k ni next j q : procs (k_table k) !! j = Some q → j ≠ ni → p_state q ≠ Running →
  ∃ q', procs (k_table (switched rp k ni next)) !! j = Some q' ∧ p_pid q' = p_pid q ∧ p_state q' = p_state q ∧
    p_wait_channel q' = p_wait_channel q ∧ p_exit_code q' = p_exit_code q ∧ p_parent q' = p_parent q.
Proof.
  intros Hq Hne Hst. cbn. rewrite list_lookup_imap, Hq. cbn. eexists. split; [done|]. unfold switched_entry.
  rewrite bool_decide_false by done. destruct (bool_decide (current_index k = Some j)); [|done]. unfold demote, in_state.
  by rewrite bool_decide_false.
Qed.

(** The process chosen can run. *)
Lemma next_index_state k ni next : next_index k = Some ni → procs (k_table k) !! ni = Some next → p_state next = Ready ∨ p_state next = Running.
Proof. intros (q & Hq & Hst)%round_robin_lt Hn. assert (q = next) as -> by congruence. tauto. Qed.

(** A stopped process stays as it is over a reschedule. *)
Lemma reschedule_stopped k k' q : reschedule rp k = Ok k' → q ∈ procs (k_table k) → p_state q = Blocked ∨ p_state q = Zombie →
  ∃ q', q' ∈ procs (k_table k') ∧ p_pid q' = p_pid q ∧ p_state q' = p_state q ∧
    p_wait_channel q' = p_wait_channel q ∧ p_exit_code q' = p_exit_code q ∧ p_parent q' = p_parent q.
Proof.
  unfold reschedule. destruct (schedule_internal_spec rp k) as [[-> _]|(ni & next & -> & Hni & Hnext & _)]; [done|].
  cbn [mbind comp_bind]. intros [= <-] [j Hj]%list_elem_of_lookup Hst. destruct (decide (j = ni)) as [->|Hne].
  - pose proof (next_index_state k ni next Hni Hnext). assert (q = next) as -> by congruence. destruct Hst, H; congruence.
  - destruct (switched_keeps k ni next j q) as (q' & Hq' & Hrest); [done..|destruct Hst as [-> | ->]; done|].
    exists q'. split; [by apply list_elem_of_lookup_2 in Hq'|done].
Qed.

Lemma reschedule_leaves k k' p : reschedule rp k = Ok k' → NoDup (pids (k_table k)) → p ∈ procs (k_table k) → p_pid p = k_current k →
  p_state p = Blocked ∨ p_state p = Zombie → k_current k' ≠ k_current k.
Proof.
  unfold reschedule. destruct (schedule_internal_spec rp k) as [[-> _]|(ni & next & -> & Hni & Hnext & _)]; [done|].
  cbn [mbind comp_bind]. intros [= <-] Hnd Hp Hpc Hst. cbn. intros Heq.
  pose proof (next_index_state k ni next Hni Hnext) as Hn.
  assert (get (k_table k) (k_current k) = Some p) as Hg by (by apply get_some).
  assert (get (k_table k) (k_current k) = Some next) as Hg'.
  { apply get_some; [done|]. split; [by apply list_elem_of_lookup_2 in Hnext|done]. }
  assert (p = next) as -> by congruence. destruct Hst, Hn; congruence.
Qed.

(** A process that blocks hands the processor over and stays blocked. *)
Lemma block_reschedules ch k i p : kernel_inv k → k_current k ≠ 0 → current_not_idle k →
  find_index_by_pid (k_table k) (k_current k) = Some i → procs (k_table k) !! i = Some p → p_pid p = k_current k → p_state p = Running →
  ∃ k', reschedule rp (set_table (update_index i (block ch) (k_table k)) k) = Ok k' ∧ k_current k' ≠ k_current k ∧
    ∃ q, q ∈ procs (k_table k') ∧ p_pid q = k_current k ∧ p_state q = Blocked ∧ p_wait_channel q = Some ch.
Proof.
  intros Hk H0 Hidle Hi Hp Hpc Hr. set (t := update_index i (block ch) (k_table k)).
  assert (p_is_idle p = false) as Hpi by (apply Hidle; [by apply list_elem_of_lookup_2 in Hp|done]).
  assert (sched_inv (set_table t k)) as Hk1 by (apply (stop_current_inv _ _ _ p); try done; by apply proc_ok_block).
  pose proof Hk as [[Ht _ _] _].
  destruct (reschedule_returns rp (set_table t k) Hk1) as [k' Hrs].
  { intros q Hq Hqc. rewrite (alter_current k i (block ch) p Ht Hp Hpc ltac:(done) q Hq Hqc). done. }
  assert (block ch p ∈ procs t) as Hb.
  { apply (list_elem_of_lookup_2 _ i). cbn. by rewrite list_lookup_alter_eq, Hp. }
  exists k'. split_and!; [done|..].
  - apply (reschedule_leaves _ _ (block ch p) Hrs); [by destruct Hk1 as [[]]|done..|by left].
  - destruct (reschedule_stopped _ _ (block ch p) Hrs) as (q & Hq & Hqpid & Hqs & Hqw & _); [done|by left|].
    exists q. split_and!; [done|by rewrite Hqpid|done..].
Qed.

Lemma wait_start k target : current_pid k = Some (k_current k) →
  wait_for_child rp region_size target k =
    (if negb (has_child (k_table k) (k_current k) target) then throw match target with Some _ => ChildNotFound | None => NoChildren end
     else zombie ← with_table (take_zombie_child region_size (k_current k) target);
       match zombie with
       | Some (pid, code) => mret (WaitDone pid code)
       | None =>
           k1 ← Prelude.get;
           t ← ok_or (get_mut (k_current k) (block (wait_channel_of target)) (k_table k1)) ProcessNotFound;
           k' ← lift (reschedule rp (set_table t k1));
           _ ← put k';
           mret WaitBlocked
       end) k.
Proof.
  intros Hcp. unfold wait_for_child. rewrite (M_bind_ok Prelude.get _ k k k eq_refl), Hcp.
  by rewrite (M_bind_ok (ok_or (Some (k_current k)) _) _ k (k_current k) k eq_refl).
Qed.

(** The three ways a round of [wait_for_child] goes. *)
Lemma wait_rounds k target : current_pid k = Some (k_current k) →
  has_child (k_table k) (k_current k) target = false ∧
    wait_for_child rp region_size target k = Err (match target with Some _ => ChildNotFound | None => NoChildren end, k) ∨
  (∃ p t', reaped (k_current k) target (k_table k) t' p ∧
    wait_for_child rp region_size target k =
      match drop region_size (p, Heap.ga_free (k_heap k)) with
      | Ok (_, (_, l)) => Ok (WaitDone (p_pid p) (default 0 (p_exit_code p)), set_heap (Heap.mkAllocator l (Heap.ga_mem (k_heap k))) (set_table t' k))
      | Err (err, (_, l)) => Err (err, set_heap (Heap.mkAllocator l (Heap.ga_mem (k_heap k))) (set_table t' k))
      | Panic => Panic
      | Hang => Hang
      end) ∨
  has_child (k_table k) (k_current k) target = true ∧
    (∀ p, p ∈ procs (k_table k) → is_zombie_child (k_current k) target p = false) ∧
    wait_for_child rp region_size target k =
      match idx ← find_index_by_pid (k_table k) (k_current k); Some (update_index idx (block (wait_channel_of target)) (k_table k)) with
      | None => Err (ProcessNotFound, k)
      | Some t => match reschedule rp (set_table t k) with
                  | Ok k' => Ok (WaitBlocked, k')
                  | Err err => Err (err, k)
                  | Panic => Panic
                  | Hang => Hang
                  end
      end.
Proof.
  intros Hcp. pose proof (wait_start k target Hcp) as Hw. destruct (has_child (k_table k) (k_current k) target); [|by left].
  right. cbn [negb] in Hw. unfold mbind at 1, M_bind at 1, with_table, zoom in Hw.
  destruct (take_zombie_child_cases region_size (k_current k) target (k_table k) (k_heap k)) as [[Ht Hz]|(p & t' & Hr & Ht)];
    rewrite Ht in Hw.
  - right. split_and!; [done..|]. rewrite Hw. cbn [fst snd]. replace (set_heap (k_heap k) (set_table (k_table k) k)) with k by (by destruct k).
    rewrite (M_bind_ok Prelude.get _ k k k eq_refl). unfold get_mut.
    destruct (find_index_by_pid (k_table k) (k_current k)) as [i|]; cbn [mbind option_bind]; [|done].
    unfold mbind, M_bind, ok_or, lift, put. by destruct (reschedule rp _).
  - left. exists p, t'. split; [done|]. rewrite Hw. by destruct (drop region_size _) as [[? [? ?]]|[? [? ?]]| |].
Qed.

(** C16. Waiting for a child.  In every reachable state, [wait_for_child] called by
    the running process (not the idle one): without a matching child it fails with
    the right error and changes nothing; when it returns a pid and a code, they are
    those of a zombie child it selects, which is removed while every other process
    stays, and the caller keeps the processor; it blocks only when there is a
    matching child and none is a zombie, leaving the caller blocked on the
    channel of its target and another process running; and when a zombie child is
    there and its memory can be released, it does return. *)
Theorem wait_for_child_correct k target : reachable rp process_size region_size idle_task e k → k_current k ≠ 0 → current_not_idle k →
  match wait_for_child rp region_size target k with
  | Ok (WaitDone pid code, k') => ∃ p, child_of (k_current k) target p ∧ p_state p = Zombie ∧ pid = p_pid p ∧ p_exit_code p = Some code ∧
      procs (k_table k) ≡ₚ p :: procs (k_table k') ∧ k_current k' = k_current k
  | Ok (WaitBlocked, k') => (∃ p, p ∈ procs (k_table k) ∧ child_of (k_current k) target p) ∧
      (∀ p, p ∈ procs (k_table k) → child_of (k_current k) target p → p_state p ≠ Zombie) ∧ k_current k' ≠ k_current k ∧
      ∃ q, q ∈ procs (k_table k') ∧ p_pid q = k_current k ∧ p_state q = Blocked ∧ p_wait_channel q = Some (wait_channel_of target)
  | Err (err, k') =>
      (∀ p, p ∈ procs (k_table k) → ¬ child_of (k_current k) target p) ∧ k' = k ∧
        err = (match target with Some _ => ChildNotFound | None => NoChildren end) ∨
      ∃ p, p ∈ procs (k_table k) ∧ child_of (k_current k) target p ∧ p_state p = Zombie ∧ ∀ s', drop region_size (p, Heap.ga_free (k_heap k)) ≠ Ok s'
  | Panic | Hang =>
      ∃ p, p ∈ procs (k_table k) ∧ child_of (k_current k) target p ∧ p_state p = Zombie ∧ ∀ s', drop region_size (p, Heap.ga_free (k_heap k)) ≠ Ok s'
  end.
Proof.
  intros Hk%reachable_inv H0 Hidle. destruct (current_process k Hk H0) as (i & p & Hcp & Hi & Hp & Hpc & Hr).
  destruct (wait_rounds k target Hcp) as [[Hno ->]|[(q & t' & Hq & ->)|(Hc & Hz & ->)]].
  - left. split_and!; [|done..]. intros c Hin Hc. apply (not_true_iff_false (has_child (k_table k) (k_current k) target)); [done|].
    apply has_child_true. eauto.
  - pose proof Hq as ([Hch Hst]%is_zombie_child_true & Hperm & _). assert (q ∈ procs (k_table k)) as Hin by (rewrite Hperm; left).
    destruct (drop region_size (q, Heap.ga_free (k_heap k))) as [[[] [p' l]]|[err [p' l]]| |] eqn:Hd.
    + exists q. split_and!; try done. destruct Hk as [[[_ _ _ Hok _ _] _ _] _]. rewrite Forall_forall in Hok.
      destruct (Hok q Hin) as (_ & Hex & _). apply Hex in Hst as [c ->]. done.
    + right. exists q. split_and!; try done. by rewrite Hd.
    + exists q. split_and!; try done. by rewrite Hd.
    + exists q. split_and!; try done. by rewrite Hd.
  - rewrite Hi. cbn [mbind option_bind].
    destruct (block_reschedules (wait_channel_of target) k i p) as (k' & Hrs & Hleave & q & Hq & Hqpid & Hqs & Hqw); try done.
    rewrite Hrs. cbn. split_and!.
    + by apply has_child_true.
    + intros c Hin Hc' Hcz. specialize (Hz c Hin). by rewrite (proj2 (is_zombie_child_true _ _ _)) in Hz.
    + done.
    + by exists q.
Qed.

(** The state [exit_current] reschedules from. *)
Definition exited (code : Z) (i : nat) p k : kernel W :=
  let k := set_table (update_index i (zombify code) (k_table k)) k in
  match p_parent p with Some parent_pid => wake_channel (Child parent_pid) k | None => k end.

Lemma exit_runs code k : kernel_inv k → k_current k ≠ 0 → current_not_idle k →
  ∃ i p k', procs (k_table k) !! i = Some p ∧ p_pid p = k_current k ∧ exit_current rp code k = Ok k' ∧
    reschedule rp (exited code i p k) = Ok k' ∧ sched_inv (exited code i p k) ∧ k_current (exited code i p k) = k_current k.
Proof.
  intros Hk H0 Hidle. destruct (current_process k Hk H0) as (i & p & Hcp & Hi & Hp & Hpc & Hr).
  assert (p_is_idle p = false) as Hpi by (apply Hidle; [by apply list_elem_of_lookup_2 in Hp|done]).
  pose proof Hk as [[Ht _ _] _].
  assert (sched_inv (exited code i p k)) as Hx.
  { assert (sched_inv (set_table (update_index i (zombify code) (k_table k)) k)).
    { apply (stop_current_inv _ _ _ p); try done. intros _. by apply proc_ok_zombify. }
    unfold exited. destruct (p_parent p); [by apply wake_sched_inv|done]. }
  assert (k_current (exited code i p k) = k_current k) as Hxc by (unfold exited; by destruct (p_parent p)).
  destruct (reschedule_returns rp (exited code i p k) Hx) as [k' Hk'].
  { intros q Hq. rewrite Hxc. intros Hqc. pose proof (alter_current k i (zombify code) p Ht Hp Hpc ltac:(done)) as Ha. unfold exited in Hq.
    destruct (p_parent p) as [pp|]; [|by rewrite (Ha q Hq Hqc)]. apply list_elem_of_fmap in Hq as (q' & -> & Hq').
    destruct (wake_ids (Child pp) q') as ([= Hw1 Hw2] & _). rewrite Hw2. rewrite Hw1 in Hqc. by rewrite (Ha q' Hq' Hqc). }
  exists i, p, k'. split_and!; try done. unfold exit_current, get_mut, get. rewrite Hcp, Hi. cbn [mbind option_bind]. by rewrite Hp.
Qed.

(** The zombie and the others right after the exit. *)
Lemma exited_zombie code i p k : procs (k_table k) !! i = Some p → zombify code p ∈ procs (k_table (exited code i p k)).
Proof.
  intros Hp. assert (zombify code p ∈ procs (update_index i (zombify code) (k_table k))) as Hz.
  { apply (list_elem_of_lookup_2 _ i). cbn. by rewrite list_lookup_alter_eq, Hp. }
  unfold exited. destruct (p_parent p) as [pp|]; [|done]. apply list_elem_of_fmap. by exists (zombify code p).
Qed.

Lemma exited_other code i p k q parent : kernel_inv k → procs (k_table k) !! i = Some p → q ∈ procs (k_table k) → p_pid q ≠ p_pid p →
  p_parent p = Some parent → wake (Child parent) q ∈ procs (k_table (exited code i p k)).
Proof.
  intros Hk Hp [j Hj]%list_elem_of_lookup Hne Hpar. unfold exited. rewrite Hpar. apply list_elem_of_fmap. exists q. split; [done|].
  apply (list_elem_of_lookup_2 _ j). cbn. rewrite list_lookup_alter_ne; [done|]. intros ->. congruence.
Qed.

Lemma exit_current_spec code k : kernel_inv k → k_current k ≠ 0 → current_not_idle k →
  ∃ p k', p ∈ procs (k_table k) ∧ p_pid p = k_current k ∧ exit_current rp code k = Ok k' ∧ k_current k' ≠ k_current k ∧
    (∃ z, z ∈ procs (k_table k') ∧ p_pid z = k_current k ∧ p_state z = Zombie ∧ p_exit_code z = Some code ∧ p_parent z = p_parent p) ∧
    ∀ q, q ∈ procs (k_table k) → p_parent p = Some (p_pid q) → p_pid q ≠ k_current k → p_wait_channel q = Some ChildAny →
      ∃ q', q' ∈ procs (k_table k') ∧ p_pid q' = p_pid q ∧ (p_state q' = Ready ∨ p_state q' = Running) ∧ p_wait_channel q' = None.
Proof.
  intros Hk H0 Hidle. destruct (exit_runs code k Hk H0 Hidle) as (i & p & k' & Hp & Hpc & Hex & Hrs & Hx & Hxc).
  exists p, k'. pose proof (exited_zombie code i p k Hp) as Hz. split_and!; [by apply list_elem_of_lookup_2 in Hp|done|done|..].
  - rewrite <- Hxc. apply (reschedule_leaves _ _ (zombify code p) Hrs); [by destruct Hx as [[]]|done|by rewrite Hxc|by right].
  - destruct (reschedule_stopped _ _ _ Hrs Hz) as (z & Hzin & Hzp & Hzs & _ & Hze & Hzpar); [by right|].
    exists z. split_and!; [done|by rewrite Hzp|done..].
  - intros q Hq Hpar Hne Hw. apply (exited_other code i p k q (p_pid q)) in Hpar; [|done..|congruence].
    assert (wake (Child (p_pid q)) q = set_preempt None (set_state Ready (set_wait_channel None q))) as Heq.
    { unfold wake, in_state. destruct Hk as [[[_ _ _ Hok _ _] _ _] _]. rewrite Forall_forall in Hok.
      destruct (Hok q Hq) as (Hb & _). rewrite bool_decide_true by (apply Hb; by eexists). by rewrite Hw. }
    rewrite Heq in Hpar. clear Heq. set (q1 := set_preempt _ _) in Hpar. unfold reschedule in Hrs.
    destruct (schedule_internal_spec rp (exited code i p k)) as [[Hs _]|(ni & next & Hs & _ & Hnext & _)]; rewrite Hs in Hrs; [done|].
    injection Hrs as <-. apply list_elem_of_lookup in Hpar as [j Hj].
    exists (switched_entry rp (current_index (exited code i p k)) ni (k_cpu (exited code i p k)) j q1). split.
    { apply (list_elem_of_lookup_2 _ j). cbn. by rewrite list_lookup_imap, Hj. }
    unfold switched_entry. destruct (bool_decide (j = ni)); [split_and!; auto|]. destruct (bool_decide _); split_and!; auto.
Qed.

(** C18. Exiting.  In every reachable state the running process (not the idle one)
    can exit: the call hands the processor to another process, and afterwards the
    process is a zombie that carries its exit code, and its parent, if it was
    waiting for any child, can run again. *)
Theorem exit_current_correct code k : reachable rp process_size region_size idle_task e k → k_current k ≠ 0 → current_not_idle k →
  ∃ p k', p ∈ procs (k_table k) ∧ p_pid p = k_current k ∧ exit_current rp code k = Ok k' ∧ k_current k' ≠ k_current k ∧
    (∃ z, z ∈ procs (k_table k') ∧ p_pid z = k_current k ∧ p_state z = Zombie ∧ p_exit_code z = Some code ∧ p_parent z = p_parent p) ∧
    ∀ q, q ∈ procs (k_table k) → p_parent p = Some (p_pid q) → p_pid q ≠ k_current k → p_wait_channel q = Some ChildAny →
      ∃ q', q' ∈ procs (k_table k') ∧ p_pid q' = p_pid q ∧ (p_state q' = Ready ∨ p_state q' = Running) ∧ p_wait_channel q' = None.
Proof. intros Hk%reachable_inv. by apply exit_current_spec. Qed.

(** A process that waits for a given child stays blocked when that child exits:
    the exit signals the parent's pid, the wait is on the child's. *)
Theorem exit_misses_specific_wait code k p q k' : reachable rp process_size region_size idle_task e k → current_not_idle k →
  p ∈ procs (k_table k) → p_pid p = k_current k → q ∈ procs (k_table k) → p_parent p = Some (p_pid q) → p_pid q ≠ k_current k →
  p_wait_channel q = Some (Child (p_pid p)) → exit_current rp code k = Ok k' →
  ∃ q', q' ∈ procs (k_table k') ∧ p_pid q' = p_pid q ∧ p_state q' = Blocked ∧ p_wait_channel q' = Some (Child (p_pid p)).
Proof.
  intros Hk%reachable_inv Hidle Hp Hpc Hq Hpar Hne Hw Hex. pose proof Hk as [[[Hnd Hpids _ Hok _ _] _ _] _].
  rewrite Forall_forall in Hok, Hpids.
  assert (k_current k ≠ 0) as H0 by (specialize (Hpids p Hp); cbn in Hpids; lia).
  destruct (exit_runs code k Hk H0 Hidle) as (i & p' & k1 & Hp' & Hpc' & Hex' & Hrs & _). assert (k1 = k') as -> by congruence.
  assert (p' = p) as ->.
  { assert (get (k_table k) (k_current k) = Some p) as Hg by (by apply get_some).
    assert (get (k_table k) (k_current k) = Some p') as Hg'; [|congruence].
    apply get_some; [done|]. split; [by apply list_elem_of_lookup_2 in Hp'|done]. }
  apply (exited_other code i p k q (p_pid q)) in Hpar; [|done..|congruence].
  assert (wake (Child (p_pid q)) q = q) as Heq.
  { unfold wake. destruct (in_state Blocked q); [|done]. rewrite Hw. cbn. by destruct (Z.eqb_spec (p_pid p) (p_pid q)); [congruence|]. }
  rewrite Heq in Hpar. destruct (Hok q Hq) as (Hb & _). assert (p_state q = Blocked) as Hst by (apply Hb; by eexists).
  destruct (reschedule_stopped _ _ q Hrs Hpar) as (q' & ? & ? & ? & ? & _); [by left|]. exists q'. split_and!; congruence.
Qed.

(** C21. Spawning.  In every reachable state, a spawned kernel process gets a pid
    no process has or had before; it is ready, its parent is the spawning process
    and it inherits its credentials (root's when there is none); it will start at
    the given entry with cleared registers and interrupts on, at the aligned top of
    its own kernel stack and in the address space of the moment; every other process
    is unchanged. *)
Theorem spawn_kernel_correct name entry k pid k' : reachable rp process_size region_size idle_task e k →
  spawn_kernel_process process_size region_size e name entry k = Ok (pid, k') →
  get (k_table k) pid = None ∧ pid = next_pid (k_table k) ∧ next_pid (k_table k') = pid + 1 ∧
  (∃ p, get (k_table k') pid = Some p ∧ p_state p = Ready ∧ p_is_idle p = false ∧ p_parent p = current_pid k ∧
    p_credentials p = match current_pid k with
                      | Some c => match get (k_table k) c with Some q => p_credentials q | None => Credentials_root end
                      | None => Credentials_root
                      end ∧ starts_at name (k_cr3 k) entry p) ∧
  ∀ other, other ≠ pid → get (k_table k') other = get (k_table k) other.
Proof.
  intros Hr Hs. assert (kernel_inv k') as Hk'.
  { apply (step_inv rp process_size region_size e k); [by eapply reachable_inv|]. eapply step_spawn. by rewrite Hs. }
  apply reachable_inv in Hr as [[[Hnd Hpids _ _ _ _] _ _] _]. destruct Hk' as [[[Hnd' _ _ _ _ _] _ _] _].
  unfold spawn_kernel_process in Hs. rewrite (M_bind_ok Prelude.get _ k k k eq_refl) in Hs. destruct (negb _); [done|].
  pose proof (table_spawn_kernel_spec process_size region_size e (k_cr3 k) name (current_pid k) entry false (k_table k) (k_heap k)) as Hsp.
  unfold with_table, zoom in Hs. destruct (table_spawn_kernel _ _ _ _ _ _ _ _ _) as [[pid' [t a]]|[? ?]| |] eqn:Htk; try done. injection Hs as <- <-.
  apply table_spawn_kernel_starts in Htk as (p' & Hp' & Hst'). destruct Hsp as (p & Hfr & -> & Hp & Hn & _ & _).
  cbn [fst] in Hp, Hp'. assert (p' = p) as -> by (rewrite Hp in Hp'; by apply app_inj_tail in Hp' as [_ <-]). cbn in Hp, Hn, Hnd' |- *. destruct Hfr as [Hpid Hpar Hid Hcr Hst _ _ _].
  assert (p ∈ procs t) as Hin by (rewrite Hp; apply elem_of_app; right; left).
  split_and!; [|done|done|exists p; split_and!; [by apply get_some|done..| |done]|].
  - apply get_none. unfold pids. rewrite list_elem_of_fmap. intros (q & Hq & Hqin). rewrite Forall_forall in Hpids.
    specialize (Hpids q Hqin). cbn in Hpids. lia.
  - rewrite Hcr. unfold spawn_credentials. destruct (current_pid k) as [c|]; [|done]. by destruct (get (k_table k) c).
  - intros other Hq. destruct (get t other) as [r|] eqn:Hg.
    + apply get_some in Hg as [Hrin Hrq]; [|done]. symmetry. apply get_some; [done|]. split; [|done]. rewrite Hp in Hrin.
      apply elem_of_app in Hrin as [?|Hrin%list_elem_of_singleton]; [done|]. congruence.
    + symmetry. apply get_none. apply get_none in Hg. intros Hin'. apply Hg. unfold pids in *. rewrite Hp, fmap_app. apply elem_of_app. by left.
Qed.

End children.

(** *** An example: a shell with a child *)

Definition example_child : kernel unit :=
  run_ok (spawn_kernel_process 512 64 example_env "child" 0xFFFF800000004000 example_running) example_running.
(** The shell waits, for any child or for that one, and the child runs. *)
Definition example_waiting (target : option Pid) : kernel unit := run_ok (wait_for_child 7 64 target example_child) example_child.

Lemma not_idle_check (k : kernel unit) :
  forallb (λ p, negb (p_pid p =? k_current k) || negb (p_is_idle p)) (procs (k_table k)) = true → current_not_idle k.
Proof.
  intros H p Hp Hpc. rewrite forallb_forall in H. specialize (H p (proj1 (list_elem_of_In _ _) Hp)).
  rewrite (proj2 (Z.eqb_eq _ _) Hpc) in H. by destruct (p_is_idle p).
Qed.

Lemma example_child_reachable : reachable 7 512 64 0xFFFF800000002000 example_env example_child.
Proof.
  destruct example_reachable as (a & cpu & cr & w & k0 & Hinit & Hsteps). exists a, cpu, cr, w, k0. split; [exact Hinit|].
  eapply rtc_r; [exact Hsteps|]. apply (step_spawn _ _ _ _ "child" 0xFFFF800000004000), run_ok_ends. by vm_compute.
Qed.

Lemma example_waiting_reachable target : is_ok (wait_for_child 7 64 target example_child) = true →
  reachable 7 512 64 0xFFFF800000002000 example_env (example_waiting target).
Proof.
  intros Hok. destruct example_child_reachable as (a & cpu & cr & w & k0 & Hinit & Hsteps). exists a, cpu, cr, w, k0. split; [exact Hinit|].
  eapply rtc_r; [exact Hsteps|]. refine (step_wait 7 512 64 example_env target example_child _ _ _); [apply not_idle_check; by vm_compute|].
  exact (run_ok_ends _ example_child Hok).
Qed.

Lemma wait_for_child_correct_witness : k_current example_child = 2 ∧ current_not_idle example_child ∧
  match wait_for_child 7 64 None example_child with Ok (WaitBlocked, k') => k_current k' ≠ 2 | _ => False end.
Proof.
  assert (current_not_idle example_child) as Hidle by (apply not_idle_check; by vm_compute).
  assert (k_current example_child = 2) as Hc by (by vm_compute).
  pose proof (wait_for_child_correct 7 512 64 0xFFFF800000002000 example_env example_child None example_child_reachable) as Hw.
  rewrite Hc in Hw. specialize (Hw ltac:(lia) Hidle). split; [exact Hc|]. split; [exact Hidle|].
  assert (match wait_for_child 7 64 None example_child with Ok (WaitBlocked, _) => true | _ => false end = true) as Hb by (by vm_compute).
  destruct (wait_for_child 7 64 None example_child) as [[[|] k']|[? ?]| |]; try discriminate Hb. exact (proj1 (proj2 (proj2 Hw))).
Defined.

Lemma exit_current_correct_witness : k_current (example_waiting None) = 3 ∧
  ∃ p k', p ∈ procs (k_table (example_waiting None)) ∧ exit_current 7 42 (example_waiting None) = Ok k' ∧
    ∃ z, z ∈ procs (k_table k') ∧ p_pid z = 3 ∧ p_state z = Zombie ∧ p_exit_code z = Some 42.
Proof.
  assert (k_current (example_waiting None) = 3) as Hc by (by vm_compute). split; [exact Hc|].
  destruct (exit_current_correct 7 512 64 0xFFFF800000002000 example_env 42 (example_waiting None))
    as (p & k' & Hp & _ & Hx & _ & (z & Hz & Hzp & Hzs & Hze & _) & _).
  - apply example_waiting_reachable. by vm_compute.
  - rewrite Hc. discriminate.
  - apply not_idle_check. by vm_compute.
  - exists p, k'. rewrite Hc in Hzp. split; [exact Hp|]. split; [exact Hx|]. exists z. split_and!; [exact Hz|exact Hzp|exact Hzs|exact Hze].
Defined.

Lemma spawn_kernel_correct_witness :
  ∃ pid k', spawn_kernel_process 512 64 example_env "child" 0xFFFF800000004000 example_running = Ok (pid, k') ∧
    get (k_table example_running) pid = None ∧ pid = 3.
Proof.
  assert (match spawn_kernel_process 512 64 example_env "child" 0xFFFF800000004000 example_running with
          | Ok (pid, _) => Some pid | _ => None end = Some 3) as Hs by (by vm_compute).
  destruct (spawn_kernel_process 512 64 example_env "child" 0xFFFF800000004000 example_running) as [[pid k']|?| |] eqn:Heq; try discriminate Hs.
  exists pid, k'. destruct (spawn_kernel_correct 7 512 64 0xFFFF800000002000 example_env _ _ _ _ _ example_reachable Heq) as (Hg & _).
  split; [reflexivity|]. split; [exact Hg|]. congruence.
Defined.

(** The shell waits for the child by its pid; the child's exit leaves it blocked
    and the machine idle. *)
Example lost_wakeup :
  match exit_current 7 42 (example_waiting (Some 3)) with
  | Ok k => (λ p, (p_pid p, p_state p)) <$> procs (k_table k)
  | _ => []
  end = [(1, Running); (2, Blocked); (3, Zombie)].
Proof. by vm_compute. Qed.

End SchedChild.
