(* ===== verification/Fds.v ===== *)
(** * The descriptors of a process *)

From S2P Require Import Prelude Mem Heap RawVec Types Drivers Vfs Process Sched SchedSpec SchedSteps.
Local Open Scope Z_scope.

Module Fds.
Import Proc Sched SchedSpec SchedSteps.

Section fds.
Context {W : Type}.
Implicit Types (p : Process W) (d : Vfs.FileDescriptor W) (k : kernel W).

Lemma first_free_spec i (l : list (option (Vfs.FileDescriptor W))) :
  match first_free i l with
  | Some j => (i ≤ j)%nat ∧ l !! (j - i)%nat = Some None ∧ ∀ m, (m < j - i)%nat → ∃ d, l !! m = Some (Some d)
  | None => ∀ m o, l !! m = Some o → is_Some o
  end.
Proof.
  revert i. induction l as [|[d|] l IH]; intros i; cbn [first_free]; [done| |].
  - specialize (IH (S i)). destruct (first_free (S i) l) as [j|].
    + destruct IH as (Hle & Hj & Hlt). split; [lia|]. replace (j - i)%nat with (S (j - S i)) by lia. split; [done|].
      intros [|m] Hm; [by exists d|]. apply Hlt. lia.
    + intros [|m] o; [intros [= <-]; by eexists|apply IH].
  - split; [lia|]. rewrite Nat.sub_diag. split; [done|lia].
Qed.

(** Descriptor slots.  Opening takes the lowest free slot and nothing else: the
    number it returns was free, every lower one was taken, the descriptor is found
    under it, and releasing it gives the descriptor back and restores the process
    as it was.  It fails only when all slots are taken. *)
Theorem fd_slot_roundtrip d p : length (p_fds p) = MAX_FDS →
  match allocate_fd_slot d p with
  | Ok (n, p') => 0 ≤ n < Z.of_nat MAX_FDS ∧ fd n p = None ∧ (∀ m, 0 ≤ m < n → is_Some (fd m p)) ∧ fd n p' = Some d ∧
      (∀ m, 0 ≤ m → m ≠ n → fd m p' = fd m p) ∧ release_fd_slot n p' = Ok (d, p)
  | Err err => err = NoFreeFileDescriptors ∧ ∀ m, 0 ≤ m < Z.of_nat MAX_FDS → is_Some (fd m p)
  | Panic | Hang => False
  end.
Proof.
  intros Hlen. unfold allocate_fd_slot. pose proof (first_free_spec 0 (p_fds p)) as Hf.
  destruct (first_free 0 (p_fds p)) as [n|].
  - destruct Hf as (_ & Hn & Hlt). rewrite Nat.sub_0_r in *. apply lookup_lt_Some in Hn as Hnl. rewrite Hlen in Hnl.
    unfold mret, comp_ret. unfold fd. rewrite Nat2Z.id. split_and!; [lia|lia|by rewrite Hn|..].
    + intros m Hm. destruct (Hlt (Z.to_nat m)) as [d' ->]; [lia|]. by eexists.
    + cbn. rewrite list_lookup_insert_eq by lia. done.
    + intros m Hm Hne. cbn. by rewrite list_lookup_insert_ne by lia.
    + unfold release_fd_slot. destruct (Z.leb_spec (Z.of_nat MAX_FDS) (Z.of_nat n)); [lia|]. rewrite Nat2Z.id. cbn.
      rewrite list_lookup_insert_eq by lia. f_equal. f_equal. rewrite list_insert_insert_eq, list_insert_id by done. by destruct p.
  - split; [done|]. intros m Hm. unfold fd. destruct (p_fds p !! Z.to_nat m) as [o|] eqn:Ho.
    + destruct (Hf _ o Ho) as [d' ->]. by eexists.
    + apply lookup_ge_None in Ho. lia.
Qed.

(** A closure that reads and writes the descriptor and the devices, as the
    system calls pass. *)
Definition device_op {R} (f : Vfs.FileDescriptor W → M W Empty_set (R * Vfs.FileDescriptor W))
    : Vfs.FileDescriptor W → M (kernel W) Empty_set (R * Vfs.FileDescriptor W) :=
  λ d, zoom k_world set_world (f d).

Lemma find_index_update (t : ProcessTable W) i g pid : (∀ p, procs t !! i = Some p → p_pid (g p) = p_pid p) →
  find_index_by_pid (update_index i g t) pid = find_index_by_pid t pid.
Proof.
  unfold find_index_by_pid. change (procs (update_index i g t)) with (alter g i (procs t)). generalize (procs t). intros l. revert i.
  induction l as [|x l IH]; intros i Hg; [done|]. destruct i as [|i]; cbn; [by rewrite Hg|].
  change (alter g (S i) (x :: l)) with (x :: alter g i l). cbn. by rewrite IH.
Qed.

Lemma with_process_try_run {A} pid (f : Process W → comp ProcessError (A * Process W)) k i p a p' :
  find_index_by_pid (k_table k) pid = Some i → procs (k_table k) !! i = Some p → f p = Ok (a, p') →
  with_process_try pid f k = Ok (a, set_table (update_index i (λ _, p') (k_table k)) k).
Proof.
  intros Hi Hp Hf. unfold with_process_try, mbind, M_bind, ok_or, Prelude.get, lift, put. by rewrite Hi, Hp, Hf.
Qed.

(** Access to a descriptor.  [with_fd_mut] runs the operation once on the
    descriptor in the slot and puts the descriptor it leaves back in the same
    slot; the result and the effect on the devices are the operation's, and every
    other descriptor and every other process stay as they were.  Without a process
    or a descriptor it fails and changes nothing. *)
Theorem with_fd_mut_correct {R} pid n (f : Vfs.FileDescriptor W → M W Empty_set (R * Vfs.FileDescriptor W)) k : 0 ≤ n →
  match find_index_by_pid (k_table k) pid with
  | None => with_fd_mut pid n (device_op f) k = Err (ProcessNotFound, k)
  | Some i =>
      ∃ p, procs (k_table k) !! i = Some p ∧ p_pid p = pid ∧
      match fd n p with
      | None => with_fd_mut pid n (device_op f) k = Err (InvalidFileDescriptor, k)
      | Some d =>
          with_fd_mut pid n (device_op f) k =
            match f d (k_world k) with
            | Ok ((r, d'), w) =>
                Ok (r, set_world w (set_table (update_index i (λ p, set_fds (<[Z.to_nat n := Some d']> (p_fds p)) p) (k_table k)) k))
            | Err (err, _) => match err with end
            | Panic => Panic
            | Hang => Hang
            end
      end
  end.
Proof.
  intros Hn. destruct (find_index_by_pid (k_table k) pid) as [i|] eqn:Hi.
  2:{ unfold with_fd_mut, with_process_try, mbind, M_bind, ok_or, Prelude.get. by rewrite Hi. }
  pose proof Hi as (p & Hp & Hpid & _)%position_some. exists p. split; [done|]. split; [lia|]. unfold fd.
  destruct (p_fds p !! Z.to_nat n) as [[d|]|] eqn:Hd; cbn [mjoin option_join].
  2,3: unfold with_fd_mut, with_process_try, mbind, M_bind, ok_or, Prelude.get, lift, take_slot; by rewrite Hi, Hp, Hd.
  unfold with_fd_mut.
  set (p1 := set_fds (<[Z.to_nat n := None]> (p_fds p)) p).
  rewrite (M_bind_ok _ _ _ _ _ (with_process_try_run pid (take_slot n) k i p d p1 Hi Hp ltac:(unfold take_slot; by rewrite Hd))).
  set (k1 := set_table _ k). unfold mbind at 1, M_bind at 1, map_err, device_op, zoom. change (k_world k1) with (k_world k).
  destruct (f d (k_world k)) as [[[r d'] w]|[[] ?]| |]; [|done..].
  assert (find_index_by_pid (k_table (set_world w k1)) pid = Some i) as Hi1.
  { change (find_index_by_pid (update_index i (λ _, p1) (k_table k)) pid = Some i). rewrite find_index_update; [done|]. intros q Hq. assert (q = p) as -> by congruence. done. }
  assert (procs (k_table (set_world w k1)) !! i = Some p1) as Hp1 by (cbn; by rewrite list_lookup_alter_eq, Hp).
  set (p2 := set_fds (<[Z.to_nat n := Some d']> (p_fds p)) p).
  rewrite (M_bind_ok _ _ _ _ _ (with_process_try_run pid (restore_slot n d') (set_world w k1) i p1 tt p2 Hi1 Hp1
    ltac:(unfold restore_slot; cbn; rewrite list_lookup_insert_eq by (by apply lookup_lt_Some in Hd); by rewrite list_insert_insert_eq))).
  unfold mret, M_ret. f_equal. f_equal. unfold k1. cbn. unfold set_world, set_table. cbn. f_equal. unfold update_index, set_procs, procs. cbn.
  f_equal. f_equal. apply list_eq. intros j. destruct (decide (i = j)) as [<-|Hne].
  - rewrite !list_lookup_alter_eq. unfold procs in Hp. by rewrite Hp.
  - by rewrite !list_lookup_alter_ne.
Qed.

End fds.

(** A process with the three standard descriptors. *)
Definition example_process : Process unit :=
  mkProcess 2 None "shell" Credentials_root (with_cr3 0x1000 Kernel) Running None None false None 0
    (replicate 3 (Some (Vfs.FdChar example_char)) ++ replicate 13 None) Context_new 0 None RawVec.new None None.

Lemma fd_slot_roundtrip_witness : length (p_fds example_process) = MAX_FDS ∧
  match allocate_fd_slot (Vfs.FdChar example_char) example_process with
  | Ok (n, p') => n = 3 ∧ fd n example_process = None ∧ release_fd_slot n p' = Ok (Vfs.FdChar example_char, example_process)
  | _ => False
  end.
Proof.
  split; [reflexivity|].
  pose proof (fd_slot_roundtrip (Vfs.FdChar example_char) example_process eq_refl) as H. revert H.
  unfold allocate_fd_slot. cbn [first_free example_process p_fds replicate app]. intros (_ & H1 & _ & _ & _ & H2).
  split; [reflexivity|]. split; [exact H1|exact H2].
Defined.

(** Reading nothing from standard output of the running shell. *)
Definition example_op (d : Vfs.FileDescriptor unit) : M unit Empty_set (Z * Vfs.FileDescriptor unit) := mret (5, d).

Lemma with_fd_mut_correct_witness : ∃ k', with_fd_mut 2 1 (device_op example_op) example_running = Ok (5, k').
Proof.
  pose proof (with_fd_mut_correct 2 1 example_op example_running ltac:(lia)) as H.
  assert (find_index_by_pid (k_table example_running) 2 = Some 1%nat) as Hi by (by vm_compute). rewrite Hi in H.
  destruct H as (p & Hp & _ & H).
  assert (match procs (k_table example_running) !! 1%nat with Some p => bool_decide (is_Some (fd 1 p)) | None => false end = true) as Hd
    by (by vm_compute).
  rewrite Hp in Hd. apply bool_decide_eq_true in Hd as [d Hd]. rewrite Hd in H. eexists. exact H.
Defined.

End Fds.
