(* ===== verification/Spinlock.v ===== *)
(** * The spin lock: src/src/kernel/sync/spinlock.rs

    The contexts that use a lock run interleaved: threads, and the interrupt handlers
    that suspend them.  A context is at a point of [lock], or has the guard.  The
    atomic operations on [locked] are the steps; the order of memory accesses is the
    sequential one. *)

From S2P Require Import Prelude.
Local Open Scope Z_scope.

Module Spinlock.

(** Where a context is: outside, before the [compare_exchange], in the inner loop of
    [lock], or with a guard. *)
Inductive point := Outside | AtExchange | AtLoad | Guard.

#[global] Instance point_eq_dec : EqDecision point.
Proof. solve_decision. Defined.

Section lock.
Context {T : Type}.

Record SpinLock := mkLock { locked : bool; value : T; at_point : nat → point }.

Definition new (v : T) : SpinLock := mkLock false v (λ _, Outside).

Definition move (t : nat) (p : point) (l : SpinLock) : SpinLock :=
  mkLock (locked l) (value l) (λ t', if decide (t' = t) then p else at_point l t').
Definition set_locked (b : bool) (l : SpinLock) : SpinLock := mkLock b (value l) (at_point l).

(** [compare_exchange(false, true)]: whether it succeeded. *)
Definition compare_exchange (l : SpinLock) : bool * SpinLock :=
  if locked l then (false, l) else (true, set_locked true l).

(** One atomic operation of [lock]. *)
Definition lock_step (t : nat) (l : SpinLock) : SpinLock :=
  match at_point l t with
  | AtExchange => let '(ok, l) := compare_exchange l in move t (if ok then Guard else AtLoad) l
  | AtLoad => if locked l then l else move t AtExchange l
  | Outside | Guard => l
  end.

Definition try_lock (t : nat) (l : SpinLock) : SpinLock :=
  let '(ok, l) := compare_exchange l in if ok then move t Guard l else l.

(** [DerefMut]: an update through the guard. *)
Definition deref_mut (f : T → T) (l : SpinLock) : SpinLock := mkLock (locked l) (f (value l)) (at_point l).

Definition drop (t : nat) (l : SpinLock) : SpinLock := move t Outside (set_locked false l).

(** What a context can do.  The type system of the source gives the accesses and the
    drop to the owner of the guard only. *)
Inductive action := Enter | Step | TryLock | Access (f : T → T) | Drop.

Definition allowed (a : action) (p : point) : bool :=
  match a, p with
  | (Enter | TryLock), Outside => true
  | Step, (AtExchange | AtLoad) => true
  | (Access _ | Drop), Guard => true
  | _, _ => false
  end.

Definition act (t : nat) (a : action) (l : SpinLock) : SpinLock :=
  match a with
  | Enter => move t AtExchange l
  | Step => lock_step t l
  | TryLock => try_lock t l
  | Access f => deref_mut f l
  | Drop => drop t l
  end.

(** A run: the contexts act in any order. *)
Fixpoint run (h : list (nat * action)) (l : SpinLock) : option SpinLock :=
  match h with
  | [] => Some l
  | (t, a) :: h => if allowed a (at_point l t) then run h (act t a l) else None
  end.

(** ** Mutual exclusion *)

Definition exclusive (l : SpinLock) : Prop :=
  if locked l then ∃ t, ∀ t', at_point l t' = Guard ↔ t' = t else ∀ t', at_point l t' ≠ Guard.

Lemma at_move t p l t' : at_point (move t p l) t' = if decide (t' = t) then p else at_point l t'.
Proof. done. Qed.

Lemma exclusive_move t p l : p ≠ Guard → at_point l t ≠ Guard → exclusive l → exclusive (move t p l).
Proof.
  intros Hp Ht. unfold exclusive. cbn [locked move]. destruct (locked l).
  - intros [o Ho]. exists o. intros t'. rewrite at_move. destruct (decide (t' = t)) as [->|]; [|done].
    split; [done|]. intros ->. destruct Ht. by apply Ho.
  - intros H t'. rewrite at_move. by destruct (decide (t' = t)).
Qed.

Lemma exclusive_exchange t l : at_point l t ≠ Guard → exclusive l →
  let '(ok, l') := compare_exchange l in exclusive (if ok then move t Guard l' else l') ∧ locked l = negb ok.
Proof.
  intros Ht. unfold exclusive, compare_exchange. destruct (locked l) eqn:Hl.
  - intros H. rewrite Hl. done.
  - intros H. split; [|done]. cbn [locked move set_locked]. exists t. intros t'. rewrite at_move. destruct (decide (t' = t)) as [->|Hne]; [done|].
    split; [|done]. intros Hg. by apply H in Hg.
Qed.

Lemma act_exclusive t a l : allowed a (at_point l t) = true → exclusive l → exclusive (act t a l).
Proof.
  intros Ha He. destruct a; cbn [act].
  - destruct (at_point l t) eqn:Hp; try done. apply exclusive_move; [done|by rewrite Hp|done].
  - unfold lock_step. destruct (at_point l t) eqn:Hp; try done.
    + pose proof (exclusive_exchange t l ltac:(by rewrite Hp) He) as H. unfold compare_exchange in *. destruct (locked l); [|apply H].
      apply exclusive_move; [done|by rewrite Hp|done].
    + destruct (locked l); [done|]. apply exclusive_move; [done|by rewrite Hp|done].
  - destruct (at_point l t) eqn:Hp; try done. pose proof (exclusive_exchange t l ltac:(by rewrite Hp) He) as H.
    unfold try_lock. destruct (compare_exchange l) as [[] l']; apply H.
  - exact He.
  - destruct (at_point l t) eqn:Hp; try done. unfold exclusive in *. destruct (locked l) eqn:Hl; [|by apply He in Hp].
    destruct He as [o Ho]. cbn [drop locked move set_locked]. intros t'. unfold drop. rewrite at_move.
    destruct (decide (t' = t)) as [->|Hne]; [done|]. cbn [at_point set_locked]. intros Hg. apply Ho in Hg as ->. apply Hne. symmetry. by apply Ho.
Qed.

Lemma run_exclusive h l l' : exclusive l → run h l = Some l' → exclusive l'.
Proof.
  revert l. induction h as [|[t a] h IH]; intros l He; [by intros [= <-]|]. cbn [run].
  destruct (allowed a (at_point l t)) eqn:Ha; [|done]. apply IH. by apply act_exclusive.
Qed.

Lemma new_exclusive v : exclusive (new v).
Proof. by intros t. Qed.

(** ** Serial sections *)

(** The guarded sections of a run: the context, and what it does to the value. *)
Fixpoint sections (h : list (nat * action)) (l : SpinLock) : list (nat * (T → T)) :=
  match h with
  | [] => []
  | (t, a) :: h => (match a with Access f => [(t, f)] | _ => [] end) ++ sections h (act t a l)
  end.

Lemma run_value h l l' : run h l = Some l' → value l' = foldl (λ v s, s.2 v) (value l) (sections h l).
Proof.
  revert l. induction h as [|[t a] h IH]; intros l; [by intros [= <-]|]. cbn [run sections].
  destruct (allowed a (at_point l t)); [|done]. intros Hr. rewrite (IH _ Hr), foldl_app. f_equal.
  destruct a; cbn [act foldl]; try done.
  - unfold lock_step, compare_exchange. destruct (at_point l t), (locked l); done.
  - unfold try_lock, compare_exchange. by destruct (locked l).
Qed.

(** As long as a context keeps its guard, nobody else gets one or changes the value. *)
Definition no_drop (t : nat) (h : list (nat * action)) : Prop := Forall (λ e, e.1 = t → e.2 ≠ Drop) h.

Lemma act_guarded t t' a l : exclusive l → at_point l t = Guard → allowed a (at_point l t') = true → (t' = t → a ≠ Drop) →
  at_point (act t' a l) t = Guard ∧ (t' ≠ t → value (act t' a l) = value l ∧ at_point (act t' a l) t' ≠ Guard).
Proof.
  intros He Hg Ha Hd. unfold exclusive in He. destruct (locked l) eqn:Hl; [|by apply He in Hg]. destruct He as [o Ho].
  assert (∀ u, at_point l u = Guard ↔ u = t) as Hu by (assert (t = o) as -> by (by apply Ho); done).
  destruct (decide (t' = t)) as [->|Hne].
  - split; [|done]. rewrite Hg in Ha. destruct a; try done. by destruct (Hd eq_refl).
  - assert (at_point l t' ≠ Guard) as Hn by (by intros ?%Hu).
    assert (∀ p, at_point (move t' p l) t = Guard) as Hm by (intros p; rewrite at_move, decide_False; done).
    assert (∀ p, p ≠ Guard → at_point (move t' p l) t' ≠ Guard) as Hm' by (intros p Hp; by rewrite at_move, decide_True).
    destruct a; cbn [act allowed] in *.
    + split; [apply Hm|]. intros _. split; [done|]. by apply Hm'.
    + unfold lock_step, compare_exchange. rewrite Hl. destruct (at_point l t') eqn:Hp; try done.
      * split; [apply Hm|]. intros _. split; [done|]. by apply Hm'.
      * split; [done|]. intros _. split; [done|]. by rewrite Hp.
    + unfold try_lock, compare_exchange. rewrite Hl. done.
    + by destruct (at_point l t').
    + by destruct (at_point l t').
Qed.

(** C9. Mutual exclusion.  However the operations of any number of contexts on a new
    lock are interleaved, the lock is marked exactly while a guard exists and there is
    never more than one guard; the value is the result of the guarded updates one after
    the other; and while a context keeps its guard all of these updates are its own. *)
Theorem spinlock_exclusive v h l : run h (new v) = Some l →
  exclusive l ∧ value l = foldl (λ v s, s.2 v) v (sections h (new v)) ∧
  ∀ t h' l', at_point l t = Guard → run h' l = Some l' → no_drop t h' →
    at_point l' t = Guard ∧ Forall (λ s, s.1 = t) (sections h' l).
Proof.
  intros Hrun. pose proof (run_exclusive _ _ _ (new_exclusive v) Hrun) as He. split; [done|]. split; [exact (run_value _ _ _ Hrun)|].
  intros t h' l' Hg. clear Hrun h. revert l He Hg. induction h' as [|[t' a] h' IH]; intros l He Hg; [by intros [= <-] _|].
  cbn [run sections]. destruct (allowed a (at_point l t')) eqn:Ha; [|done]. intros Hrun [Hd Hnd]%Forall_cons.
  destruct (act_guarded t t' a l He Hg Ha Hd) as [Hg' Hother]. destruct (IH (act t' a l)) as [Hl' Hs]; [by apply act_exclusive|done..|].
  split; [done|]. apply Forall_app. split; [|done]. destruct a; try apply Forall_nil_2. apply Forall_singleton.
  destruct (at_point l t') eqn:Hp; try done. unfold exclusive in He. destruct (locked l); [|by apply He in Hp].
  destruct He as [o Ho]. apply Ho in Hp as ->. symmetry. by apply Ho.
Qed.

(** ** Waiting *)

(** While somebody else keeps the guard, a context in [lock] makes no progress, however
    many operations it is given: an interrupt handler that suspends the owner of a
    lock it takes never returns. *)
Lemma lock_spins t n l : locked l = true → at_point l t = AtExchange ∨ at_point l t = AtLoad →
  ∃ l', run (replicate n (t, Step)) l = Some l' ∧ locked l' = true ∧ at_point l' t ≠ Guard ∧ value l' = value l.
Proof.
  revert l. induction n as [|n IH]; intros l Hl Hp; [exists l; split_and!; try done; by destruct Hp as [-> | ->]|].
  cbn [replicate run]. assert (allowed Step (at_point l t) = true) as -> by (by destruct Hp as [-> | ->]). cbn [act].
  destruct (IH (lock_step t l)) as (l' & Hr & Hl' & Hg & Hv).
  - unfold lock_step, compare_exchange. rewrite Hl. by destruct (at_point l t).
  - right. unfold lock_step, compare_exchange. rewrite Hl. destruct Hp as [Hp|Hp]; rewrite Hp; [|done]. by rewrite at_move, decide_True.
  - exists l'. split_and!; try done. rewrite Hv. unfold lock_step, compare_exchange. rewrite Hl. by destruct (at_point l t).
Qed.

Lemma step_exchange t l : at_point l t = AtExchange → locked l = false → lock_step t l = move t Guard (set_locked true l).
Proof. intros Hp Hl. unfold lock_step, compare_exchange. by rewrite Hp, Hl. Qed.
Lemma step_load t l : at_point l t = AtLoad → locked l = false → lock_step t l = move t AtExchange l.
Proof. intros Hp Hl. unfold lock_step. by rewrite Hp, Hl. Qed.

(** The lock is handed on.  When the lock is free, a context in [lock] has the guard
    after at most two of its own operations; and while another context keeps the guard it
    makes no progress, however often it runs.  So a waiting thread gets the lock once the
    owner has dropped it and it runs before the others, and an interrupt handler that
    suspends the owner of a lock it takes never returns. *)
Theorem spinlock_progress t l : at_point l t = AtExchange ∨ at_point l t = AtLoad →
  if locked l then
    ∀ n, ∃ l', run (replicate n (t, Step)) l = Some l' ∧ locked l' = true ∧ at_point l' t ≠ Guard ∧ value l' = value l
  else ∃ n l', (n ≤ 2)%nat ∧ run (replicate n (t, Step)) l = Some l' ∧ at_point l' t = Guard ∧ locked l' = true ∧ value l' = value l.
Proof.
  intros Hp. destruct (locked l) eqn:Hl; [intros n; by apply lock_spins|]. destruct Hp as [Hp|Hp].
  - exists 1%nat, (move t Guard (set_locked true l)). cbn [replicate run]. rewrite Hp. cbn [allowed act]. rewrite step_exchange by done.
    split_and!; try done; [lia|by rewrite at_move, decide_True].
  - assert (at_point (move t AtExchange l) t = AtExchange) as Hp' by (by rewrite at_move, decide_True).
    exists 2%nat, (move t Guard (set_locked true (move t AtExchange l))). cbn [replicate run]. rewrite Hp. cbn [allowed act].
    rewrite step_load, Hp' by done. cbn [allowed]. rewrite step_exchange by done. split_and!; try done. by rewrite at_move, decide_True.
Qed.

End lock.
Arguments SpinLock : clear implicits.

(** Two threads take the lock one after the other. *)
Lemma spinlock_exclusive_witness : ∃ l, run [(0%nat, Enter); (0%nat, Step); (1%nat, Enter); (1%nat, Step); (0%nat, Access (Z.add 1))] (new 0) = Some l ∧
  exclusive l ∧ value l = 1 ∧ at_point l 1%nat = AtLoad.
Proof.
  destruct (run [(0%nat, Enter); (0%nat, Step); (1%nat, Enter); (1%nat, Step); (0%nat, Access (Z.add 1))] (new 0)) as [l|] eqn:Hr; [|discriminate Hr].
  exists l. split; [reflexivity|]. destruct (spinlock_exclusive 0 _ l Hr) as (He & Hv & _). split; [exact He|]. split; [exact Hv|].
  injection Hr as <-. reflexivity.
Defined.

Lemma spinlock_progress_witness : ∃ n l', (n ≤ 2)%nat ∧ run (replicate n (0%nat, Step)) (move 0 AtLoad (new 0)) = Some l' ∧ at_point l' 0%nat = Guard.
Proof.
  destruct (spinlock_progress 0 (move 0 AtLoad (new 0)) (or_intror eq_refl)) as (n & l' & Hn & Hr & Hg & _). by exists n, l'.
Defined.

End Spinlock.
