(* ===== verification/Ports.v ===== *)
(** * Port input and output: src/src/arch/x86_64/io/mod.rs

    The devices behind the ports are the environment: a read gives a value and may
    change their state, a write changes it.  Drivers are written against the
    class, and theorems about them assume what the documentation of the device
    says of its ports. *)

From S2P Require Import Prelude Mem.
Local Open Scope Z_scope.

Class PortIO (P : Type) := {
  in8 : Z → P → Z * P;
  out8 : Z → Z → P → P;
  in16 : Z → P → Z * P;
  out16 : Z → Z → P → P
}.

Module Ports.

Section ports.
Context {P : Type} `{!PortIO P}.

Definition inb {E} (port : Z) : M P E Z := λ p, Ok (in8 port p).
Definition outb {E} (port value : Z) : M P E unit := λ p, Ok (tt, out8 port value p).
Definition inw {E} (port : Z) : M P E Z := λ p, Ok (in16 port p).
Definition outw {E} (port value : Z) : M P E unit := λ p, Ok (tt, out16 port value p).

(** [rep insw]: the bytes that are stored to the buffer. *)
Fixpoint insw {E} (port : Z) (count : nat) : M P E (list Z) :=
  match count with
  | O => mret []
  | S count => w ← inw port; rest ← insw port count; mret (le_bytes 2 w ++ rest)
  end.

(** [rep outsw]: the words are taken from the bytes of the buffer. *)
Fixpoint outsw {E} (port : Z) (count : nat) (buffer : list Z) : M P E unit :=
  match count with
  | O => mret tt
  | S count => _ ← outw port (le_val (take 2 buffer)); outsw port count (drop 2 buffer)
  end.

End ports.

(** Ports that record what is written and read from a script. *)
Record trace := mkTrace { t_in : list Z; t_out : list (Z * Z) }.

Definition trace_in (t : trace) : Z * trace := match t_in t with [] => (0, t) | v :: l => (v, mkTrace l (t_out t)) end.
Definition trace_out (port value : Z) (t : trace) : trace := mkTrace (t_in t) (t_out t ++ [(port, value)]).

#[global] Instance trace_ports : PortIO trace :=
  { in8 := λ _, trace_in; out8 := trace_out; in16 := λ _, trace_in; out16 := trace_out }.

End Ports.
