(* ===== verification/Serial.v ===== *)
(** * The serial port and the kernel log: src/src/arch/x86_64/drivers/serial.rs and
    src/src/kernel/klog/mod.rs

    A log message reaches this code as the bytes that formatting gives. *)

From S2P Require Import Prelude Ports.
Local Open Scope Z_scope.

Module Serial.
Import Ports.

Definition COM1_PORT : Z := 0x3F8.
Definition DATA : Z := COM1_PORT.
Definition INTERRUPT_ENABLE : Z := COM1_PORT + 1.
Definition FIFO_CONTROL : Z := COM1_PORT + 2.
Definition LINE_CONTROL : Z := COM1_PORT + 3.
Definition MODEM_CONTROL : Z := COM1_PORT + 4.
Definition LINE_STATUS : Z := COM1_PORT + 5.
Definition SERIAL_SPIN_LIMIT : Z := 100000.

Section serial.
Context {P : Type} `{!PortIO P}.

(** [SERIAL_ENABLED] and the ports. *)
Record serial := mkSerial { serial_enabled : bool; s_ports : P }.

Definition set_enabled (b : bool) (s : serial) : serial := mkSerial b (s_ports s).
Definition port {E A} (m : M P E A) : M serial E A := zoom s_ports (λ p s, mkSerial (serial_enabled s) p) m.

Definition serial_init {E} : M serial E unit :=
  _ ← port (outb INTERRUPT_ENABLE 0x00);
  _ ← port (outb LINE_CONTROL 0x80);
  _ ← port (outb DATA 0x03);
  _ ← port (outb INTERRUPT_ENABLE 0x00);
  _ ← port (outb LINE_CONTROL 0x03);
  _ ← port (outb FIFO_CONTROL 0xC7);
  port (outb MODEM_CONTROL 0x0B).

Definition is_transmit_empty {E} : M serial E bool :=
  status ← port (inb LINE_STATUS); mret (negb (Z.land status 0x20 =? 0)).

(** The loop of [transmit] with [spins_left] polls before the port is given up. *)
Fixpoint transmit_loop {E} (spins_left : nat) (byte : Z) : M serial E unit :=
  match spins_left with
  | O => modify (set_enabled false)
  | S spins_left =>
      empty ← is_transmit_empty;
      if empty : bool then port (outb DATA byte) else transmit_loop spins_left byte
  end.

Definition transmit {E} (byte : Z) : M serial E unit :=
  s ← Prelude.get;
  if serial_enabled s then transmit_loop (Z.to_nat SERIAL_SPIN_LIMIT) byte else mret tt.

Definition write_byte {E} (byte : Z) : M serial E unit :=
  s ← Prelude.get;
  if serial_enabled s then
    _ ← (if byte =? 0x0A then transmit 0x0D else mret tt);
    transmit byte
  else mret tt.

(** *** The log *)

Fixpoint write_bytes {E} (bytes : list Z) : M serial E unit :=
  match bytes with
  | [] => mret tt
  | byte :: bytes => _ ← write_byte byte; write_bytes bytes
  end.

Definition write_str {E} (s : list Z) : M serial E unit := write_bytes s.
Definition writeln {E} (s : list Z) : M serial E unit := _ ← write_str s; write_bytes [0x0A].

(** ** What is sent *)

(** A transmitter: the bytes on the line, and the number of times its status will
    still read busy. *)
Class Uart := {
  wire : P → list Z;
  busy : P → nat;
  uart_status p : wire (in8 LINE_STATUS p).2 = wire p ∧ busy (in8 LINE_STATUS p).2 = pred (busy p) ∧
    Z.testbit (in8 LINE_STATUS p).1 5 = bool_decide (busy p = 0%nat);
  uart_data p b : busy p = 0%nat → wire (out8 DATA b p) = wire p ++ [b];
  uart_works p : Z.of_nat (busy p) < SERIAL_SPIN_LIMIT
}.

Lemma is_transmit_empty_ok {E} s : @is_transmit_empty E s =
  Ok (Z.testbit (in8 LINE_STATUS (s_ports s)).1 5, mkSerial (serial_enabled s) (in8 LINE_STATUS (s_ports s)).2).
Proof. unfold is_transmit_empty, mbind, M_bind, port, zoom, inb. destruct (in8 _ _) as [v p]. cbn [fst snd]. by rewrite <- (flag_testbit v 5). Qed.

Definition poll (p : P) : P := (in8 LINE_STATUS p).2.

Section uart.
Context `{!Uart}.

Lemma transmit_loop_ok {E} n b p : (busy p < n)%nat →
  ∃ p', @transmit_loop E n b (mkSerial true p) = Ok (tt, mkSerial true p') ∧ wire p' = wire p ++ [b].
Proof.
  revert p. induction n as [|n IH]; intros p Hn; [lia|]. cbn [transmit_loop]. rewrite (M_bind_ok _ _ _ _ _ (is_transmit_empty_ok _)).
  cbn [s_ports serial_enabled]. destruct (uart_status p) as (Hw & Hb & ->). case_bool_decide as H0.
  - eexists. split; [reflexivity|]. cbn [s_ports]. rewrite uart_data by (rewrite Hb, H0; done). by rewrite Hw.
  - destruct (IH (in8 LINE_STATUS p).2) as (p' & Hr & Hp'); [rewrite Hb; lia|]. exists p'. split; [exact Hr|]. by rewrite Hp', Hw.
Qed.

Lemma transmit_ok {E} b p : ∃ p', @transmit E b (mkSerial true p) = Ok (tt, mkSerial true p') ∧ wire p' = wire p ++ [b].
Proof.
  unfold transmit. rewrite (M_bind_ok Prelude.get _ _ _ _ eq_refl). cbn [serial_enabled]. apply transmit_loop_ok.
  pose proof (uart_works p). lia.
Qed.

(** The bytes of a message on the line: a carriage return before each line feed. *)
Definition on_line (bytes : list Z) : list Z := mjoin ((λ b, if b =? 0x0A then [0x0D; 0x0A] else [b]) <$> bytes).

Lemma write_byte_ok {E} b p : ∃ p', @write_byte E b (mkSerial true p) = Ok (tt, mkSerial true p') ∧ wire p' = wire p ++ on_line [b].
Proof.
  unfold write_byte, on_line. rewrite (M_bind_ok Prelude.get _ _ _ _ eq_refl). cbn [serial_enabled fmap list_fmap mjoin list_join].
  destruct (Z.eqb_spec b 0x0A) as [->|Hb].
  - destruct (transmit_ok (E:=E) 0x0D p) as (p1 & H1 & W1). destruct (transmit_ok (E:=E) 0x0A p1) as (p2 & H2 & W2).
    exists p2. rewrite (M_bind_ok _ _ _ _ _ H1). split; [exact H2|]. by rewrite W2, W1, <- app_assoc.
  - destruct (transmit_ok (E:=E) b p) as (p1 & H1 & W1). exists p1. split; [exact H1|]. by rewrite W1.
Qed.

(** Log output.  On a working port, one whose transmitter is free again before the
    spin limit, a message of any length appears on the line completely and in order,
    with a carriage return before each line feed, and logging stays on. *)
Theorem klog_output bytes p : ∃ p', @write_bytes Empty_set bytes (mkSerial true p) = Ok (tt, mkSerial true p') ∧ wire p' = wire p ++ on_line bytes.
Proof.
  revert p. induction bytes as [|b bytes IH]; intros p; [exists p; split; [done|by rewrite app_nil_r]|]. cbn [write_bytes].
  destruct (write_byte_ok (E:=Empty_set) b p) as (p1 & H1 & W1). destruct (IH p1) as (p2 & H2 & W2). exists p2.
  rewrite (M_bind_ok _ _ _ _ _ H1). split; [exact H2|]. rewrite W2, W1, <- app_assoc. unfold on_line.
  cbn [fmap list_fmap mjoin list_join]. by rewrite app_nil_r.
Qed.
End uart.

(** ** A port that does not answer *)

Lemma transmit_loop_stuck {E} n b p : (∀ i, (i < n)%nat → Z.testbit (in8 LINE_STATUS (Nat.iter i poll p)).1 5 = false) →
  @transmit_loop E n b (mkSerial true p) = Ok (tt, mkSerial false (Nat.iter n poll p)).
Proof.
  revert p. induction n as [|n IH]; intros p Hs; [done|]. cbn [transmit_loop]. rewrite (M_bind_ok _ _ _ _ _ (is_transmit_empty_ok _)).
  cbn [s_ports serial_enabled]. pose proof (Hs 0%nat ltac:(lia)) as H0. change (Nat.iter 0 poll p) with p in H0. rewrite H0. fold (poll p). rewrite IH.
  - by rewrite Nat.iter_succ_r.
  - intros i Hi. rewrite <- Nat.iter_succ_r. apply Hs. lia.
Qed.

Lemma write_bytes_off {E} bytes p : @write_bytes E bytes (mkSerial false p) = Ok (tt, mkSerial false p).
Proof. induction bytes as [|b bytes IH]; [done|]. cbn [write_bytes]. rewrite (M_bind_ok _ _ _ tt (mkSerial false p)); done. Qed.

(** A port that never becomes free cannot hang the kernel.  The first byte of a
    message polls its status exactly as often as the limit says, then logging is turned
    off: the rest of the message and every later one return at once, without touching
    the port, and nothing was sent. *)
Theorem klog_gives_up b bytes later p :
  (∀ i, Z.of_nat i < SERIAL_SPIN_LIMIT → Z.testbit (in8 LINE_STATUS (Nat.iter i poll p)).1 5 = false) →
  let stuck := mkSerial false (Nat.iter (Z.to_nat SERIAL_SPIN_LIMIT) poll p) in
  @write_bytes Empty_set (b :: bytes) (mkSerial true p) = Ok (tt, stuck) ∧ @write_bytes Empty_set later stuck = Ok (tt, stuck).
Proof.
  intros Hs stuck. split; [|apply write_bytes_off].
  assert (∀ c, @transmit Empty_set c (mkSerial true p) = Ok (tt, stuck)) as Ht.
  { intros c. unfold transmit. rewrite (M_bind_ok Prelude.get _ _ _ _ eq_refl). cbn [serial_enabled]. apply transmit_loop_stuck.
    intros i Hi. apply Hs. lia. }
  cbn [write_bytes]. rewrite (M_bind_ok _ _ _ tt stuck); [apply write_bytes_off|].
  unfold write_byte. rewrite (M_bind_ok Prelude.get _ _ _ _ eq_refl). cbn [serial_enabled].
  destruct (b =? 0x0A); [|apply Ht]. by rewrite (M_bind_ok _ _ _ _ _ (Ht 0x0D)).
Qed.

(** *** The line settings *)

(** The registers of the controller: bit 7 of the line control register turns the
    data and interrupt registers into the two bytes of the baud divisor. *)
Record settings := mkSettings { line_control : Z; interrupts : Z; divisor_low : Z; divisor_high : Z; sent : list Z }.

Class UartRegisters := {
  settings_of : P → settings;
  set_line_control p v : settings_of (out8 LINE_CONTROL v p) =
    mkSettings v (interrupts (settings_of p)) (divisor_low (settings_of p)) (divisor_high (settings_of p)) (sent (settings_of p));
  set_data p v : settings_of (out8 DATA v p) =
    let s := settings_of p in
    if Z.testbit (line_control s) 7 then mkSettings (line_control s) (interrupts s) v (divisor_high s) (sent s)
    else mkSettings (line_control s) (interrupts s) (divisor_low s) (divisor_high s) (sent s ++ [v]);
  set_interrupts p v : settings_of (out8 INTERRUPT_ENABLE v p) =
    let s := settings_of p in
    if Z.testbit (line_control s) 7 then mkSettings (line_control s) (interrupts s) (divisor_low s) v (sent s)
    else mkSettings (line_control s) v (divisor_low s) (divisor_high s) (sent s);
  set_fifo p v : settings_of (out8 FIFO_CONTROL v p) = settings_of p;
  set_modem p v : settings_of (out8 MODEM_CONTROL v p) = settings_of p
}.

(** [serial::init] sets the line to 115200 / 3 baud, eight bits, no parity and one stop
    bit, with the interrupts of the controller off, and sends nothing; this needs the
    divisor access to be off at the start, as it is after a reset. *)
Theorem serial_init_settings `{!UartRegisters} (s : serial) : Z.testbit (line_control (settings_of (s_ports s))) 7 = false →
  ∃ p, @serial_init Empty_set s = Ok (tt, mkSerial (serial_enabled s) p) ∧
    settings_of p = mkSettings 0x03 0 3 0 (sent (settings_of (s_ports s))).
Proof.
  intros Hreset.
  exists (out8 MODEM_CONTROL 0x0B (out8 FIFO_CONTROL 0xC7 (out8 LINE_CONTROL 0x03 (out8 INTERRUPT_ENABLE 0x00 (out8 DATA 0x03
    (out8 LINE_CONTROL 0x80 (out8 INTERRUPT_ENABLE 0x00 (s_ports s)))))))). split; [reflexivity|].
  rewrite set_modem, set_fifo, set_line_control, set_interrupts, set_data, set_line_control, set_interrupts. cbn [line_control].
  rewrite Hreset. reflexivity.
Qed.

End serial.

(** ** Concrete instances *)

(** A transmitter that is busy for two polls after each byte. *)
Record uart := mkUart { u_wire : list Z; u_busy : nat }.

#[global] Instance uart_ports : PortIO uart :=
  { in8 := λ port u, if port =? LINE_STATUS then ((if bool_decide (u_busy u = 0%nat) then 0x60 else 0), mkUart (u_wire u) (pred (Nat.min (u_busy u) 2))) else (0, u);
    out8 := λ port v u, if (port =? DATA) && bool_decide (u_busy u = 0%nat) then mkUart (u_wire u ++ [v]) 2 else u;
    in16 := λ _ u, (0, u); out16 := λ _ _ u, u }.

#[local] Obligation Tactic := idtac.
#[global] Program Instance uart_laws : Uart (P := uart) := {| wire := u_wire; busy := λ u, Nat.min (u_busy u) 2 |}.
Next Obligation.
  intros u. split; [reflexivity|]. split; [change (Nat.min (pred (Nat.min (u_busy u) 2)) 2 = pred (Nat.min (u_busy u) 2)); lia|].
  change (Z.testbit (if bool_decide (u_busy u = 0%nat) then 0x60 else 0) 5 = bool_decide (Nat.min (u_busy u) 2 = 0%nat)).
  repeat case_bool_decide; done || lia.
Qed.
Next Obligation.
  intros u b Hb. change (u_wire (if bool_decide (u_busy u = 0%nat) then mkUart (u_wire u ++ [b]) 2 else u) = u_wire u ++ [b]).
  rewrite bool_decide_true; [done|]. change (Nat.min (u_busy u) 2 = 0%nat) in Hb. lia.
Qed.
Next Obligation. intros u. unfold SERIAL_SPIN_LIMIT. lia. Qed.

Lemma klog_output_witness : ∃ u, @write_bytes uart uart_ports Empty_set [104; 105; 0x0A] (mkSerial true (mkUart [] 1)) = Ok (tt, mkSerial true u) ∧
  u_wire u = [104; 105; 0x0D; 0x0A].
Proof.
  destruct (@klog_output uart uart_ports uart_laws [104; 105; 0x0A] (mkUart [] 1)) as (u & Hr & Hw). exists u. split; [exact Hr|exact Hw].
Defined.

#[local] Instance settings_ports : PortIO settings :=
  { in8 := λ _ s, (0, s); in16 := λ _ s, (0, s); out16 := λ _ _ s, s;
    out8 := λ port v s,
      if port =? LINE_CONTROL then mkSettings v (interrupts s) (divisor_low s) (divisor_high s) (sent s)
      else if port =? DATA then
        if Z.testbit (line_control s) 7 then mkSettings (line_control s) (interrupts s) v (divisor_high s) (sent s)
        else mkSettings (line_control s) (interrupts s) (divisor_low s) (divisor_high s) (sent s ++ [v])
      else if port =? INTERRUPT_ENABLE then
        if Z.testbit (line_control s) 7 then mkSettings (line_control s) (interrupts s) (divisor_low s) v (sent s)
        else mkSettings (line_control s) v (divisor_low s) (divisor_high s) (sent s)
      else s }.

#[local] Instance settings_laws : UartRegisters (P := settings).
Proof. by refine {| settings_of := λ s, s |}. Defined.

Lemma serial_init_settings_witness : ∃ p, @serial_init settings settings_ports Empty_set (mkSerial true (mkSettings 0 1 12 0 [])) = Ok (tt, mkSerial true p) ∧
  divisor_low p = 3.
Proof.
  destruct (@serial_init_settings settings settings_ports settings_laws (mkSerial true (mkSettings 0 1 12 0 [])) eq_refl) as (p & Hr & Hs).
  exists p. split; [exact Hr|]. exact (f_equal divisor_low Hs).
Defined.

(** Ports that always read zero. *)
#[local] Instance dead_ports : PortIO unit := { in8 := λ _ _, (0, tt); out8 := λ _ _ _, tt; in16 := λ _ _, (0, tt); out16 := λ _ _ _, tt }.

Lemma klog_gives_up_witness : ∃ p, @write_bytes unit dead_ports Empty_set [104; 105] (mkSerial true tt) = Ok (tt, mkSerial false p).
Proof.
  destruct (@klog_gives_up unit dead_ports 104 [105] [] tt) as [H _]; [intros i _; reflexivity|]. eexists. exact H.
Defined.

End Serial.
