(* ===== verification/Keyboard.v ===== *)
(** * The keyboard: src/src/arch/x86_64/drivers/keyboard.rs and
    src/src/kernel/drivers/keyboard.rs

    A ring buffer of bytes between the interrupt handler and the readers, the
    translation of scan codes, and the blocking read. *)

From Stdlib Require Import Ascii.
From S2P Require Import Prelude Mem Heap RawVec Types Drivers Vfs Process Sched SchedSpec SchedSteps Ports.
Local Open Scope Z_scope.

Module Keyboard.
Import Proc Sched Ports.

(** *** The state *)

Definition DATA_PORT : Z := 0x60.
Definition BUFFER_SIZE : Z := 256.

Record KeyboardState := mkKeyboard { buffer : list Z; head : Z; tail : Z; shift : bool; caps_lock : bool }.

Definition KeyboardState_new : KeyboardState := mkKeyboard (replicate (Z.to_nat BUFFER_SIZE) 0) 0 0 false false.

Definition set_shift (b : bool) (s : KeyboardState) : KeyboardState := mkKeyboard (buffer s) (head s) (tail s) b (caps_lock s).
Definition set_caps (b : bool) (s : KeyboardState) : KeyboardState := mkKeyboard (buffer s) (head s) (tail s) (shift s) b.
Definition set_head (i : Z) (s : KeyboardState) : KeyboardState := mkKeyboard (buffer s) i (tail s) (shift s) (caps_lock s).

Definition next_index {E} (i : Z) : comp E Z := j ← add64 i 1; mret (j mod BUFFER_SIZE).

(** [buffer[i]] and [buffer[i] = byte]: out of range they panic. *)
Definition get_byte {E} (s : KeyboardState) (i : Z) : comp E Z :=
  match buffer s !! Z.to_nat i with Some b => Ok b | None => Panic end.
Definition set_byte {E} (s : KeyboardState) (i b : Z) : comp E KeyboardState :=
  if i <? BUFFER_SIZE then Ok (mkKeyboard (<[Z.to_nat i := b]> (buffer s)) (head s) (tail s) (shift s) (caps_lock s)) else Panic.

Definition is_empty (s : KeyboardState) : bool := head s =? tail s.
Definition is_full {E} (s : KeyboardState) : comp E bool := j ← next_index (tail s); mret (j =? head s).

Definition push {E} (byte : Z) (s : KeyboardState) : comp E KeyboardState :=
  full ← is_full s;
  s ← (if full : bool then _ ← get_byte s (head s); h ← next_index (head s); mret (set_head h s) else mret s);
  s ← set_byte s (tail s) byte;
  t ← next_index (tail s);
  mret (mkKeyboard (buffer s) (head s) t (shift s) (caps_lock s)).

Definition pop {E} (s : KeyboardState) : comp E (option Z * KeyboardState) :=
  if is_empty s then mret (None, s)
  else byte ← get_byte s (head s); h ← next_index (head s); mret (Some byte, set_head h s).

(** *** Translation *)

Definition ch (c : ascii) : Z := Z.of_nat (nat_of_ascii c).

Fixpoint assoc {A} (k : Z) (l : list (Z * A)) : option A :=
  match l with [] => None | (k', v) :: l => if k' =? k then Some v else assoc k l end.

Definition letters : list (Z * ascii) :=
  [ (0x10, "q"); (0x11, "w"); (0x12, "e"); (0x13, "r"); (0x14, "t"); (0x15, "y"); (0x16, "u"); (0x17, "i"); (0x18, "o"); (0x19, "p");
    (0x1E, "a"); (0x1F, "s"); (0x20, "d"); (0x21, "f"); (0x22, "g"); (0x23, "h"); (0x24, "j"); (0x25, "k"); (0x26, "l");
    (0x2C, "z"); (0x2D, "x"); (0x2E, "c"); (0x2F, "v"); (0x30, "b"); (0x31, "n"); (0x32, "m") ]%char.

(** [u8::to_ascii_uppercase] *)
Definition to_ascii_uppercase (c : Z) : Z := if (97 <=? c) && (c <=? 122) then c - 32 else c.

Definition map_letter (scancode : Z) (shift caps : bool) : option Z :=
  match assoc scancode letters with
  | Some letter => Some (if xorb shift caps then to_ascii_uppercase (ch letter) else ch letter)
  | None => None
  end.

(** The symbols with and without shift; the double quote is written by its code. *)
Definition symbols : list (Z * (Z * Z)) :=
  let p a b := (ch a, ch b) in
  [ (0x02, p "!" "1"); (0x03, p "@" "2"); (0x04, p "#" "3"); (0x05, p "$" "4"); (0x06, p "%" "5"); (0x07, p "^" "6"); (0x08, p "&" "7");
    (0x09, p "*" "8"); (0x0A, p "(" "9"); (0x0B, p ")" "0"); (0x0C, p "_" "-"); (0x0D, p "+" "="); (0x1A, p "{" "["); (0x1B, p "}" "]");
    (0x27, p ":" ";"); (0x28, (34, ch "'")); (0x29, p "~" "`"); (0x2B, p "|" "\"); (0x33, p "<" ","); (0x34, p ">" "."); (0x35, p "?" "/") ]%char.

Definition map_symbol (scancode : Z) (shift : bool) : option Z :=
  let byte := match assoc scancode symbols with Some (shifted, plain) => if shift then shifted else plain | None => 0 end in
  if byte =? 0 then None else Some byte.

Definition in_range (lo hi x : Z) : bool := (lo <=? x) && (x <=? hi).

Definition translate_scancode (scancode : Z) (s : KeyboardState) : option Z * KeyboardState :=
  if (scancode =? 0x2A) || (scancode =? 0x36) then (None, set_shift true s)
  else if scancode =? 0x3A then (None, set_caps (negb (caps_lock s)) s)
  else if scancode =? 0x1C then (Some 10, s)
  else if scancode =? 0x0E then (Some 8, s)
  else if scancode =? 0x0F then (Some 9, s)
  else if scancode =? 0x39 then (Some 32, s)
  else if in_range 0x10 0x19 scancode || in_range 0x1E 0x26 scancode || in_range 0x2C 0x32 scancode then
    (map_letter scancode (shift s) (caps_lock s), s)
  else (map_symbol scancode (shift s), s).

Definition handle_key_release (scancode : Z) (s : KeyboardState) : KeyboardState :=
  if (scancode =? 0x2A) || (scancode =? 0x36) then set_shift false s else s.

(** What the handler does to the state under its lock: whether it pushed a byte. *)
Definition handle_scancode {E} (scancode : Z) (s : KeyboardState) : comp E (bool * KeyboardState) :=
  if negb (Z.land scancode 0x80 =? 0) then mret (false, handle_key_release (Z.land scancode 0x7F) s)
  else
    match translate_scancode scancode s with
    | (Some byte, s) => s ← push byte s; mret (true, s)
    | (None, s) => mret (false, s)
    end.

(** [arch::read]: at most one byte. *)
Definition read {E} (n : Z) (s : KeyboardState) : comp E (list Z * KeyboardState) :=
  if n =? 0 then mret ([], s)
  else '(byte, s) ← pop s; mret (match byte with Some b => [b] | None => [] end, s).

(** *** With the kernel *)

Section kernel.
Context {W P : Type} `{!PortIO P} (rp : Z).

(** The keyboard, the kernel and the ports. *)
Record ksys := mkKsys { ks_keyboard : KeyboardState; ks_kernel : kernel W; ks_ports : P }.

(** The interrupt handler.  It spins on the lock of the state and, when a byte was
    queued, on that of the process table: [state_locked] and [table_locked] say which of
    them the interrupted code holds, which cannot release them before the handler has
    returned. *)
Definition keyboard_handler {E} (state_locked table_locked : bool) : M ksys E unit :=
  scancode ← zoom ks_ports (λ p s, mkKsys (ks_keyboard s) (ks_kernel s) p) (inb DATA_PORT);
  if state_locked then lift Hang
  else
    s ← Prelude.get;
    '(pushed, kb) ← lift (handle_scancode scancode (ks_keyboard s));
    _ ← put (mkKsys kb (ks_kernel s) (ks_ports s));
    if pushed : bool then
      if table_locked then lift Hang
      else modify (λ s, mkKsys (ks_keyboard s) (wake_channel KeyboardInput (ks_kernel s)) (ks_ports s))
    else mret tt.

(** One round of [Keyboard::read]: it returns, or the caller is blocked; when the
    caller runs again the next round follows. *)
Inductive read_result := ReadDone (bytes : list Z) | ReadBlocked.

(** The two steps of a round, between which interrupts are on. *)
Definition read_step {E} (n : Z) : M ksys E (list Z) :=
  s ← Prelude.get;
  '(bytes, kb) ← lift (read n (ks_keyboard s));
  _ ← put (mkKsys kb (ks_kernel s) (ks_ports s));
  mret bytes.

Definition block_step : M ksys DriverError unit := λ s,
  match block_current rp KeyboardInput (ks_kernel s) with
  | Ok k => Ok (tt, mkKsys (ks_keyboard s) k (ks_ports s))
  | Err _ => Err (IoError, s)
  | Panic => Panic
  | Hang => Hang
  end.

Definition keyboard_read (n : Z) : M ksys DriverError read_result :=
  if n =? 0 then mret (ReadDone [])
  else
    bytes ← read_step n;
    if (0 <? Z.of_nat (length bytes)) then mret (ReadDone bytes)
    else _ ← block_step; mret ReadBlocked.

Definition keyboard_write {E} (_ : list Z) : M ksys E (Z + DriverError) := mret (inr Unsupported).

End kernel.
Arguments ksys : clear implicits.

End Keyboard.
