(* ===== verification/KeyboardSpec.v ===== *)
(** * What the keyboard does

    The ring buffer is a queue of at most 255 bytes that drops its oldest byte
    when it is full; the handler turns key presses into ASCII and wakes the
    readers; a reader gets the bytes in the order they were typed. *)

From Stdlib Require Import Ascii.
From stdpp Require Import strings.
From S2P Require Import Prelude Mem Heap RawVec Types Drivers Vfs Process Sched SchedSpec SchedSteps SchedLive SchedChild Ports Keyboard.
Local Open Scope Z_scope.

Module KeyboardSpec.
Import Proc Sched SchedSpec SchedSteps Ports Keyboard.

(** ** The buffer as a queue *)

Record kb_ok (s : KeyboardState) : Prop := {
  kb_length : length (buffer s) = 256%nat;
  kb_head : 0 ≤ head s < 256;
  kb_tail : 0 ≤ tail s < 256
}.

Definition count (s : KeyboardState) : Z := (tail s - head s) mod 256.
Definition slot (s : KeyboardState) (i : Z) : Z := nth (Z.to_nat ((head s + i) mod 256)) (buffer s) 0.
Definition queue (s : KeyboardState) : list Z := slot s <$> seqZ 0 (count s).

Lemma length_queue s : Z.of_nat (length (queue s)) = count s.
Proof. unfold queue. rewrite length_fmap, length_seqZ. pose proof (Z.mod_pos_bound (tail s - head s) 256). unfold count in *. lia. Qed.

Ltac mod_lia := Z.div_mod_to_equations; lia.

Lemma next_index_ok {E} i : 0 ≤ i < 256 → @next_index E i = Ok ((i + 1) mod 256).
Proof. intros Hi. unfold next_index. by rewrite add64_ok by lia. Qed.

Lemma get_byte_ok {E} s i : kb_ok s → 0 ≤ i < 256 → @get_byte E s i = Ok (nth (Z.to_nat i) (buffer s) 0).
Proof.
  intros [Hl _ _] Hi. unfold get_byte. destruct (lookup_lt_is_Some_2 (buffer s) (Z.to_nat i)) as [b Hb]; [lia|].
  rewrite Hb. by rewrite (nth_lookup_Some _ _ _ _ Hb).
Qed.

(** The buffer with a byte at the tail. *)
Definition append (b : Z) (s : KeyboardState) : KeyboardState :=
  mkKeyboard (<[Z.to_nat (tail s) := b]> (buffer s)) (head s) ((tail s + 1) mod 256) (shift s) (caps_lock s).
(** The buffer without its oldest byte. *)
Definition advance (s : KeyboardState) : KeyboardState := set_head ((head s + 1) mod 256) s.

Lemma append_ok b s : kb_ok s → kb_ok (append b s).
Proof. intros [Hl Hh Ht]. split; cbn; [by rewrite length_insert|done|apply Z.mod_pos_bound; lia]. Qed.

Lemma advance_ok s : kb_ok s → kb_ok (advance s).
Proof. intros [Hl Hh Ht]. split; cbn; [done|apply Z.mod_pos_bound; lia|done]. Qed.

Lemma push_eq {E} b s : kb_ok s → @push E b s = Ok (append b (if count s =? 255 then advance s else s)).
Proof.
  intros Hok. pose proof Hok as [Hl Hh Ht]. unfold push, is_full. rewrite (next_index_ok (tail s)) by done. cbn [mbind comp_bind mret comp_ret].
  assert (((tail s + 1) mod 256 =? head s) = (count s =? 255)) as ->.
  { unfold count. destruct (Z.eqb_spec ((tail s + 1) mod 256) (head s)), (Z.eqb_spec ((tail s - head s) mod 256) 255); try done; mod_lia. }
  destruct (count s =? 255).
  - rewrite get_byte_ok by done. cbn [mbind comp_bind]. rewrite (next_index_ok (head s)) by done. cbn [mbind comp_bind mret comp_ret].
    unfold set_byte. change (tail (set_head _ s)) with (tail s). destruct (Z.ltb_spec (tail s) BUFFER_SIZE); [|unfold BUFFER_SIZE in *; lia].
    cbn [mbind comp_bind tail]. by rewrite next_index_ok.
  - cbn [mbind comp_bind mret comp_ret]. unfold set_byte. destruct (Z.ltb_spec (tail s) BUFFER_SIZE); [|unfold BUFFER_SIZE in *; lia].
    cbn [mbind comp_bind tail]. by rewrite next_index_ok.
Qed.

Lemma pop_eq {E} s : kb_ok s → @pop E s = Ok (if count s =? 0 then (None, s) else (Some (slot s 0), advance s)).
Proof.
  intros Hok. pose proof Hok as [Hl Hh Ht]. unfold pop, is_empty.
  assert ((head s =? tail s) = (count s =? 0)) as ->.
  { unfold count. destruct (Z.eqb_spec (head s) (tail s)), (Z.eqb_spec ((tail s - head s) mod 256) 0); try done; mod_lia. }
  destruct (count s =? 0); [done|]. rewrite get_byte_ok by done. cbn [mbind comp_bind]. rewrite next_index_ok by done.
  unfold slot. by rewrite Z.add_0_r, (Z.mod_small (head s)) by lia.
Qed.

Lemma queue_append b s : kb_ok s → count s < 255 → queue (append b s) = queue s ++ [b].
Proof.
  intros [Hl Hh Ht] Hc. unfold queue. assert (count (append b s) = count s + 1) as ->.
  { unfold count in *. cbn [append head tail]. mod_lia. }
  assert (0 ≤ count s) as H0 by (apply Z.mod_pos_bound; lia).
  rewrite seqZ_app, fmap_app by lia. f_equal.
  - apply list_fmap_ext. intros j i Hj. apply lookup_seqZ in Hj as [-> Hj]. unfold slot. cbn [append head buffer].
    assert ((head s + (0 + Z.of_nat j)) mod 256 ≠ tail s) as Hne by (unfold count in *; mod_lia).
    pose proof (Z.mod_pos_bound (head s + (0 + Z.of_nat j)) 256).
    rewrite !nth_lookup, list_lookup_insert_ne; [done|]. intros Heq. apply Hne. lia.
  - rewrite Z.add_0_l. change 1 with (Z.succ 0). rewrite seqZ_cons by lia. cbn [fmap list_fmap]. f_equal. unfold slot. cbn [append head buffer].
    assert ((head s + count s) mod 256 = tail s) as -> by (unfold count in *; mod_lia).
    rewrite nth_lookup, list_lookup_insert_eq by lia. done.
Qed.

Lemma queue_advance s : kb_ok s → count s ≠ 0 → queue s = slot s 0 :: queue (advance s).
Proof.
  intros [Hl Hh Ht] Hc. unfold queue. assert (count (advance s) = count s - 1) as ->.
  { unfold count in *. cbn [advance set_head head tail]. mod_lia. }
  assert (0 ≤ count s) as H0 by (apply Z.mod_pos_bound; lia). rewrite seqZ_cons by lia. cbn [fmap list_fmap]. f_equal.
  change (Z.succ 0) with (1 + 0). rewrite <- fmap_add_seqZ. rewrite <- list_fmap_compose. replace (Z.pred (count s)) with (count s - 1) by lia.
  apply list_fmap_ext. intros j i _. unfold slot, compose. cbn [advance set_head head buffer]. do 2 f_equal. mod_lia.
Qed.

(** The queue a typist and the readers see: at most 255 bytes, the oldest dropped
    to make room. *)
Definition enqueue (b : Z) (q : list Z) : list Z := (if (length q =? 255)%nat then List.tl q else q) ++ [b].

Lemma push_queue {E} b s : kb_ok s → ∃ s', @push E b s = Ok s' ∧ kb_ok s' ∧ queue s' = enqueue b (queue s) ∧
  shift s' = shift s ∧ caps_lock s' = caps_lock s.
Proof.
  intros Hok. rewrite push_eq by done. eexists. split; [done|]. unfold enqueue. pose proof (length_queue s) as Hlen.
  pose proof (Z.mod_pos_bound (tail s - head s) 256 ltac:(lia)) as Hb. fold (count s) in Hb.
  destruct (Z.eqb_spec (count s) 255) as [Hc|Hc], (Nat.eqb_spec (length (queue s)) 255) as [Hq|Hq]; try lia.
  - split; [by apply append_ok, advance_ok|]. split; [|done]. rewrite queue_append by (by apply advance_ok) || (unfold count in *; cbn [advance set_head head tail]; mod_lia).
    f_equal. by rewrite (queue_advance s) by (done || lia).
  - split; [by apply append_ok|]. split; [|done]. apply queue_append; [done|lia].
Qed.

Lemma pop_queue {E} s : kb_ok s →
  match queue s with
  | [] => @pop E s = Ok (None, s)
  | b :: q => ∃ s', @pop E s = Ok (Some b, s') ∧ kb_ok s' ∧ queue s' = q ∧ shift s' = shift s ∧ caps_lock s' = caps_lock s
  end.
Proof.
  intros Hok. rewrite pop_eq by done. pose proof (length_queue s) as Hlen. destruct (Z.eqb_spec (count s) 0) as [Hc|Hc].
  - destruct (queue s); [done|cbn [length] in Hlen; lia].
  - rewrite (queue_advance s) by done. exists (advance s). split_and!; try done. by apply advance_ok.
Qed.

Lemma new_ok : kb_ok KeyboardState_new ∧ queue KeyboardState_new = [].
Proof. split; [by split|done]. Qed.

(** ** Typing and reading *)

Inductive event := Key (scancode : Z) | Take.

(** The driver on a sequence of key events and reads of a byte. *)
Fixpoint driver_run {E} (l : list event) (s : KeyboardState) : comp E (list (list Z)) :=
  match l with
  | [] => mret []
  | Key scancode :: l => '(_, s) ← handle_scancode scancode s; driver_run l s
  | Take :: l => '(bytes, s) ← read 1 s; rest ← driver_run l s; mret (bytes :: rest)
  end.

(** The US layout: rows of keys by the code of their first key, without and with
    shift. *)
Definition US_layout : list (Z * string * string) :=
  [ (0x02, "1234567890-=", "!@#$%^&*()_+"); (0x0E, String "008" (String "009" ""), String "008" (String "009" ""));
    (0x10, "qwertyuiop[]", "QWERTYUIOP{}"); (0x1C, String "010" "", String "010" "");
    (0x1E, "asdfghjkl;'`", "ASDFGHJKL:" +:+ String "034" "~"); (0x2B, "\zxcvbnm,./", "|ZXCVBNM<>?"); (0x39, " ", " ") ].

Definition row_key (scancode : Z) (row : Z * string * string) : option (Z * Z) :=
  let '(first, plain, shifted) := row in
  if first <=? scancode then
    a ← String.get (Z.to_nat (scancode - first)) plain; b ← String.get (Z.to_nat (scancode - first)) shifted; Some (ch a, ch b)
  else None.
Definition key_at (scancode : Z) : option (Z * Z) := List.hd_error (omap (row_key scancode) US_layout).

(** The byte a key event types, and the modifiers after it: bit 7 marks a release,
    caps lock is for the letters. *)
Definition pressed (scancode : Z) : bool := negb (Z.testbit scancode 7).
Definition typed (scancode : Z) (sh caps : bool) : option Z :=
  if pressed scancode then
    '(plain, shifted) ← key_at scancode;
    Some (if (if in_range 97 122 plain then xorb sh caps else sh) then shifted else plain)
  else None.
Definition modified (scancode : Z) (sh caps : bool) : bool * bool :=
  let key := if pressed scancode then scancode else Z.land scancode 0x7F in
  if (key =? 0x2A) || (key =? 0x36) then (pressed scancode, caps)
  else (sh, if pressed scancode && (key =? 0x3A) then negb caps else caps).

(** The specification: a queue and the modifiers. *)
Fixpoint spec_run (l : list event) (q : list Z) (sh caps : bool) : list (list Z) :=
  match l with
  | [] => []
  | Key scancode :: l =>
      let '(sh', caps') := modified scancode sh caps in
      spec_run l (match typed scancode sh caps with Some b => enqueue b q | None => q end) sh' caps'
  | Take :: l => take 1 q :: spec_run l (List.tl q) sh caps
  end.

(** The tables of the driver are this layout: 128 codes are enumerated, no other
    code is in either. *)
Definition modifiers (shift caps : bool) : KeyboardState := mkKeyboard [] 0 0 shift caps.

Lemma release_bit scancode : negb (Z.land scancode 0x80 =? 0) = negb (pressed scancode).
Proof. unfold pressed. rewrite negb_involutive. change 0x80 with (Z.shiftl 1 7). by apply flag_testbit. Qed.

Lemma assoc_none {A} k (l : list (Z * A)) : forallb (λ x, in_range 0 127 x.1) l = true → ¬ (0 ≤ k < 128) → assoc k l = None.
Proof.
  intros H Hk. induction l as [|[k' v] l IH]; [done|]. cbn in H |- *. unfold in_range in H. bool_to_prop.
  destruct (Z.eqb_spec k' k); [lia|auto].
Qed.

Lemma char_at_none n str : (String.length str ≤ n)%nat → String.get n str = None.
Proof. revert n. induction str as [|c str IH]; intros [|n] Hn; cbn in *; [done..|lia|]. apply IH. lia. Qed.

Lemma omap_none {A B} (f : A → option B) l : (∀ x, x ∈ l → f x = None) → omap f l = [].
Proof.
  intros H. induction l as [|x l IH]; [done|]. cbn. rewrite (H x) by left. apply IH. intros y Hy. apply H. by right.
Qed.

Lemma key_at_none scancode : ¬ (0 ≤ scancode < 128) → key_at scancode = None.
Proof.
  intros Hk. assert (∀ row, row ∈ US_layout → row_key scancode row = None) as Hrow.
  { intros [[first plain] shifted] Hin. unfold row_key. destruct (Z.leb_spec first scancode) as [Hle|]; [|done].
    assert (forallb (λ r, (0 <=? r.1.1) && (r.1.1 + Z.of_nat (String.length r.1.2) <=? 128)) US_layout = true) as H by (by vm_compute).
    rewrite forallb_forall in H. specialize (H _ (proj1 (list_elem_of_In _ _) Hin)). cbn [fst snd] in H. bool_to_prop.
    by rewrite (char_at_none _ plain) by lia. }
  unfold key_at. by rewrite omap_none.
Qed.

Lemma translate_none scancode s : ¬ (0 ≤ scancode < 128) → translate_scancode scancode s = (None, s).
Proof.
  intros Hk. unfold translate_scancode, map_symbol, in_range. rewrite assoc_none by done.
  repeat (case_match; bool_to_prop; [exfalso; lia|]). done.
Qed.

Lemma layout_keys scancode sh caps : pressed scancode = true →
  translate_scancode scancode (modifiers sh caps) =
    (typed scancode sh caps, let '(sh', caps') := modified scancode sh caps in modifiers sh' caps').
Proof.
  intros Hp. destruct (decide (0 ≤ scancode < 128)) as [Hk|Hk].
  - assert (∀ n, (n < 128)%nat → ∀ sh caps, translate_scancode (Z.of_nat n) (modifiers sh caps) =
      (typed (Z.of_nat n) sh caps, let '(sh', caps') := modified (Z.of_nat n) sh caps in modifiers sh' caps')) as H.
    { intros n Hn. do 128 (destruct n as [|n]; [intros [] []; vm_compute; reflexivity|]). lia. }
    specialize (H (Z.to_nat scancode) ltac:(lia) sh caps). by rewrite Z2Nat.id in H by lia.
  - rewrite translate_none by done. unfold typed, modified. rewrite Hp, key_at_none by done. cbn [andb].
    destruct (Z.eqb_spec scancode 0x2A); [lia|]. destruct (Z.eqb_spec scancode 0x36); [lia|]. by destruct (Z.eqb_spec scancode 0x3A); [lia|].
Qed.

Lemma layout_release scancode sh caps : pressed scancode = false →
  handle_key_release (Z.land scancode 0x7F) (modifiers sh caps) = let '(sh', caps') := modified scancode sh caps in modifiers sh' caps'.
Proof. intros Hp. unfold handle_key_release, modified. rewrite Hp. cbn [andb]. by case_match. Qed.

(** Translation looks at the modifiers and changes nothing else. *)
Lemma translate_spec scancode s : translate_scancode scancode s =
  let '(b, m) := translate_scancode scancode (modifiers (shift s) (caps_lock s)) in
  (b, mkKeyboard (buffer s) (head s) (tail s) (shift m) (caps_lock m)).
Proof. unfold translate_scancode, set_shift, set_caps. repeat (case_match; [by destruct s|]). by destruct s. Qed.

Lemma release_spec scancode s : handle_key_release scancode s =
  let m := handle_key_release scancode (modifiers (shift s) (caps_lock s)) in
  mkKeyboard (buffer s) (head s) (tail s) (shift m) (caps_lock m).
Proof. unfold handle_key_release, set_shift. case_match; by destruct s. Qed.

Lemma with_modifiers_ok s sh caps : kb_ok s → kb_ok (mkKeyboard (buffer s) (head s) (tail s) sh caps) ∧
  queue (mkKeyboard (buffer s) (head s) (tail s) sh caps) = queue s.
Proof. intros [? ? ?]. split; [by split|done]. Qed.

Lemma handle_scancode_spec {E} scancode s : kb_ok s →
  ∃ s', @handle_scancode E scancode s = Ok (bool_decide (is_Some (typed scancode (shift s) (caps_lock s))), s') ∧ kb_ok s' ∧
    queue s' = match typed scancode (shift s) (caps_lock s) with Some b => enqueue b (queue s) | None => queue s end ∧
    (shift s', caps_lock s') = modified scancode (shift s) (caps_lock s).
Proof.
  intros Hok. unfold handle_scancode. rewrite release_bit. destruct (pressed scancode) eqn:Hp; cbn [negb].
  - rewrite translate_spec, (layout_keys _ _ _ Hp). destruct (modified scancode _ _) as [sh' caps'].
    destruct (with_modifiers_ok s sh' caps' Hok) as [Hok' Hq]. destruct (typed scancode _ _) as [b|]; cbn; [|by eexists; split_and!].
    destruct (push_queue (E:=E) b _ Hok') as (s' & -> & Hs' & Hq' & Hsh & Hca). cbn. exists s'. rewrite Hq', Hq, Hsh, Hca. by split_and!.
  - rewrite release_spec, (layout_release _ _ _ Hp). replace (typed scancode (shift s) (caps_lock s)) with (@None Z) by (unfold typed; by rewrite Hp). destruct (modified scancode _ _) as [sh' caps'].
    destruct (with_modifiers_ok s sh' caps' Hok) as [Hok' Hq]. by eexists; split_and!.
Qed.

Lemma driver_run_spec {E} l s : kb_ok s → @driver_run E l s = Ok (spec_run l (queue s) (shift s) (caps_lock s)).
Proof.
  revert s. induction l as [|[scancode|] l IH]; intros s Hok; [done|..]; cbn [driver_run spec_run].
  - destruct (handle_scancode_spec (E:=E) scancode s Hok) as (s' & -> & Hok' & Hq & Hm). cbn [mbind comp_bind].
    rewrite IH by done. rewrite <- Hm, Hq. done.
  - unfold read. cbn [Z.eqb]. pose proof (pop_queue (E:=E) s Hok) as Hp. destruct (queue s) as [|b q] eqn:Hq.
    + rewrite Hp. cbn [mbind comp_bind mret comp_ret]. rewrite IH by done. by rewrite Hq.
    + destruct Hp as (s' & -> & Hok' & Hq' & Hsh & Hca). cbn [mbind comp_bind mret comp_ret]. rewrite IH by done. by rewrite Hq', Hsh, Hca.
Qed.


(** The bytes are ASCII: all key codes and modifiers are enumerated. *)
Lemma typed_ascii scancode sh caps b : 0 ≤ scancode < 256 → typed scancode sh caps = Some b → 0 < b < 128.
Proof.
  intros Hs Hb.
  assert (forallb (λ n, forallb (λ sh, forallb (λ caps,
    match typed (Z.of_nat n) sh caps with Some b => (0 <? b) && (b <? 128) | None => true end) [true; false]) [true; false]) (seq 0 256) = true)
    as H by (by vm_compute).
  rewrite forallb_forall in H. specialize (H (Z.to_nat scancode)). rewrite Z2Nat.id in H by lia.
  assert (forallb (λ sh, forallb (λ caps, match typed scancode sh caps with Some b => (0 <? b) && (b <? 128) | None => true end) [true; false]) [true; false] = true)
    as H1 by (apply H, in_seq; lia). clear H.
  assert (match typed scancode sh caps with Some b => (0 <? b) && (b <? 128) | None => true end = true) as H2.
  { cbn [forallb] in H1. bool_to_prop. by destruct sh, caps. }
  rewrite Hb in H2. bool_to_prop. lia.
Qed.

(** ** With the kernel *)

Section kernel.
Context {W P : Type} `{!PortIO P} (rp : Z).

(** The handler on a buffer in order. *)
Lemma keyboard_handler_ok {E} (s : ksys W P) scancode p' : kb_ok (ks_keyboard s) → in8 DATA_PORT (ks_ports s) = (scancode, p') →
  let byte := typed scancode (shift (ks_keyboard s)) (caps_lock (ks_keyboard s)) in
  ∃ kb, @keyboard_handler W P _ E false false s =
      Ok (tt, mkKsys kb (if bool_decide (is_Some byte) then wake_channel KeyboardInput (ks_kernel s) else ks_kernel s) p') ∧ kb_ok kb ∧
    queue kb = match byte with Some b => enqueue b (queue (ks_keyboard s)) | None => queue (ks_keyboard s) end.
Proof.
  intros Hok Hin byte. destruct (handle_scancode_spec (E:=E) scancode _ Hok) as (kb & Hh & Hok' & Hq & _). exists kb. split; [|done].
  unfold keyboard_handler. rewrite (M_bind_ok _ _ s scancode (mkKsys (ks_keyboard s) (ks_kernel s) p')) by (unfold zoom, inb; by rewrite Hin).
  rewrite (M_bind_ok Prelude.get _ _ _ _ eq_refl). cbn [ks_keyboard ks_kernel ks_ports].
  rewrite (M_bind_lift _ _ _ _ Hh). subst byte. cbn. by case_bool_decide.
Qed.

(** A key press.  The interrupt handler reads the scan code from the data port
    once.  When the key types a byte, an ASCII one, it is added to the queue and
    every process blocked for keyboard input becomes ready, all other processes
    being unchanged; otherwise the queue and the kernel stay as they are. *)
Theorem keyboard_handler_correct (s : ksys W P) scancode p' : kb_ok (ks_keyboard s) → in8 DATA_PORT (ks_ports s) = (scancode, p') →
  0 ≤ scancode < 256 →
  ∃ kb k, @keyboard_handler W P _ Empty_set false false s = Ok (tt, mkKsys kb k p') ∧ kb_ok kb ∧
    match typed scancode (shift (ks_keyboard s)) (caps_lock (ks_keyboard s)) with
    | Some b => 0 < b < 128 ∧ queue kb = enqueue b (queue (ks_keyboard s)) ∧ k = wake_channel KeyboardInput (ks_kernel s) ∧
        ∀ i p, procs (k_table (ks_kernel s)) !! i = Some p → ∃ p', procs (k_table k) !! i = Some p' ∧
          if bool_decide (p_state p = Blocked ∧ p_wait_channel p = Some KeyboardInput) then p_state p' = Ready ∧ p_wait_channel p' = None
          else p' = p
    | None => queue kb = queue (ks_keyboard s) ∧ k = ks_kernel s
    end.
Proof.
  intros Hok Hin Hsc. destruct (keyboard_handler_ok (E:=Empty_set) s scancode p' Hok Hin) as (kb & Hh & Hok' & Hq).
  pose proof (typed_ascii scancode (shift (ks_keyboard s)) (caps_lock (ks_keyboard s))) as Hascii.
  eexists kb, _. split; [exact Hh|]. split; [done|].
  destruct (typed _ _ _) as [b|]; [|done]. destruct (Hascii b Hsc eq_refl). split_and!; try done.
  intros i p Hp. exists (wake KeyboardInput p). split; [cbn; by rewrite list_lookup_fmap, Hp|].
  unfold wake, in_state. destruct (p_state p) eqn:Hs; cbn; try by rewrite bool_decide_false by (by intros [? _]).
  destruct (p_wait_channel p) as [[]|]; cbn; [|by rewrite bool_decide_false by (by intros [_ ?])..]. done.
Qed.

(** A read that finds a byte. *)
Lemma keyboard_read_byte (s : ksys W P) n b q : kb_ok (ks_keyboard s) → n ≠ 0 → queue (ks_keyboard s) = b :: q →
  ∃ kb, keyboard_read rp n s = Ok (ReadDone [b], mkKsys kb (ks_kernel s) (ks_ports s)) ∧ kb_ok kb ∧ queue kb = q.
Proof.
  intros Hok Hn Hq. pose proof (pop_queue (E:=DriverError) _ Hok) as Hp. rewrite Hq in Hp. destruct Hp as (kb & Hp & Hok' & Hq' & _).
  exists kb. split; [|done]. unfold keyboard_read, read_step. destruct (Z.eqb_spec n 0) as [|_]; [done|].
  rewrite (M_bind_ok _ _ s [b] (mkKsys kb (ks_kernel s) (ks_ports s))); [done|].
  rewrite (M_bind_ok Prelude.get _ _ _ _ eq_refl). rewrite (M_bind_lift _ _ _ ([b], kb)); [done|].
  unfold read. destruct (Z.eqb_spec n 0) as [|_]; [done|]. by rewrite Hp.
Qed.

(** A read that finds none. *)
Lemma keyboard_read_empty (s : ksys W P) n k : kb_ok (ks_keyboard s) → n ≠ 0 → queue (ks_keyboard s) = [] →
  block_current rp KeyboardInput (ks_kernel s) = Ok k → keyboard_read rp n s = Ok (ReadBlocked, mkKsys (ks_keyboard s) k (ks_ports s)).
Proof.
  intros Hok Hn Hq Hb. pose proof (pop_queue (E:=DriverError) _ Hok) as Hp. rewrite Hq in Hp.
  unfold keyboard_read, read_step. destruct (Z.eqb_spec n 0) as [|_]; [done|].
  rewrite (M_bind_ok _ _ s [] s).
  - change (0 <? Z.of_nat (length [])) with false. cbv iota.
    assert (block_step rp s = Ok (tt, mkKsys (ks_keyboard s) k (ks_ports s))) as Hbs by (unfold block_step; by rewrite Hb).
    by rewrite (M_bind_ok _ _ _ _ _ Hbs).
  - rewrite (M_bind_ok Prelude.get _ _ _ _ eq_refl). rewrite (M_bind_lift _ _ _ ([], ks_keyboard s)); [by destruct s|].
    unfold read. destruct (Z.eqb_spec n 0) as [|_]; [done|]. by rewrite Hp.
Qed.

Context (process_size region_size idle_task : Z) (e : env W).

(** A read of the keyboard.  It gives the oldest byte typed and leaves the rest;
    when there is none the caller is blocked for keyboard input and another process
    runs, to try again when a key press made it ready. *)
Theorem keyboard_read_correct (s : ksys W P) n : kb_ok (ks_keyboard s) → n ≠ 0 →
  reachable rp process_size region_size idle_task e (ks_kernel s) → k_current (ks_kernel s) ≠ 0 → current_not_idle (ks_kernel s) →
  match queue (ks_keyboard s) with
  | b :: q => ∃ kb, keyboard_read rp n s = Ok (ReadDone [b], mkKsys kb (ks_kernel s) (ks_ports s)) ∧ kb_ok kb ∧ queue kb = q
  | [] => ∃ k, keyboard_read rp n s = Ok (ReadBlocked, mkKsys (ks_keyboard s) k (ks_ports s)) ∧ k_current k ≠ k_current (ks_kernel s) ∧
      ∃ q, q ∈ procs (k_table k) ∧ p_pid q = k_current (ks_kernel s) ∧ p_state q = Blocked ∧ p_wait_channel q = Some KeyboardInput
  end.
Proof.
  intros Hok Hn Hk%reachable_inv H0 Hidle. destruct (queue (ks_keyboard s)) as [|b q] eqn:Hq; [|by apply keyboard_read_byte].
  destruct (SchedLive.current_process _ Hk H0) as (i & p & Hcp & Hi & Hp & Hpc & Hr).
  destruct (SchedChild.block_reschedules rp KeyboardInput _ i p Hk H0 Hidle Hi Hp Hpc Hr) as (k & Hrs & Hleave & Hex).
  exists k. split_and!; [|done|done]. apply keyboard_read_empty; try done. unfold block_current, get_mut. rewrite Hcp, Hi. exact Hrs.
Qed.

(** An interrupt that arrives while the reader holds the lock of the state never
    returns. *)
Lemma keyboard_handler_deadlock (s : ksys W P) table_locked : @keyboard_handler W P _ Empty_set true table_locked s = Hang.
Proof. unfold keyboard_handler, mbind, M_bind, zoom, inb. by destruct (in8 _ _). Qed.

End kernel.

(** The shell of the scheduler's example, with one scan code waiting. *)
Definition example_sys : ksys unit trace := mkKsys KeyboardState_new example_running (mkTrace [0x1E] []).

Lemma keyboard_handler_correct_witness :
  ∃ kb k, @keyboard_handler unit trace _ Empty_set false false example_sys = Ok (tt, mkKsys kb k (mkTrace [] [])) ∧ queue kb = [97].
Proof.
  destruct (@keyboard_handler_correct unit trace trace_ports example_sys 0x1E (mkTrace [] []) (proj1 new_ok) eq_refl ltac:(lia)) as (kb & k & Hr & _ & _ & Hq & _).
  exists kb, k. split; [exact Hr|]. rewrite Hq. reflexivity.
Defined.

Lemma example_not_idle : current_not_idle example_running.
Proof. apply SchedChild.not_idle_check. by vm_compute. Qed.

Lemma keyboard_read_correct_witness :
  ∃ k, keyboard_read 7 64 example_sys = Ok (ReadBlocked, mkKsys (ks_keyboard example_sys) k (ks_ports example_sys)) ∧
    k_current k ≠ k_current (ks_kernel example_sys).
Proof.
  pose proof (keyboard_read_correct 7 512 64 0xFFFF800000002000 example_env example_sys 64 (proj1 new_ok) ltac:(done) example_reachable
    ltac:(by vm_compute) example_not_idle) as H.
  destruct H as (k & Hr & Hk & _). exists k. split; [exact Hr|exact Hk].
Defined.

(** The processes as their pid, state and channel. *)
Definition view (k : kernel unit) : list (Pid * ProcessState * option WaitChannel) :=
  (λ p, (p_pid p, p_state p, p_wait_channel p)) <$> procs (k_table k).

(** A key press between the two steps of a read is not noticed: the reader finds
    the buffer empty, the handler adds the byte and wakes nobody, and the reader
    blocks with a byte in the buffer. *)
Lemma keyboard_lost_wakeup :
  let '(bytes, s1) := value_ok (@read_step unit trace Empty_set 1 example_sys) ([], example_sys) in
  let '(_, s2) := value_ok (@keyboard_handler unit trace _ Empty_set false false s1) (tt, s1) in
  let '(_, s3) := value_ok (block_step 7 s2) (tt, s2) in
  bytes = [] ∧ queue (ks_keyboard s3) = [97] ∧ (2, Blocked, Some KeyboardInput) ∈ view (ks_kernel s3).
Proof. vm_compute. split_and!; [done|done|]. repeat constructor. Qed.

End KeyboardSpec.
