(* ===== verification/Console.v ===== *)
(** * The console: src/src/arch/x86_64/drivers/console.rs and
    src/src/kernel/drivers/console.rs

    The text screen is a function from cell numbers to 16-bit cells, defined
    everywhere so that a write outside the screen would be seen.  The cursor is
    drawn as a block over the cell it is on.  Rows and columns stay far below the
    width of the integers, so their arithmetic is that of [Z]. *)

From S2P Require Import Prelude Mem RawVec Types Drivers Ports.
Local Open Scope Z_scope.

Module Console.
Import Ports.

Definition CRTC_ADDRESS : Z := 0x3D4.
Definition CRTC_DATA : Z := 0x3D5.
Definition WIDTH : Z := 80.
Definition HEIGHT : Z := 25.
Definition DEFAULT_ATTR : Z := 0x0F.

Record CursorState := mkCursor { saved : Z; block : Z; position : Z; active : bool }.
Definition CursorState_new : CursorState := mkCursor 0 0 0 false.

Record ConsoleState := mkState { row : Z; col : Z; attr : Z }.
Definition STATE : ConsoleState := mkState 0 0 DEFAULT_ATTR.

Section console.
Context {P : Type} `{!PortIO P}.

(** The screen, the two locked states and the ports. *)
Record console := mkConsole { cells : Z → Z; cursor : CursorState; state : ConsoleState; ports : P }.

Definition set_cells (f : Z → Z) (c : console) : console := mkConsole f (cursor c) (state c) (ports c).
Definition set_cursor_state (x : CursorState) (c : console) : console := mkConsole (cells c) x (state c) (ports c).
Definition set_state (x : ConsoleState) (c : console) : console := mkConsole (cells c) (cursor c) x (ports c).
Definition outb (port value : Z) (c : console) : console := mkConsole (cells c) (cursor c) (state c) (out8 port value (ports c)).

Definition poke (i v : Z) (c : console) : console := set_cells (λ j, if j =? i then v else cells c j) c.

(** *** The screen *)

(** [((attr as u16) << 8) | byte as u16] *)
Definition cell (byte attr : Z) : Z := Z.lor (Z.shiftl attr 8) byte.

Definition write_at (row col byte attr : Z) (c : console) : console := poke (row * WIDTH + col) (cell byte attr) c.

Definition clear_row (row : Z) (c : console) : console :=
  foldl (λ c col, write_at row col 32 DEFAULT_ATTR c) c (seqZ 0 WIDTH).

Definition scroll_up (c : console) : console :=
  clear_row (HEIGHT - 1) (set_cells (λ i, if (0 <=? i) && (i <? WIDTH * (HEIGHT - 1)) then cells c (i + WIDTH) else cells c i) c).

(** *** The cursor *)

(** What was under the cursor comes back, unless something was written there. *)
Definition restore (c : console) : console :=
  let x := cursor c in
  if active x then
    let current := cells c (position x) in
    if current =? block x then set_cursor_state (mkCursor (saved x) (block x) (position x) false) (poke (position x) (saved x) c)
    else set_cursor_state (mkCursor current (block x) (position x) false) c
  else c.

Definition update_cursor_visual (row col : Z) (c : console) : console :=
  let c := restore c in
  let position := Z.min (row * WIDTH + col) (WIDTH * HEIGHT - 1) in
  let cell := cells c position in
  let attr := Z.land (Z.shiftr cell 8) 0xFF in
  let block := Z.lor 0xDB (Z.shiftl attr 8) in
  poke position block (set_cursor_state (mkCursor cell block position true) c).

Definition set_cursor (row col : Z) (c : console) : console :=
  let pos := Z.min (row * WIDTH + col) (WIDTH * HEIGHT - 1) in
  let c := update_cursor_visual row col c in
  outb CRTC_DATA (Z.shiftr pos 8) (outb CRTC_ADDRESS 0x0E (outb CRTC_DATA (Z.land pos 0xFF) (outb CRTC_ADDRESS 0x0F c))).

Definition reset_cursor_state (c : console) : console :=
  let c := restore c in
  let blank := cell 32 DEFAULT_ATTR in
  set_cursor_state (mkCursor blank blank 0 false) c.

Definition clear_screen (c : console) : console :=
  set_cursor 0 0 (reset_cursor_state (foldl (λ c row, clear_row row c) c (seqZ 0 HEIGHT))).

Definition set_cursor_shape (start end_ : Z) (c : console) : console :=
  let start := Z.land start 0x1F in
  let end_ := Z.land end_ 0x1F in
  let c := outb CRTC_ADDRESS 0x0A c in
  let '(cur_start, p) := in8 CRTC_DATA (ports c) in
  let c := mkConsole (cells c) (cursor c) (state c) p in
  let c := outb CRTC_DATA (Z.lor (Z.lor (Z.land cur_start 0xC0) 0x20) start) c in
  let c := outb CRTC_ADDRESS 0x0B c in
  let '(cur_end, p) := in8 CRTC_DATA (ports c) in
  let c := mkConsole (cells c) (cursor c) (state c) p in
  outb CRTC_DATA (Z.lor (Z.land cur_end 0xE0) end_) c.

Definition arch_init (c : console) : console := set_cursor 0 0 (set_cursor_shape 0 15 c).

(** *** The driver *)

Definition move_to (row col : Z) (c : console) : console := set_state (mkState row col (attr (state c))) c.

(** [init] and [clear] of the driver. *)
Definition clear (c : console) : console := set_cursor 0 0 (move_to 0 0 (clear_screen c)).
Definition init (c : console) : console := set_cursor 0 0 (move_to 0 0 (clear_screen (arch_init c))).

Definition new_line (c : console) : console :=
  let c := move_to (row (state c) + 1) 0 c in
  let c := if HEIGHT <=? row (state c) then move_to (HEIGHT - 1) (col (state c)) (scroll_up c) else c in
  set_cursor (row (state c)) (col (state c)) c.

Definition put_char (byte : Z) (c : console) : console :=
  let c := if WIDTH <=? col (state c) then new_line c else c in
  let c := write_at (row (state c)) (col (state c)) byte (attr (state c)) c in
  let c := move_to (row (state c)) (col (state c) + 1) c in
  set_cursor (row (state c)) (col (state c)) c.

Definition write_byte (c : console) (byte : Z) : console :=
  if byte =? 10 then new_line c
  else if byte =? 13 then move_to (row (state c)) 0 c
  else if byte =? 9 then
    let next_tab := (col (state c) / 8 + 1) * 8 in
    if WIDTH <=? next_tab then new_line c else move_to (row (state c)) next_tab c
  else put_char byte c.

Definition write (buf : list Z) (c : console) : Z * console := (Z.of_nat (length buf), foldl write_byte c buf).

(** The console as a character device. *)
Definition console_device : CharDevice console :=
  mkCharDevice "console" (modify init) (λ _, mret []) (λ buf, λ c, Ok (write buf c)).

End console.
Arguments console : clear implicits.

End Console.
