(* ===== verification/ConsoleSpec.v ===== *)
(** * What the console shows

    Whatever is written, only cells of the screen change; and until the screen
    scrolls the text under the cursor block is what a plain terminal shows. *)

From S2P Require Import Prelude Mem RawVec Types Drivers Ports Console.
Local Open Scope Z_scope.

Module ConsoleSpec.
Import Ports Console.

Section spec.
Context {P : Type} `{!PortIO P}.
Implicit Types c : console P.

Definition CELLS : Z := WIDTH * HEIGHT.

(** ** Bounds *)

Record console_ok c : Prop := {
  co_row : 0 ≤ row (state c) < HEIGHT;
  co_col : 0 ≤ col (state c) ≤ WIDTH;
  co_cursor : active (cursor c) = true → 0 ≤ position (cursor c) < CELLS
}.

(** [c'] is a console in bounds that differs from [c] on the screen only. *)
Definition within c c' : Prop := console_ok c' ∧ ∀ i, ¬ (0 ≤ i < CELLS) → cells c' i = cells c i.

Lemma within_trans c1 c2 c3 : within c1 c2 → within c2 c3 → within c1 c3.
Proof. intros [_ H1] [H2 H3]. split; [done|]. intros i Hi. by rewrite H3, H1. Qed.

Lemma within_refl c : console_ok c → within c c.
Proof. by split. Qed.

Lemma poke_in i v c : 0 ≤ i < CELLS → console_ok c → within c (poke i v c).
Proof. intros Hi [? ? ?]. split; [by split|]. intros j Hj. cbn. destruct (Z.eqb_spec j i); [lia|done]. Qed.

Lemma write_at_in r k b a c : 0 ≤ r < HEIGHT → 0 ≤ k < WIDTH → console_ok c → within c (write_at r k b a c).
Proof. unfold HEIGHT, WIDTH. intros Hr Hk. apply poke_in. unfold CELLS, WIDTH, HEIGHT. lia. Qed.

Lemma foldl_in {A} (f : console P → A → console P) l c : console_ok c → (∀ c x, x ∈ l → console_ok c → within c (f c x)) → within c (foldl f c l).
Proof.
  revert c. induction l as [|x l IH]; intros c Hc Hf; [by split|]. cbn [foldl].
  destruct (Hf c x) as [Hc' Ho]; [left|done|]. apply (within_trans _ (f c x)); [by split|].
  apply IH; [done|]. intros c0 y Hy. apply Hf. by right.
Qed.

Lemma clear_row_in r c : 0 ≤ r < HEIGHT → console_ok c → within c (clear_row r c).
Proof.
  intros Hr Hc. apply foldl_in; [done|]. intros c0 k Hk Hc0. apply elem_of_seqZ in Hk. apply write_at_in; [done|lia|done].
Qed.

(** Scrolling needs no row to be in bounds. *)
Lemma clear_row_frame r c : 0 ≤ r < HEIGHT → state (clear_row r c) = state c ∧ cursor (clear_row r c) = cursor c ∧
  ∀ i, ¬ (0 ≤ i < CELLS) → cells (clear_row r c) i = cells c i.
Proof.
  intros Hr. unfold clear_row. assert (∀ k, k ∈ seqZ 0 WIDTH → 0 ≤ k < WIDTH) as Hk by (intros k Hk; apply elem_of_seqZ in Hk; lia).
  revert Hk c. generalize (seqZ 0 WIDTH). intros l. induction l as [|k l IH]; intros Hk c; [done|]. cbn [foldl].
  destruct (IH ltac:(intros x Hx; apply Hk; by right) (write_at r k 32 DEFAULT_ATTR c)) as (-> & -> & Ho). split_and!; try done.
  intros i Hi. rewrite Ho by done. cbn. specialize (Hk k ltac:(left)). unfold CELLS, WIDTH, HEIGHT in *.
  destruct (Z.eqb_spec i (r * 80 + k)); [lia|done].
Qed.

Lemma scroll_up_frame c : state (scroll_up c) = state c ∧ cursor (scroll_up c) = cursor c ∧
  ∀ i, ¬ (0 ≤ i < CELLS) → cells (scroll_up c) i = cells c i.
Proof.
  unfold scroll_up. set (c1 := set_cells _ c). destruct (clear_row_frame (HEIGHT - 1) c1) as (-> & -> & Ho); [unfold HEIGHT; lia|].
  split_and!; try done. intros i Hi. rewrite Ho by done. unfold c1. cbn.
  destruct (Z.leb_spec 0 i), (Z.ltb_spec i (WIDTH * (HEIGHT - 1))); cbn; try done. unfold CELLS, WIDTH, HEIGHT in *. lia.
Qed.

Lemma restore_in c : console_ok c → within c (restore c) ∧ active (cursor (restore c)) = false.
Proof.
  intros Hc. pose proof Hc as [H1 H2 H3]. unfold restore. destruct (active (cursor c)) eqn:Ha; [|by split; [apply within_refl|]].
  destruct (_ =? _); (split; [|done]); (split; [by split|]); intros i Hi; [|done]. cbn.
  destruct (Z.eqb_spec i (position (cursor c))); [specialize (H3 eq_refl); lia|done].
Qed.

Lemma set_cursor_in r k c : 0 ≤ r → 0 ≤ k → console_ok c → within c (set_cursor r k c).
Proof.
  intros Hr Hk Hc. unfold set_cursor, update_cursor_visual. destruct (restore_in c Hc) as [Hin _].
  apply (within_trans _ (restore c)); [done|]. destruct Hin as [[H1 H2 H3] _]. unfold CELLS, WIDTH, HEIGHT in *. split.
  - split; [done|done|]. intros _. cbn -[Z.mul Z.add]. unfold CELLS, WIDTH, HEIGHT. lia.
  - intros i Hi. cbn -[Z.mul Z.add]. unfold CELLS, WIDTH, HEIGHT in *.
    destruct (Z.eqb_spec i (Z.min (r * 80 + k) (80 * 25 - 1))) as [->|]; [lia|done].
Qed.

Lemma restore_state c : state (restore c) = state c.
Proof. unfold restore. destruct (active _); [|done]. by destruct (_ =? _). Qed.

Lemma set_cursor_keeps r k c : state (set_cursor r k c) = state c.
Proof. cbn. apply restore_state. Qed.

Lemma move_to_in r k c : 0 ≤ r < HEIGHT → 0 ≤ k ≤ WIDTH → console_ok c → within c (move_to r k c).
Proof. intros Hr Hk [? ? ?]. by split. Qed.

Lemma move_to_cells r k c : cells (move_to r k c) = cells c.
Proof. done. Qed.

Lemma new_line_eq c : new_line c =
  if HEIGHT <=? row (state c) + 1 then set_cursor (HEIGHT - 1) 0 (move_to (HEIGHT - 1) 0 (scroll_up (move_to (row (state c) + 1) 0 c)))
  else set_cursor (row (state c) + 1) 0 (move_to (row (state c) + 1) 0 c).
Proof.
  unfold new_line. set (c1 := move_to (row (state c) + 1) 0 c). change (row (state c) + 1) with (row (state c1)).
  destruct (HEIGHT <=? row (state c1)); [|done]. generalize (scroll_up c1). intros c2. done.
Qed.

Lemma new_line_col c : col (state (new_line c)) = 0.
Proof. rewrite new_line_eq. destruct (_ <=? _); rewrite set_cursor_keeps; [|done]. by generalize (scroll_up (move_to (row (state c) + 1) 0 c)). Qed.

Lemma new_line_in c : console_ok c → within c (new_line c).
Proof.
  intros Hc. pose proof Hc as [H1 H2 H3]. rewrite new_line_eq. destruct (Z.leb_spec HEIGHT (row (state c) + 1)) as [Hs|Hs].
  - destruct (scroll_up_frame (move_to (row (state c) + 1) 0 c)) as (E1 & E2 & Ho). revert E1 E2 Ho.
    generalize (scroll_up (move_to (row (state c) + 1) 0 c)). intros c2 E1 E2 Ho.
    assert (within c (move_to (HEIGHT - 1) 0 c2)) as Hin.
    { split; [|intros i Hi; rewrite move_to_cells; exact (Ho i Hi)]. split; [cbn; unfold HEIGHT; lia|cbn; unfold WIDTH; lia|].
      change (active (cursor c2) = true → 0 ≤ position (cursor c2) < CELLS). rewrite E2. exact H3. }
    apply (within_trans _ _ _ Hin). apply set_cursor_in; [done|done|by destruct Hin].
  - assert (within c (move_to (row (state c) + 1) 0 c)) as Hin by (apply move_to_in; unfold WIDTH; lia || done).
    apply (within_trans _ _ _ Hin). apply set_cursor_in; [cbn; lia|done|by destruct Hin].
Qed.

Lemma put_char_in b c : console_ok c → within c (put_char b c).
Proof.
  intros Hc. unfold put_char. set (c1 := if WIDTH <=? col (state c) then new_line c else c).
  assert (within c c1 ∧ col (state c1) < WIDTH) as [Hin Hk].
  { unfold c1. destruct (Z.leb_spec WIDTH (col (state c))); [|by split; [apply within_refl|]].
    rewrite new_line_col. split; [by apply new_line_in|unfold WIDTH; lia]. }
  clearbody c1. apply (within_trans _ c1 _ Hin). destruct Hin as [Hc1 _]. pose proof Hc1 as [H1 H2 _].
  set (c2 := write_at _ _ b _ c1). assert (within c1 c2) as Hin2 by (apply write_at_in; lia || done).
  apply (within_trans _ c2 _ Hin2). assert (state c2 = state c1) as E by done. destruct Hin2 as [Hc2 _].
  assert (within c2 (move_to (row (state c2)) (col (state c2) + 1) c2)) as Hin3 by (apply move_to_in; rewrite ?E; lia || done).
  apply (within_trans _ _ _ Hin3). apply set_cursor_in; [change (0 ≤ row (state c1)); lia|change (0 ≤ col (state c1) + 1); lia|by destruct Hin3].
Qed.

Lemma write_byte_in c b : console_ok c → within c (write_byte c b).
Proof.
  intros Hc. pose proof Hc as [H1 H2 H3]. unfold write_byte. repeat case_match; [by apply new_line_in|..|by apply put_char_in].
  - apply move_to_in; [done|unfold WIDTH; lia|done].
  - by apply new_line_in.
  - bool_to_prop. apply move_to_in; [done| |done]. pose proof (Z.div_pos (col (state c)) 8). lia.
Qed.

Lemma clear_in c : console_ok c → within c (clear c).
Proof.
  intros Hc. unfold clear, clear_screen. set (c1 := foldl _ c _).
  assert (within c c1) as Hin1.
  { apply foldl_in; [done|]. intros c0 r Hr Hc0. apply elem_of_seqZ in Hr. by apply clear_row_in. }
  clearbody c1. apply (within_trans _ _ _ Hin1). destruct Hin1 as [Hc1 _]. destruct (restore_in c1 Hc1) as [Hin2 _].
  assert (within c1 (reset_cursor_state c1)) as Hin3.
  { destruct Hin2 as [[? ? ?] Ho]. split; [by split|]. exact Ho. }
  apply (within_trans _ _ _ Hin3). destruct Hin3 as [Hc3 _]. set (c3 := reset_cursor_state c1) in *. clearbody c3.
  pose proof (set_cursor_in 0 0 c3 ltac:(done) ltac:(done) Hc3) as Hin4. apply (within_trans _ _ _ Hin4). destruct Hin4 as [Hc4 _].
  pose proof (move_to_in 0 0 _ ltac:(unfold HEIGHT; lia) ltac:(unfold WIDTH; lia) Hc4) as Hin5. apply (within_trans _ _ _ Hin5).
  by apply set_cursor_in, Hin5.
Qed.

(** Requests to the console. *)
Inductive request := Write (buf : list Z) | Clear | Init.

Definition serve (c : console P) (r : request) : console P :=
  match r with Write buf => (write buf c).2 | Clear => clear c | Init => init c end.

Definition boot_console (screen : Z → Z) (p : P) : console P := mkConsole screen CursorState_new STATE p.

Lemma boot_ok screen p : console_ok (boot_console screen p).
Proof. split; cbn; unfold HEIGHT, WIDTH; [lia|lia|done]. Qed.

Lemma init_in c : console_ok c → within c (init c).
Proof.
  intros Hc. unfold init. assert (within c (arch_init c)) as Hin.
  { unfold arch_init, set_cursor_shape. destruct (in8 _ _) as [v1 p1]. destruct (in8 _ _) as [v2 p2].
    match goal with |- within _ (set_cursor _ _ ?x) => assert (within c x) as H by (destruct Hc; by split) end.
    apply (within_trans _ _ _ H). by apply set_cursor_in, H. }
  apply (within_trans _ _ _ Hin). by apply clear_in, Hin.
Qed.

Lemma serve_in c r : console_ok c → within c (serve c r).
Proof.
  intros Hc. destruct r as [buf| |]; [|by apply clear_in|by apply init_in]. apply foldl_in; [done|]. intros c0 b _. apply write_byte_in.
Qed.


(** ** The text *)

(** The screen without the cursor block. *)
Definition text c (i : Z) : Z :=
  let x := cursor c in if active x && (i =? position x) && (cells c i =? block x) then saved x else cells c i.

Lemma restore_text c i : cells (restore c) i = text c i.
Proof.
  unfold restore, text. destruct (active (cursor c)); [|done].
  destruct (Z.eqb_spec (cells c (position (cursor c))) (block (cursor c))) as [Hb|Hb], (Z.eqb_spec i (position (cursor c))) as [->|Hi]; cbn [andb].
  - rewrite (proj2 (Z.eqb_eq _ _) Hb). cbn. by rewrite Z.eqb_refl.
  - cbn. by rewrite (proj2 (Z.eqb_neq _ _) Hi).
  - by rewrite (proj2 (Z.eqb_neq _ _) Hb).
  - done.
Qed.

(** The block is the full block character in some colour. *)
Definition block_ok c : Prop := active (cursor c) = true → block (cursor c) mod 256 = 0xDB.

Lemma cell_byte b a : 0 ≤ b < 256 → cell b a mod 256 = b.
Proof.
  intros Hb. unfold cell. change 256 with (2 ^ 8). rewrite <- Z.land_ones by lia. rewrite Z.land_lor_distr_l, !Z.land_ones by lia.
  rewrite Z.shiftl_mul_pow2, Z.mod_mul, Z.lor_0_l by lia. apply Z.mod_small. lia.
Qed.

Lemma set_cursor_text r k c : (∀ i, text (set_cursor r k c) i = text c i) ∧ block_ok (set_cursor r k c).
Proof.
  unfold set_cursor, update_cursor_visual. pose proof (restore_text c) as Hr. set (c1 := restore c) in *. clearbody c1. split.
  - intros i. rewrite <- Hr. unfold text. cbn -[Z.lor Z.shiftl Z.land Z.mul Z.add].
    destruct (Z.eqb_spec i (Z.min (r * WIDTH + k) (WIDTH * HEIGHT - 1))) as [->|Hi]; [by rewrite Z.eqb_refl|done].
  - intros _. cbn -[Z.lor Z.shiftl Z.land]. rewrite Z.lor_comm. by apply (cell_byte 0xDB).
Qed.

Lemma write_at_text r k b a c i : block_ok c → 0 ≤ b < 256 → b ≠ 0xDB →
  text (write_at r k b a c) i = if i =? r * WIDTH + k then cell b a else text c i.
Proof.
  intros Hb Hbyte Hne. unfold text, write_at. cbn -[cell Z.mul Z.add]. destruct (Z.eqb_spec i (r * WIDTH + k)) as [->|Hi]; [|done].
  destruct (active (cursor c)) eqn:Ha; [|done]. destruct (_ =? position _); [|done]. cbn [andb].
  destruct (Z.eqb_spec (cell b a) (block (cursor c))) as [Heq|]; [|done]. exfalso. apply Hne. rewrite <- (Hb Ha), <- Heq. symmetry. by apply cell_byte.
Qed.

(** A plain terminal; it stops where the screen would scroll. *)
Record term := mkTerm { t_row : Z; t_col : Z; t_text : Z → Z }.

Definition term_line (t : term) : option term := if t_row t + 1 <? HEIGHT then Some (mkTerm (t_row t + 1) 0 (t_text t)) else None.

Definition term_put (a b : Z) (t : term) : term :=
  mkTerm (t_row t) (t_col t + 1) (λ i, if i =? t_row t * WIDTH + t_col t then cell b a else t_text t i).

Definition term_byte (a b : Z) (t : term) : option term :=
  if b =? 10 then term_line t
  else if b =? 13 then Some (mkTerm (t_row t) 0 (t_text t))
  else if b =? 9 then
    let next := (t_col t / 8 + 1) * 8 in if WIDTH <=? next then term_line t else Some (mkTerm (t_row t) next (t_text t))
  else t ← (if WIDTH <=? t_col t then term_line t else Some t); Some (term_put a b t).

Fixpoint term_run (a : Z) (l : list Z) (t : term) : option term :=
  match l with [] => Some t | b :: l => t ← term_byte a b t; term_run a l t end.

(** The console shows the terminal. *)
Record shows (a : Z) c (t : term) : Prop := {
  sh_attr : attr (state c) = a;
  sh_row : row (state c) = t_row t;
  sh_col : col (state c) = t_col t;
  sh_block : block_ok c;
  sh_text : ∀ i, text c i = t_text t i
}.

Lemma shows_move a c t r k : shows a c t → shows a (move_to r k c) (mkTerm r k (t_text t)).
Proof. intros [H1 H2 H3 H4 H5]. by split. Qed.

Lemma shows_cursor a c t r k : shows a c t → shows a (set_cursor r k c) t.
Proof.
  intros [H1 H2 H3 H4 H5]. destruct (set_cursor_text r k c) as [Ht Hb].
  split; [by rewrite set_cursor_keeps..|done|]. intros i. by rewrite Ht.
Qed.

Lemma shows_line a c t t' : shows a c t → term_line t = Some t' → shows a (new_line c) t'.
Proof.
  intros Hs. unfold term_line. rewrite new_line_eq, (sh_row _ _ _ Hs). destruct (Z.ltb_spec (t_row t + 1) HEIGHT), (Z.leb_spec HEIGHT (t_row t + 1)); try lia; [|done].
  intros [= <-]. by apply shows_cursor, shows_move.
Qed.

Lemma shows_put a c t b : shows a c t → 0 ≤ b < 256 → b ≠ 0xDB →
  shows a (set_cursor (row (state c)) (col (state c) + 1) (move_to (row (state c)) (col (state c) + 1) (write_at (row (state c)) (col (state c)) b (attr (state c)) c)))
    (term_put a b t).
Proof.
  intros Hs Hb Hne. pose proof Hs as [H1 H2 H3 H4 H5]. apply shows_cursor. split; [done|done|cbn; lia|done|].
  intros i. cbn [term_put t_text]. rewrite <- H2, <- H3, <- H1. rewrite <- H5. by apply write_at_text.
Qed.

Lemma shows_byte a c t b t' : shows a c t → 0 ≤ b < 256 → b ≠ 0xDB → term_byte a b t = Some t' → shows a (write_byte c b) t'.
Proof.
  intros Hs Hb Hne. pose proof Hs as [H1 H2 H3 H4 H5]. unfold term_byte, write_byte. destruct (b =? 10); [by apply shows_line|].
  destruct (b =? 13); [intros [= <-]; rewrite H2; by apply shows_move|]. destruct (b =? 9).
  { rewrite H3. destruct (WIDTH <=? _); [by apply shows_line|]. intros [= <-]. rewrite H2. by apply shows_move. }
  unfold put_char. rewrite <- H3. destruct (WIDTH <=? col (state c)); cbn [mbind option_bind].
  - destruct (term_line t) as [t1|] eqn:Ht; [|done]. intros [= <-]. pose proof (shows_line _ _ _ _ Hs Ht) as Hs1.
    revert Hs1. generalize (new_line c). intros c1 Hs1. exact (shows_put a c1 t1 b Hs1 Hb Hne).
  - intros [= <-]. exact (shows_put a c t b Hs Hb Hne).
Qed.

(** The text of the console.  When a buffer without the full block character is
    written and the screen does not scroll, the text shown, apart from the cursor
    block, and the position are those of a plain terminal that puts each character
    in the console's colour after the one before, wraps at the last column and
    obeys new line, carriage return and tab; the whole buffer is reported written. *)
Theorem console_text_correct buf c t' : block_ok c → Forall (λ b, 0 ≤ b < 256 ∧ b ≠ 0xDB) buf →
  term_run (attr (state c)) buf (mkTerm (row (state c)) (col (state c)) (text c)) = Some t' →
  let '(n, c') := write buf c in
  n = Z.of_nat (length buf) ∧ row (state c') = t_row t' ∧ col (state c') = t_col t' ∧ ∀ i, text c' i = t_text t' i.
Proof.
  intros Hb Hbuf Hrun. cbn [write]. split; [done|].
  assert (∀ a c t, shows a c t → term_run a buf t = Some t' → shows a (foldl write_byte c buf) t') as H.
  { clear c Hb Hrun. induction Hbuf as [|b l [Hbyte Hne] Hl IH]; intros a c t Hs; cbn [term_run foldl]; [by intros [= <-]|].
    destruct (term_byte a b t) as [t1|] eqn:Ht; [|done]. cbn [mbind option_bind]. apply IH. by eapply shows_byte. }
  assert (shows (attr (state c)) c (mkTerm (row (state c)) (col (state c)) (text c))) as Hs by (by split).
  by destruct (H _ _ _ Hs Hrun) as [_ ? ? _ ?].
Qed.

End spec.

(** ** Witnesses *)

Definition example_console : console trace := boot_console (λ _, 0) (mkTrace [] []).

Lemma console_text_correct_witness :
  let '(n, c') := write [72; 105; 10; 33] example_console in n = 4 ∧ row (state c') = 1 ∧ col (state c') = 1 ∧ text c' 80 = cell 33 0x0F.
Proof.
  pose proof (console_text_correct [72; 105; 10; 33] example_console
    (mkTerm 1 1 (λ i, if i =? 1 * WIDTH + 0 then cell 33 0x0F else if i =? 0 * WIDTH + 1 then cell 105 0x0F else if i =? 0 * WIDTH + 0 then cell 72 0x0F
       else text example_console i))
    ltac:(by intros ?) ltac:(rewrite !Forall_cons; split_and!; first [lia|apply Forall_nil_2]) ltac:(reflexivity)) as H.
  destruct (write [72; 105; 10; 33] example_console) as [n c']. destruct H as (H1 & H2 & H3 & H4). split_and!; [exact H1|exact H2|exact H3|].
  rewrite (H4 80). reflexivity.
Defined.

(** ** A limit of the code *)

(** Scrolling moves the cursor block up with the text and does not erase it: after
    a new line on the last row a block stays at the end of the line above. *)
Lemma scroll_leaves_block :
  cells (write (replicate 24 10 ++ [65; 10]) example_console).2 (23 * WIDTH + 1) = cell 0xDB 0.
Proof. by vm_compute. Qed.

End ConsoleSpec.
