(* ===== verification/Ata.v ===== *)
(** * The ATA disk driver: src/src/arch/x86_64/drivers/ata.rs

    The driver runs against port input and output.  [AtaDrive] says what the ATA
    specification says of a drive in programmed-I/O mode; the driver over such a
    drive is a block device. *)

From S2P Require Import Prelude Mem Heap RawVec Types Drivers Ports.
Local Open Scope Z_scope.

Module Ata.
Import Ports.

Definition PRIMARY_IO_BASE : Z := 0x1F0.
Definition PRIMARY_CTRL_BASE : Z := 0x3F6.

Definition REG_DATA : Z := 0x00.
Definition REG_SECCOUNT0 : Z := 0x02.
Definition REG_LBA0 : Z := 0x03.
Definition REG_LBA1 : Z := 0x04.
Definition REG_LBA2 : Z := 0x05.
Definition REG_HDDEVSEL : Z := 0x06.
Definition REG_COMMAND : Z := 0x07.
Definition REG_STATUS : Z := REG_COMMAND.
Definition REG_ALTSTATUS : Z := 0x00.
Definition REG_DEVICE_CONTROL : Z := 0x00.

Definition STATUS_ERR : Z := 0x01.
Definition STATUS_DRQ : Z := 0x08.
Definition STATUS_DF : Z := 0x20.
Definition STATUS_BSY : Z := 0x80.

Definition CMD_IDENTIFY : Z := 0xEC.
Definition CMD_READ_SECTORS : Z := 0x20.
Definition CMD_WRITE_SECTORS : Z := 0x30.
Definition CMD_CACHE_FLUSH : Z := 0xE7.

Definition SECTOR_BYTES : Z := 512.

Section driver.
Context {P : Type} `{!PortIO P}.
Abbreviation MP := (M P DriverError).

Definition io_base : Z := PRIMARY_IO_BASE.
Definition ctrl_base : Z := PRIMARY_CTRL_BASE.

Fixpoint wait_reads (n : nat) : MP unit :=
  match n with O => mret tt | S n => _ ← inb (ctrl_base + REG_ALTSTATUS); wait_reads n end.
Definition wait_400ns : MP unit := wait_reads 4.

Definition has (status flag : Z) : bool := negb (Z.land status flag =? 0).

Fixpoint wait_until (mask value : Z) (timeout : nat) : MP unit :=
  match timeout with
  | O => throw IoError
  | S timeout =>
      status ← inb (io_base + REG_STATUS);
      if negb (has status STATUS_BSY) && (Z.land status mask =? value) then
        if has status STATUS_ERR || has status STATUS_DF then throw IoError else mret tt
      else wait_until mask value timeout
  end.

Definition TIMEOUT : nat := Z.to_nat 100000.
Definition FLUSH_TIMEOUT : nat := Z.to_nat 200000.

Definition select_drive (lba : Z) : MP unit :=
  let head := Z.land (Z.shiftr lba 24) 0x0F in
  outb (io_base + REG_HDDEVSEL) (Z.lor 0xE0 head).

(** [while status & STATUS_BSY != 0]: the loop has no limit of its own. *)
Fixpoint wait_not_busy (fuel : nat) (status : Z) : MP Z :=
  if has status STATUS_BSY then
    match fuel with
    | O => λ _, Hang
    | S fuel => status ← inb (io_base + REG_STATUS); wait_not_busy fuel status
    end
  else mret status.

Definition issue_identify (fuel : nat) : MP unit :=
  _ ← select_drive 0;
  _ ← wait_400ns;
  _ ← outb (io_base + REG_SECCOUNT0) 0;
  _ ← outb (io_base + REG_LBA0) 0;
  _ ← outb (io_base + REG_LBA1) 0;
  _ ← outb (io_base + REG_LBA2) 0;
  _ ← outb (io_base + REG_COMMAND) CMD_IDENTIFY;
  status ← inb (io_base + REG_STATUS);
  if status =? 0 then throw Unsupported
  else
    status ← wait_not_busy fuel status;
    if has status STATUS_ERR then throw IoError
    else
      _ ← wait_until STATUS_DRQ STATUS_DRQ TIMEOUT;
      _ ← insw (io_base + REG_DATA) 256;
      mret tt.

(** The registers of a transfer of one sector, and the command. *)
Definition program_transfer (lba command : Z) : MP unit :=
  _ ← select_drive lba;
  _ ← wait_400ns;
  _ ← outb (ctrl_base + REG_DEVICE_CONTROL) 0;
  _ ← outb (io_base + REG_SECCOUNT0) 1;
  _ ← outb (io_base + REG_LBA0) (Z.land lba 0xFF);
  _ ← outb (io_base + REG_LBA1) (Z.land (Z.shiftr lba 8) 0xFF);
  _ ← outb (io_base + REG_LBA2) (Z.land (Z.shiftr lba 16) 0xFF);
  outb (io_base + REG_COMMAND) command.

Definition pio_read_sector (lba : Z) : MP (list Z) :=
  _ ← program_transfer lba CMD_READ_SECTORS;
  _ ← wait_until STATUS_DRQ STATUS_DRQ TIMEOUT;
  insw (io_base + REG_DATA) (Z.to_nat (SECTOR_BYTES / 2)).

Definition pio_write_sector (lba : Z) (buffer : list Z) : MP unit :=
  _ ← program_transfer lba CMD_WRITE_SECTORS;
  _ ← wait_until STATUS_DRQ STATUS_DRQ TIMEOUT;
  _ ← outsw (io_base + REG_DATA) (Z.to_nat (SECTOR_BYTES / 2)) buffer;
  _ ← wait_until STATUS_DRQ 0 TIMEOUT;
  st ← inb (io_base + REG_STATUS);
  if negb (Z.land st (Z.lor STATUS_ERR STATUS_DF) =? 0) then throw IoError else mret tt.

Definition flush_locked : MP unit :=
  _ ← outb (io_base + REG_COMMAND) CMD_CACHE_FLUSH;
  _ ← wait_until 0 0 FLUSH_TIMEOUT;
  st ← inb (io_base + REG_STATUS);
  if negb (Z.land st (Z.lor STATUS_ERR STATUS_DF) =? 0) then throw IoError else mret tt.

(** The loops over the sectors of a buffer, with the index of the sector. *)
Fixpoint read_sectors (lba index : Z) (sectors : nat) : MP (list Z) :=
  match sectors with
  | O => mret []
  | S sectors =>
      target ← lift (add64 lba index);
      sector ← pio_read_sector target;
      rest ← read_sectors lba (index + 1) sectors;
      mret (sector ++ rest)
  end.

Fixpoint write_sectors (lba index : Z) (sectors : nat) (buf : list Z) : MP unit :=
  match sectors with
  | O => mret tt
  | S sectors =>
      target ← lift (add64 lba index);
      _ ← pio_write_sector target (take 512 buf);
      write_sectors lba (index + 1) sectors (drop 512 buf)
  end.

Definition ata_read_blocks (lba len : Z) : MP (list Z) :=
  if negb (len mod SECTOR_BYTES =? 0) then throw Unsupported
  else read_sectors lba 0 (Z.to_nat (len / SECTOR_BYTES)).

Definition ata_write_blocks (lba : Z) (buf : list Z) : MP unit :=
  let len := Z.of_nat (length buf) in
  if negb (len mod SECTOR_BYTES =? 0) then throw Unsupported
  else if len / SECTOR_BYTES =? 0 then mret tt
  else
    _ ← write_sectors lba 0 (Z.to_nat (len / SECTOR_BYTES)) buf;
    flush_locked.

Definition AtaPrimaryMaster (fuel : nat) : BlockDevice P :=
  mkBlockDevice "ata0-master" (issue_identify fuel) SECTOR_BYTES ata_read_blocks ata_write_blocks flush_locked.

End driver.

End Ata.
