(* ===== verification/AtaSpec.v ===== *)
(** * The ATA driver is a block device

    [AtaDrive] states the programmed-I/O protocol of the ATA specification for a
    drive that works: what its registers hold, how the transfers of the data port
    go, and that it is ready again within as many status reads as the driver
    waits.  Over any ports with such a drive the driver keeps the promises of
    [BlockDeviceLaws], on which the file systems rely. *)

From S2P Require Import Prelude Mem Heap RawVec Types Drivers Ports Ata.
Local Open Scope Z_scope.

Module AtaSpec.
Import Ports Ata.

(** ** The drive *)

Inductive phase := Idle | Reading (rest : list Z) | Writing (lba : Z) (got : list Z).

(** The contents, the registers, the transfer under way and the number of status
    reads for which the drive is still busy. *)
Record drive_state := mkDrive {
  dr_disk : list Z; dr_select : Z; dr_count : Z; dr_lba0 : Z; dr_lba1 : Z; dr_lba2 : Z; dr_phase : phase; dr_busy : nat
}.

Definition set_disk x d := mkDrive x (dr_select d) (dr_count d) (dr_lba0 d) (dr_lba1 d) (dr_lba2 d) (dr_phase d) (dr_busy d).
Definition set_select x d := mkDrive (dr_disk d) x (dr_count d) (dr_lba0 d) (dr_lba1 d) (dr_lba2 d) (dr_phase d) (dr_busy d).
Definition set_count x d := mkDrive (dr_disk d) (dr_select d) x (dr_lba0 d) (dr_lba1 d) (dr_lba2 d) (dr_phase d) (dr_busy d).
Definition set_lba0 x d := mkDrive (dr_disk d) (dr_select d) (dr_count d) x (dr_lba1 d) (dr_lba2 d) (dr_phase d) (dr_busy d).
Definition set_lba1 x d := mkDrive (dr_disk d) (dr_select d) (dr_count d) (dr_lba0 d) x (dr_lba2 d) (dr_phase d) (dr_busy d).
Definition set_lba2 x d := mkDrive (dr_disk d) (dr_select d) (dr_count d) (dr_lba0 d) (dr_lba1 d) x (dr_phase d) (dr_busy d).
Definition set_phase x d := mkDrive (dr_disk d) (dr_select d) (dr_count d) (dr_lba0 d) (dr_lba1 d) (dr_lba2 d) x (dr_busy d).
Definition set_busy x d := mkDrive (dr_disk d) (dr_select d) (dr_count d) (dr_lba0 d) (dr_lba1 d) (dr_lba2 d) (dr_phase d) x.

(** The 28-bit sector number in the registers. *)
Definition address (d : drive_state) : Z := dr_lba0 d + 256 * dr_lba1 d + 65536 * dr_lba2 d + 2 ^ 24 * (dr_select d mod 16).

Definition sector (disk : list Z) (lba : Z) : list Z := take 512 (drop (Z.to_nat (lba * 512)) disk).
Definition replace_sector (disk : list Z) (lba : Z) (bs : list Z) : list Z :=
  take (Z.to_nat (lba * 512)) disk ++ bs ++ drop (Z.to_nat (lba * 512) + 512) disk.

(** The registers select the master in LBA mode and one sector of the disk. *)
Definition addressed (d : drive_state) : Prop :=
  dr_phase d = Idle ∧ dr_busy d = 0%nat ∧ dr_select d / 16 = 14 ∧ dr_count d = 1 ∧ (address d + 1) * 512 ≤ Z.of_nat (length (dr_disk d)).

Definition idle (d : drive_state) : bool := match dr_phase d with Idle => true | _ => false end.

Class AtaDrive (P : Type) `{!PortIO P} := {
  drive : P → drive_state;
  ad_select : ∀ p v, drive (out8 0x1F6 v p) = set_select v (drive p);
  ad_count : ∀ p v, drive (out8 0x1F2 v p) = set_count v (drive p);
  ad_lba0 : ∀ p v, drive (out8 0x1F3 v p) = set_lba0 v (drive p);
  ad_lba1 : ∀ p v, drive (out8 0x1F4 v p) = set_lba1 v (drive p);
  ad_lba2 : ∀ p v, drive (out8 0x1F5 v p) = set_lba2 v (drive p);
  ad_control : ∀ p, drive (out8 0x3F6 0 p) = drive p;
  ad_alternate : ∀ p, drive (in8 0x3F6 p).2 = drive p;
  ad_status_busy : ∀ p n, dr_busy (drive p) = S n →
    has (in8 0x1F7 p).1 STATUS_BSY = true ∧ drive (in8 0x1F7 p).2 = set_busy n (drive p);
  ad_status_ready : ∀ p, dr_busy (drive p) = 0%nat →
    has (in8 0x1F7 p).1 STATUS_BSY = false ∧ Z.land (in8 0x1F7 p).1 (Z.lor STATUS_ERR STATUS_DF) = 0 ∧
    Z.land (in8 0x1F7 p).1 STATUS_DRQ = (if idle (drive p) then 0 else STATUS_DRQ) ∧ drive (in8 0x1F7 p).2 = drive p;
  ad_read : ∀ p, addressed (drive p) → ∃ n, (n < TIMEOUT)%nat ∧
    drive (out8 0x1F7 CMD_READ_SECTORS p) = set_busy n (set_phase (Reading (sector (dr_disk (drive p)) (address (drive p)))) (drive p));
  ad_write : ∀ p, addressed (drive p) → ∃ n, (n < TIMEOUT)%nat ∧
    drive (out8 0x1F7 CMD_WRITE_SECTORS p) = set_busy n (set_phase (Writing (address (drive p)) []) (drive p));
  ad_flush : ∀ p, dr_phase (drive p) = Idle → dr_busy (drive p) = 0%nat → ∃ n, (n < TIMEOUT)%nat ∧
    drive (out8 0x1F7 CMD_CACHE_FLUSH p) = set_busy n (drive p);
  ad_data_in : ∀ p a b rest, dr_phase (drive p) = Reading (a :: b :: rest) → dr_busy (drive p) = 0%nat →
    (in16 0x1F0 p).1 = a + 256 * b ∧
    drive (in16 0x1F0 p).2 = set_phase (if decide (rest = []) then Idle else Reading rest) (drive p);
  ad_data_out : ∀ p w lba got, dr_phase (drive p) = Writing lba got → dr_busy (drive p) = 0%nat → (length got + 2 < 512)%nat →
    drive (out16 0x1F0 w p) = set_phase (Writing lba (got ++ le_bytes 2 w)) (drive p);
  ad_data_last : ∀ p w lba got, dr_phase (drive p) = Writing lba got → dr_busy (drive p) = 0%nat → (length got + 2 = 512)%nat →
    ∃ n, (n < TIMEOUT)%nat ∧
    drive (out16 0x1F0 w p) =
      set_busy n (set_phase Idle (set_disk (replace_sector (dr_disk (drive p)) lba (got ++ le_bytes 2 w)) (drive p)))
}.

(** ** The driver over it *)

Section spec.
Context {P : Type} `{!PortIO P, !AtaDrive P}.
Implicit Types p : P.

Lemma inb_pair port p : @inb P _ DriverError port p = Ok ((in8 port p).1, (in8 port p).2).
Proof. unfold inb. by destruct (in8 port p). Qed.

Lemma wait_reads_ok n p : ∃ p', wait_reads n p = Ok (tt, p') ∧ drive p' = drive p.
Proof.
  revert p. induction n as [|n IH]; intros p; [by exists p|]. destruct (IH (in8 0x3F6 p).2) as (p' & Hp & Hd). exists p'.
  split; [|by rewrite Hd, ad_alternate]. cbn [wait_reads].
  by rewrite (M_bind_ok _ _ _ _ _ (inb_pair (ctrl_base + REG_ALTSTATUS) p)).
Qed.

Lemma inb_status p : @inb P _ DriverError (io_base + REG_STATUS) p = Ok ((in8 0x1F7 p).1, (in8 0x1F7 p).2).
Proof. apply (inb_pair 0x1F7). Qed.

Lemma no_error s : Z.land s (Z.lor STATUS_ERR STATUS_DF) = 0 → has s STATUS_ERR = false ∧ has s STATUS_DF = false.
Proof.
  rewrite Z.land_lor_distr_r. intros H. apply Z.lor_eq_0_iff in H as [H1 H2]. unfold has. by rewrite H1, H2.
Qed.

(** The status bits waited for are those of a drive that is ready. *)
Definition awaited (mask value : Z) (d : drive_state) : Prop :=
  mask = STATUS_DRQ ∧ value = (if idle d then 0 else STATUS_DRQ) ∨ mask = 0 ∧ value = 0.

Lemma wait_until_ok mask value timeout p : awaited mask value (drive p) → (dr_busy (drive p) < timeout)%nat →
  ∃ p', wait_until mask value timeout p = Ok (tt, p') ∧ drive p' = set_busy 0 (drive p).
Proof.
  revert p. induction timeout as [|timeout IH]; intros p Ha Hb; [lia|]. cbn [wait_until].
  rewrite (M_bind_ok _ _ _ _ _ (inb_status p)). destruct (dr_busy (drive p)) as [|n] eqn:Hn.
  - destruct (ad_status_ready p Hn) as (H1 & [H2 H3]%no_error & H4 & H5). rewrite H1, H2, H3. cbn [negb orb].
    assert ((Z.land (in8 0x1F7 p).1 mask =? value) = true) as ->.
    { apply Z.eqb_eq. destruct Ha as [[-> ->]|[-> ->]]; [done|apply Z.land_0_r]. }
    exists (in8 0x1F7 p).2. split; [done|]. rewrite H5. destruct (drive p) eqn:E. cbn in Hn. by subst.
  - destruct (ad_status_busy p n Hn) as [H1 H2]. rewrite H1. cbn [negb andb].
    destruct (IH (in8 0x1F7 p).2) as (p' & Hp' & Hd'); [by rewrite H2|rewrite H2; cbn; lia|]. exists p'. split; [done|]. by rewrite Hd', H2.
Qed.

(** The registers of a transfer. *)
Definition programmed (lba : Z) (d : drive_state) : drive_state :=
  mkDrive (dr_disk d) (Z.lor 0xE0 (Z.land (Z.shiftr lba 24) 0x0F)) 1 (Z.land lba 0xFF) (Z.land (Z.shiftr lba 8) 0xFF)
    (Z.land (Z.shiftr lba 16) 0xFF) (dr_phase d) (dr_busy d).

Lemma program_transfer_ok lba command p :
  ∃ p', program_transfer lba command p = Ok (tt, out8 0x1F7 command p') ∧ drive p' = programmed lba (drive p).
Proof.
  destruct (wait_reads_ok 4 (out8 0x1F6 (Z.lor 0xE0 (Z.land (Z.shiftr lba 24) 0x0F)) p)) as (p1 & Hw & Hd).
  exists (out8 0x1F5 (Z.land (Z.shiftr lba 16) 0xFF) (out8 0x1F4 (Z.land (Z.shiftr lba 8) 0xFF) (out8 0x1F3 (Z.land lba 0xFF)
    (out8 0x1F2 1 (out8 0x3F6 0 p1))))). split.
  - unfold program_transfer, wait_400ns. rewrite (M_bind_ok (select_drive lba) _ p tt _ eq_refl).
    change (io_base + REG_HDDEVSEL) with 0x1F6. by rewrite (M_bind_ok _ _ _ _ _ Hw).
  - rewrite ad_lba2, ad_lba1, ad_lba0, ad_count, ad_control, Hd, ad_select. done.
Qed.

Lemma select_bits h : 0 ≤ h < 16 → Z.lor 0xE0 h = 224 + h.
Proof.
  intros Hh. assert (forallb (λ n, Z.lor 0xE0 (Z.of_nat n) =? 224 + Z.of_nat n) (seq 0 16) = true) as H by (by vm_compute).
  rewrite forallb_forall in H. specialize (H (Z.to_nat h)). rewrite Z2Nat.id in H by lia. apply Z.eqb_eq, H, in_seq. lia.
Qed.

Lemma programmed_addressed lba d : dr_phase d = Idle → dr_busy d = 0%nat → 0 ≤ lba < 2 ^ 28 → (lba + 1) * 512 ≤ Z.of_nat (length (dr_disk d)) →
  addressed (programmed lba d) ∧ address (programmed lba d) = lba.
Proof.
  intros Hp Hb Hl Hd. assert (0 ≤ lba / 2 ^ 24 < 16) as Hh by (split; [apply Z.div_pos; lia|apply Z.div_lt_upper_bound; lia]).
  assert (Z.lor 0xE0 (Z.land (Z.shiftr lba 24) 0x0F) = 224 + lba / 2 ^ 24) as Es.
  { change 0x0F with (Z.ones 4). rewrite Z.land_ones, Z.shiftr_div_pow2, Z.mod_small by (change (2 ^ 4) with 16; lia). by apply select_bits. }
  assert (address (programmed lba d) = lba) as Ha.
  { unfold address, programmed. cbn [dr_lba0 dr_lba1 dr_lba2 dr_select]. rewrite Es. change 0xFF with (Z.ones 8).
    rewrite !Z.land_ones, !Z.shiftr_div_pow2 by lia. change (2 ^ 8) with 256. change (2 ^ 16) with 65536. change (2 ^ 24) with 16777216 in *.
    Z.div_mod_to_equations. lia. }
  split; [|done]. split_and!; [done|done| |done|by rewrite Ha].
  cbn [programmed dr_select]. rewrite Es. change (2 ^ 24) with 16777216 in *. Z.div_mod_to_equations. lia.
Qed.

(** ** The data port *)

Lemma insw_ok n p bs : length bs = (2 * n)%nat → Forall byte bs → (0 < n)%nat → dr_phase (drive p) = Reading bs → dr_busy (drive p) = 0%nat →
  ∃ p', @insw P _ DriverError (io_base + REG_DATA) n p = Ok (bs, p') ∧ drive p' = set_phase Idle (drive p).
Proof.
  revert p bs. induction n as [|n IH]; intros p bs Hlen Hby Hn Hph Hb; [lia|].
  destruct bs as [|a [|b rest]]; [cbn in Hlen; lia..|]. cbn [length] in Hlen. rewrite !Forall_cons in Hby. destruct Hby as (Ha & Hb' & Hby).
  destruct (ad_data_in p a b rest Hph Hb) as [Hv Hd]. cbn [insw].
  assert (@inw P _ DriverError (io_base + REG_DATA) p = Ok (a + 256 * b, (in16 0x1F0 p).2)) as Hin.
  { unfold inw. change (io_base + REG_DATA) with 0x1F0. destruct (in16 0x1F0 p) eqn:E. cbn in Hv |- *. by rewrite Hv. }
  rewrite (M_bind_ok _ _ _ _ _ Hin).
  assert (le_bytes 2 (a + 256 * b) = [a; b]) as Hle.
  { pose proof (le_bytes_val [a; b] ltac:(rewrite !Forall_cons; split_and!; [done|done|apply Forall_nil_2])) as H. cbn [le_val length] in H.
    by replace (b + 256 * 0) with b in H by lia. }
  rewrite Hle. destruct n as [|n].
  - assert (rest = []) as -> by (destruct rest; [done|cbn in Hlen; lia]). rewrite decide_True in Hd by done. by exists (in16 0x1F0 p).2.
  - assert (rest ≠ []) as Hne by (destruct rest; [cbn in Hlen; lia|done]). rewrite decide_False in Hd by done.
    destruct (IH (in16 0x1F0 p).2 rest) as (p' & Hp' & Hd'); [lia|done|lia|by rewrite Hd|by rewrite Hd|].
    exists p'. split; [by rewrite (M_bind_ok _ _ _ _ _ Hp')|]. by rewrite Hd', Hd.
Qed.

Lemma outsw_ok n p lba got bs : Forall byte bs → length bs = (2 * n)%nat → (length got + 2 * n = 512)%nat → (0 < n)%nat →
  dr_phase (drive p) = Writing lba got → dr_busy (drive p) = 0%nat →
  ∃ p' k, @outsw P _ DriverError (io_base + REG_DATA) n bs p = Ok (tt, p') ∧ (k < TIMEOUT)%nat ∧
    drive p' = set_busy k (set_phase Idle (set_disk (replace_sector (dr_disk (drive p)) lba (got ++ bs)) (drive p))).
Proof.
  revert p got bs. induction n as [|n IH]; intros p got bs Hby Hlen Hgot Hn Hph Hb; [lia|].
  destruct bs as [|a [|b rest]]; [cbn in Hlen; lia..|]. cbn [length] in Hlen. rewrite !Forall_cons in Hby. destruct Hby as (Ha & Hb' & Hby).
  cbn [outsw]. change (take 2 (a :: b :: rest)) with [a; b]. change (drop 2 (a :: b :: rest)) with rest.
  assert (le_bytes 2 (le_val [a; b]) = [a; b]) as Hle by (apply (le_bytes_val [a; b]); rewrite !Forall_cons; split_and!; [done|done|apply Forall_nil_2]).
  rewrite (M_bind_ok (outw (io_base + REG_DATA) (le_val [a; b])) _ p tt (out16 0x1F0 (le_val [a; b]) p) eq_refl).
  destruct n as [|n].
  - assert (rest = []) as -> by (destruct rest; [done|cbn in Hlen; lia]).
    destruct (ad_data_last p (le_val [a; b]) lba got Hph Hb ltac:(lia)) as (k & Hk & Hd). rewrite Hle in Hd.
    exists (out16 0x1F0 (le_val [a; b]) p), k. done.
  - pose proof (ad_data_out p (le_val [a; b]) lba got Hph Hb ltac:(lia)) as Hd. rewrite Hle in Hd.
    destruct (IH (out16 0x1F0 (le_val [a; b]) p) (got ++ [a; b]) rest) as (p' & k & Hp' & Hk & Hd'); try done; rewrite ?Hd; try done; try lia.
    { rewrite length_app. cbn. lia. }
    exists p', k. split_and!; try done. rewrite Hd', Hd. cbn [dr_disk set_phase]. rewrite <- app_assoc. done.
Qed.

(** ** Sectors *)

Record ata_inv (p : P) : Prop := {
  ai_idle : dr_phase (drive p) = Idle;
  ai_ready : dr_busy (drive p) = 0%nat;
  ai_bytes : Forall byte (dr_disk (drive p));
  ai_size : Z.of_nat (length (dr_disk (drive p))) ≤ 2 ^ 28 * 512
}.

Definition contents (p : P) : list Z := dr_disk (drive p).

Lemma set_busy_phase d : dr_busy d = 0%nat → dr_phase d = Idle → set_busy 0 (set_phase Idle d) = d.
Proof. destruct d. cbn. by intros -> ->. Qed.

Lemma pio_read_ok lba p : ata_inv p → 0 ≤ lba → (lba + 1) * 512 ≤ Z.of_nat (length (contents p)) →
  ∃ p', pio_read_sector lba p = Ok (sector (contents p) lba, p') ∧ ata_inv p' ∧ contents p' = contents p.
Proof.
  intros [H1 H2 H3 H4] Hl Hend. unfold contents in *. destruct (program_transfer_ok lba CMD_READ_SECTORS p) as (p1 & Hp1 & Hd1).
  destruct (programmed_addressed lba (drive p) H1 H2 ltac:(lia) Hend) as [Hadr Hlba]. rewrite <- Hd1 in Hadr, Hlba.
  destruct (ad_read p1 Hadr) as (n & Hn & Hd2). rewrite Hlba in Hd2. set (p2 := out8 0x1F7 CMD_READ_SECTORS p1) in *.
  destruct (wait_until_ok STATUS_DRQ STATUS_DRQ TIMEOUT p2) as (p3 & Hp3 & Hd3); [left; by rewrite Hd2|by rewrite Hd2|].
  assert (length (sector (dr_disk (drive p)) lba) = 512%nat) as Hlen.
  { unfold sector. rewrite length_take, length_drop. lia. }
  rewrite Hd2 in Hd3. change (dr_disk (drive p1)) with (dr_disk (drive p1)) in Hd3.
  assert (dr_disk (drive p1) = dr_disk (drive p)) as Hdisk by (by rewrite Hd1). rewrite Hdisk in Hd3.
  destruct (insw_ok 256 p3 (sector (dr_disk (drive p)) lba)) as (p4 & Hp4 & Hd4).
  { done. }
  { by apply Forall_take, Forall_drop. }
  { lia. }
  { by rewrite Hd3. }
  { by rewrite Hd3. }
  exists p4. unfold pio_read_sector. rewrite (M_bind_ok _ _ _ _ _ Hp1), (M_bind_ok _ _ _ _ _ Hp3).
  split; [exact Hp4|]. split; [split|]; by rewrite Hd4, Hd3, Hd1.
Qed.

Lemma status_clear p : dr_busy (drive p) = 0%nat →
  ∃ p', (st ← inb (io_base + REG_STATUS); if negb (Z.land st (Z.lor STATUS_ERR STATUS_DF) =? 0) then throw IoError else mret tt) p =
    Ok (tt, p') ∧ drive p' = drive p.
Proof.
  intros Hb. destruct (ad_status_ready p Hb) as (_ & He & _ & Hd). exists (in8 0x1F7 p).2. split; [|done].
  rewrite (M_bind_ok _ _ _ _ _ (inb_status p)). by rewrite He.
Qed.

Lemma pio_write_ok lba bs p : ata_inv p → 0 ≤ lba → (lba + 1) * 512 ≤ Z.of_nat (length (contents p)) → Forall byte bs → length bs = 512%nat →
  ∃ p', pio_write_sector lba bs p = Ok (tt, p') ∧ ata_inv p' ∧ contents p' = replace_sector (contents p) lba bs.
Proof.
  intros [H1 H2 H3 H4] Hl Hend Hby Hbs. unfold contents in *. destruct (program_transfer_ok lba CMD_WRITE_SECTORS p) as (p1 & Hp1 & Hd1).
  destruct (programmed_addressed lba (drive p) H1 H2 ltac:(lia) Hend) as [Hadr Hlba]. rewrite <- Hd1 in Hadr, Hlba.
  destruct (ad_write p1 Hadr) as (n & Hn & Hd2). rewrite Hlba in Hd2. set (p2 := out8 0x1F7 CMD_WRITE_SECTORS p1) in *.
  destruct (wait_until_ok STATUS_DRQ STATUS_DRQ TIMEOUT p2) as (p3 & Hp3 & Hd3); [left; by rewrite Hd2|by rewrite Hd2|]. rewrite Hd2 in Hd3.
  destruct (outsw_ok 256 p3 lba [] bs) as (p4 & k & Hp4 & Hk & Hd4); [done|done|done|lia|by rewrite Hd3|by rewrite Hd3|].
  destruct (wait_until_ok STATUS_DRQ 0 TIMEOUT p4) as (p5 & Hp5 & Hd5); [left; by rewrite Hd4|by rewrite Hd4|].
  destruct (status_clear p5) as (p6 & Hp6 & Hd6); [by rewrite Hd5|].
  exists p6. split.
  { unfold pio_write_sector. rewrite (M_bind_ok _ _ _ _ _ Hp1), (M_bind_ok _ _ _ _ _ Hp3), (M_bind_ok _ _ _ _ _ Hp4), (M_bind_ok _ _ _ _ _ Hp5). exact Hp6. }
  assert (length (replace_sector (dr_disk (drive p)) lba bs) = length (dr_disk (drive p))) as Hlen.
  { unfold replace_sector. rewrite !length_app, length_take, length_drop. lia. }
  split; [split|]; rewrite Hd6, Hd5, Hd4, Hd3, Hd1; cbn [set_busy set_phase set_disk programmed dr_disk app]; [done|done| | |done].
  - unfold replace_sector. rewrite !Forall_app. split_and!; [by apply Forall_take|done|by apply Forall_drop].
  - by rewrite Hlen.
Qed.

Lemma flush_ok p : ata_inv p → ∃ p', flush_locked p = Ok (tt, p') ∧ ata_inv p' ∧ contents p' = contents p.
Proof.
  intros [H1 H2 H3 H4]. destruct (ad_flush p H1 H2) as (n & Hn & Hd1). set (p1 := out8 0x1F7 CMD_CACHE_FLUSH p) in *.
  destruct (wait_until_ok 0 0 FLUSH_TIMEOUT p1) as (p2 & Hp2 & Hd2); [by right|rewrite Hd1; cbn; unfold FLUSH_TIMEOUT, TIMEOUT in *; lia|].
  rewrite Hd1 in Hd2. destruct (status_clear p2) as (p3 & Hp3 & Hd3); [by rewrite Hd2|]. exists p3. split.
  - unfold flush_locked. rewrite (M_bind_ok (outb (io_base + REG_COMMAND) CMD_CACHE_FLUSH) _ p tt p1 eq_refl), (M_bind_ok _ _ _ _ _ Hp2). exact Hp3.
  - unfold contents. split; [split|]; by rewrite Hd3, Hd2.
Qed.

Lemma read_sectors_ok n lba index p : ata_inv p → 0 ≤ lba → 0 ≤ index →
  (lba + index + Z.of_nat n) * 512 ≤ Z.of_nat (length (contents p)) →
  ∃ p', read_sectors lba index n p = Ok (take (n * 512) (drop (Z.to_nat ((lba + index) * 512)) (contents p)), p') ∧ ata_inv p' ∧
    contents p' = contents p.
Proof.
  revert index p. induction n as [|n IH]; intros index p Hp Hl Hi Hend; [by exists p|]. cbn [read_sectors].
  pose proof (ai_size p Hp) as Hsz. unfold contents in Hend.
  rewrite (M_bind_lift _ _ _ (lba + index)) by (apply add64_ok; lia).
  destruct (pio_read_ok (lba + index) p Hp) as (p1 & Hr & Hp1 & Hc1); [lia|unfold contents; lia|]. rewrite (M_bind_ok _ _ _ _ _ Hr).
  destruct (IH (index + 1) p1 Hp1 Hl) as (p2 & Hr2 & Hp2 & Hc2); [lia|rewrite Hc1; unfold contents; lia|]. rewrite (M_bind_ok _ _ _ _ _ Hr2).
  exists p2. rewrite Hc2, Hc1. split_and!; try done. unfold mret, M_ret. do 2 f_equal. unfold sector.
  replace (Z.to_nat ((lba + (index + 1)) * 512)) with (Z.to_nat ((lba + index) * 512) + 512)%nat by lia. rewrite <- drop_drop.
  by rewrite take_take_drop.
Qed.

Lemma replace_sectors d lba b1 bs : 0 ≤ lba → length b1 = 512%nat → (lba + 1) * 512 ≤ Z.of_nat (length d) →
  let d1 := replace_sector d lba b1 in
  take (Z.to_nat ((lba + 1) * 512)) d1 ++ bs ++ drop (Z.to_nat ((lba + 1) * 512) + length bs) d1 =
    take (Z.to_nat (lba * 512)) d ++ (b1 ++ bs) ++ drop (Z.to_nat (lba * 512) + length (b1 ++ bs)) d.
Proof.
  intros Hl Hb Hd d1. unfold d1, replace_sector. set (a := Z.to_nat (lba * 512)). replace (Z.to_nat ((lba + 1) * 512)) with (a + 512)%nat by lia.
  assert (length (take a d ++ b1) = (a + 512)%nat) as Hlen by (rewrite length_app, length_take; lia).
  rewrite (app_assoc (take a d) b1), (take_app_length' (take a d ++ b1)) by done. rewrite drop_app_add' by done. rewrite drop_drop, length_app, Hb.
  rewrite <- !app_assoc. do 4 f_equal. lia.
Qed.

Lemma write_sectors_ok n lba index bs p : ata_inv p → 0 ≤ lba → 0 ≤ index → Forall byte bs → length bs = (n * 512)%nat →
  (lba + index + Z.of_nat n) * 512 ≤ Z.of_nat (length (contents p)) →
  ∃ p', write_sectors lba index n bs p = Ok (tt, p') ∧ ata_inv p' ∧
    contents p' = take (Z.to_nat ((lba + index) * 512)) (contents p) ++ bs ++ drop (Z.to_nat ((lba + index) * 512) + length bs) (contents p).
Proof.
  revert index bs p. induction n as [|n IH]; intros index bs p Hp Hl Hi Hby Hlen Hend.
  { exists p. destruct bs; [|done]. cbn [app length]. rewrite Nat.add_0_r, take_drop. done. }
  cbn [write_sectors]. pose proof (ai_size p Hp) as Hsz. unfold contents in Hend.
  rewrite (M_bind_lift _ _ _ (lba + index)) by (apply add64_ok; lia).
  destruct (pio_write_ok (lba + index) (take 512 bs) p Hp) as (p1 & Hr & Hp1 & Hc1); [lia|unfold contents; lia|by apply Forall_take|rewrite length_take; lia|].
  rewrite (M_bind_ok _ _ _ _ _ Hr).
  assert (length (contents p1) = length (contents p)) as Hsame.
  { rewrite Hc1. unfold replace_sector. rewrite !length_app, !length_take, length_drop. unfold contents. lia. }
  destruct (IH (index + 1) (drop 512 bs) p1 Hp1 Hl) as (p2 & Hr2 & Hp2 & Hc2); [lia|by apply Forall_drop|rewrite length_drop; lia|rewrite Hsame; unfold contents; lia|].
  exists p2. split_and!; try done. rewrite Hc2, Hc1. rewrite Z.add_assoc. rewrite replace_sectors by (rewrite ?length_take; unfold contents; lia).
  by rewrite take_drop.
Qed.

Lemma read_blocks_ok lba n p : ata_inv p → 0 ≤ lba → (lba + Z.of_nat n) * 512 ≤ Z.of_nat (length (contents p)) →
  ∃ p', ata_read_blocks lba (Z.of_nat n * 512) p = Ok (take (n * 512) (drop (Z.to_nat (lba * 512)) (contents p)), p') ∧ ata_inv p' ∧
    contents p' = contents p.
Proof.
  intros Hp Hl Hend. unfold ata_read_blocks, SECTOR_BYTES. rewrite Z.mod_mul, Z.div_mul, Nat2Z.id by lia. cbn [negb Z.eqb].
  destruct (read_sectors_ok n lba 0 p Hp Hl ltac:(lia)) as (p' & Hr & Hp' & Hc); [lia|]. exists p'. rewrite Hr, Z.add_0_r. done.
Qed.

Lemma write_blocks_ok lba n bs p : ata_inv p → 0 ≤ lba → Forall byte bs → length bs = (n * 512)%nat →
  (lba + Z.of_nat n) * 512 ≤ Z.of_nat (length (contents p)) →
  ∃ p', ata_write_blocks lba bs p = Ok (tt, p') ∧ ata_inv p' ∧
    contents p' = take (Z.to_nat (lba * 512)) (contents p) ++ bs ++ drop (Z.to_nat (lba * 512) + length bs) (contents p).
Proof.
  intros Hp Hl Hby Hlen Hend. unfold ata_write_blocks, SECTOR_BYTES. rewrite Hlen. replace (Z.of_nat (n * 512)) with (Z.of_nat n * 512) by lia.
  rewrite Z.mod_mul, Z.div_mul, Nat2Z.id by lia. cbn [negb Z.eqb].
  destruct (write_sectors_ok n lba 0 bs p Hp Hl ltac:(lia) Hby Hlen) as (p1 & Hw & Hp1 & Hc1); [lia|]. rewrite Z.add_0_r in Hc1.
  destruct (Z.eqb_spec (Z.of_nat n) 0) as [H0|H0].
  - exists p. assert (n = 0%nat) as -> by lia. destruct bs; [|done]. cbn [app length]. by rewrite Nat.add_0_r, take_drop.
  - destruct (flush_ok p1 Hp1) as (p2 & Hf & Hp2 & Hc2). exists p2. rewrite (M_bind_ok _ _ _ _ _ Hw), Hf, Hc2, Hc1, Hlen. done.
Qed.

(** The driver keeps the interface the file systems are verified against. *)
#[export] Program Instance ata_block_laws fuel : BlockDeviceLaws (AtaPrimaryMaster (P:=P) fuel) :=
  { bd_disk := contents; bd_inv := ata_inv }.
Next Obligation. done. Qed.
Next Obligation. intros fuel p lba n Hp Hl Hend. by apply read_blocks_ok. Qed.
Next Obligation. intros fuel p lba n bs Hp Hl Hby Hlen Hend. by apply (write_blocks_ok lba n). Qed.
Next Obligation. intros fuel p Hp. apply (flush_ok p Hp). Qed.
Next Obligation. intros fuel p []. done. Qed.

(** C40. The ATA driver.  Over ports with a working ATA drive, a read of whole
    sectors inside the disk returns its contents and changes nothing; a write of
    whole sectors replaces exactly them, on a drive that is then flushed; a buffer
    that is not a number of sectors is refused with nothing sent; and the drive is
    ready for the next request. *)
Theorem ata_driver_correct lba n bs p : ata_inv p → 0 ≤ lba → (lba + Z.of_nat n) * 512 ≤ Z.of_nat (length (contents p)) →
  (∃ p', ata_read_blocks lba (Z.of_nat n * 512) p = Ok (take (n * 512) (drop (Z.to_nat (lba * 512)) (contents p)), p') ∧ ata_inv p' ∧
    contents p' = contents p) ∧
  (Forall byte bs → length bs = (n * 512)%nat → ∃ p', ata_write_blocks lba bs p = Ok (tt, p') ∧ ata_inv p' ∧
    contents p' = take (Z.to_nat (lba * 512)) (contents p) ++ bs ++ drop (Z.to_nat (lba * 512) + length bs) (contents p)) ∧
  (Z.of_nat (length bs) mod 512 ≠ 0 → ata_write_blocks lba bs p = Err (Unsupported, p) ∧
    ata_read_blocks lba (Z.of_nat (length bs)) p = Err (Unsupported, p)).
Proof.
  intros Hp Hl Hend. split_and!; [by apply read_blocks_ok|intros Hby Hlen; by apply (write_blocks_ok lba n)|].
  intros Hm. unfold ata_write_blocks, ata_read_blocks, SECTOR_BYTES. by destruct (Z.eqb_spec (Z.of_nat (length bs) mod 512) 0).
Qed.

(** A drive that does not answer.  When the drive stays busy for as long as the
    driver waits, a transfer ends with an I/O error: the driver never hangs on it. *)
Theorem ata_timeout timeout mask value p : (timeout ≤ dr_busy (drive p))%nat →
  ∃ p', wait_until mask value timeout p = Err (IoError, p').
Proof.
  revert p. induction timeout as [|timeout IH]; intros p Hb; [by exists p|]. cbn [wait_until].
  rewrite (M_bind_ok _ _ _ _ _ (inb_status p)). destruct (dr_busy (drive p)) as [|n] eqn:Hn; [lia|].
  destruct (ad_status_busy p n Hn) as [H1 H2]. rewrite H1. cbn [negb andb]. apply IH. rewrite H2. cbn. lia.
Qed.

End spec.

(** ** A drive

    A drive that is busy for one status read after each command. *)

Definition sim_status (d : drive_state) : Z := if idle d then 0x40 else 0x48.

Definition sim_in8 (port : Z) (d : drive_state) : Z * drive_state :=
  if port =? 0x1F7 then match dr_busy d with S n => (0x80, set_busy n d) | O => (sim_status d, d) end else (0, d).

Definition sim_command (v : Z) (d : drive_state) : drive_state :=
  if v =? CMD_READ_SECTORS then set_busy 1 (set_phase (Reading (sector (dr_disk d) (address d))) d)
  else if v =? CMD_WRITE_SECTORS then set_busy 1 (set_phase (Writing (address d) []) d)
  else if v =? CMD_CACHE_FLUSH then set_busy 1 d else d.

Definition sim_out8 (port v : Z) (d : drive_state) : drive_state :=
  if port =? 0x1F2 then set_count v d
  else if port =? 0x1F3 then set_lba0 v d
  else if port =? 0x1F4 then set_lba1 v d
  else if port =? 0x1F5 then set_lba2 v d
  else if port =? 0x1F6 then set_select v d
  else if port =? 0x1F7 then sim_command v d
  else d.

Definition sim_in16 (port : Z) (d : drive_state) : Z * drive_state :=
  match dr_phase d with
  | Reading (a :: b :: rest) => (a + 256 * b, set_phase (if decide (rest = []) then Idle else Reading rest) d)
  | _ => (0, d)
  end.

Definition sim_out16 (port w : Z) (d : drive_state) : drive_state :=
  match dr_phase d with
  | Writing lba got =>
      if (length got + 2 <? 512)%nat then set_phase (Writing lba (got ++ le_bytes 2 w)) d
      else set_busy 1 (set_phase Idle (set_disk (replace_sector (dr_disk d) lba (got ++ le_bytes 2 w)) d))
  | _ => d
  end.

#[export] Instance sim_ports : PortIO drive_state := { in8 := sim_in8; out8 := sim_out8; in16 := sim_in16; out16 := sim_out16 }.

Lemma one_timeout : (1 < TIMEOUT)%nat.
Proof. unfold TIMEOUT. lia. Qed.

#[export] Program Instance sim_drive : AtaDrive drive_state := { drive := id }.
Next Obligation. done. Qed.
Next Obligation. done. Qed.
Next Obligation. done. Qed.
Next Obligation. done. Qed.
Next Obligation. done. Qed.
Next Obligation. done. Qed.
Next Obligation. done. Qed.
Next Obligation. intros p n H. cbn in *. unfold sim_in8. cbn. unfold id in H. by rewrite H. Qed.
Next Obligation.
  intros p H. cbn in *. unfold id in *. unfold sim_in8, sim_status, idle. cbn. rewrite H. by destruct (dr_phase p).
Qed.
Next Obligation. intros p _. exists 1%nat. split; [apply one_timeout|done]. Qed.
Next Obligation. intros p _. exists 1%nat. split; [apply one_timeout|done]. Qed.
Next Obligation. intros p _ _. exists 1%nat. split; [apply one_timeout|done]. Qed.
Next Obligation. intros p a b rest H _. unfold id in *. cbn. unfold sim_in16. by rewrite H. Qed.
Next Obligation.
  intros p w lba got H _ Hl. unfold id in *. cbn. unfold sim_out16. rewrite H. by destruct (Nat.ltb_spec (length got + 2) 512); [|lia].
Qed.
Next Obligation.
  intros p w lba got H _ Hl. unfold id in *. cbn. unfold sim_out16. rewrite H. destruct (Nat.ltb_spec (length got + 2) 512); [lia|].
  exists 1%nat. split; [apply one_timeout|done].
Qed.

Definition example_drive : drive_state := mkDrive (replicate 1024 7 ++ replicate 1024 9) 0 0 0 0 0 Idle 0.

Lemma example_drive_inv : ata_inv example_drive.
Proof. split; [done|done|apply list_forallb_byte; by vm_compute|by vm_compute]. Qed.

Lemma ata_driver_correct_witness : ∃ p', ata_read_blocks 1 1024 example_drive = Ok (replicate 512 7 ++ replicate 512 9, p') ∧ ata_inv p'.
Proof.
  assert (take (2 * 512) (drop (Z.to_nat (1 * 512)) (contents example_drive)) = replicate 512 7 ++ replicate 512 9) as E by (by vm_compute).
  assert ((1 + Z.of_nat 2) * 512 ≤ Z.of_nat (length (contents example_drive))) as B by (by vm_compute).
  destruct (ata_driver_correct 1 2 [] example_drive example_drive_inv ltac:(lia) B) as ((p' & Hr & Hp' & _) & _).
  exists p'. rewrite E in Hr. split; [exact Hr|exact Hp'].
Defined.

Lemma ata_timeout_witness : ∃ p', wait_until STATUS_DRQ STATUS_DRQ 3 (set_busy 5 example_drive) = Err (IoError, p').
Proof. apply (ata_timeout 3 STATUS_DRQ STATUS_DRQ (set_busy 5 example_drive)). cbn. lia. Defined.

(** ** A limit of the code *)

(** The registers hold 28 bits of the sector number and the rest is dropped: a
    request behind the first 128 GiB of a disk goes to a sector inside them. *)
Lemma lba_truncated lba d : 0 ≤ lba → programmed (lba + 2 ^ 28) d = programmed lba d.
Proof.
  intros Hl. unfold programmed. change 0x0F with (Z.ones 4). change 0xFF with (Z.ones 8). rewrite !Z.land_ones, !Z.shiftr_div_pow2 by lia.
  change (2 ^ 28) with (16 * 2 ^ 24) at 1. rewrite Z.div_add, (Z.add_mod (lba / 2 ^ 24)) by lia. change (16 mod 2 ^ 4) with 0.
  rewrite Z.add_0_r, Z.mod_mod by lia. f_equal; change (2 ^ 28) with 268435456; change (2 ^ 8) with 256; change (2 ^ 16) with 65536; Z.div_mod_to_equations; lia.
Qed.

End AtaSpec.
