(* ===== verification/Interrupts.v ===== *)
(** * Interrupts: src/src/arch/x86_64/kernel/interrupts.rs, timer.rs, pit.rs and
    src/src/arch/x86_64/qemu.rs

    The interrupt descriptor table, the table of handlers, the two interrupt
    controllers, and the handlers.  The function pointers of the handler table are
    the functions the source stores in it.  Log output is left out. *)

From S2P Require Import Prelude Mem Heap RawVec Types Drivers Vfs Process Sched Ports Keyboard.
Local Open Scope Z_scope.

Module Interrupts.
Import Proc Sched Ports.

(** *** The descriptor table *)

Record IdtEntry := mkIdtEntry {
  offset_low : Z; selector : Z; ist : Z; type_attr : Z; offset_mid : Z; offset_high : Z; zero : Z
}.
Definition missing : IdtEntry := mkIdtEntry 0 0 0 0 0 0 0.

(** [addr as u16], [(addr >> 16) as u16] and [(addr >> 32) as u32] *)
Definition set_handler (addr selector type_attr ist : Z) : IdtEntry :=
  mkIdtEntry (addr mod U16) selector ist type_attr (Z.shiftr addr 16 mod U16) (Z.shiftr addr 32 mod U32) 0.

Record Idtr := mkIdtr { limit : Z; base : Z }.

(** The 16 bytes of an entry, packed in the order of the fields. *)
Definition entry_bytes (e : IdtEntry) : list Z :=
  le_bytes 2 (offset_low e) ++ le_bytes 2 (selector e) ++ le_bytes 1 (ist e) ++ le_bytes 1 (type_attr e) ++
  le_bytes 2 (offset_mid e) ++ le_bytes 4 (offset_high e) ++ le_bytes 4 (zero e).

Record InterruptFrame := mkFrame {
  f_ds : Z; f_r15 : Z; f_r14 : Z; f_r13 : Z; f_r12 : Z; f_r11 : Z; f_r10 : Z; f_r9 : Z; f_r8 : Z; f_rdi : Z; f_rsi : Z; f_rbp : Z;
  f_rsp : Z; f_rbx : Z; f_rdx : Z; f_rcx : Z; f_rax : Z; f_int_no : Z; f_err_code : Z; f_rip : Z; f_cs : Z; f_rflags : Z;
  f_user_rsp : Z; f_user_ss : Z
}.

Definition set_rip (rip : Z) (f : InterruptFrame) : InterruptFrame :=
  mkFrame (f_ds f) (f_r15 f) (f_r14 f) (f_r13 f) (f_r12 f) (f_r11 f) (f_r10 f) (f_r9 f) (f_r8 f) (f_rdi f) (f_rsi f) (f_rbp f)
    (f_rsp f) (f_rbx f) (f_rdx f) (f_rcx f) (f_rax f) (f_int_no f) (f_err_code f) rip (f_cs f) (f_rflags f) (f_user_rsp f) (f_user_ss f).

Definition PIC_MASTER_OFFSET : Z := 0x20.
Definition PIC_SLAVE_OFFSET : Z := 0x28.
Definition IDT_ENTRIES : Z := 256.
Definition GDT_KERNEL_CODE : Z := 0x08.
Definition IDT_TYPE_ATTR : Z := 0x8E.

Module vectors.
Definition INVALID_OPCODE : Z := 6.
Definition GENERAL_PROTECTION : Z := 13.
Definition PAGE_FAULT : Z := 14.
Definition PIT : Z := PIC_MASTER_OFFSET + 0.
Definition KEYBOARD : Z := PIC_MASTER_OFFSET + 1.
Definition PRIMARY_IDE : Z := PIC_SLAVE_OFFSET + (14 - 8).
End vectors.

(** The functions that are stored in [HANDLERS]. *)
Inductive InterruptHandler :=
| default_handler | page_fault_handler | general_protection_handler | invalid_opcode_handler
| ata_primary_irq | keyboard_handler | timer_handler.
#[global] Instance InterruptHandler_eq_dec : EqDecision InterruptHandler.
Proof. solve_decision. Defined.

(** [qemu::exit]: the code is written to the exit port and nothing follows. *)
Inductive stop := QemuExit (code : Z).

Section interrupts.
Context {W P : Type} `{!PortIO P}.

(** The statics of the interrupt code, the timer and the keyboard, the rest of the
    kernel and the ports. *)
Record isys := mkIsys {
  i_idt : list IdtEntry; i_idtr : Idtr; i_handlers : list InterruptHandler; i_mask_master : Z; i_mask_slave : Z;
  i_ticks : Z; i_frequency : Z; i_keyboard : Keyboard.KeyboardState; i_kb_init : bool; i_kernel : kernel W; i_ports : P
}.

Definition set_idt (x : list IdtEntry) (s : isys) : isys :=
  mkIsys x (i_idtr s) (i_handlers s) (i_mask_master s) (i_mask_slave s) (i_ticks s) (i_frequency s) (i_keyboard s) (i_kb_init s) (i_kernel s) (i_ports s).
Definition set_idtr (x : Idtr) (s : isys) : isys :=
  mkIsys (i_idt s) x (i_handlers s) (i_mask_master s) (i_mask_slave s) (i_ticks s) (i_frequency s) (i_keyboard s) (i_kb_init s) (i_kernel s) (i_ports s).
Definition set_handlers (x : list InterruptHandler) (s : isys) : isys :=
  mkIsys (i_idt s) (i_idtr s) x (i_mask_master s) (i_mask_slave s) (i_ticks s) (i_frequency s) (i_keyboard s) (i_kb_init s) (i_kernel s) (i_ports s).
Definition set_masks (m sl : Z) (s : isys) : isys :=
  mkIsys (i_idt s) (i_idtr s) (i_handlers s) m sl (i_ticks s) (i_frequency s) (i_keyboard s) (i_kb_init s) (i_kernel s) (i_ports s).
Definition set_ticks (x : Z) (s : isys) : isys :=
  mkIsys (i_idt s) (i_idtr s) (i_handlers s) (i_mask_master s) (i_mask_slave s) x (i_frequency s) (i_keyboard s) (i_kb_init s) (i_kernel s) (i_ports s).
Definition set_frequency (x : Z) (s : isys) : isys :=
  mkIsys (i_idt s) (i_idtr s) (i_handlers s) (i_mask_master s) (i_mask_slave s) (i_ticks s) x (i_keyboard s) (i_kb_init s) (i_kernel s) (i_ports s).
Definition set_kernel (x : kernel W) (s : isys) : isys :=
  mkIsys (i_idt s) (i_idtr s) (i_handlers s) (i_mask_master s) (i_mask_slave s) (i_ticks s) (i_frequency s) (i_keyboard s) (i_kb_init s) x (i_ports s).
Definition set_ports (x : P) (s : isys) : isys :=
  mkIsys (i_idt s) (i_idtr s) (i_handlers s) (i_mask_master s) (i_mask_slave s) (i_ticks s) (i_frequency s) (i_keyboard s) (i_kb_init s) (i_kernel s) x.
Definition set_keyboard (x : Keyboard.ksys W P) (s : isys) : isys :=
  mkIsys (i_idt s) (i_idtr s) (i_handlers s) (i_mask_master s) (i_mask_slave s) (i_ticks s) (i_frequency s)
    (Keyboard.ks_keyboard x) (i_kb_init s) (Keyboard.ks_kernel x) (Keyboard.ks_ports x).

Definition on_ports {E A} (m : M P E A) : M isys E A := zoom i_ports set_ports m.

Definition register_handler {E} (vector : Z) (handler : InterruptHandler) : M isys E unit :=
  modify (λ s, set_handlers (<[Z.to_nat vector := handler]> (i_handlers s)) s).

(** *** The interrupt controllers *)

Definition PIC1_CMD : Z := 0x20.
Definition PIC1_DATA : Z := 0x21.
Definition PIC2_CMD : Z := 0xA0.
Definition PIC2_DATA : Z := 0xA1.
Definition PIC_EOI : Z := 0x20.
Definition ICW1_INIT : Z := 0x10.
Definition ICW1_ICW4 : Z := 0x01.
Definition ICW4_8086 : Z := 0x01.

Definition remap {E} (offset1 offset2 : Z) : M isys E unit :=
  mask1 ← on_ports (inb PIC1_DATA);
  mask2 ← on_ports (inb PIC2_DATA);
  _ ← on_ports (outb PIC1_CMD (Z.lor ICW1_INIT ICW1_ICW4));
  _ ← on_ports (outb PIC2_CMD (Z.lor ICW1_INIT ICW1_ICW4));
  _ ← on_ports (outb PIC1_DATA offset1);
  _ ← on_ports (outb PIC2_DATA offset2);
  _ ← on_ports (outb PIC1_DATA 0x04);
  _ ← on_ports (outb PIC2_DATA 0x02);
  _ ← on_ports (outb PIC1_DATA ICW4_8086);
  _ ← on_ports (outb PIC2_DATA ICW4_8086);
  _ ← modify (set_masks mask1 mask2);
  _ ← on_ports (outb PIC1_DATA mask1);
  on_ports (outb PIC2_DATA mask2).

Definition send_eoi {E} (vector : Z) : M isys E unit :=
  _ ← (if 40 <=? vector then on_ports (outb PIC2_CMD PIC_EOI) else mret tt);
  on_ports (outb PIC1_CMD PIC_EOI).

(** [1 << n] on a [u8]: a shift by 8 or more is an overflow. *)
Definition shl8 {E} (n : Z) : comp E Z := if n <? 8 then Ok (Z.shiftl 1 n) else Panic.
(** [!x] on a [u8] *)
Definition not8 (x : Z) : Z := 255 - x.

Definition mask {E} (irq : Z) : M isys E unit :=
  s ← Prelude.get;
  if irq <? 8 then
    bit ← lift (shl8 irq);
    let m := Z.lor (i_mask_master s) bit in
    _ ← modify (set_masks m (i_mask_slave s));
    on_ports (outb PIC1_DATA m)
  else
    bit ← lift (shl8 (irq - 8));
    let m := Z.lor (i_mask_slave s) bit in
    _ ← modify (set_masks (i_mask_master s) m);
    on_ports (outb PIC2_DATA m).

Definition unmask {E} (irq : Z) : M isys E unit :=
  s ← Prelude.get;
  if irq <? 8 then
    bit ← lift (shl8 irq);
    let m := Z.land (i_mask_master s) (not8 bit) in
    _ ← modify (set_masks m (i_mask_slave s));
    on_ports (outb PIC1_DATA m)
  else
    bit ← lift (shl8 (irq - 8));
    let sl := Z.land (i_mask_slave s) (not8 bit) in
    _ ← modify (set_masks (i_mask_master s) sl);
    _ ← on_ports (outb PIC2_DATA sl);
    let m := Z.land (i_mask_master s) (not8 4) in
    _ ← modify (set_masks m sl);
    on_ports (outb PIC1_DATA m).

Definition enable_irq {E} : Z → M isys E unit := unmask.
Definition disable_irq {E} : Z → M isys E unit := mask.
Definition enable_vector {E} (vector : Z) : M isys E unit :=
  if PIC_MASTER_OFFSET <=? vector then enable_irq (vector - PIC_MASTER_OFFSET) else mret tt.
Definition disable_vector {E} (vector : Z) : M isys E unit :=
  if PIC_MASTER_OFFSET <=? vector then disable_irq (vector - PIC_MASTER_OFFSET) else mret tt.

(** *** Setting up *)

(** [isr] and [irq] give the addresses of the stubs, [idt_address] that of the
    table. *)
Definition setup_idt {E} (isr irq : nat → Z) (idt_address : Z) : M isys E unit :=
  let set (base : nat) (stub : nat → Z) (idt : list IdtEntry) (i : nat) :=
    <[(base + i)%nat := set_handler (stub i) GDT_KERNEL_CODE IDT_TYPE_ATTR 0]> idt in
  _ ← modify (λ s, set_idt (foldl (set 0%nat isr) (i_idt s) (seq 0 32)) s);
  _ ← register_handler vectors.PAGE_FAULT page_fault_handler;
  _ ← register_handler vectors.GENERAL_PROTECTION general_protection_handler;
  _ ← register_handler vectors.INVALID_OPCODE invalid_opcode_handler;
  _ ← register_handler vectors.PRIMARY_IDE ata_primary_irq;
  _ ← modify (λ s, set_idt (foldl (set 32%nat irq) (i_idt s) (seq 0 16)) s);
  modify (set_idtr (mkIdtr (16 * IDT_ENTRIES - 1) idt_address)).

(** [load_idt] follows, which loads the table register. *)
Definition init {E} (isr irq : nat → Z) (idt_address : Z) : M isys E unit :=
  _ ← setup_idt isr irq idt_address;
  remap 32 40.

(** The statics before [init]. *)
Definition boot_isys (kb : Keyboard.KeyboardState) (k : kernel W) (p : P) : isys :=
  mkIsys (replicate 256 missing) (mkIdtr 0 0) (replicate 256 default_handler) 0xFF 0xFF 0 0 kb false k p.

(** *** The timer *)

Definition PIT_CLOCK_OSC : Z := 1193182.

Definition pit_divisor (hz : Z) : Z :=
  let divisor := PIT_CLOCK_OSC / hz in
  let divisor := if divisor =? 0 then 1 else divisor in
  if U16 - 1 <? divisor then U16 - 1 else divisor.

Definition init_frequency {E} (hz : Z) : M isys E unit :=
  if negb (0 <? hz) then panic
  else
    let divisor := pit_divisor hz in
    _ ← on_ports (outb 0x43 0x36);
    _ ← on_ports (outb 0x40 (Z.land divisor 0xFF));
    on_ports (outb 0x40 (Z.land (Z.shiftr divisor 8) 0xFF)).

Definition DEFAULT_FREQUENCY_HZ : Z := 100.
Definition PREEMPT_SLICE_TICKS : Z := 1.

Definition init_with_frequency {E} (hz : Z) : M isys E unit :=
  _ ← modify (set_frequency hz);
  _ ← register_handler vectors.PIT timer_handler;
  _ ← enable_vector vectors.PIT;
  init_frequency hz.

Definition timer_init {E} : M isys E unit := init_with_frequency DEFAULT_FREQUENCY_HZ.

(** *** The keyboard *)

Definition set_kb_init (x : bool) (s : isys) : isys :=
  mkIsys (i_idt s) (i_idtr s) (i_handlers s) (i_mask_master s) (i_mask_slave s) (i_ticks s) (i_frequency s) (i_keyboard s) x (i_kernel s) (i_ports s).

Definition keyboard_init {E} : M isys E unit :=
  s ← Prelude.get;
  if i_kb_init s then mret tt
  else
    _ ← register_handler vectors.KEYBOARD keyboard_handler;
    _ ← enable_vector vectors.KEYBOARD;
    modify (set_kb_init true).

(** *** Handling

    [locked] and [kb_locked] say whether the interrupted code holds the lock of the
    process table and that of the keyboard's state. *)
Context (preempt_trampoline : Z) (locked kb_locked : bool).

Definition exit_failure {A} : M isys stop A := _ ← on_ports (outb 0xF4 1); throw (QemuExit 1).

(** The general protection and the invalid opcode handler dump the current process,
    which takes the lock of the table. *)
Definition dump_and_exit {A} : M isys stop A :=
  s ← Prelude.get;
  if bool_decide (is_Some (current_pid (i_kernel s))) && locked then lift Hang else exit_failure.

(** The counter wraps; the sum with one is checked. *)
Definition tick (frame : InterruptFrame) : M isys stop InterruptFrame :=
  s ← Prelude.get;
  _ ← put (set_ticks ((i_ticks s + 1) mod U64) s);
  t ← lift (add64 (i_ticks s) 1);
  if t mod PREEMPT_SLICE_TICKS =? 0 then
    s ← Prelude.get;
    let '(rip, k) := request_preempt preempt_trampoline locked (f_rip frame) (i_kernel s) in
    _ ← put (set_kernel k s);
    mret (set_rip rip frame)
  else mret frame.

Definition run_handler (h : InterruptHandler) (frame : InterruptFrame) : M isys stop InterruptFrame :=
  match h with
  | default_handler | page_fault_handler => exit_failure
  | general_protection_handler | invalid_opcode_handler => dump_and_exit
  | ata_primary_irq => _ ← on_ports (inb 0x1F7); mret frame
  | keyboard_handler =>
      _ ← zoom (λ s, Keyboard.mkKsys (i_keyboard s) (i_kernel s) (i_ports s)) set_keyboard
        (Keyboard.keyboard_handler kb_locked locked); mret frame
  | timer_handler => tick frame
  end.

Definition dispatch (frame : InterruptFrame) : M isys stop InterruptFrame :=
  s ← Prelude.get;
  match i_handlers s !! Z.to_nat (f_int_no frame) with
  | Some handler => run_handler handler frame
  | None => panic
  end.

Definition isr_handler (frame : InterruptFrame) : M isys stop InterruptFrame := dispatch frame.

Definition irq_handler (frame : InterruptFrame) : M isys stop InterruptFrame :=
  frame ← dispatch frame;
  _ ← send_eoi (f_int_no frame mod U8);
  mret frame.

End interrupts.
Arguments isys : clear implicits.

End Interrupts.
