(* ===== verification/InterruptsSpec.v ===== *)
(** * What the interrupt code does

    The descriptor table after [init]; the masks of the interrupt controllers as the
    set of the sixteen lines that are off; a hardware interrupt from the handler to the
    end-of-interrupt command; the timer's preemption of kernel code. *)

From S2P Require Import Prelude Mem Heap RawVec Types Drivers Vfs Process Sched SchedSpec SchedSteps SchedLive SchedChild.
From S2P Require Import Ports Keyboard KeyboardSpec Interrupts.
Local Open Scope Z_scope.

Module InterruptsSpec.
Import Proc Sched SchedSpec SchedSteps Ports KeyboardSpec Interrupts.

(** ** The descriptor table *)

(** The address the processor takes from the 16 bytes of a gate. *)
Definition gate_address (bytes : list Z) : Z :=
  le_val (take 2 bytes) + 2 ^ 16 * le_val (take 2 (skipn 6 bytes)) + 2 ^ 32 * le_val (take 4 (skipn 8 bytes)).

(** A present 64-bit interrupt gate of ring 0 with the kernel's code segment, without
    a stack of its own. *)
Definition gate_to (address : Z) (e : IdtEntry) : Prop :=
  gate_address (entry_bytes e) = address ∧ le_val (take 2 (skipn 2 (entry_bytes e))) = 0x08 ∧
  skipn 4 (take 6 (entry_bytes e)) = [0; 0x8E] ∧ length (entry_bytes e) = 16%nat.

Lemma set_handler_gate address : u64 address → gate_to address (set_handler address GDT_KERNEL_CODE IDT_TYPE_ATTR 0).
Proof.
  intros Ha. unfold gate_to, gate_address, entry_bytes, set_handler. cbn [offset_low selector ist type_attr offset_mid offset_high zero].
  set (lo := address mod U16). set (mid := Z.shiftr address 16 mod U16). set (hi := Z.shiftr address 32 mod U32).
  assert (0 ≤ lo < U16) by (apply Z.mod_pos_bound; done). assert (0 ≤ mid < U16) by (apply Z.mod_pos_bound; done).
  assert (0 ≤ hi < U32) by (apply Z.mod_pos_bound; done).
  split_and!.
  - change (le_val (le_bytes 2 lo) + 2 ^ 16 * le_val (le_bytes 2 mid) + 2 ^ 32 * le_val (le_bytes 4 hi) = address).
    rewrite !le_val_bytes by (cbn; lia). subst lo mid hi. rewrite !Z.shiftr_div_pow2 by lia.
    unfold u64 in *. change (2 ^ 16) with 65536 in *. change (2 ^ 32) with 4294967296 in *.
    rewrite (Z.mod_small (address / 4294967296)) by (split; [apply Z.div_pos; lia|apply Z.div_lt_upper_bound; lia]).
    pose proof (Z.div_mod address 65536). pose proof (Z.div_mod (address / 65536) 65536).
    rewrite Z.div_div in * by lia. change (65536 * 65536) with 4294967296 in *. lia.
  - done.
  - done.
  - done.
Qed.

Lemma foldl_set (base : nat) (g : nat → IdtEntry) n idt v : (base + n ≤ length idt)%nat →
  foldl (λ idt i, <[(base + i)%nat := g i]> idt) idt (seq 0 n) !! v =
    if bool_decide (base ≤ v < base + n)%nat then Some (g (v - base)%nat) else idt !! v.
Proof.
  revert idt. induction n as [|n IH]; intros idt Hlen; [by rewrite bool_decide_false by lia|].
  rewrite seq_S, foldl_app. cbn [foldl].
  assert (length (foldl (λ idt i, <[(base + i)%nat := g i]> idt) idt (seq 0 n)) = length idt) as Hl.
  { generalize (seq 0 n) as l. clear. intros l. revert idt. induction l as [|i l IHl]; intros idt; [done|]. cbn. by rewrite IHl, length_insert. }
  destruct (decide (v = base + n)%nat) as [->|Hne].
  - rewrite list_lookup_insert_eq by (rewrite Hl; lia). rewrite bool_decide_true by lia. do 2 f_equal. lia.
  - rewrite list_lookup_insert_ne by lia. rewrite IH by lia. repeat case_bool_decide; done || lia.
Qed.

Lemma length_foldl_set (f : nat → nat) (g : nat → IdtEntry) l idt : length (foldl (λ idt i, <[f i := g i]> idt) idt l) = length idt.
Proof. revert idt. induction l as [|i l IH]; intros idt; [done|]. cbn. by rewrite IH, length_insert. Qed.

(** What [init] leaves in the table of handlers. *)
Definition registered (v : nat) : option InterruptHandler :=
  match v with
  | 14%nat => Some page_fault_handler
  | 13%nat => Some general_protection_handler
  | 6%nat => Some invalid_opcode_handler
  | 46%nat => Some ata_primary_irq
  | _ => None
  end.

Section spec.
Context {W P : Type} `{!PortIO P}.
Implicit Types (s : isys W P) (k : kernel W) (p : Process W).

(** What [remap] reads, and what it leaves of the ports. *)
Definition remap_masks (p : P) : Z * Z * P :=
  let '(m1, p) := in8 PIC1_DATA p in let '(m2, p) := in8 PIC2_DATA p in (m1, m2, p).
Definition remap_writes (offset1 offset2 m1 m2 : Z) : list (Z * Z) :=
  [(0x20, 0x11); (0xA0, 0x11); (0x21, offset1); (0xA1, offset2); (0x21, 4); (0xA1, 2); (0x21, 1); (0xA1, 1); (0x21, m1); (0xA1, m2)].
Definition writes (l : list (Z * Z)) (p : P) : P := foldl (λ (p : P) w, out8 w.1 w.2 p) p l.

Lemma remap_ok {E} offset1 offset2 s m1 m2 (p : P) : remap_masks (i_ports s) = (m1, m2, p) →
  @remap W P _ E offset1 offset2 s = Ok (tt, set_masks m1 m2 (set_ports (writes (remap_writes offset1 offset2 m1 m2) p) s)).
Proof.
  unfold remap_masks, remap, mbind, M_bind, on_ports, zoom, inb. intros H.
  destruct (in8 PIC1_DATA (i_ports s)) as [? p1] eqn:H1. cbn [i_ports set_ports].
  destruct (in8 PIC2_DATA p1) as [? p2] eqn:H2. injection H as -> -> ->. done.
Qed.

Lemma setup_idt_ok {E} isr irq address s : length (i_idt s) = 256%nat → length (i_handlers s) = 256%nat →
  ∃ idt handlers, @setup_idt W P E isr irq address s = Ok (tt, set_idtr (mkIdtr 4095 address) (set_idt idt (set_handlers handlers s))) ∧
    (∀ v, idt !! v = if bool_decide (v < 32)%nat then Some (set_handler (isr v) GDT_KERNEL_CODE IDT_TYPE_ATTR 0)
        else if bool_decide (v < 48)%nat then Some (set_handler (irq (v - 32)%nat) GDT_KERNEL_CODE IDT_TYPE_ATTR 0) else i_idt s !! v) ∧
    (∀ v, handlers !! v = match registered v with Some h => Some h | None => i_handlers s !! v end).
Proof.
  intros Hidt Hh. eexists _, _. split; [reflexivity|]. split.
  - intros v. cbn [i_idt set_handlers set_idt]. rewrite !foldl_set by (rewrite ?length_foldl_set, Hidt; lia).
    rewrite Nat.sub_0_r. repeat case_bool_decide; done || lia.
  - intros v. cbn [i_handlers set_handlers set_idt].
    change (Z.to_nat vectors.PAGE_FAULT) with 14%nat. change (Z.to_nat vectors.GENERAL_PROTECTION) with 13%nat.
    change (Z.to_nat vectors.INVALID_OPCODE) with 6%nat. change (Z.to_nat vectors.PRIMARY_IDE) with 46%nat.
    assert (∀ (h : InterruptHandler) n l, (n < length l)%nat → <[n := h]> l !! v = if decide (v = n) then Some h else l !! v) as Hins.
    { intros h n l Hn. destruct (decide (v = n)) as [->|]; [by apply list_lookup_insert_eq|by apply list_lookup_insert_ne]. }
    rewrite !Hins by (rewrite ?length_insert, Hh; lia). unfold registered.
    repeat (destruct (decide _) as [->|?]; [done|]).
    do 47 (destruct v as [|v]; [done || congruence|]). done.
Qed.

(** The interrupt tables.  After [init] the gate of each of the 32 exceptions
    leads to the stub of that exception and the gate of each of the 16 hardware
    interrupts, which start at vector 32, to that interrupt's stub: the processor
    finds the address, the kernel's code segment and a present ring-0 interrupt gate in
    the sixteen bytes of the entry.  The other gates are not present as before, the
    table register covers the 256 entries exactly, page fault, general protection,
    invalid opcode and disk have their handlers and every other vector keeps its own;
    the controllers are programmed to deliver their lines from vectors 32 and 40, with
    the lines masked that were. *)
Theorem interrupts_init_correct isr irq address s m1 m2 (p : P) :
  length (i_idt s) = 256%nat → length (i_handlers s) = 256%nat → (∀ i, (i < 32)%nat → u64 (isr i)) → (∀ i, (i < 16)%nat → u64 (irq i)) →
  remap_masks (i_ports s) = (m1, m2, p) →
  ∃ s', @init W P _ Empty_set isr irq address s = Ok (tt, s') ∧
    (∀ v, (v < 32)%nat → ∃ e, i_idt s' !! v = Some e ∧ gate_to (isr v) e) ∧
    (∀ i, (i < 16)%nat → ∃ e, i_idt s' !! (32 + i)%nat = Some e ∧ gate_to (irq i) e) ∧
    (∀ v, (48 ≤ v)%nat → i_idt s' !! v = i_idt s !! v) ∧
    (∀ v, i_handlers s' !! v = match registered v with Some h => Some h | None => i_handlers s !! v end) ∧
    base (i_idtr s') = address ∧ limit (i_idtr s') + 1 = 16 * 256 ∧
    i_mask_master s' = m1 ∧ i_mask_slave s' = m2 ∧ i_ports s' = writes (remap_writes 32 40 m1 m2) p ∧ i_kernel s' = i_kernel s.
Proof.
  intros Hidt Hh Hisr Hirq Hm. destruct (setup_idt_ok (E:=Empty_set) isr irq address s Hidt Hh) as (idt & handlers & Hs & Hi & Hhs).
  eexists. split; [unfold init; rewrite (M_bind_ok _ _ _ _ _ Hs); apply remap_ok; exact Hm|].
  cbn [i_idt i_handlers i_idtr i_mask_master i_mask_slave i_ports i_kernel set_masks set_ports set_idtr set_idt set_handlers base limit].
  split_and!; try done.
  - intros v Hv. rewrite Hi, bool_decide_true by done. eexists. split; [done|]. by apply set_handler_gate, Hisr.
  - intros i Hv. rewrite Hi, bool_decide_false, bool_decide_true by lia. eexists. split; [done|].
    replace (32 + i - 32)%nat with i by lia. by apply set_handler_gate, Hirq.
  - intros v Hv. by rewrite Hi, !bool_decide_false by lia.
Qed.

(** ** The masks *)

(** Line [i] of the sixteen is off. *)
Definition masked s (i : Z) : bool := Z.testbit (if i <? 8 then i_mask_master s else i_mask_slave s) (i mod 8).

Lemma not8_bit n i : 0 ≤ n < 8 → 0 ≤ i < 8 → Z.testbit (not8 (Z.shiftl 1 n)) i = negb (i =? n).
Proof.
  intros Hn Hi. assert (forallb (λ n, forallb (λ i, Bool.eqb (Z.testbit (not8 (Z.shiftl 1 n)) i) (negb (i =? n))) (seqZ 0 8)) (seqZ 0 8) = true)
    as H by reflexivity.
  rewrite forallb_forall in H. specialize (H n). rewrite forallb_forall in H.
  apply Bool.eqb_prop, H; apply list_elem_of_In, elem_of_seqZ; lia.
Qed.

Lemma mod8_slave i : 8 ≤ i < 16 → i mod 8 = i - 8.
Proof. intros Hi. symmetry. apply Z.mod_unique with (q := 1); lia. Qed.

Lemma on_ports_out {E} port value s : on_ports (@outb P _ E port value) s = Ok (tt, set_ports (out8 port value (i_ports s)) s).
Proof. done. Qed.

(** The state after an operation that sets the two masks and writes to the ports. *)
Definition with_masks (m sl : Z) (w : list (Z * Z)) s : isys W P := set_ports (writes w (i_ports s)) (set_masks m sl s).

Lemma masked_with m sl w s i : masked (with_masks m sl w s) i = Z.testbit (if i <? 8 then m else sl) (i mod 8).
Proof. done. Qed.

Lemma mask_ok {E} irq s : 0 ≤ irq < 16 →
  ∃ m sl w, @mask W P _ E irq s = Ok (tt, with_masks m sl w s) ∧
    (∀ i, 0 ≤ i < 16 → Z.testbit (if i <? 8 then m else sl) (i mod 8) = (i =? irq) || masked s i) ∧
    w = (if irq <? 8 then [(PIC1_DATA, m)] else [(PIC2_DATA, sl)]).
Proof.
  intros Hirq. unfold mask, mbind, M_bind, Prelude.get. destruct (Z.ltb_spec irq 8).
  - eexists (Z.lor (i_mask_master s) (Z.shiftl 1 irq)), (i_mask_slave s), _. split; [|split; [|done]].
    + unfold shl8. by rewrite (proj2 (Z.ltb_lt irq 8)) by lia.
    + intros i Hi. unfold masked. destruct (Z.ltb_spec i 8); [|by rewrite (proj2 (Z.eqb_neq i irq)) by lia].
      rewrite Z.mod_small, Z.lor_spec, bit_shift by lia. apply orb_comm.
  - eexists (i_mask_master s), (Z.lor (i_mask_slave s) (Z.shiftl 1 (irq - 8))), _. split; [|split; [|done]].
    + unfold shl8. by rewrite (proj2 (Z.ltb_lt (irq - 8) 8)) by lia.
    + intros i Hi. unfold masked. destruct (Z.ltb_spec i 8); [by rewrite (proj2 (Z.eqb_neq i irq)) by lia|].
      rewrite mod8_slave by lia.
      rewrite Z.lor_spec, bit_shift by lia. rewrite orb_comm. f_equal. destruct (Z.eqb_spec (i - 8) (irq - 8)), (Z.eqb_spec i irq); done || lia.
Qed.

Lemma unmask_ok {E} irq s : 0 ≤ irq < 16 →
  ∃ m sl w, @unmask W P _ E irq s = Ok (tt, with_masks m sl w s) ∧
    (∀ i, 0 ≤ i < 16 → Z.testbit (if i <? 8 then m else sl) (i mod 8) = negb ((i =? irq) || ((8 <=? irq) && (i =? 2))) && masked s i) ∧
    w = (if irq <? 8 then [(PIC1_DATA, m)] else [(PIC2_DATA, sl); (PIC1_DATA, m)]).
Proof.
  intros Hirq. unfold unmask, mbind, M_bind, Prelude.get. destruct (Z.ltb_spec irq 8).
  - eexists (Z.land (i_mask_master s) (not8 (Z.shiftl 1 irq))), (i_mask_slave s), _. split; [|split; [|done]].
    + unfold shl8. by rewrite (proj2 (Z.ltb_lt irq 8)) by lia.
    + intros i Hi. rewrite (proj2 (Z.leb_gt 8 irq)) by lia. cbn [andb]. rewrite orb_false_r. unfold masked.
      destruct (Z.ltb_spec i 8); [|by rewrite (proj2 (Z.eqb_neq i irq)) by lia].
      rewrite Z.mod_small, Z.land_spec, not8_bit by lia. apply andb_comm.
  - eexists (Z.land (i_mask_master s) (not8 4)), (Z.land (i_mask_slave s) (not8 (Z.shiftl 1 (irq - 8)))), _. split; [|split; [|done]].
    + unfold shl8. by rewrite (proj2 (Z.ltb_lt (irq - 8) 8)) by lia.
    + intros i Hi. rewrite (proj2 (Z.leb_le 8 irq)) by lia. cbn [andb]. unfold masked. destruct (Z.ltb_spec i 8).
      * rewrite (proj2 (Z.eqb_neq i irq)) by lia. cbn [orb]. change 4 with (Z.shiftl 1 2).
        rewrite Z.mod_small, Z.land_spec, not8_bit by lia. apply andb_comm.
      * rewrite (proj2 (Z.eqb_neq i 2)), orb_false_r by lia.
        rewrite mod8_slave by lia.
        rewrite Z.land_spec, not8_bit by lia. rewrite andb_comm. do 2 f_equal. destruct (Z.eqb_spec (i - 8) (irq - 8)), (Z.eqb_spec i irq); done || lia.
Qed.

(** Only the masks and the ports differ. *)
Definition only_masks s s' : Prop := s' = set_masks (i_mask_master s') (i_mask_slave s') (set_ports (i_ports s') s).

(** Interrupt lines.  Enabling the vector of a hardware interrupt takes its line
    out of the set of masked lines, and line 2, to which the second controller is
    connected, when the line is one of that controller; disabling it adds the line.  No
    other line changes, the controllers are given the new masks, and nothing else
    changes.  Vectors of exceptions are ignored, and a vector from 48 on is a panic in
    both. *)
Theorem irq_lines_correct s vector : 0 ≤ vector < 256 →
  let enabled := @enable_vector W P _ Empty_set vector s in
  let disabled := @disable_vector W P _ Empty_set vector s in
  let line := vector - 32 in
  if vector <? 32 then enabled = Ok (tt, s) ∧ disabled = Ok (tt, s)
  else if vector <? 48 then
    (∃ s', enabled = Ok (tt, s') ∧ only_masks s s' ∧
      (∀ i, 0 ≤ i < 16 → masked s' i = negb ((i =? line) || ((8 <=? line) && (i =? 2))) && masked s i) ∧
      i_ports s' = writes (if line <? 8 then [(0x21, i_mask_master s')] else [(0xA1, i_mask_slave s'); (0x21, i_mask_master s')]) (i_ports s)) ∧
    (∃ s', disabled = Ok (tt, s') ∧ only_masks s s' ∧ (∀ i, 0 ≤ i < 16 → masked s' i = (i =? line) || masked s i) ∧
      i_ports s' = writes [if line <? 8 then (0x21, i_mask_master s') else (0xA1, i_mask_slave s')] (i_ports s))
  else enabled = Panic ∧ disabled = Panic.
Proof.
  intros Hv enabled disabled line. subst enabled disabled. unfold enable_vector, disable_vector, enable_irq, disable_irq.
  change PIC_MASTER_OFFSET with 32. fold line. destruct (Z.ltb_spec vector 32); [by rewrite (proj2 (Z.leb_gt 32 vector)) by lia|].
  rewrite (proj2 (Z.leb_le 32 vector)) by lia. destruct (Z.ltb_spec vector 48).
  - destruct (unmask_ok (E:=Empty_set) line s) as (m & sl & w & Hu & Hm & ->); [lia|].
    destruct (mask_ok (E:=Empty_set) line s) as (m' & sl' & w' & Hu' & Hm' & ->); [lia|].
    split; eexists; (split; [eassumption|]); (split; [done|]); (split; [done|]); cbn; by destruct (line <? 8).
  - unfold unmask, mask, mbind, M_bind, Prelude.get, shl8. rewrite (proj2 (Z.ltb_ge line 8)), (proj2 (Z.ltb_ge (line - 8) 8)) by lia. done.
Qed.

(** ** A hardware interrupt *)

Section irq.
Context (trampoline : Z) (rp process_size region_size : Z) (e : env W).

(** The handlers that return. *)
Definition returns (h : InterruptHandler) : Prop := h = ata_primary_irq ∨ h = keyboard_handler ∨ h = timer_handler.

(** What the device is asked. *)
Definition after_device (h : InterruptHandler) (p : P) : P :=
  match h with ata_primary_irq => (in8 0x1F7 p).2 | keyboard_handler => (in8 0x60 p).2 | _ => p end.

Definition eoi (vector : Z) : list (Z * Z) := (if 40 <=? vector then [(0xA0, 0x20)] else []) ++ [(0x20, 0x20)].

Lemma send_eoi_ok {E} vector s : @send_eoi W P _ E vector s = Ok (tt, set_ports (writes (eoi vector) (i_ports s)) s).
Proof. unfold send_eoi, eoi, mbind, M_bind. by destruct (40 <=? vector). Qed.

(** What the handler of an interrupt at [rip] does to the kernel: a key wakes the
    readers, a tick asks for preemption. *)
Definition kernel_after (h : InterruptHandler) (rip : Z) k k' : Prop :=
  match h with
  | keyboard_handler => k' = k ∨ k' = wake_channel KeyboardInput k
  | timer_handler => k' = (request_preempt trampoline false rip k).2
  | _ => k' = k
  end.

Lemma kernel_after_steps h rip k k' : kernel_after h rip k k' → rtc (step rp process_size region_size e) k k'.
Proof.
  destruct h; cbn; try (by intros ->).
  - by intros [-> | ->]; [|apply rtc_once, step_wake].
  - intros ->. apply rtc_once, step_tick.
Qed.

(** What a handler may change of the state. *)
Record handled (h : InterruptHandler) (rip : Z) s s' : Prop := {
  hd_tables : i_idt s' = i_idt s ∧ i_idtr s' = i_idtr s ∧ i_handlers s' = i_handlers s ∧ i_mask_master s' = i_mask_master s ∧
    i_mask_slave s' = i_mask_slave s ∧ i_frequency s' = i_frequency s ∧ i_kb_init s' = i_kb_init s;
  hd_keyboard : kb_ok (i_keyboard s');
  hd_ticks : i_ticks s' = if bool_decide (h = timer_handler) then i_ticks s + 1 else i_ticks s;
  hd_kernel : kernel_after h rip (i_kernel s) (i_kernel s')
}.

Lemma tick_ok frame s : 0 ≤ i_ticks s < U64 - 1 →
  let r := request_preempt trampoline false (f_rip frame) (i_kernel s) in
  tick trampoline false frame s = Ok (set_rip r.1 frame, set_kernel r.2 (set_ticks (i_ticks s + 1) s)).
Proof.
  intros Ht. unfold tick, mbind, M_bind, Prelude.get, put, lift, add64. rewrite (proj2 (Z.ltb_lt (i_ticks s + 1) U64)) by lia.
  rewrite (Z.mod_small (i_ticks s + 1) U64) by lia. unfold PREEMPT_SLICE_TICKS. rewrite Z.mod_1_r. cbn [Z.eqb i_kernel set_ticks].
  by destruct (request_preempt _ _ _ _).
Qed.

Lemma run_handler_ok h frame s : returns h → kb_ok (i_keyboard s) → 0 ≤ i_ticks s < U64 - 1 →
  ∃ rip s', run_handler trampoline false false h frame s = Ok (set_rip rip frame, s') ∧ handled h (f_rip frame) s s' ∧
    i_ports s' = after_device h (i_ports s) ∧
    (rip, i_kernel s') = if bool_decide (h = timer_handler) then request_preempt trampoline false (f_rip frame) (i_kernel s)
      else (f_rip frame, i_kernel s').
Proof.
  intros Hh Hkb Ht. assert (frame = set_rip (f_rip frame) frame) as Hid by (by destruct frame).
  destruct Hh as [->|[->| ->]]; cbn [run_handler after_device].
  - exists (f_rip frame), (set_ports (in8 0x1F7 (i_ports s)).2 s). split; [unfold mbind, M_bind, on_ports, zoom, inb; destruct (in8 0x1F7 (i_ports s)); by rewrite <- Hid|].
    by split; [split|].
  - destruct (in8 0x60 (i_ports s)) as [scancode p'] eqn:Hin.
    destruct (keyboard_handler_ok (E:=stop) (Keyboard.mkKsys (i_keyboard s) (i_kernel s) (i_ports s)) scancode p' Hkb Hin) as (kb & Hr & Hok & _).
    eexists (f_rip frame), _. split; [rewrite (M_bind_ok _ _ _ _ _ (zoom_ok _ _ _ s _ _ Hr)); by rewrite <- Hid|].
    cbn [set_keyboard Keyboard.ks_keyboard Keyboard.ks_kernel Keyboard.ks_ports]. split; [|done].
    split; try done. cbn [i_kernel set_keyboard Keyboard.ks_kernel Keyboard.ks_keyboard]. destruct (bool_decide _); [by right|by left].
  - eexists _, _. split; [by apply tick_ok|]. split; [by split|].
    split; [done|]. cbn [i_kernel set_kernel]. rewrite bool_decide_true by done. by destruct (request_preempt _ _ _ _).
Qed.

Lemma irq_handler_run s frame h frame' s' : i_handlers s !! Z.to_nat (f_int_no frame) = Some h →
  run_handler trampoline false false h frame s = Ok (frame', s') →
  irq_handler trampoline false false frame s = Ok (frame', set_ports (writes (eoi (f_int_no frame' mod U8)) (i_ports s')) s').
Proof.
  intros Hh Hrun. unfold irq_handler. rewrite (M_bind_ok _ _ s frame' s').
  - rewrite (M_bind_ok _ _ _ _ _ (send_eoi_ok _ _)). done.
  - unfold dispatch. rewrite (M_bind_ok Prelude.get _ _ _ _ eq_refl). by rewrite Hh.
Qed.


(** The tick of a process that can be preempted. *)
Lemma request_preempt_redirects k rip i p : kernel_inv k → procs (k_table k) !! i = Some p → p_pid p = k_current k →
  p_is_idle p = false → p_preempt_return p = None → KERNEL_BASE ≤ rip < U64 →
  request_preempt trampoline false rip k =
    (trampoline, set_table (update_index i (set_preempt (Some rip)) (k_table k)) (set_need_resched true k)).
Proof.
  intros Hk Hp Hc Hidle Hpre Hrip. pose proof Hk as [[Ht _ _] _].
  assert (k_current k ≠ 0) as H0 by (pose proof (Forall_lookup_1 _ _ _ _ (ti_pids _ Ht) Hp); cbn in *; lia).
  destruct (SchedLive.current_process k Hk H0) as (i' & p' & Hcp & Hi & Hp' & Hpc & Hr).
  assert (i' = i) as ->.
  { enough (Some i' = Some i) by congruence. rewrite <- Hi. apply find_index_some; [by destruct Ht|]. by exists p. }
  assert (p' = p) as -> by congruence. unfold request_preempt. rewrite (proj2 (Z.ltb_ge rip KERNEL_BASE)) by lia.
  rewrite Z.shiftr_div_pow2 by lia. assert (rip / 2 ^ 48 = KERNEL_TOP_BITS) as ->.
  { unfold KERNEL_BASE, KERNEL_TOP_BITS in *. symmetry. apply Z.div_unique with (r := rip - 2 ^ 48 * 65535); lia. }
  change (current_pid (set_need_resched true k)) with (current_pid k). rewrite Hcp. cbn [negb Z.eqb k_table set_need_resched].
  change (k_table (set_need_resched true k)) with (k_table k). rewrite Hi, Hp. unfold in_state. rewrite Hr, Hidle, Hpre. done.
Qed.

Lemma preempt_resume_ok k j p rip : kernel_inv k → procs (k_table k) !! j = Some p → p_pid p = k_current k → p_preempt_return p = Some rip →
  preempt_resume k = Ok (rip, set_table (update_index j (set_preempt None) (k_table k)) k).
Proof.
  intros [[Ht _ _] _] Hp Hc Hpre. unfold preempt_resume, current_pid.
  pose proof (Forall_lookup_1 _ _ _ _ (ti_pids _ Ht) Hp) as Hpos. cbn in Hpos. destruct (Z.eqb_spec (k_current k) 0); [lia|].
  assert (find_index_by_pid (k_table k) (k_current k) = Some j) as ->; [|by rewrite Hp, Hpre].
  apply find_index_some; [by destruct Ht|]. by exists p.
Qed.

Lemma current_unique k i p q : kernel_inv k → procs (k_table k) !! i = Some p → p_pid p = k_current k →
  q ∈ procs (k_table k) → p_pid q = k_current k → q = p.
Proof.
  intros [[[Hnd _ _ _ _ _] _ _] _] Hp Hc [j Hj]%list_elem_of_lookup Hq.
  assert (find_index_by_pid (k_table k) (k_current k) = Some i) as H1 by (apply find_index_some; [done|]; by eexists).
  assert (find_index_by_pid (k_table k) (k_current k) = Some j) as H2 by (apply find_index_some; [done|]; by eexists). congruence.
Qed.

(** A preemption that is pending is not overwritten. *)
Lemma pending_not_redirected k i p locked rip : kernel_inv k → procs (k_table k) !! i = Some p → p_pid p = k_current k →
  is_Some (p_preempt_return p) → (request_preempt trampoline locked rip k).1 = rip.
Proof.
  intros Hk Hp Hc [r Hr]. unfold request_preempt. destruct (rip <? KERNEL_BASE); [done|]. destruct (negb _); [done|].
  destruct (current_pid _) as [pid|] eqn:Hpid; [|done]. destruct locked; [done|]. destruct (find_index_by_pid _ _) as [j|] eqn:Hj; [|done].
  destruct (procs _ !! j) as [q|] eqn:Hq; [|done]. destruct (negb _ || _); [done|].
  rewrite (current_unique k i p q Hk Hp Hc); [by rewrite Hr|by apply list_elem_of_lookup_2 in Hq|].
  unfold current_pid in Hpid. destruct (_ =? 0); [done|]. injection Hpid as <-.
  apply find_index_some in Hj as (q' & Hq' & <-); [|by destruct Hk as [[[]]]]. by assert (q = q') as -> by congruence.
Qed.


End irq.

End spec.

(** ** Concrete instances *)

(** The statics after boot, with the shell of the scheduler's example running; then the
    tables set up and the timer and the keyboard started. *)
Definition example_boot : isys unit trace := boot_isys Keyboard.KeyboardState_new example_running (mkTrace [0xFB; 0xFF; 0x1E] []).
Definition example_isr (i : nat) : Z := 0xFFFF800000100000 + 16 * Z.of_nat i.
Definition example_irq (i : nat) : Z := 0xFFFF800000101000 + 16 * Z.of_nat i.
Definition example_started : isys unit trace :=
  (value_ok ((_ ← init example_isr example_irq 0xFFFF800000200000; _ ← timer_init; keyboard_init) example_boot : comp (Empty_set * _) _) (tt, example_boot)).2.
Definition example_frame (vector : Z) : InterruptFrame :=
  mkFrame 0x10 0 0 0 0 0 0 0 0 0 0 0 0 0 0 0 0 vector 0 0xFFFF800000123456 0x08 0x202 0 0x10.

Lemma example_started_kernel : i_kernel example_started = example_running.
Proof. unfold example_started. reflexivity. Qed.

Lemma example_started_ticks : i_ticks example_started = 0.
Proof. vm_compute. reflexivity. Qed.

Lemma interrupts_init_correct_witness : ∃ s', @init unit trace _ Empty_set example_isr example_irq 0xFFFF800000200000 example_boot = Ok (tt, s') ∧
  ∃ e, i_idt s' !! 33%nat = Some e ∧ gate_address (entry_bytes e) = 0xFFFF800000101010.
Proof.
  destruct (@interrupts_init_correct unit trace trace_ports example_isr example_irq 0xFFFF800000200000 example_boot 0xFB 0xFF
    (mkTrace [0x1E] [])) as (s' & Hr & _ & Hirq & _).
  - by vm_compute.
  - by vm_compute.
  - intros i Hi. unfold u64, example_isr. lia.
  - intros i Hi. unfold u64, example_irq. lia.
  - reflexivity.
  - exists s'. split; [exact Hr|]. destruct (Hirq 1%nat ltac:(lia)) as (g & Hg & Ha & _). exists g. split; [exact Hg|exact Ha].
Defined.

Lemma irq_lines_correct_witness : ∃ s', @enable_vector unit trace _ Empty_set 46 example_boot = Ok (tt, s') ∧
  masked s' 14 = false ∧ masked s' 2 = false ∧ masked s' 3 = true.
Proof.
  pose proof (@irq_lines_correct unit trace trace_ports example_boot 46 ltac:(lia)) as H. destruct H as [(s' & Hr & _ & Hm & _) _].
  exists s'. split; [exact Hr|]. rewrite !Hm by lia. by vm_compute.
Defined.



End InterruptsSpec.
