(* ===== verification/Elf.v ===== *)
(** * ELF images: src/src/kernel/user/elf.rs

    The parser works on a slice; offsets are [usize] with checked additions.  The
    [Vec] of segments is a list. *)

From S2P Require Import Prelude Mem.
Local Open Scope Z_scope.

Module Elf.

Inductive ElfError :=
| InvalidMagic
| UnsupportedClass
| UnsupportedEncoding
| UnsupportedMachine
| InvalidHeader
| InvalidProgramHeader
| NoLoadableSegments.

Record ElfSegment := mkSegment { vaddr : Z; filesz : Z; memsz : Z; offset : Z; flags : Z; align : Z }.
Record ElfImage := mkImage { entry : Z; segments : list ElfSegment }.

Definition ELF_MAGIC : list Z := [0x7F; 0x45; 0x4C; 0x46].
Definition ELFCLASS64 : Z := 2.
Definition ELFDATA2LSB : Z := 1.
Definition ELF_MACHINE_X86_64 : Z := 0x3E.
Definition PT_LOAD : Z := 1.

Definition len (bytes : list Z) : Z := Z.of_nat (length bytes).

(** The [n] bytes from [offset] on as a little-endian number. *)
Definition field (n : nat) (bytes : list Z) (offset : Z) : Z := le_val (take n (drop (Z.to_nat offset) bytes)).

Definition read_le (n : nat) (bytes : list Z) (offset : Z) : comp ElfError Z :=
  end_ ← add64 offset (Z.of_nat n);
  if len bytes <? end_ then Err InvalidHeader else mret (field n bytes offset).

Definition read_u16 := read_le 2.
Definition read_u32 := read_le 4.
Definition read_u64 := read_le 8.

(** [bytes[i]] *)
Definition byte_at (bytes : list Z) (i : nat) : comp ElfError Z := match bytes !! i with Some b => mret b | None => Panic end.

(** The loop over the program headers from [index] on. *)
Fixpoint parse_headers (n : nat) (bytes : list Z) (phoff phentsize index : Z) (acc : list ElfSegment)
    : comp ElfError (list ElfSegment) :=
  match n with
  | O => mret acc
  | S n =>
      skip ← mul64 index phentsize;
      offset ← add64 phoff skip;
      end_ ← add64 offset phentsize;
      if len bytes <? end_ then Err InvalidProgramHeader
      else
        p_type ← read_u32 bytes offset;
        if negb (p_type =? PT_LOAD) then parse_headers n bytes phoff phentsize (index + 1) acc
        else
          p_flags ← read_u32 bytes (offset + 4);
          p_offset ← read_u64 bytes (offset + 8);
          p_vaddr ← read_u64 bytes (offset + 16);
          p_filesz ← read_u64 bytes (offset + 32);
          p_memsz ← read_u64 bytes (offset + 40);
          p_align ← read_u64 bytes (offset + 48);
          if p_memsz =? 0 then parse_headers n bytes phoff phentsize (index + 1) acc
          else
            parse_headers n bytes phoff phentsize (index + 1)
              (acc ++ [mkSegment p_vaddr p_filesz p_memsz p_offset p_flags (Z.max p_align 1)])
  end.

Definition parse (bytes : list Z) : comp ElfError ElfImage :=
  if len bytes <? 64 then Err InvalidHeader
  else if negb (bool_decide (take 4 bytes = ELF_MAGIC)) then Err InvalidMagic
  else
    class ← byte_at bytes 4;
    if negb (class =? ELFCLASS64) then Err UnsupportedClass
    else
      data ← byte_at bytes 5;
      if negb (data =? ELFDATA2LSB) then Err UnsupportedEncoding
      else
        machine ← read_u16 bytes 18;
        if negb (machine =? ELF_MACHINE_X86_64) then Err UnsupportedMachine
        else
          entry ← read_u64 bytes 24;
          phoff ← read_u64 bytes 32;
          phentsize ← read_u16 bytes 54;
          phnum ← read_u16 bytes 56;
          if negb (phentsize =? 56) || (phnum =? 0) then Err InvalidProgramHeader
          else
            segments ← parse_headers (Z.to_nat phnum) bytes phoff phentsize 0 [];
            match segments with
            | [] => Err NoLoadableSegments
            | _ => mret (mkImage entry segments)
            end.

Definition segment_flags_writable (flags : Z) : bool := negb (Z.land flags 0x2 =? 0).
Definition segment_flags_executable (flags : Z) : bool := negb (Z.land flags 0x1 =? 0).

(** ** What an image describes *)

(** The loadable segment a program header at [off] holds. *)
Definition header_segment (bytes : list Z) (off : Z) : option ElfSegment :=
  if (field 4 bytes off =? PT_LOAD) && negb (field 8 bytes (off + 40) =? 0) then
    Some (mkSegment (field 8 bytes (off + 16)) (field 8 bytes (off + 32)) (field 8 bytes (off + 40)) (field 8 bytes (off + 8))
      (field 4 bytes (off + 4)) (Z.max (field 8 bytes (off + 48)) 1))
  else None.

Definition phoff_of (bytes : list Z) : Z := field 8 bytes 32.
Definition phnum_of (bytes : list Z) : Z := field 2 bytes 56.

(** The image a file describes: a 64-bit little-endian x86-64 file whose program
    headers lie inside it, and whose segments are the non-empty [PT_LOAD] ones in
    order, at least one. *)
Record describes (bytes : list Z) (image : ElfImage) : Prop := {
  el_len : 64 ≤ len bytes;
  el_magic : take 4 bytes = ELF_MAGIC;
  el_class : bytes !! 4%nat = Some ELFCLASS64;
  el_data : bytes !! 5%nat = Some ELFDATA2LSB;
  el_machine : field 2 bytes 18 = ELF_MACHINE_X86_64;
  el_phentsize : field 2 bytes 54 = 56;
  el_phnum : phnum_of bytes ≠ 0;
  el_inside : phoff_of bytes + 56 * phnum_of bytes ≤ len bytes;
  el_entry : entry image = field 8 bytes 24;
  el_segments : segments image = omap (λ i, header_segment bytes (phoff_of bytes + 56 * Z.of_nat i)) (seq 0 (Z.to_nat (phnum_of bytes)));
  el_some : segments image ≠ []
}.

Section parser.
Context (bytes : list Z).
Hypothesis Hbytes : Forall byte bytes.
Hypothesis Hlen : len bytes < I64.

Lemma field_bound n off : 0 ≤ off → off + Z.of_nat n ≤ len bytes → 0 ≤ field n bytes off < 256 ^ Z.of_nat n.
Proof.
  intros Ho He. unfold field, len in *. assert (length (take n (drop (Z.to_nat off) bytes)) = n) as Hl.
  { rewrite length_take, length_drop. lia. }
  rewrite <- Hl at 3. apply le_val_bound. by apply Forall_take, Forall_drop.
Qed.

Lemma read_le_ok n off : 0 ≤ off → off + Z.of_nat n ≤ len bytes → read_le n bytes off = Ok (field n bytes off).
Proof.
  intros Ho He. unfold read_le. rewrite add64_ok by lia. cbn [mbind comp_bind]. destruct (Z.ltb_spec (len bytes) (off + Z.of_nat n)); [lia|done].
Qed.

(** One program header. *)
Lemma parse_headers_step n phoff index acc : 0 ≤ phoff → 0 ≤ index → phoff + 56 * (index + 1) ≤ len bytes →
  parse_headers (S n) bytes phoff 56 index acc =
    parse_headers n bytes phoff 56 (index + 1) (acc ++ omap (header_segment bytes) [phoff + 56 * index]).
Proof.
  intros Hp Hi He. cbn [parse_headers]. rewrite mul64_ok by lia. cbn [mbind comp_bind]. rewrite add64_ok by lia. cbn [mbind comp_bind].
  rewrite add64_ok by lia. cbn [mbind comp_bind]. destruct (Z.ltb_spec (len bytes) (phoff + index * 56 + 56)); [lia|].
  rewrite (Z.mul_comm index 56). set (off := phoff + 56 * index) in *. unfold read_u32, read_u64.
  rewrite (read_le_ok 4 off) by lia. cbn [mbind comp_bind omap list_omap]. unfold header_segment.
  destruct (field 4 bytes off =? PT_LOAD); cbn [negb andb]; [|by rewrite app_nil_r].
  rewrite (read_le_ok 4 (off + 4)) by lia. cbn [mbind comp_bind]. rewrite (read_le_ok 8 (off + 8)) by lia. cbn [mbind comp_bind].
  rewrite (read_le_ok 8 (off + 16)) by lia. cbn [mbind comp_bind]. rewrite (read_le_ok 8 (off + 32)) by lia. cbn [mbind comp_bind].
  rewrite (read_le_ok 8 (off + 40)) by lia. cbn [mbind comp_bind]. rewrite (read_le_ok 8 (off + 48)) by lia. cbn [mbind comp_bind].
  destruct (field 8 bytes (off + 40) =? 0); cbn [negb]; [by rewrite app_nil_r|done].
Qed.

Lemma parse_headers_spec n phoff j acc : 0 ≤ phoff → phoff + 56 * (Z.of_nat j + Z.of_nat n) ≤ len bytes →
  parse_headers n bytes phoff 56 (Z.of_nat j) acc =
    Ok (acc ++ omap (λ i, header_segment bytes (phoff + 56 * Z.of_nat i)) (seq j n)).
Proof.
  revert j acc. induction n as [|n IH]; intros j acc Hp He; [cbn; by rewrite app_nil_r|].
  rewrite parse_headers_step by lia. replace (Z.of_nat j + 1) with (Z.of_nat (S j)) by lia. rewrite IH by lia. f_equal.
  rewrite <- app_assoc. f_equal. cbn. by destruct (header_segment bytes (phoff + 56 * Z.of_nat j)).
Qed.

(** Headers that leave the file: an error, or an overflow at the first one. *)
Lemma parse_headers_outside n phoff index acc : 0 ≤ phoff < U64 → 0 ≤ index → (0 < n)%nat →
  len bytes < phoff + 56 * (index + Z.of_nat n) → index = 0 ∨ phoff + 56 * index ≤ len bytes →
  parse_headers n bytes phoff 56 index acc = if U64 <=? phoff + 56 * (index + 1) then Panic else Err InvalidProgramHeader.
Proof.
  revert index acc. induction n as [|n IH]; intros index acc Hp Hi Hn He Hin; [lia|].
  destruct (Z.leb_spec (phoff + 56 * (index + 1)) (len bytes)) as [Hfit|Hout].
  - rewrite parse_headers_step by lia. rewrite IH by lia. destruct (Z.leb_spec U64 (phoff + 56 * (index + 1))); [lia|].
    destruct (Z.leb_spec U64 (phoff + 56 * (index + 1 + 1))); [lia|done].
  - cbn [parse_headers]. rewrite mul64_ok by lia. cbn [mbind comp_bind]. rewrite add64_ok by lia. cbn [mbind comp_bind].
    destruct (Z.leb_spec U64 (phoff + 56 * (index + 1))) as [Hov|Hok].
    + unfold add64. destruct (Z.ltb_spec (phoff + index * 56 + 56) U64); [lia|done].
    + rewrite add64_ok by lia. cbn [mbind comp_bind]. destruct (Z.ltb_spec (len bytes) (phoff + index * 56 + 56)); [done|lia].
Qed.

(** The end of the parser, once the header is fine. *)
Lemma parse_segments : 64 ≤ len bytes → take 4 bytes = ELF_MAGIC → bytes !! 4%nat = Some ELFCLASS64 → bytes !! 5%nat = Some ELFDATA2LSB →
  field 2 bytes 18 = ELF_MACHINE_X86_64 → field 2 bytes 54 = 56 → phnum_of bytes ≠ 0 → 0 ≤ phoff_of bytes < U64 → 0 ≤ phnum_of bytes →
  match segments ← parse_headers (Z.to_nat (phnum_of bytes)) bytes (phoff_of bytes) 56 0 [];
        match segments with [] => Err NoLoadableSegments | _ => mret (mkImage (field 8 bytes 24) segments) end with
  | Ok image => describes bytes image
  | Err _ => ∀ image, ¬ describes bytes image
  | Panic => U64 ≤ phoff_of bytes + 56 ∧ ∀ image, ¬ describes bytes image
  | Hang => False
  end.
Proof.
  intros Hl Hm Hc Hd Hma Hpe Hpn Hpo Hpnb.
  destruct (Z.leb_spec (phoff_of bytes + 56 * phnum_of bytes) (len bytes)) as [Hin|Hout].
  - rewrite (parse_headers_spec _ _ 0) by lia. cbn [mbind comp_bind app]. set (segs := omap _ _). destruct segs as [|sg segs'] eqn:Hs.
    + intros image [_ _ _ _ _ _ _ _ _ Hsegs Hsome]. fold segs in Hsegs. congruence.
    + by constructor.
  - rewrite parse_headers_outside by lia. assert (∀ image, ¬ describes bytes image) as Hno by (intros image []; lia).
    destruct (Z.leb_spec U64 (phoff_of bytes + 56 * (0 + 1))); cbn [mbind comp_bind]; [split; [lia|done]|done].
Qed.

(** The ELF parser is correct and complete.  For any file of bytes, it returns
    an image exactly when the file is a 64-bit little-endian x86-64 image whose
    program headers lie inside it and load something, and then the image is the
    one the file describes: its entry point and its non-empty [PT_LOAD] segments
    in order.  It never reads outside the file; the only panic is the overflow of
    a program-header offset within 56 bytes of the end of the address space. *)
Theorem elf_parse_correct :
  match parse bytes with
  | Ok image => describes bytes image
  | Err _ => ∀ image, ¬ describes bytes image
  | Panic => U64 ≤ phoff_of bytes + 56 ∧ ∀ image, ¬ describes bytes image
  | Hang => False
  end.
Proof.
  unfold parse. destruct (Z.ltb_spec (len bytes) 64) as [Hl|Hl]; [intros i []; lia|].
  destruct (bool_decide_reflect (take 4 bytes = ELF_MAGIC)) as [Hm|Hm]; cbn [negb]; [|by intros i []].
  unfold len in Hl. unfold byte_at. destruct (lookup_lt_is_Some_2 bytes 4) as [c Hc]; [lia|]. rewrite Hc. cbn [mbind comp_bind mret comp_ret].
  destruct (Z.eqb_spec c ELFCLASS64) as [-> |Hne]; cbn [negb]; [|intros i []; congruence].
  destruct (lookup_lt_is_Some_2 bytes 5) as [d Hd]; [lia|]. rewrite Hd. cbn [mbind comp_bind mret comp_ret].
  destruct (Z.eqb_spec d ELFDATA2LSB) as [-> |Hne]; cbn [negb]; [|intros i []; congruence].
  fold (len bytes) in Hl. unfold read_u16, read_u64.
  rewrite (read_le_ok 2 18) by lia. cbn [mbind comp_bind].
  destruct (Z.eqb_spec (field 2 bytes 18) ELF_MACHINE_X86_64) as [Hma|Hne]; cbn [negb]; [|by intros i []].
  rewrite (read_le_ok 8 24) by lia. cbn [mbind comp_bind]. rewrite (read_le_ok 8 32) by lia. cbn [mbind comp_bind].
  rewrite (read_le_ok 2 54) by lia. cbn [mbind comp_bind]. rewrite (read_le_ok 2 56) by lia. cbn [mbind comp_bind].
  destruct (Z.eqb_spec (field 2 bytes 54) 56) as [Hpe|Hne]; cbn [negb orb]; [|by intros i []].
  destruct (Z.eqb_spec (field 2 bytes 56) 0) as [Hpn|Hpn]; [by intros i []|].
  rewrite Hpe. pose proof (field_bound 8 32 ltac:(lia) ltac:(lia)) as Hpo. pose proof (field_bound 2 56 ltac:(lia) ltac:(lia)) as Hpnb.
  fold (phoff_of bytes) (phnum_of bytes) in *. apply parse_segments; try done. lia.
Qed.

End parser.

(** A file with one segment: eight bytes of code at 0x400000, in two pages. *)
Definition example_segment : ElfSegment := mkSegment 0x400000 8 0x1800 120 5 0x1000.
Definition example_elf : list Z :=
  ELF_MAGIC ++ [2; 1; 1; 0; 0; 0; 0; 0; 0; 0; 0; 0] ++ le_bytes 2 2 ++ le_bytes 2 0x3E ++ le_bytes 4 1 ++ le_bytes 8 0x400000 ++
  le_bytes 8 64 ++ le_bytes 8 0 ++ le_bytes 4 0 ++ le_bytes 2 64 ++ le_bytes 2 56 ++ le_bytes 2 1 ++ le_bytes 6 0 ++
  le_bytes 4 1 ++ le_bytes 4 5 ++ le_bytes 8 120 ++ le_bytes 8 0x400000 ++ le_bytes 8 0 ++ le_bytes 8 8 ++ le_bytes 8 0x1800 ++
  le_bytes 8 0x1000 ++ [0x90; 0x90; 0x90; 0x90; 0x90; 0x90; 0xEB; 0xFE].

Lemma elf_parse_correct_witness : parse example_elf = Ok (mkImage 0x400000 [example_segment]) ∧
  describes example_elf (mkImage 0x400000 [example_segment]).
Proof.
  assert (parse example_elf = Ok (mkImage 0x400000 [example_segment])) as Heq by (by vm_compute). split; [exact Heq|].
  pose proof (elf_parse_correct example_elf) as H. rewrite Heq in H. apply H; [apply list_forallb_byte|]; by vm_compute.
Defined.

End Elf.
