(* ===== verification/Loader.v ===== *)
(** * Address spaces of user programs

    [create_user_address_space_with_stack] and [map_user_segments] of
    src/src/kernel/process/mod.rs, over physical memory, the page tables and any
    frame allocator. *)

From S2P Require Import Prelude Mem Phys Paging Types UserMem Elf.
Local Open Scope Z_scope.

Module Loader.
Import Paging UserMem.

Section loader.
Context {S : Type} `{!FrameAlloc S}.

Definition align_down (value align : Z) : Z := Z.land value (not64 (align - 1)).

Definition align_up (value align : Z) : Z :=
  if Z.land value (align - 1) =? 0 then value else saturating_add64 (Z.lor value (align - 1)) 1.

(** [phys::allocate_frame().ok_or(..)] *)
Definition new_frame : M (pmem S) ProcessError Z :=
  frame ← alloc_frame;
  ok_or frame AddressSpaceAllocationFailed.

(** The pages of the stack, from the top down. *)
Fixpoint map_stack (n : nat) (pml4_phys current_top : Z) : M (pmem S) ProcessError unit :=
  match n with
  | O => mret tt
  | Datatypes.S n =>
      frame ← new_frame;
      let current_top := saturating_sub64 current_top PAGE_SIZE in
      _ ← map_err (λ _, AddressSpaceAllocationFailed) (map_page pml4_phys current_top frame (Z.lor FLAG_WRITABLE FLAG_USER));
      map_stack n pml4_phys current_top
  end.

Definition create_user_address_space_with_stack (kernel_cr3 stack_pages : Z) : M (pmem S) ProcessError (AddressSpace * UserStack) :=
  if stack_pages =? 0 then throw AddressSpaceAllocationFailed
  else
    pml4_phys ← map_err (λ _, AddressSpaceAllocationFailed) (clone_kernel_pml4 kernel_cr3);
    let address_space := with_cr3 pml4_phys User in
    stack_size ← ok_or (checked_mul64 stack_pages PAGE_SIZE) AddressSpaceAllocationFailed;
    _ ← map_stack (Z.to_nat stack_pages) pml4_phys user_stack_top;
    mret (address_space, mkUserStack user_stack_top stack_size).

Definition create_default_user_address_space (kernel_cr3 : Z) : M (pmem S) ProcessError (AddressSpace * UserStack) :=
  create_user_address_space_with_stack kernel_cr3 DEFAULT_STACK_PAGES.

(** The flags of a segment's pages. *)
Definition segment_page_flags (flags : Z) : Z :=
  let f := FLAG_USER in
  let f := if Elf.segment_flags_writable flags then Z.lor f FLAG_WRITABLE else f in
  if negb (Elf.segment_flags_executable flags) then Z.lor f FLAG_NO_EXECUTE else f.

(** The part of a page that comes from the file. *)
Definition copy_page (segment : Elf.ElfSegment) (data : list Z) (page frame : Z) : M (pmem S) ProcessError unit :=
  seg_file_end ← lift (add64 (Elf.vaddr segment) (Elf.filesz segment));
  page_end ← lift (add64 page PAGE_SIZE);
  let copy_start := Z.max (Elf.vaddr segment) page in
  let copy_end := Z.min seg_file_end page_end in
  if copy_start <? copy_end then
    let dst_offset := copy_start - page in
    let src_offset := copy_start - Elf.vaddr segment in
    let len := copy_end - copy_start in
    src_index ← lift (add64 (Elf.offset segment) src_offset);
    src_end ← lift (add64 src_index len);
    if Elf.len data <? src_end then throw InvalidElf
    else
      modify (λ s, mkPmem (store_bytes (pm_mem s) (frame + dst_offset) (take (Z.to_nat len) (drop (Z.to_nat src_index) data))) (pm_fa s))
  else mret tt.

(** One round of the loop over the pages of a segment. *)
Definition load_page (root : Z) (segment : Elf.ElfSegment) (data : list Z) (page : Z) : M (pmem S) ProcessError unit :=
  frame ← new_frame;
  _ ← lift (phys_to_virt frame);
  _ ← modify (λ s, mkPmem (fill (pm_mem s) frame PAGE_SIZE 0) (pm_fa s));
  _ ← map_err (λ _, AddressSpaceAllocationFailed) (map_page root page frame (segment_page_flags (Elf.flags segment)));
  copy_page segment data page frame.

(** [while page < end]; a round advances by a page or reaches the last address,
    so a round per page and one more are enough. *)
Fixpoint load_pages (fuel : nat) (root : Z) (segment : Elf.ElfSegment) (data : list Z) (page end_ : Z) : M (pmem S) ProcessError unit :=
  if negb (page <? end_) then mret tt
  else
    match fuel with
    | O => λ _, Hang
    | Datatypes.S fuel =>
        _ ← load_page root segment data page;
        load_pages fuel root segment data (saturating_add64 page PAGE_SIZE) end_
    end.

Definition load_segment (root : Z) (data : list Z) (segment : Elf.ElfSegment) : M (pmem S) ProcessError unit :=
  let start := align_down (Elf.vaddr segment) PAGE_SIZE in
  seg_end ← lift (add64 (Elf.vaddr segment) (Elf.memsz segment));
  let end_ := align_up seg_end PAGE_SIZE in
  load_pages (Z.to_nat ((end_ - start) / PAGE_SIZE + 1)) root segment data start end_.

Fixpoint load_segments (root : Z) (data : list Z) (segments : list Elf.ElfSegment) : M (pmem S) ProcessError unit :=
  match segments with
  | [] => mret tt
  | segment :: rest => _ ← load_segment root data segment; load_segments root data rest
  end.

Definition map_user_segments (a : AddressSpace) (image : Elf.ElfImage) (data : list Z) : M (pmem S) ProcessError unit :=
  load_segments (cr3 a) data (Elf.segments image).

End loader.

(** ** Frames *)

Section frames.
Context {S : Type} `{!FrameAlloc S, !FrameAllocLaws S}.
Implicit Types s : pmem S.

Definition us (root : Z) (s : pmem S) : Prop := fa_inv (pm_fa s) ∧ user_ok (pm_mem s) root (fa_pool (pm_fa s)).
Definition free (s : pmem S) : nat := length (fa_pool (pm_fa s)).

(** A frame taken from the allocator belongs to nobody. *)
Record owned_frame (root f : Z) (s : pmem S) : Prop := {
  of_ok : frame_ok f;
  of_private : ∀ x, f ≤ x < f + 4096 → ¬ private (pm_mem s) root (fa_pool (pm_fa s)) x;
  of_unmapped : ∀ v e, 0 ≤ v < 2 ^ 47 → mapped (pm_mem s) root v = Some e → Z.land e ENTRY_ADDR_MASK ≠ f
}.

Lemma private_sub m root f rest x : private m root rest x → private m root (f :: rest) x.
Proof. intros [(g & Hg & Hx)|?]; [left; exists g; split; [by right|done]|by right]. Qed.

Lemma user_ok_sub m root f rest : user_ok m root (f :: rest) → user_ok m root rest.
Proof.
  intros [[Hfr Hinj Hh Hp Hnd Hm] Hf Hd Hi]. apply Forall_cons_iff in Hp as [_ Hp]. apply NoDup_cons in Hnd as [_ Hnd].
  split; [split; try done| done| |done].
  - intros p t Hup Hw. destruct (Hfr p t Hup Hw) as [? Hn]. split; [done|]. intros ?. apply Hn. by right.
  - intros va e x Hva He Hx Hpr. by apply (Hd va e x Hva He Hx), private_sub.
Qed.

Lemma not_private_head m root f rest x : user_ok m root (f :: rest) → f ≤ x < f + 4096 → ¬ private m root rest x.
Proof.
  intros [[Hfr _ _ Hp Hnd _] _ _ _] Hx. apply Forall_cons_iff in Hp as [Hf Hp]. apply NoDup_cons in Hnd as [Hnf _].
  intros [(g & Hg & Hgx)|(p & t & Hup & Hw & Htx & _)].
  - rewrite Forall_forall in Hp. assert (f ≠ g) as Hne by (intros ->; done). destruct (frames_disjoint f g Hf (Hp g Hg) Hne); lia.
  - destruct (Hfr p t Hup Hw) as [Ht Hnt]. assert (f ≠ t) as Hne by (intros ->; apply Hnt; left). destruct (frames_disjoint f t Hf Ht Hne); lia.
Qed.

Lemma new_frame_spec root s : us root s → (0 < free s)%nat →
  ∃ f s1, new_frame s = Ok (f, s1) ∧ us root s1 ∧ owned_frame root f s1 ∧ pm_mem s1 = pm_mem s ∧ free s = Datatypes.S (free s1).
Proof.
  intros [Hfa Hok]. unfold free. destruct (fa_pool (pm_fa s)) as [|f rest] eqn:Hpool; [simpl; lia|]. intros _.
  destruct (allocate_frame_cons ProcessError (pm_fa s) f rest Hfa Hpool) as (a' & Ha & Hfa' & Hpool').
  exists f, (mkPmem (pm_mem s) a'). split; [unfold new_frame, alloc_frame, zoom, mbind, M_bind; by rewrite Ha|].
  unfold us. cbn [pm_mem pm_fa]. rewrite Hpool'. split_and!; [done|by apply (user_ok_sub _ _ f)| |done|done].
  split; cbn [pm_mem pm_fa]; rewrite ?Hpool'.
  - pose proof (si_pool _ _ _ (uo_inv _ _ _ Hok)) as Hp. by apply Forall_cons_iff in Hp as [? _].
  - intros x Hx. by apply (not_private_head _ _ f).
  - intros v e Hv He Heq. apply (uo_data _ _ _ Hok v e f Hv He); [lia|]. left. exists f. split; [left|lia].
Qed.

(** Writing to a frame that belongs to nobody. *)
Lemma write_owned root f s m' : us root s → owned_frame root f s → mem_ok m' →
  (∀ x, ¬ (f ≤ x < f + 4096) → m' x = pm_mem s x) →
  us root (mkPmem m' (pm_fa s)) ∧ owned_frame root f (mkPmem m' (pm_fa s)) ∧
  (∀ v, 0 ≤ v < 2 ^ 47 → mapped m' root v = mapped (pm_mem s) root v) ∧
  (∀ v, 0 ≤ v < 2 ^ 47 → user_byte m' root v = user_byte (pm_mem s) root v).
Proof.
  intros [Hfa Hok] [Hf Hpr Hun] Hm' Hout.
  assert (∀ x, private (pm_mem s) root (fa_pool (pm_fa s)) x → m' x = pm_mem s x) as Hsame.
  { intros x Hx. apply Hout. intros Hin. by apply (Hpr x Hin). }
  assert (∀ v, 0 ≤ v < 2 ^ 47 → mapped m' root v = mapped (pm_mem s) root v) as Hmap by (intros v Hv; by apply (outside_mapped _ _ _ (fa_pool (pm_fa s)))).
  split_and!; [split; [done|]|split; [done|..]|done|].
  - split.
    + apply (outside_inv (pm_mem s)); [apply Hok|done|done].
    + intros v e Hv. rewrite Hmap by done. by apply (uo_frame _ _ _ Hok).
    + intros v e x Hv. cbn [pm_mem]. rewrite Hmap by done. rewrite (outside_private (pm_mem s)) by done. by apply (uo_data _ _ _ Hok).
    + intros v v' e e' Hv Hv'. cbn [pm_mem]. rewrite !Hmap by done. by apply (uo_inj _ _ _ Hok).
  - intros x Hx. cbn [pm_mem pm_fa]. rewrite (outside_private (pm_mem s)) by done. by apply Hpr.
  - intros v e Hv. cbn [pm_mem]. rewrite Hmap by done. by apply Hun.
  - intros v Hv. unfold user_byte. rewrite (user_addr_mapped (pm_mem s)) by (by apply Hmap).
    unfold user_addr. destruct (mapped (pm_mem s) root v) as [e|] eqn:He; [|done]. simpl. f_equal. apply Hout.
    pose proof (Z.mod_pos_bound v 4096 ltac:(lia)). pose proof (Hun v e Hv He) as Hne. destruct (uo_frame _ _ _ Hok v e Hv He) as [Hb Hmod].
    destruct (frames_disjoint f (Z.land e ENTRY_ADDR_MASK)) as [?|?]; [done|done|congruence|lia|lia].
Qed.

(** Mapping a page uses at most three frames for tables. *)
Lemma ensure_table_free entry user s t s' : fa_inv (pm_fa s) → Forall frame_ok (fa_pool (pm_fa s)) → ensure_table entry user s = Ok (t, s') →
  fa_inv (pm_fa s') ∧ Forall frame_ok (fa_pool (pm_fa s')) ∧ (free s ≤ Datatypes.S (free s'))%nat.
Proof.
  intros Hfa Hok. unfold ensure_table. rewrite (M_bind_ok (read_entry _) _ s _ s eq_refl).
  destruct (has _ FLAG_PRESENT); cbn [negb].
  - unfold lift. destruct (table_from_phys _); [|done..]. intros [= _ ->]. split_and!; [done..|lia].
  - pose proof (allocate_table_spec s Hfa Hok) as Hal. unfold free. destruct (fa_pool (pm_fa s)) as [|f fs] eqn:Hpool.
    + destruct Hal as (a' & Hal & _). by rewrite (M_bind_err _ _ _ _ Hal).
    + destruct Hal as (a' & Hal & Hfa' & Hpool'). rewrite (M_bind_ok _ _ _ _ _ Hal).
      unfold mbind, M_bind, write_entry, modify, mret, M_ret. intros [= _ <-]. cbn [pm_fa]. rewrite Hpool'.
      apply Forall_cons_iff in Hok as [_ Hok]. done.
Qed.

Lemma map_page_free root va frame flags s s' : fa_inv (pm_fa s) → Forall frame_ok (fa_pool (pm_fa s)) →
  map_page root va frame flags s = Ok (tt, s') → (free s ≤ 3 + free s')%nat.
Proof.
  intros Hfa Hok. unfold map_page. destruct (_ || _); [done|]. intros (t0 & s0 & H0 & Hrun)%M_bind_inv.
  assert (s0 = s) as ->. { unfold lift in H0. destruct (table_from_phys root); [|done..]. congruence. }
  apply M_bind_inv in Hrun as (t1 & s1 & H1 & Hrun). apply ensure_table_free in H1 as (Hfa1 & Hok1 & Hf1); [|done..].
  apply M_bind_inv in Hrun as (t2 & s2 & H2 & Hrun). apply ensure_table_free in H2 as (Hfa2 & Hok2 & Hf2); [|done..].
  rewrite (M_bind_ok (read_entry _) _ s2 _ s2 eq_refl) in Hrun. destruct (has _ FLAG_HUGE); [done|].
  apply M_bind_inv in Hrun as (t3 & s3 & H3 & Hrun). apply ensure_table_free in H3 as (Hfa3 & Hok3 & Hf3); [|done..].
  rewrite (M_bind_ok (read_entry _) _ s3 _ s3 eq_refl) in Hrun. destruct (has _ FLAG_HUGE); [done|].
  rewrite (M_bind_ok (read_entry _) _ s3 _ s3 eq_refl) in Hrun. destruct (has _ FLAG_PRESENT); [done|].
  injection Hrun as <-. unfold free in *. cbn [pm_fa]. lia.
Qed.

(** Mapping an owned frame adds a page with the frame's contents. *)
Lemma map_owned root va f flags s : us root s → owned_frame root f s → 0 ≤ va < 2 ^ 47 → va mod 4096 = 0 → flags_ok flags →
  mapped (pm_mem s) root va = None → (3 ≤ free s)%nat →
  ∃ s', map_page root va f flags s = Ok (tt, s') ∧ us root s' ∧ (free s ≤ 3 + free s')%nat ∧
    (∀ v, 0 ≤ v < 2 ^ 47 → mapped (pm_mem s') root v = if v / 4096 =? va / 4096 then Some (Z.lor f (Z.lor flags FLAG_PRESENT)) else mapped (pm_mem s) root v) ∧
    (∀ v, 0 ≤ v < 2 ^ 47 → user_byte (pm_mem s') root v =
       if v / 4096 =? va / 4096 then Some (pm_mem s (f + v mod 4096)) else user_byte (pm_mem s) root v) ∧
    user_addr (pm_mem s') root va = Some f.
Proof.
  intros [Hfa Hok] [Hf Hpr Hun] Hva Ham Hfl Hnone Hfree. assert (pm_inv root s) as Hpm by (split; [done|apply Hok]).
  destruct (map_page_run root va f flags s Hpm Hva Ham Hf) as (s1 & _ & [[_ Hlt]|[[_ Hm]|(t & _ & _ & Hrun)]]); [unfold free in Hfree; lia|done|].
  set (s' := mkPmem _ _) in Hrun. exists s'.
  destruct (map_page_ok root va f flags s s' Hpm Hva Ham Hf Hfl Hrun) as (_ & [Hfa' _] & Hmap & Hmem & _).
  assert (Z.land (Z.lor f (Z.lor flags FLAG_PRESENT)) ENTRY_ADDR_MASK = f) as Haddr.
  { apply entry_addr; [done|]. destruct Hfl as [Hu Hz]. split; [by apply lor_u64|]. by rewrite Z.land_lor_distr_l, Hz. }
  split_and!; [done|split; [done|by apply (map_page_user_ok root va f flags s)]| |done| |].
  - apply (map_page_free root va f flags); [done|apply (si_pool _ _ _ (uo_inv _ _ _ Hok))|done].
  - intros v Hv. unfold user_byte, user_addr. rewrite Hmap by done. pose proof (Z.mod_pos_bound v 4096 ltac:(lia)).
    destruct (v / 4096 =? va / 4096); cbn [fmap option_fmap option_map].
    + rewrite Haddr. f_equal. apply Hmem, Hpr. lia.
    + destruct (mapped (pm_mem s) root v) as [e|] eqn:He; [|done]. cbn. f_equal. apply Hmem, (uo_data _ _ _ Hok v e); [done..|lia].
  - unfold user_addr. rewrite Hmap, Z.eqb_refl by done. cbn. rewrite Haddr, Ham. f_equal. lia.
Qed.

(** ** Segments *)

Lemma segment_page_flags_ok flags : flags_ok (segment_page_flags flags).
Proof. unfold segment_page_flags. by destruct (Elf.segment_flags_writable flags), (Elf.segment_flags_executable flags). Qed.

(** What a segment puts at an address of its pages. *)
Definition segment_byte (data : list Z) (g : Elf.ElfSegment) (v : Z) : Z :=
  if decide (Elf.vaddr g ≤ v < Elf.vaddr g + Elf.filesz g) then nth (Z.to_nat (Elf.offset g + (v - Elf.vaddr g))) data 0 else 0.

(** What a leaf entry allows: user access, writing, execution; what a segment asks
    for (PF_X is bit 0, PF_W bit 1). *)
Definition protection (entry : Z) : bool * bool * bool := (Z.testbit entry 2, Z.testbit entry 1, negb (Z.testbit entry 63)).
Definition segment_protection (g : Elf.ElfSegment) : bool * bool * bool := (true, Z.testbit (Elf.flags g) 1, Z.testbit (Elf.flags g) 0).

Lemma frame_bit f i : frame_ok f → 0 ≤ i < 12 ∨ 47 ≤ i → Z.testbit f i = false.
Proof.
  intros [Hf Hm] [Hi|Hi].
  - rewrite <- (Z.mod_pow2_bits_low f 12 i) by lia. change (2 ^ 12) with 4096. by rewrite Hm, Z.bits_0.
  - rewrite <- (Z.mod_small f (2 ^ 47)) by lia. apply Z.mod_pow2_bits_high. lia.
Qed.

Lemma segment_entry f g : frame_ok f →
  protection (Z.lor f (Z.lor (segment_page_flags (Elf.flags g)) FLAG_PRESENT)) = segment_protection g.
Proof.
  intros Hf. unfold protection, segment_protection. rewrite !Z.lor_spec, !(frame_bit f) by (done || lia).
  unfold segment_page_flags, Elf.segment_flags_writable, Elf.segment_flags_executable.
  pose proof (flag_testbit (Elf.flags g) 1 ltac:(done)) as Hw. pose proof (flag_testbit (Elf.flags g) 0 ltac:(done)) as Hx.
  change (Z.shiftl 1 1) with 0x2 in Hw. change (Z.shiftl 1 0) with 0x1 in Hx. rewrite Hw, Hx.
  by destruct (Z.testbit (Elf.flags g) 1), (Z.testbit (Elf.flags g) 0).
Qed.

Lemma stack_entry f : frame_ok f → protection (Z.lor f (Z.lor (Z.lor FLAG_WRITABLE FLAG_USER) FLAG_PRESENT)) = (true, true, true).
Proof. intros Hf. unfold protection. by rewrite !Z.lor_spec, !(frame_bit f) by (done || lia). Qed.

(** An address of a segment's pages holds its byte, with its protection. *)
Definition shows_segment (m : mem) (root : Z) (data : list Z) (g : Elf.ElfSegment) (v : Z) : Prop :=
  user_byte m root v = Some (segment_byte data g v) ∧ protection <$> mapped m root v = Some (segment_protection g).

(** The pages of a segment. *)
Definition page_start (g : Elf.ElfSegment) : Z := Elf.vaddr g / 4096 * 4096.
Definition page_limit (g : Elf.ElfSegment) : Z := (Elf.vaddr g + Elf.memsz g + 4095) / 4096 * 4096.

(** A segment for the lower half whose file part lies in the file. *)
Record segment_ok (data : list Z) (g : Elf.ElfSegment) : Prop := {
  sg_vaddr : 0 ≤ Elf.vaddr g;
  sg_memsz : 0 < Elf.memsz g;
  sg_filesz : 0 ≤ Elf.filesz g;
  sg_limit : page_limit g ≤ 2 ^ 47;
  sg_file : Elf.filesz g < 2 ^ 62;
  sg_offset : 0 ≤ Elf.offset g;
  sg_data : Elf.offset g + Elf.filesz g ≤ Elf.len data
}.

Section segment.
Context (root : Z) (data : list Z) (g : Elf.ElfSegment).
Hypothesis Hdata : Forall byte data.
Hypothesis Hlen : Elf.len data < 2 ^ 62.
Hypothesis Hg : segment_ok data g.

Lemma copy_page_spec s page f : us root s → 0 ≤ page → page + 4096 ≤ 2 ^ 47 → page mod 4096 = 0 → user_addr (pm_mem s) root page = Some f →
  (∀ v, page ≤ v < page + 4096 → user_byte (pm_mem s) root v = Some 0) →
  ∃ s', copy_page g data page f s = Ok (tt, s') ∧ us root s' ∧ free s' = free s ∧
    (∀ v, 0 ≤ v < 2 ^ 47 → mapped (pm_mem s') root v = mapped (pm_mem s) root v) ∧
    (∀ v, 0 ≤ v < 2 ^ 47 → user_byte (pm_mem s') root v =
       if v / 4096 =? page / 4096 then Some (segment_byte data g v) else user_byte (pm_mem s) root v).
Proof.
  intros [Hfa Hok] Hp Hpe Hpm Haddr Hzero. destruct Hg as [Hv Hms Hfs Hlim Hfb Ho Hd]. unfold page_limit in Hlim.
  assert (Elf.vaddr g < 2 ^ 47) by (Z.div_mod_to_equations; lia).
  unfold copy_page, PAGE_SIZE. rewrite !(M_bind_lift _ _ _ (Elf.vaddr g + Elf.filesz g)) by (apply add64_ok; lia).
  rewrite !(M_bind_lift _ _ _ (page + 4096)) by (apply add64_ok; lia).
  set (cs := Z.max (Elf.vaddr g) page). set (ce := Z.min (Elf.vaddr g + Elf.filesz g) (page + 4096)).
  destruct (Z.ltb_spec cs ce) as [Hlt|Hge].
  - rewrite !(M_bind_lift _ _ _ (Elf.offset g + (cs - Elf.vaddr g))) by (apply add64_ok; lia).
    rewrite !(M_bind_lift _ _ _ (Elf.offset g + (cs - Elf.vaddr g) + (ce - cs))) by (apply add64_ok; lia).
    destruct (Z.ltb_spec (Elf.len data) (Elf.offset g + (cs - Elf.vaddr g) + (ce - cs))); [lia|].
    set (bs := take _ _). assert (length bs = Z.to_nat (ce - cs)) as Hbl.
    { unfold bs. unfold Elf.len in *. rewrite length_take, length_drop. lia. }
    eexists. split; [reflexivity|]. cbn [pm_mem pm_fa].
    assert (user_addr (pm_mem s) root cs = Some (f + (cs - page))) as Hcs.
    { replace cs with (page + (cs - page)) at 1 by lia. rewrite user_addr_step by (try done; try lia). by rewrite Haddr. }
    assert (copied (pm_mem s) (store_bytes (pm_mem s) (f + (cs - page)) bs) root (fa_pool (pm_fa s)) cs bs) as [Hok' Hmap' Hb' _].
    { apply copied_page; try done; [lia|by apply Forall_take, Forall_drop|Z.div_mod_to_equations; lia]. }
    split_and!; [done..|]. intros v Hv'. rewrite Hb' by done. rewrite Hbl. unfold segment_byte.
    destruct (Z.eqb_spec (v / 4096) (page / 4096)) as [Heq|Hne].
    + assert (page ≤ v < page + 4096) as Hvp by (Z.div_mod_to_equations; lia).
      destruct (decide (cs ≤ v < cs + Z.of_nat (Z.to_nat (ce - cs)))) as [Hin|Hout].
      * rewrite decide_True by lia. unfold bs. rewrite lookup_take_lt by lia. rewrite lookup_drop.
        destruct (lookup_lt_is_Some_2 data (Z.to_nat (Elf.offset g + (cs - Elf.vaddr g)) + Z.to_nat (v - cs))) as [b Hb]; [unfold Elf.len in *; lia|].
        rewrite Hb. f_equal. symmetry. apply nth_lookup_Some. rewrite <- Hb. f_equal. lia.
      * rewrite decide_False by lia. by apply Hzero.
    + rewrite decide_False; [done|]. Z.div_mod_to_equations. lia.
  - exists s. split_and!; [done..|]. intros v Hv'. unfold segment_byte. destruct (Z.eqb_spec (v / 4096) (page / 4096)) as [Heq|Hne]; [|done].
    assert (page ≤ v < page + 4096) by (Z.div_mod_to_equations; lia). rewrite decide_False by lia. by apply Hzero.
Qed.

(** A round of the loop adds one page with the segment's contents. *)
Lemma load_page_spec s page : us root s → 0 ≤ page → page + 4096 ≤ 2 ^ 47 → page mod 4096 = 0 →
  mapped (pm_mem s) root page = None → (4 ≤ free s)%nat →
  ∃ s', load_page root g data page s = Ok (tt, s') ∧ us root s' ∧ (free s ≤ 4 + free s')%nat ∧
    (∀ v, 0 ≤ v < 2 ^ 47 → v / 4096 ≠ page / 4096 → mapped (pm_mem s') root v = mapped (pm_mem s) root v) ∧
    (∀ v, 0 ≤ v < 2 ^ 47 → v / 4096 = page / 4096 → protection <$> mapped (pm_mem s') root v = Some (segment_protection g)) ∧
    (∀ v, 0 ≤ v < 2 ^ 47 → user_byte (pm_mem s') root v =
       if v / 4096 =? page / 4096 then Some (segment_byte data g v) else user_byte (pm_mem s) root v).
Proof.
  intros Hus Hp Hpe Hpm Hnone Hfree. unfold load_page.
  destruct (new_frame_spec root s Hus) as (f & s1 & Hf & Hus1 & Hown & Hmem1 & Hfr1); [lia|].
  rewrite !(M_bind_ok _ _ _ _ _ Hf). pose proof Hown as [Hfok _ _].
  rewrite !(M_bind_lift (phys_to_virt f) _ _ (f + Phys.KERNEL_VMA_BASE))
    by (unfold phys_to_virt, Phys.KERNEL_VMA_BASE; destruct Hfok; apply add64_ok; lia).
  set (m2 := fill (pm_mem s1) f PAGE_SIZE 0). rewrite !(M_bind_ok (modify _) _ s1 tt (mkPmem m2 (pm_fa s1)) eq_refl).
  destruct (write_owned root f s1 m2 Hus1 Hown) as (Hus2 & Hown2 & Hmap2 & Hb2).
  { apply mem_ok_fill; [apply (si_mem _ _ _ (uo_inv _ _ _ (proj2 Hus1)))|done]. }
  { intros x Hx. apply fill_out. done. }
  destruct (map_owned root page f (segment_page_flags (Elf.flags g)) (mkPmem m2 (pm_fa s1)) Hus2 Hown2) as (s3 & Hrun & Hus3 & Hfr3 & Hmap3 & Hb3 & Ha3).
  { lia. } { done. } { apply segment_page_flags_ok. } { cbn [pm_mem]. rewrite Hmap2 by lia. by rewrite Hmem1. } { unfold free in *. cbn [pm_fa]. lia. }
  rewrite !(M_bind_ok (map_err _ _) _ _ tt s3) by (unfold map_err; by rewrite Hrun).
  destruct (copy_page_spec s3 page f Hus3 Hp Hpe Hpm Ha3) as (s' & Hcopy & Hus' & Hfr' & Hmap' & Hb').
  { intros v Hv. rewrite Hb3 by lia. destruct (Z.eqb_spec (v / 4096) (page / 4096)); [|Z.div_mod_to_equations; lia].
    cbn [pm_mem]. unfold m2. rewrite fill_in; [done|]. unfold PAGE_SIZE. Z.div_mod_to_equations. lia. }
  exists s'. split_and!; [done|done|unfold free in *; cbn [pm_fa] in *; lia|..].
  - intros v Hv Hne. rewrite Hmap', Hmap3 by done. destruct (Z.eqb_spec (v / 4096) (page / 4096)); [done|]. cbn [pm_mem]. rewrite Hmap2 by done. by rewrite Hmem1.
  - intros v Hv Heq. rewrite Hmap', Hmap3 by done. rewrite (proj2 (Z.eqb_eq _ _) Heq). cbn [fmap option_fmap option_map]. f_equal. by apply segment_entry.
  - intros v Hv. rewrite Hb', Hb3 by done. destruct (Z.eqb_spec (v / 4096) (page / 4096)); [done|]. cbn [pm_mem]. rewrite Hb2 by done. by rewrite Hmem1.
Qed.

(** The pages from [page] to [page + 4096 * n]. *)
Lemma load_pages_spec n fuel s page : us root s → 0 ≤ page → page + 4096 * Z.of_nat n ≤ 2 ^ 47 → page mod 4096 = 0 → (n ≤ fuel)%nat →
  (∀ v, page ≤ v < page + 4096 * Z.of_nat n → mapped (pm_mem s) root v = None) → (4 * n ≤ free s)%nat →
  ∃ s', load_pages fuel root g data page (page + 4096 * Z.of_nat n) s = Ok (tt, s') ∧ us root s' ∧ (free s ≤ 4 * n + free s')%nat ∧
    (∀ v, 0 ≤ v < 2 ^ 47 → ¬ (page ≤ v < page + 4096 * Z.of_nat n) →
       mapped (pm_mem s') root v = mapped (pm_mem s) root v ∧ user_byte (pm_mem s') root v = user_byte (pm_mem s) root v) ∧
    (∀ v, page ≤ v < page + 4096 * Z.of_nat n → shows_segment (pm_mem s') root data g v).
Proof.
  revert fuel s page. induction n as [|n IH]; intros fuel s page Hus Hp Hpe Hpm Hfuel Hun Hfree.
  { exists s. split_and!; [|done|lia|done|lia]. assert ((page <? page + 4096 * Z.of_nat 0) = false) as Hlt by (apply Z.ltb_ge; lia).
    destruct fuel; cbn [load_pages]; by rewrite Hlt. }
  destruct fuel as [|fuel]; [lia|]. cbn [load_pages].
  destruct (Z.ltb_spec page (page + 4096 * Z.of_nat (Datatypes.S n))); [|lia]. cbn [negb].
  destruct (load_page_spec s page) as (s1 & Hrun & Hus1 & Hfr1 & Hm1 & Hpr1 & Hb1); try done; [lia|apply Hun; lia|lia|].
  rewrite (M_bind_ok _ _ _ _ _ Hrun). unfold saturating_add64, PAGE_SIZE. rewrite Z.min_l by lia.
  destruct (IH fuel s1 (page + 4096)) as (s' & Hrun' & Hus' & Hfr' & Hout' & Hb'); try done; try lia.
  { rewrite <- Hpm, <- Z.add_mod_idemp_r, Z.mod_same, Z.add_0_r by lia. done. }
  { intros v Hv. rewrite Hm1 by (Z.div_mod_to_equations; lia). apply Hun. lia. }
  replace (page + 4096 * Z.of_nat (Datatypes.S n)) with (page + 4096 + 4096 * Z.of_nat n) in * by lia.
  exists s'. split_and!; [done|done|lia|..].
  - intros v Hv Hnot. destruct (Hout' v Hv) as [-> ->]; [lia|]. split; [apply Hm1; [done|Z.div_mod_to_equations; lia]|].
    rewrite Hb1 by done. destruct (Z.eqb_spec (v / 4096) (page / 4096)); [Z.div_mod_to_equations; lia|done].
  - intros v Hv. destruct (Z.leb_spec (page + 4096) v); [apply Hb'; lia|]. unfold shows_segment.
    destruct (Hout' v) as [-> ->]; [lia|lia|]. assert (v / 4096 = page / 4096) as Heq by (Z.div_mod_to_equations; lia).
    rewrite Hb1 by lia. rewrite (proj2 (Z.eqb_eq _ _) Heq). split; [done|]. apply Hpr1; [lia|done].
Qed.

Definition segment_pages : nat := Z.to_nat ((page_limit g - page_start g) / 4096).

Lemma align_up_page v : 0 ≤ v < 2 ^ 47 + 1 → align_up v 4096 = (v + 4095) / 4096 * 4096.
Proof.
  intros Hv. unfold align_up, saturating_add64. pose proof (Z.add_lor_land v (4096 - 1)) as Hl.
  change (4096 - 1) with (2 ^ 12 - 1) in Hl |- *. rewrite (land_low_mask v 12) in Hl by lia. rewrite (land_low_mask v 12) by lia.
  change (2 ^ 12) with 4096 in *. set (w := Z.lor v (4096 - 1)) in *. clearbody w.
  destruct (Z.eqb_spec (v mod 4096) 0); Z.div_mod_to_equations; lia.
Qed.

Lemma load_segment_spec s : us root s → (∀ v, page_start g ≤ v < page_limit g → mapped (pm_mem s) root v = None) → (4 * segment_pages ≤ free s)%nat →
  ∃ s', load_segment root data g s = Ok (tt, s') ∧ us root s' ∧ (free s ≤ 4 * segment_pages + free s')%nat ∧
    (∀ v, 0 ≤ v < 2 ^ 47 → ¬ (page_start g ≤ v < page_limit g) →
       mapped (pm_mem s') root v = mapped (pm_mem s) root v ∧ user_byte (pm_mem s') root v = user_byte (pm_mem s) root v) ∧
    (∀ v, page_start g ≤ v < page_limit g → shows_segment (pm_mem s') root data g v).
Proof.
  intros Hus Hun Hfree. destruct Hg as [Hv Hms Hfs Hlim Hfb Ho Hd]. unfold page_limit in Hlim.
  assert (0 ≤ Elf.vaddr g + Elf.memsz g ≤ 2 ^ 47) as Hend by (Z.div_mod_to_equations; lia).
  unfold load_segment. rewrite (M_bind_lift _ _ _ (Elf.vaddr g + Elf.memsz g)) by (apply add64_ok; lia).
  unfold PAGE_SIZE. rewrite align_up_page by lia. unfold align_down. rewrite land_not_mask; [|unfold u64; lia|by apply (pow2_intro 12)].
  replace (Elf.vaddr g - Elf.vaddr g mod 4096) with (page_start g) by (unfold page_start; Z.div_mod_to_equations; lia).
  fold (page_limit g).
  assert (page_limit g = page_start g + 4096 * Z.of_nat segment_pages) as Hpl.
  { unfold segment_pages, page_limit, page_start. Z.div_mod_to_equations. lia. }
  rewrite Hpl in Hun |- *. apply load_pages_spec; try done.
  - unfold page_start. Z.div_mod_to_equations. lia.
  - rewrite <- Hpl. by unfold page_limit.
  - unfold page_start. by rewrite Z.mod_mul.
  - replace (page_start g + 4096 * Z.of_nat segment_pages - page_start g) with (Z.of_nat segment_pages * 4096) by lia. rewrite Z.div_mul by lia. lia.
Qed.

End segment.

(** Segments in pages of their own. *)
Definition apart (g h : Elf.ElfSegment) : Prop := page_limit g ≤ page_start h ∨ page_limit h ≤ page_start g.
Definition total_pages (segments : list Elf.ElfSegment) : nat := foldr (λ g n, segment_pages g + n)%nat 0%nat segments.

Lemma load_segments_spec root data segments s :
  us root s → Forall byte data → Elf.len data < 2 ^ 62 → Forall (segment_ok data) segments → ForallOrdPairs apart segments →
  (∀ g v, g ∈ segments → page_start g ≤ v < page_limit g → mapped (pm_mem s) root v = None) →
  (4 * total_pages segments ≤ free s)%nat →
  ∃ s', load_segments root data segments s = Ok (tt, s') ∧ us root s' ∧
    (∀ g v, g ∈ segments → page_start g ≤ v < page_limit g → shows_segment (pm_mem s') root data g v) ∧
    (∀ v, 0 ≤ v < 2 ^ 47 → (∀ g, g ∈ segments → ¬ (page_start g ≤ v < page_limit g)) →
       mapped (pm_mem s') root v = mapped (pm_mem s) root v ∧ user_byte (pm_mem s') root v = user_byte (pm_mem s) root v).
Proof.
  intros Hus Hd Hl. revert s Hus.
  induction segments as [|g gs IH]; intros s Hus Hok Hap Hun Hfree.
  { exists s. split_and!; [done|done| |done]. intros g v Hg. by apply elem_of_nil in Hg. }
  apply Forall_cons_iff in Hok as [Hg Hok]. inversion Hap as [|? ? Hga Hap']; subst. cbn [load_segments total_pages foldr] in *.
  destruct (load_segment_spec root data g Hd Hl Hg s Hus) as (s1 & Hr1 & Hus1 & Hfr1 & Hout1 & Hin1); [intros v; apply Hun; left|lia|].
  assert (∀ h v, h ∈ gs → page_start h ≤ v < page_limit h → 0 ≤ v < 2 ^ 47 ∧ ¬ (page_start g ≤ v < page_limit g)) as Hsep.
  { intros h v Hh Hv. rewrite Forall_forall in Hok, Hga. destruct (Hok h Hh) as [? ? _ ? _ _ _]. destruct (Hga h Hh).
    - unfold page_start, page_limit in *. Z.div_mod_to_equations. lia.
    - unfold page_start, page_limit in *. Z.div_mod_to_equations. lia. }
  destruct (IH s1 Hus1 Hok Hap') as (s' & Hr' & Hus' & Hin' & Hout').
  { intros h v Hh Hv. destruct (Hsep h v Hh Hv). destruct (Hout1 v) as [-> _]; [done..|]. apply (Hun h); [by right|done]. }
  { fold (total_pages gs) in *. lia. }
  exists s'. rewrite (M_bind_ok _ _ _ _ _ Hr1). split_and!; [done|done|..].
  - intros h v [-> |Hh]%elem_of_cons Hv; [|by apply Hin']. unfold shows_segment. destruct Hg as [? ? _ ? _ _ _]. destruct (Hout' v) as [-> ->].
    + unfold page_start, page_limit in *. Z.div_mod_to_equations. lia.
    + intros h' Hh' Hv'. by destruct (Hsep h' v Hh' Hv').
    + by apply Hin1.
  - intros v Hv Hnot. destruct (Hout' v Hv) as [-> ->]; [intros h Hh; apply Hnot; by right|]. apply Hout1; [done|]. apply Hnot. left.
Qed.

(** The loader builds the memory image the ELF file describes.  For segments
    of the lower half in pages of their own, none of them mapped, whose file
    parts lie in the file, and with four frames free for every page (one for the
    page and at most three for tables), [map_user_segments] succeeds.  Afterwards
    every byte of the segments' pages is the byte of the file the segment assigns
    to it, and zero elsewhere, and the page can be written and executed as the
    flags of the segment say; every other address of the process is mapped and
    holds what it did before, and the address space is well formed. *)
Theorem map_user_segments_correct a image data s :
  us (cr3 a) s → Forall byte data → Elf.len data < 2 ^ 62 → Forall (segment_ok data) (Elf.segments image) →
  ForallOrdPairs apart (Elf.segments image) →
  (∀ g v, g ∈ Elf.segments image → page_start g ≤ v < page_limit g → mapped (pm_mem s) (cr3 a) v = None) →
  (4 * total_pages (Elf.segments image) ≤ free s)%nat →
  ∃ s', map_user_segments a image data s = Ok (tt, s') ∧ us (cr3 a) s' ∧
    (∀ g v, g ∈ Elf.segments image → page_start g ≤ v < page_limit g → shows_segment (pm_mem s') (cr3 a) data g v) ∧
    (∀ v, 0 ≤ v < 2 ^ 47 → (∀ g, g ∈ Elf.segments image → ¬ (page_start g ≤ v < page_limit g)) →
       mapped (pm_mem s') (cr3 a) v = mapped (pm_mem s) (cr3 a) v ∧ user_byte (pm_mem s') (cr3 a) v = user_byte (pm_mem s) (cr3 a) v).
Proof. apply load_segments_spec. Qed.

(** ** The stack *)

Lemma fresh_us root s : pm_inv root s → (∀ v, 0 ≤ v < 2 ^ 47 → mapped (pm_mem s) root v = None) → us root s.
Proof. intros [Hfa Hinv] Hno. split; [done|]. split; [done|..]; intros v; intros; by rewrite Hno in *. Qed.

Lemma map_stack_spec n root top s : us root s → 4096 * Z.of_nat n ≤ top ≤ 2 ^ 47 → top mod 4096 = 0 →
  (∀ v, top - 4096 * Z.of_nat n ≤ v < top → mapped (pm_mem s) root v = None) → (4 * n ≤ free s)%nat →
  ∃ s', map_stack n root top s = Ok (tt, s') ∧ us root s' ∧ (free s ≤ 4 * n + free s')%nat ∧
    (∀ v, top - 4096 * Z.of_nat n ≤ v < top → protection <$> mapped (pm_mem s') root v = Some (true, true, true)) ∧
    (∀ v, 0 ≤ v < 2 ^ 47 → ¬ (top - 4096 * Z.of_nat n ≤ v < top) → mapped (pm_mem s') root v = mapped (pm_mem s) root v).
Proof.
  revert top s. induction n as [|n IH]; intros top s Hus Htop Hm Hun Hfree.
  { exists s. split_and!; [done|done|lia|lia|done]. }
  cbn [map_stack]. destruct (new_frame_spec root s Hus) as (f & s1 & Hf & Hus1 & Hown & Hmem1 & Hfr1); [lia|].
  rewrite !(M_bind_ok _ _ _ _ _ Hf). unfold saturating_sub64, PAGE_SIZE. rewrite Z.max_l by lia.
  destruct (map_owned root (top - 4096) f (Z.lor FLAG_WRITABLE FLAG_USER) s1 Hus1 Hown) as (s2 & Hr & Hus2 & Hfr2 & Hm2 & _ & _).
  { lia. } { Z.div_mod_to_equations. lia. } { done. } { rewrite Hmem1. apply Hun. lia. } { lia. }
  rewrite !(M_bind_ok (map_err _ _) _ _ tt s2) by (unfold map_err; by rewrite Hr). rewrite Hmem1 in Hm2.
  destruct (IH (top - 4096) s2) as (s' & Hr' & Hus' & Hfr' & Hin' & Hout'); [done|lia|Z.div_mod_to_equations; lia| |lia|].
  { intros v Hv. rewrite Hm2 by lia. destruct (Z.eqb_spec (v / 4096) ((top - 4096) / 4096)); [Z.div_mod_to_equations; lia|]. apply Hun. lia. }
  exists s'. split_and!; [done|done|lia|..].
  - intros v Hv. destruct (Z.ltb_spec v (top - 4096)); [apply Hin'; lia|]. rewrite Hout', Hm2 by lia.
    destruct (Z.eqb_spec (v / 4096) ((top - 4096) / 4096)); [|Z.div_mod_to_equations; lia].
    cbn [fmap option_fmap option_map]. f_equal. by destruct Hown as [Hfok _ _]; apply stack_entry.
  - intros v Hv Hnot. rewrite Hout', Hm2 by lia. destruct (Z.eqb_spec (v / 4096) ((top - 4096) / 4096)); [Z.div_mod_to_equations; lia|done].
Qed.

Lemma create_user_spec kernel n s :
  fa_inv (pm_fa s) → Forall frame_ok (fa_pool (pm_fa s)) → NoDup (fa_pool (pm_fa s)) → mem_ok (pm_mem s) →
  frame_ok kernel → kernel ∉ fa_pool (pm_fa s) → 0 < n → 4096 * n ≤ user_stack_top → 4 * n + 1 ≤ Z.of_nat (free s) →
  ∃ a s', create_user_address_space_with_stack kernel n s = Ok ((a, mkUserStack user_stack_top (4096 * n)), s') ∧
    is_user a = true ∧ us (cr3 a) s' ∧ (free s ≤ 4 * Z.to_nat n + 1 + free s')%nat ∧
    (∀ v, 0 ≤ v < 2 ^ 47 → protection <$> mapped (pm_mem s') (cr3 a) v =
       if decide (user_stack_top - 4096 * n ≤ v < user_stack_top) then Some (true, true, true) else None).
Proof.
  intros Hfa Hok Hnd Hm Hk Hkp Hn Htop Hfree. unfold user_stack_top, USER_ADDR_LIMIT in *.
  pose proof (clone_kernel_pml4_spec kernel s Hfa Hok Hnd Hm Hk Hkp) as Hc. unfold free in Hfree.
  destruct (fa_pool (pm_fa s)) as [|root rest] eqn:Hpool; [simpl in Hfree; lia|].
  destruct Hc as (s1 & Hr1 & Hinv1 & Hp1 & Hno1 & _ & _).
  unfold create_user_address_space_with_stack. destruct (Z.eqb_spec n 0); [lia|].
  rewrite !(M_bind_ok (map_err _ _) _ s root s1) by (unfold map_err; by rewrite Hr1).
  unfold checked_mul64, PAGE_SIZE. destruct (Z.ltb_spec (n * 4096) U64); [|lia]. rewrite !(M_bind_ok (ok_or (Some (n * 4096)) _) _ s1 (n * 4096) s1 eq_refl).
  destruct (map_stack_spec (Z.to_nat n) root 0x80000000 s1) as (s' & Hr & Hus' & Hfr & Hin & Hout); try done.
  - by apply fresh_us.
  - lia.
  - intros v Hv. apply Hno1. lia.
  - unfold free. rewrite Hp1. simpl in Hfree. lia.
  - exists (with_cr3 root User), s'. rewrite (M_bind_ok _ _ _ _ _ Hr). rewrite (Z.mul_comm n). split_and!; try done.
    { unfold free in *. rewrite Hp1, Hpool in *. simpl in *. lia. }
    cbn [cr3]. rewrite Z2Nat.id in * by lia. intros v Hv. case_decide; [by apply Hin|]. by rewrite Hout, Hno1.
Qed.

(** A new user address space.  With enough frames, creating the address space
    of a program succeeds: it is a user space over a fresh well-formed set of page
    tables whose lower half maps exactly the pages of the stack, right below the
    top of user space, for the program to read, write and execute, and the stack has the size asked for. *)
Theorem create_user_address_space_correct kernel n s :
  fa_inv (pm_fa s) → Forall frame_ok (fa_pool (pm_fa s)) → NoDup (fa_pool (pm_fa s)) → mem_ok (pm_mem s) →
  frame_ok kernel → kernel ∉ fa_pool (pm_fa s) → 0 < n → 4096 * n ≤ user_stack_top → 4 * n + 1 ≤ Z.of_nat (free s) →
  ∃ a s', create_user_address_space_with_stack kernel n s = Ok ((a, mkUserStack user_stack_top (4096 * n)), s') ∧
    is_user a = true ∧ us (cr3 a) s' ∧
    (∀ v, 0 ≤ v < 2 ^ 47 → protection <$> mapped (pm_mem s') (cr3 a) v =
       if decide (user_stack_top - 4096 * n ≤ v < user_stack_top) then Some (true, true, true) else None).
Proof.
  intros. destruct (create_user_spec kernel n s) as (a & s' & Hr & Hu & Hus & _ & Hv); try done. by exists a, s'.
Qed.

End frames.

(** *** Witnesses *)

Lemma example_us : us 0x800000 example_space.
Proof. apply fresh_us; [apply example_inv|]. intros v Hv. by apply empty_mapped. Qed.

Definition example_user : AddressSpace := with_cr3 0x800000 User.
Definition example_image : Elf.ElfImage := Elf.mkImage 0x400000 [Elf.example_segment].

Lemma map_user_segments_correct_witness :
  ∃ s', map_user_segments example_user example_image Elf.example_elf example_space = Ok (tt, s') ∧
    user_byte (pm_mem s') 0x800000 0x400006 = Some 0xEB ∧ user_byte (pm_mem s') 0x800000 0x401234 = Some 0.
Proof.
  assert (page_start Elf.example_segment ≤ 0x400006 < page_limit Elf.example_segment) as B1 by (by vm_compute).
  assert (page_start Elf.example_segment ≤ 0x401234 < page_limit Elf.example_segment) as B2 by (by vm_compute).
  destruct (map_user_segments_correct example_user example_image Elf.example_elf example_space) as (s' & Hr & _ & Hin & _).
  - apply example_us.
  - apply list_forallb_byte. by vm_compute.
  - by vm_compute.
  - repeat constructor; by vm_compute.
  - repeat constructor.
  - intros g v Hg Hv. apply list_elem_of_singleton in Hg as ->. apply empty_mapped; try done.
    assert (page_limit Elf.example_segment = 0x402000) as Hl by (by vm_compute). assert (page_start Elf.example_segment = 0x400000) as Hs by (by vm_compute). lia.
  - unfold free. rewrite example_pool. by vm_compute; lia.
  - exists s'. change (cr3 example_user) with 0x800000 in Hin. split; [exact Hr|].
    assert (segment_byte Elf.example_elf Elf.example_segment 0x400006 = 0xEB) as E1 by (by vm_compute).
    assert (segment_byte Elf.example_elf Elf.example_segment 0x401234 = 0) as E2 by (by vm_compute).
    split.
    + rewrite (proj1 (Hin Elf.example_segment 0x400006 ltac:(left) B1)). exact (f_equal Some E1).
    + rewrite (proj1 (Hin Elf.example_segment 0x401234 ltac:(left) B2)). exact (f_equal Some E2).
Defined.

Lemma create_user_address_space_correct_witness :
  ∃ a s', create_user_address_space_with_stack 0x800000 1 example_space = Ok ((a, mkUserStack user_stack_top 4096), s') ∧ us (cr3 a) s'.
Proof.
  destruct (create_user_address_space_correct 0x800000 1 example_space) as (a & s' & Hr & _ & Hus & _).
  - apply example_fa_inv.
  - apply example_pool_ok.
  - apply example_pool_ok.
  - done.
  - done.
  - apply example_not_pool.
  - lia.
  - by vm_compute.
  - unfold free. rewrite example_pool. by vm_compute.
  - exists a, s'. split; [exact Hr|exact Hus].
Defined.

End Loader.
