(* ===== verification/Fat.v ===== *)
(** * The FAT16 file system: src/src/kernel/fs/fat.rs

    Read-only access to files of the root directory.  The ares-core crate has the
    same code without the logging.  A path is given by its bytes. *)

From S2P Require Import Prelude Mem Heap Types Drivers Vfs.
Local Open Scope Z_scope.

Module Fat.

Definition SECTOR_SIZE : Z := 512.
Definition SHORT_NAME_LEN : nat := 11.
Definition FAT16_END : Z := 0xFFF8.

Inductive FatError := NotMounted | InvalidPath | NotFound | FatIo.

Section fat.
Context {W : Type}.

Record FatVolume := mkVolume {
  device : BlockDevice W; start_lba : Z; bytes_per_sector : Z; sectors_per_cluster : Z; reserved_sectors : Z; num_fats : Z;
  root_entries : Z; sectors_per_fat : Z; fat_lba : Z; root_dir_lba : Z; root_dir_sectors : Z; data_lba : Z; bytes_per_cluster : Z
}.

(** [uN::from_le_bytes] on [n] bytes of a sector. *)
Definition le_at (n : nat) (sector : list Z) (i : nat) : Z := le_val (take n (drop i sector)).

(** The fields of the boot sector. *)
Definition volume_of (device : BlockDevice W) (start_lba : Z) (sector : list Z) : comp FatError FatVolume :=
  let bytes_per_sector := le_at 2 sector 11 in
  if negb (bytes_per_sector =? SECTOR_SIZE) then Err FatIo
  else
    let sectors_per_cluster := le_at 1 sector 13 in
    let reserved_sectors := le_at 2 sector 14 in
    let num_fats := le_at 1 sector 16 in
    let root_entries := le_at 2 sector 17 in
    let sectors_per_fat := le_at 2 sector 22 in
    fat_lba ← add64 start_lba reserved_sectors;
    root_dir_lba ← add64 fat_lba (num_fats * sectors_per_fat);
    let root_dir_sectors := (root_entries * 32 + (bytes_per_sector - 1)) / bytes_per_sector in
    data_lba ← add64 root_dir_lba root_dir_sectors;
    mret (mkVolume device start_lba bytes_per_sector sectors_per_cluster reserved_sectors num_fats root_entries sectors_per_fat
      fat_lba root_dir_lba root_dir_sectors data_lba (bytes_per_sector * sectors_per_cluster)).

Definition load (device : BlockDevice W) (start_lba : Z) : M W FatError FatVolume :=
  sector ← map_err (λ _, FatIo) (read_blocks device start_lba SECTOR_SIZE);
  lift (volume_of device start_lba sector).

Definition read_sector (v : FatVolume) (lba : Z) : M W FatError (list Z) :=
  map_err (λ _, FatIo) (read_blocks (device v) lba SECTOR_SIZE).

(** *** Names *)

Definition str_bytes (s : string) : list Z := (λ c, Z.of_nat (Ascii.nat_of_ascii c)) <$> String.list_ascii_of_string s.

Fixpoint trim_start (c : Z) (l : list Z) : list Z :=
  match l with
  | x :: rest => if x =? c then trim_start c rest else l
  | [] => []
  end.

(** [str::trim_matches] with a character *)
Definition trim_matches (c : Z) (l : list Z) : list Z := rev (trim_start c (rev (trim_start c l))).

(** [str::split] with a character *)
Fixpoint split (c : Z) (l : list Z) : list (list Z) :=
  match l with
  | [] => [[]]
  | x :: rest =>
      if x =? c then [] :: split c rest
      else match split c rest with part :: parts => (x :: part) :: parts | [] => [[x]] end
  end.

Definition slash : Z := 47.
Definition dot : Z := 46.

Definition to_short_char (ch : Z) : option Z :=
  if (97 <=? ch) && (ch <=? 122) then Some (ch - 32)
  else if (65 <=? ch) && (ch <=? 90) || (48 <=? ch) && (ch <=? 57) || (ch =? 95) then Some ch
  else None.

(** The loop that fills a part of the name. *)
Fixpoint short_chars (l : list Z) : option (list Z) :=
  match l with
  | [] => Some []
  | ch :: rest => c ← to_short_char ch; cs ← short_chars rest; Some (c :: cs)
  end.

Definition pad (n : nat) (l : list Z) : list Z := l ++ replicate (n - length l) 32.

Definition format_short_name (path : list Z) : option (list Z) :=
  let trimmed := trim_matches slash path in
  if (length trimmed =? 0)%nat then None
  else if existsb (λ c, c =? slash) trimmed then None
  else
    match split dot trimmed with
    | [] => None
    | name_part :: parts =>
        let ext_part := match parts with [] => None | ext :: _ => Some ext end in
        if (1 <? length parts)%nat then None
        else if (length name_part =? 0)%nat || (8 <? length name_part)%nat then None
        else
          match ext_part with
          | Some ext =>
              if (3 <? length ext)%nat then None
              else name ← short_chars name_part; e ← short_chars ext; Some (pad 8 name ++ pad 3 e)
          | None => name ← short_chars name_part; Some (pad SHORT_NAME_LEN name)
          end
    end.

(** *** The root directory *)

Inductive scan_result := ScanEnd | ScanFound (cluster size : Z) | ScanNext.

(** What an entry of 32 bytes means for the search. *)
Definition scan_entry (short_name entry : list Z) : scan_result :=
  let first := le_at 1 entry 0 in
  let attr := le_at 1 entry 11 in
  if first =? 0 then ScanEnd
  else if (first =? 0xE5) || (attr =? 0x0F) then ScanNext
  else if negb (Z.land attr 0x08 =? 0) || negb (Z.land attr 0x10 =? 0) then ScanNext
  else if negb (bool_decide (take SHORT_NAME_LEN entry = short_name)) then ScanNext
  else ScanFound (le_at 2 entry 26) (le_at 4 entry 28).

Fixpoint scan_entries (n : nat) (short_name sector : list Z) (entry_index : nat) : scan_result :=
  match n with
  | O => ScanNext
  | S n =>
      match scan_entry short_name (take 32 (drop (entry_index * 32) sector)) with
      | ScanNext => scan_entries n short_name sector (S entry_index)
      | r => r
      end
  end.

Fixpoint scan_sectors (n : nat) (v : FatVolume) (short_name : list Z) (sector_index : Z) : M W FatError (Z * Z) :=
  match n with
  | O => throw NotFound
  | S n =>
      lba ← lift (add64 (root_dir_lba v) sector_index);
      sector ← read_sector v lba;
      match scan_entries (Z.to_nat (bytes_per_sector v / 32)) short_name sector 0 with
      | ScanEnd => throw NotFound
      | ScanFound cluster size => mret (cluster, size)
      | ScanNext => scan_sectors n v short_name (sector_index + 1)
      end
  end.

Definition find_root_file (v : FatVolume) (path : list Z) : M W FatError (Z * Z) :=
  short_name ← ok_or (format_short_name path) InvalidPath;
  scan_sectors (Z.to_nat (root_dir_sectors v)) v short_name 0.

(** *** Clusters *)

Definition cluster_to_lba {E} (v : FatVolume) (cluster : Z) : comp E Z :=
  n ← sub64 cluster 2;
  skip ← mul64 n (sectors_per_cluster v);
  add64 (data_lba v) skip.

Definition next_cluster (v : FatVolume) (cluster : Z) : M W FatError (option Z) :=
  let fat_offset := cluster * 2 in
  let fat_sector := fat_offset / bytes_per_sector v in
  let offset_within := fat_offset mod bytes_per_sector v in
  lba ← lift (add64 (fat_lba v) fat_sector);
  sector ← read_sector v lba;
  let entry := le_at 2 sector (Z.to_nat offset_within) in
  mret (if FAT16_END <=? entry then None else Some entry).

(** The loop of [cluster_for_offset]. *)
Fixpoint seek_cluster (fuel : nat) (v : FatVolume) (cluster offset : Z) : M W FatError (option (Z * Z)) :=
  if negb (bytes_per_cluster v <=? offset) then mret (Some (cluster, offset))
  else
    match fuel with
    | O => λ _, Hang
    | S fuel =>
        next ← next_cluster v cluster;
        match next with
        | Some next => seek_cluster fuel v next (offset - bytes_per_cluster v)
        | None => mret None
        end
    end.

(** Every round moves by a cluster, or, when the volume has empty clusters, along
    the chain of at most 65536 of them. *)
Definition cluster_for_offset (v : FatVolume) (start_cluster offset : Z) : M W FatError (option (Z * Z)) :=
  if start_cluster =? 0 then mret None
  else seek_cluster (Z.to_nat (offset + 65537)) v start_cluster offset.

(** The loop of [read_cluster_slice] over the sectors from [sector_index] on; [acc] is what
    has been copied of the [len] bytes asked for. *)
Fixpoint read_sectors (n : nat) (v : FatVolume) (cluster sector_index cluster_offset len : Z) (acc : list Z) : M W FatError (list Z) :=
  match n with
  | O => mret acc
  | S n =>
      let remaining := len - Z.of_nat (length acc) in
      if remaining =? 0 then mret acc
      else
        base ← lift (cluster_to_lba v cluster);
        lba ← lift (add64 base sector_index);
        sector ← read_sector v lba;
        let within_sector :=
          if sector_index =? cluster_offset / bytes_per_sector v then cluster_offset mod bytes_per_sector v else 0 in
        let copy := Z.min (bytes_per_sector v - within_sector) remaining in
        read_sectors n v cluster (sector_index + 1) 0 len (acc ++ take (Z.to_nat copy) (drop (Z.to_nat within_sector) sector))
  end.

(** The destination after the call; what is not copied stays. *)
Definition read_cluster_slice (v : FatVolume) (cluster offset : Z) (dest : list Z) : M W FatError (list Z) :=
  let first := offset / bytes_per_sector v in
  copied ← read_sectors (Z.to_nat (sectors_per_cluster v - first)) v cluster first offset (Z.of_nat (length dest)) [];
  mret (copied ++ drop (length copied) dest).

(** *** Files *)

Record FatFile := mkFatFile { volume : FatVolume; start_cluster : Z; size : Z }.

(** The loop of [read_at]; the buffer is given zeroed, and [acc] is what has been
    written to it. *)
Fixpoint read_loop (fuel : nat) (f : FatFile) (total current_offset : Z) (acc : list Z) : M W VfsError (list Z) :=
  if negb (0 <? total) then mret acc
  else
    match fuel with
    | O => λ _, Hang
    | S fuel =>
        info ← map_err (λ _, VfsIo) (cluster_for_offset (volume f) (start_cluster f) current_offset);
        match info with
        | None => mret acc
        | Some (cluster, offset_in_cluster) =>
            cluster_remaining ← lift (sub64 (bytes_per_cluster (volume f)) offset_in_cluster);
            let to_copy := Z.min cluster_remaining total in
            chunk ← map_err (λ _, VfsIo)
              (read_cluster_slice (volume f) cluster offset_in_cluster (replicate (Z.to_nat to_copy) 0));
            read_loop fuel f (total - to_copy) (current_offset + to_copy) (acc ++ chunk)
        end
    end.

(** Every round copies at least a byte. *)
Definition fat_read_at (f : FatFile) (offset n : Z) : M W VfsError (list Z) :=
  if size f <=? offset then mret []
  else
    let total := Z.min n (size f - offset) in
    read_loop (Z.to_nat total) f total offset [].

Definition fat_file (f : FatFile) : VfsFile W :=
  mkVfsFile "fat-file" (fat_read_at f) (λ _ _, throw VfsUnsupported) (mret tt) (mret (size f)).

(** *** Mounting and opening *)

(** The devices, the mounted volume and the free list of the heap. *)
Record fs := mkFs { fs_world : W; fs_volume : option FatVolume; fs_heap : list Heap.ListNode }.

Definition on_device {E A} (m : M W E A) : M fs E A :=
  zoom fs_world (λ w s, mkFs w (fs_volume s) (fs_heap s)) m.

Definition mount (device : BlockDevice W) (start_lba : Z) : M fs FatError unit :=
  volume ← on_device (load device start_lba);
  modify (λ s, mkFs (fs_world s) (Some volume) (fs_heap s)).

Definition alloc_file (file_size : Z) : M fs FatError Z := λ s,
  match Heap.allocate (fs_heap s) (mkLayout file_size 8) with
  | Ok (p, l) => Ok (p, mkFs (fs_world s) (fs_volume s) l)
  | Err e => Err (e, s)
  | Panic => Panic
  | Hang => Hang
  end.

(** The file object goes to the heap; its size is an argument. *)
Definition open_file (file_size : Z) (path : list Z) : M fs FatError (VfsFile W) :=
  let trimmed := trim_matches slash path in
  if (length trimmed =? 0)%nat then throw InvalidPath
  else
    slot ← gets fs_volume;
    volume ← ok_or slot NotMounted;
    '(cluster, size) ← on_device (find_root_file volume trimmed);
    raw ← alloc_file file_size;
    if raw =? 0 then throw FatIo
    else mret (fat_file (mkFatFile volume cluster size)).

End fat.
Arguments FatVolume : clear implicits.
Arguments FatFile : clear implicits.
Arguments fs : clear implicits.

(** ** What a file holds *)

Section contents.
Context {W : Type}.
Implicit Types (v : FatVolume W) (d : list Z).

Definition sector_of d (lba : Z) : list Z := take 512 (drop (Z.to_nat (lba * 512)) d).

(** The FAT entry of a cluster, and the chain of clusters it starts. *)
Definition fat_entry v d (c : Z) : Z := le_at 2 d (Z.to_nat (fat_lba v * 512 + 2 * c)).

Record volume_ok v : Prop := {
  vo_bps : bytes_per_sector v = 512;
  vo_spc : 0 < sectors_per_cluster v < 256;
  vo_bpc : bytes_per_cluster v = 512 * sectors_per_cluster v;
  vo_fat : 0 ≤ fat_lba v;
  vo_data : 0 ≤ data_lba v
}.

(** A data cluster on the disk, with its FAT entry. *)
Definition cluster_ok v d (c : Z) : Prop :=
  2 ≤ c < 65536 ∧ (fat_lba v + 2 * c / 512 + 1) * 512 ≤ Z.of_nat (length d) ∧
  (data_lba v + (c - 2) * sectors_per_cluster v + sectors_per_cluster v) * 512 ≤ Z.of_nat (length d).

Inductive chain v d : Z → list Z → Prop :=
| chain_last c : cluster_ok v d c → FAT16_END ≤ fat_entry v d c → chain v d c [c]
| chain_next c cs : cluster_ok v d c → fat_entry v d c < FAT16_END → chain v d (fat_entry v d c) cs → chain v d c (c :: cs).

Definition cluster_start v (c : Z) : Z := (data_lba v + (c - 2) * sectors_per_cluster v) * 512.
Definition cluster_data v d (c : Z) : list Z := take (Z.to_nat (bytes_per_cluster v)) (drop (Z.to_nat (cluster_start v c)) d).
Definition chain_data v d (cs : list Z) : list Z := cs ≫= cluster_data v d.

Lemma le_at_drop n d i j : le_at n (drop i d) j = le_at n d (i + j).
Proof. unfold le_at. by rewrite drop_drop. Qed.

Lemma le_at_take n m d i : (i + n ≤ m)%nat → le_at n (take m d) i = le_at n d i.
Proof. intros Hm. unfold le_at. rewrite !take_drop_commute, take_take. do 3 f_equal. lia. Qed.

(** A part of a sector is a part of the disk. *)
Lemma sector_part d lba i n : (i + n ≤ 512)%nat → take n (drop i (sector_of d lba)) = take n (drop (Z.to_nat (lba * 512) + i) d).
Proof.
  intros Hn. unfold sector_of. rewrite <- drop_drop. set (d' := drop _ d). rewrite !take_drop_commute, take_take. do 2 f_equal. lia.
Qed.

End contents.

Section reading.
Context {W : Type} (v : FatVolume W) `{!BlockDeviceLaws (device v)}.
Hypothesis Hblock : block_size (device v) = 512.
Hypothesis Hv : volume_ok v.

(** The disk is small enough for its offsets. *)
Definition disk_ok (w : W) : Prop := bd_inv w ∧ Z.of_nat (length (bd_disk w)) < I64.

Definition same_disk (w w' : W) : Prop := disk_ok w' ∧ bd_disk w' = bd_disk w.

Lemma read_sector_ok w lba : disk_ok w → 0 ≤ lba → (lba + 1) * 512 ≤ Z.of_nat (length (bd_disk w)) →
  ∃ w', read_sector v lba w = Ok (sector_of (bd_disk w) lba, w') ∧ same_disk w w'.
Proof.
  intros [Hinv Hd] Hl He. destruct (bd_read_ok w lba 1) as (w' & Hr & Hinv' & Hd'); [done|done|by rewrite Hblock|].
  rewrite Hblock in Hr. exists w'. unfold read_sector, map_err, SECTOR_SIZE. change (Z.of_nat 1 * 512) with 512 in Hr. rewrite Hr.
  split; [done|]. split; [split; [done|by rewrite Hd']|done].
Qed.

Lemma same_disk_trans w1 w2 w3 : same_disk w1 w2 → same_disk w2 w3 → same_disk w1 w3.
Proof. intros [_ H1] [H2 H3]. split; [done|congruence]. Qed.

Lemma next_cluster_ok w c : disk_ok w → cluster_ok v (bd_disk w) c →
  ∃ w', next_cluster v c w = Ok ((if FAT16_END <=? fat_entry v (bd_disk w) c then None else Some (fat_entry v (bd_disk w) c)), w') ∧ same_disk w w'.
Proof.
  intros Hw (Hc & Hfat & _). destruct Hv as [Hbps Hspc Hbpc Hf Hda]. pose proof Hw as [_ Hlen].
  unfold next_cluster. rewrite Hbps. rewrite (Z.mul_comm c 2).
  rewrite !(M_bind_lift _ _ _ (fat_lba v + 2 * c / 512)) by (apply add64_ok; lia).
  destruct (read_sector_ok w (fat_lba v + 2 * c / 512)) as (w' & Hr & Hs); [done|Z.div_mod_to_equations; lia|done|].
  exists w'. split; [|done]. rewrite (M_bind_ok _ _ _ _ _ Hr). 
  assert (le_at 2 (sector_of (bd_disk w) (fat_lba v + 2 * c / 512)) (Z.to_nat ((2 * c) mod 512)) = fat_entry v (bd_disk w) c) as ->; [|done].
  unfold fat_entry, le_at. rewrite sector_part by (Z.div_mod_to_equations; lia). do 3 f_equal. Z.div_mod_to_equations. lia.
Qed.

Lemma chain_first d c cs : chain v d c cs → ∃ cs', cs = c :: cs' ∧ cluster_ok v d c.
Proof. intros H. inversion H; eauto. Qed.

(** The walk along the chain finds the cluster and the rest of the offset. *)
Lemma seek_cluster_ok fuel w c cs offset : disk_ok w → chain v (bd_disk w) c cs → 0 ≤ offset < Z.of_nat fuel →
  ∃ w', same_disk w w' ∧ seek_cluster fuel v c offset w =
    Ok ((λ c', (c', offset mod bytes_per_cluster v)) <$> cs !! Z.to_nat (offset / bytes_per_cluster v), w').
Proof.
  intros Hw Hch. destruct Hv as [_ Hspc Hbpc _ _]. revert w c cs offset Hw Hch. induction fuel as [|fuel IH]; intros w c cs offset Hw Hch Ho; [lia|].
  destruct (chain_first _ _ _ Hch) as (cs' & -> & Hc). cbn [seek_cluster].
  destruct (Z.leb_spec (bytes_per_cluster v) offset) as [Hle|Hlt]; cbn [negb].
  - destruct (next_cluster_ok w c Hw Hc) as (w1 & Hn & Hs1). rewrite !(M_bind_ok _ _ _ _ _ Hn). pose proof Hs1 as [Hw1 Hd1].
    assert (Z.to_nat (offset / bytes_per_cluster v) = S (Z.to_nat ((offset - bytes_per_cluster v) / bytes_per_cluster v))) as Hidx.
    { replace (offset / bytes_per_cluster v) with ((offset - bytes_per_cluster v) / bytes_per_cluster v + 1).
      - pose proof (Z.div_pos (offset - bytes_per_cluster v) (bytes_per_cluster v)). lia.
      - rewrite <- Z.div_add by lia. f_equal. lia. }
    rewrite Hidx. cbn [lookup list_lookup]. inversion Hch as [c' _ Hend|c' cs'' _ Hlt Hch']; subst.
    + destruct (Z.leb_spec FAT16_END (fat_entry v (bd_disk w) c)); [|lia]. exists w1. by split.
    + destruct (Z.leb_spec FAT16_END (fat_entry v (bd_disk w) c)); [lia|].
      destruct (IH w1 (fat_entry v (bd_disk w) c) cs' (offset - bytes_per_cluster v)) as (w' & Hs' & Hr); [done|by rewrite Hd1|lia|].
      exists w'. split; [by eapply same_disk_trans|]. rewrite Hr. do 3 f_equal.
      by rewrite <- (Z_mod_plus_full (offset - bytes_per_cluster v) 1), Z.mul_1_l, Z.sub_add.
  - exists w. split; [done|]. rewrite Z.div_small, Z.mod_small by lia. done.
Qed.

Lemma cluster_to_lba_ok {E} d c : Z.of_nat (length d) < I64 → cluster_ok v d c →
  cluster_to_lba (E:=E) v c = Ok (data_lba v + (c - 2) * sectors_per_cluster v).
Proof.
  intros Hd (Hc & _ & Hend). destruct Hv as [_ Hspc _ _ Hda]. unfold cluster_to_lba. rewrite sub64_ok by lia. cbn [mbind comp_bind].
  rewrite mul64_ok by nia. cbn [mbind comp_bind]. apply add64_ok. nia.
Qed.

(** A part of a cluster's sector: [copy] bytes from [within] on. *)
Lemma read_part w c i within copy : disk_ok w → cluster_ok v (bd_disk w) c → 0 ≤ i < sectors_per_cluster v → 0 ≤ within → 0 ≤ copy →
  within + copy ≤ 512 →
  ∃ w', same_disk w w' ∧
    (∀ A (k : list Z → M W FatError A),
      (base ← lift (cluster_to_lba v c); lba ← lift (add64 base i); sector ← read_sector v lba; k sector) w =
        k (sector_of (bd_disk w) (data_lba v + (c - 2) * sectors_per_cluster v + i)) w') ∧
    take (Z.to_nat copy) (drop (Z.to_nat within) (sector_of (bd_disk w) (data_lba v + (c - 2) * sectors_per_cluster v + i))) =
      take (Z.to_nat copy) (drop (Z.to_nat (cluster_start v c + 512 * i + within)) (bd_disk w)).
Proof.
  intros Hw Hc Hi Hwi Hcp Hle. pose proof Hw as [_ Hd]. pose proof Hc as (Hcb & _ & Hend). destruct Hv as [_ Hspc _ _ Hda].
  set (base := data_lba v + (c - 2) * sectors_per_cluster v) in *. assert (0 ≤ base) by (unfold base; nia).
  destruct (read_sector_ok w (base + i)) as (w' & Hr & Hs); [done|lia|nia|]. exists w'. split_and!; [done| |].
  - intros A k. rewrite (M_bind_lift _ _ _ base) by (by apply (cluster_to_lba_ok (bd_disk w))).
    rewrite (M_bind_lift _ _ _ (base + i)) by (apply add64_ok; nia). by rewrite (M_bind_ok _ _ _ _ _ Hr).
  - rewrite sector_part by lia. do 2 f_equal. unfold cluster_start. fold base. lia.
Qed.

Lemma take_split (d : list Z) a b p : (b ≤ a)%nat → take a (drop p d) = take b (drop p d) ++ take (a - b) (drop (p + b) d).
Proof.
  intros Hb. rewrite <- (drop_drop d b p). set (l := drop p d). rewrite <- (take_drop b (take a l)), take_take, Nat.min_l by done. f_equal.
  rewrite take_drop_commute. do 2 f_equal. lia.
Qed.

(** Whole sectors from [i] on, the first of them not the first of the cluster. *)
Lemma read_sectors_tail n w c i len acc : disk_ok w → cluster_ok v (bd_disk w) c → 0 < i → i + Z.of_nat n ≤ sectors_per_cluster v →
  0 ≤ len - Z.of_nat (length acc) ≤ 512 * Z.of_nat n →
  ∃ w', same_disk w w' ∧ read_sectors n v c i 0 len acc w =
    Ok (acc ++ take (Z.to_nat (len - Z.of_nat (length acc))) (drop (Z.to_nat (cluster_start v c + 512 * i)) (bd_disk w)), w').
Proof.
  revert w i acc. induction n as [|n IH]; intros w i acc Hw Hc Hi Hn Hrem.
  { exists w. split; [done|]. cbn. replace (len - Z.of_nat (length acc)) with 0 by lia. cbn. by rewrite app_nil_r. }
  cbn [read_sectors]. destruct (Z.eqb_spec (len - Z.of_nat (length acc)) 0) as [H0|H0].
  { exists w. split; [done|]. rewrite H0. cbn. by rewrite app_nil_r. }
  pose proof (vo_bps _ Hv) as Hbps. rewrite Hbps. rewrite Zdiv_0_l. destruct (Z.eqb_spec i 0); [lia|]. rewrite Z.sub_0_r.
  set (rem := len - Z.of_nat (length acc)) in *.
  destruct (read_part w c i 0 (Z.min 512 rem)) as (w1 & Hs1 & Hk & Hpart); [done|done|lia|lia|lia|lia|]. pose proof Hs1 as [Hw1 Hd1].
  rewrite Z.add_0_r in Hpart. set (chunk := take (Z.to_nat (Z.min 512 rem)) (drop (Z.to_nat (cluster_start v c + 512 * i)) (bd_disk w))) in *.
  assert (length chunk = Z.to_nat (Z.min 512 rem)) as Hcl.
  { unfold chunk. rewrite length_take, length_drop. destruct Hc as (? & _ & Hend). destruct Hv as [_ ? _ _ ?]. unfold cluster_start. nia. }
  destruct (IH w1 (i + 1) (acc ++ chunk)) as (w' & Hs' & Hr); [done|by rewrite Hd1|lia|lia|rewrite length_app; lia|].
  exists w'. split; [exact (same_disk_trans _ _ _ Hs1 Hs')|]. rewrite Hk, Hpart, Hr. do 2 f_equal. rewrite <- app_assoc. f_equal. rewrite length_app, Hcl, Hd1.
  rewrite (take_split _ (Z.to_nat rem) (Z.to_nat (Z.min 512 rem))) by lia. f_equal.
  destruct (Z.le_gt_cases rem 512).
  - replace (Z.to_nat rem - Z.to_nat (Z.min 512 rem))%nat with O by lia. by replace (Z.to_nat (len - Z.of_nat (length acc + Z.to_nat (Z.min 512 rem)))) with O by lia.
  - f_equal; [lia|]. f_equal. destruct Hc as (? & _ & Hend). destruct Hv as [_ ? _ _ ?]. unfold cluster_start. nia.
Qed.

Lemma length_cluster d c : cluster_ok v d c → length (cluster_data v d c) = Z.to_nat (bytes_per_cluster v).
Proof.
  intros (Hc & _ & Hend). destruct Hv as [_ Hspc Hbpc _ Hda]. unfold cluster_data, cluster_start. rewrite length_take, length_drop, Hbpc. nia.
Qed.

Lemma cluster_part d c off n : 0 ≤ off → (Z.to_nat off + n ≤ Z.to_nat (bytes_per_cluster v))%nat → cluster_ok v d c →
  take n (drop (Z.to_nat off) (cluster_data v d c)) = take n (drop (Z.to_nat (cluster_start v c + off)) d).
Proof.
  intros Ho Hn (Hc & _). destruct Hv as [_ Hspc _ _ Hda]. unfold cluster_data.
  replace (Z.to_nat (cluster_start v c + off)) with (Z.to_nat (cluster_start v c) + Z.to_nat off)%nat by (unfold cluster_start; nia).
  rewrite <- drop_drop. set (d' := drop _ d). rewrite !take_drop_commute, take_take. do 2 f_equal. lia.
Qed.

(** A slice of a cluster. *)
Lemma read_cluster_slice_ok w c off dest : disk_ok w → cluster_ok v (bd_disk w) c → 0 ≤ off → off + Z.of_nat (length dest) ≤ bytes_per_cluster v →
  ∃ w', same_disk w w' ∧ read_cluster_slice v c off dest w = Ok (take (length dest) (drop (Z.to_nat off) (cluster_data v (bd_disk w) c)), w').
Proof.
  intros Hw Hc Ho Hend. destruct Hv as [Hbps Hspc Hbpc _ Hda]. set (len := Z.of_nat (length dest)) in *. unfold read_cluster_slice. fold len. rewrite Hbps.
  assert (∃ w', same_disk w w' ∧ read_sectors (Z.to_nat (sectors_per_cluster v - off / 512)) v c (off / 512) off len [] w =
    Ok (take (Z.to_nat len) (drop (Z.to_nat off) (cluster_data v (bd_disk w) c)), w')) as (w' & Hs & Hr).
  { destruct (decide (len = 0)) as [H0|H0].
    { exists w. split; [done|]. rewrite H0. cbn. by destruct (Z.to_nat _). }
    assert (0 ≤ off / 512 < sectors_per_cluster v) as Hi by (Z.div_mod_to_equations; lia).
    destruct (Z.to_nat (sectors_per_cluster v - off / 512)) as [|n] eqn:Hn; [lia|]. cbn [read_sectors length]. rewrite Z.sub_0_r, Hbps, Z.eqb_refl.
    destruct (Z.eqb_spec len 0); [done|].
    pose proof (Z.mod_pos_bound off 512 ltac:(lia)) as Hm.
    set (copy := Z.min (512 - off mod 512) len).
    destruct (read_part w c (off / 512) (off mod 512) copy) as (w1 & Hs1 & Hk & Hpart); [done|done|lia|lia|lia|lia|]. pose proof Hs1 as [Hw1 Hd1].
    assert (cluster_start v c + 512 * (off / 512) + off mod 512 = cluster_start v c + off) as Hpos by (Z.div_mod_to_equations; lia).
    rewrite Hpos in Hpart. set (chunk := take (Z.to_nat copy) (drop (Z.to_nat (cluster_start v c + off)) (bd_disk w))) in *.
    assert (length chunk = Z.to_nat copy) as Hcl.
    { unfold chunk. rewrite length_take, length_drop. destruct Hc as (? & _ & ?). unfold cluster_start. nia. }
    destruct (read_sectors_tail n w1 c (off / 512 + 1) len chunk) as (w' & Hs' & Hr); [done|by rewrite Hd1|lia|lia|Z.div_mod_to_equations; lia|].
    exists w'. split; [by eapply same_disk_trans|]. rewrite Hk, Hpart. cbn [app]. rewrite Hr, Hcl, Hd1. do 2 f_equal.
    rewrite cluster_part by (done || lia). rewrite (take_split _ (Z.to_nat len) (Z.to_nat copy)) by lia. unfold chunk. f_equal.
    destruct (decide (copy = len)) as [->|Hne]; [by rewrite Z2Nat.id, Z.sub_diag, Nat.sub_diag by lia|].
    f_equal; [lia|]. f_equal. destruct Hc as (? & _ & ?). unfold cluster_start. Z.div_mod_to_equations. nia. }
  exists w'. split; [done|]. rewrite (M_bind_ok _ _ _ _ _ Hr). unfold mret, M_ret. do 2 f_equal. unfold len. rewrite Nat2Z.id.
  rewrite (drop_ge dest), app_nil_r; [done|]. rewrite length_take, length_drop, length_cluster by done. lia.
Qed.

Lemma chain_clusters d c cs : chain v d c cs → Forall (cluster_ok v d) cs.
Proof. induction 1; by constructor. Qed.

(** The data of a chain from an offset on. *)
Lemma chain_data_drop d cs o : Forall (cluster_ok v d) cs → 0 ≤ o →
  drop (Z.to_nat o) (chain_data v d cs) =
    match cs !! Z.to_nat (o / bytes_per_cluster v) with
    | Some c => drop (Z.to_nat (o mod bytes_per_cluster v)) (cluster_data v d c) ++
        chain_data v d (drop (S (Z.to_nat (o / bytes_per_cluster v))) cs)
    | None => []
    end.
Proof.
  destruct Hv as [_ Hspc Hbpc _ _]. revert o. induction cs as [|c cs IH]; intros o Hcs Ho; [by destruct (Z.to_nat o)|].
  apply Forall_cons_iff in Hcs as [Hc Hcs]. unfold chain_data. cbn [mbind list_bind]. fold (chain_data v d cs).
  pose proof (length_cluster d c Hc) as Hl. destruct (Z.le_gt_cases (bytes_per_cluster v) o) as [Hle|Hlt].
  - rewrite drop_app_ge by lia. rewrite Hl.
    replace (Z.to_nat o - Z.to_nat (bytes_per_cluster v))%nat with (Z.to_nat (o - bytes_per_cluster v)) by lia. rewrite IH by (done || lia).
    assert (o / bytes_per_cluster v = (o - bytes_per_cluster v) / bytes_per_cluster v + 1) as ->.
    { rewrite <- Z.div_add by lia. f_equal. lia. }
    assert (o mod bytes_per_cluster v = (o - bytes_per_cluster v) mod bytes_per_cluster v) as ->.
    { rewrite <- (Z_mod_plus_full (o - bytes_per_cluster v) 1). f_equal. lia. }
    pose proof (Z.div_pos (o - bytes_per_cluster v) (bytes_per_cluster v)).
    replace (Z.to_nat ((o - bytes_per_cluster v) / bytes_per_cluster v + 1)) with (S (Z.to_nat ((o - bytes_per_cluster v) / bytes_per_cluster v))) by lia.
    done.
  - rewrite Z.div_small, Z.mod_small by lia. cbn. rewrite drop_app_le by lia. done.
Qed.

End reading.

Section file.
Context {W : Type} (f : FatFile W) `{!BlockDeviceLaws (device (volume f))}.
Hypothesis Hblock : block_size (device (volume f)) = 512.
Hypothesis Hv : volume_ok (volume f).

Lemma read_loop_ok fuel w cs total o acc : disk_ok (volume f) w → chain (volume f) (bd_disk w) (start_cluster f) cs →
  0 ≤ o → 0 ≤ total ≤ Z.of_nat fuel →
  ∃ w', same_disk (volume f) w w' ∧ read_loop fuel f total o acc w =
    Ok (acc ++ take (Z.to_nat total) (drop (Z.to_nat o) (chain_data (volume f) (bd_disk w) cs)), w').
Proof.
  pose proof Hv as [Hbps Hspc Hbpc _ _].
  revert w total o acc. induction fuel as [|fuel IH]; intros w total o acc Hw Hch Ho Ht.
  { exists w. split; [done|]. assert (total = 0) as -> by lia. cbn. by rewrite app_nil_r. }
  cbn [read_loop]. destruct (Z.ltb_spec 0 total) as [Hpos|]; cbn [negb].
  2:{ exists w. split; [done|]. assert (total = 0) as -> by lia. cbn. by rewrite app_nil_r. }
  pose proof (chain_clusters _ _ _ _ Hch) as Hcs. destruct (chain_first _ _ _ _ Hch) as (cs0 & _ & (Hc0 & _)).
  destruct (seek_cluster_ok (volume f) Hblock Hv (Z.to_nat (o + 65537)) w (start_cluster f) cs o) as (w1 & Hs1 & Hseek); [done|done|lia|].
  assert (map_err (λ _, VfsIo) (cluster_for_offset (volume f) (start_cluster f) o) w =
    Ok ((λ c', (c', o mod bytes_per_cluster (volume f))) <$> cs !! Z.to_nat (o / bytes_per_cluster (volume f)), w1)) as Hinfo.
  { unfold map_err, cluster_for_offset. destruct (Z.eqb_spec (start_cluster f) 0); [lia|]. by rewrite Hseek. }
  rewrite !(M_bind_ok _ _ _ _ _ Hinfo). pose proof Hs1 as [Hw1 Hd1]. rewrite chain_data_drop by done.
  destruct (cs !! Z.to_nat (o / bytes_per_cluster (volume f))) as [c|] eqn:Hlk; cbn [fmap option_fmap option_map].
  2:{ exists w1. split; [done|]. by rewrite take_nil, app_nil_r. }
  pose proof (Forall_lookup_1 _ _ _ _ Hcs Hlk) as Hc. set (bpc := bytes_per_cluster (volume f)) in *. set (off := o mod bpc).
  pose proof (Z.mod_pos_bound o bpc ltac:(lia)) as Hoff. fold off in Hoff.
  rewrite !(M_bind_lift _ _ _ (bpc - off)) by (apply sub64_ok; lia). set (n := Z.min (bpc - off) total).
  destruct (read_cluster_slice_ok (volume f) Hblock Hv w1 c off (replicate (Z.to_nat n) 0)) as (w2 & Hs2 & Hr2);
    [done|by rewrite Hd1|lia|rewrite length_replicate; fold bpc; lia|]. rewrite length_replicate, Hd1 in Hr2.
  rewrite !(M_bind_ok (map_err _ _) _ w1 _ w2) by (unfold map_err; by rewrite Hr2). pose proof Hs2 as [Hw2 Hd2].
  destruct (IH w2 (total - n) (o + n) (acc ++ take (Z.to_nat n) (drop (Z.to_nat off) (cluster_data (volume f) (bd_disk w) c)))) as (w' & Hs' & Hr');
    [done|by rewrite Hd2, Hd1|lia|lia|].
  exists w'. split; [by eapply same_disk_trans; [|eapply same_disk_trans]|]. rewrite Hr', Hd2, Hd1. do 2 f_equal. rewrite <- app_assoc. f_equal.
  pose proof (chain_data_drop (volume f) Hv (bd_disk w) cs o Hcs Ho) as Hdrop. fold bpc off in Hdrop. rewrite Hlk in Hdrop. rewrite <- Hdrop.
  rewrite (take_split (chain_data _ _ _) (Z.to_nat total) (Z.to_nat n)) by lia. f_equal.
  - rewrite Hdrop, take_app_le; [done|]. rewrite length_drop, length_cluster by done. fold bpc. lia.
  - f_equal; [lia|]. f_equal. lia.
Qed.

Lemma fat_read_spec w cs offset n : disk_ok (volume f) w → chain (volume f) (bd_disk w) (start_cluster f) cs →
  0 ≤ offset → 0 ≤ n → 0 ≤ size f →
  ∃ w', fat_read_at f offset n w =
      Ok (take (Z.to_nat n) (drop (Z.to_nat offset) (take (Z.to_nat (size f)) (chain_data (volume f) (bd_disk w) cs))), w') ∧
    disk_ok (volume f) w' ∧ bd_disk w' = bd_disk w.
Proof.
  intros Hw Hch Ho Hn Hsz. unfold fat_read_at. destruct (Z.leb_spec (size f) offset) as [Hle|Hlt].
  - exists w. split; [|done]. rewrite (drop_ge (take _ _)); [by rewrite take_nil|]. rewrite length_take. lia.
  - set (total := Z.min n (size f - offset)).
    destruct (read_loop_ok (Z.to_nat total) w cs total offset []) as (w' & [Hw' Hd'] & Hr); [done..|lia|].
    exists w'. split; [|done]. rewrite Hr. cbn [app]. do 2 f_equal.
    rewrite (take_drop_commute _ (Z.to_nat n)), take_take, take_drop_commute. f_equal. f_equal. lia.
Qed.

(** Reading a FAT file.  On any block device that behaves like a disk, for a
    file whose clusters form a chain on it, [read_at] returns the bytes of the
    file in the requested range: the data of the clusters in the order of the
    chain, cut to the file's size, and fewer only where the chain ends.  The walk
    along the chain and the loop always end, and the disk is not changed. *)
Theorem fat_read_correct w cs offset n : disk_ok (volume f) w → chain (volume f) (bd_disk w) (start_cluster f) cs →
  0 ≤ offset → 0 ≤ n → 0 ≤ size f →
  ∃ w', fat_read_at f offset n w =
      Ok (take (Z.to_nat n) (drop (Z.to_nat offset) (take (Z.to_nat (size f)) (chain_data (volume f) (bd_disk w) cs))), w') ∧
    disk_ok (volume f) w' ∧ bd_disk w' = bd_disk w.
Proof. apply fat_read_spec. Qed.

End file.

(** ** Short names *)

Definition short_ok (ch : Z) : Prop := 97 ≤ ch ≤ 122 ∨ 65 ≤ ch ≤ 90 ∨ 48 ≤ ch ≤ 57 ∨ ch = 95.
Definition upper (ch : Z) : Z := if (97 <=? ch) && (ch <=? 122) then ch - 32 else ch.

Lemma to_short_char_spec ch c : to_short_char ch = Some c ↔ short_ok ch ∧ c = upper ch.
Proof.
  unfold to_short_char, short_ok, upper.
  destruct (Z.leb_spec 97 ch), (Z.leb_spec ch 122), (Z.leb_spec 65 ch), (Z.leb_spec ch 90), (Z.leb_spec 48 ch), (Z.leb_spec ch 57), (Z.eqb_spec ch 95);
    cbn; (split; [intros Heq; first [discriminate Heq | injection Heq as <-; split; [lia|done]] | intros [? ->]; lia || done]).
Qed.

Lemma short_chars_spec l r : short_chars l = Some r ↔ Forall short_ok l ∧ r = upper <$> l.
Proof.
  revert r. induction l as [|ch l IH]; intros r; cbn [short_chars fmap list_fmap].
  - split; [intros [= <-]; by split; [constructor|]|by intros [_ ->]].
  - rewrite bind_Some. setoid_rewrite bind_Some. setoid_rewrite to_short_char_spec. setoid_rewrite IH. rewrite Forall_cons. naive_solver.
Qed.

Lemma split_nodot c l : c ∉ l → split c l = [l].
Proof.
  induction l as [|x l IH]; [done|]. rewrite not_elem_of_cons. intros [Hx Hl]. cbn. destruct (Z.eqb_spec x c); [done|]. by rewrite (IH Hl).
Qed.

Lemma split_app c l l' : c ∉ l → split c (l ++ (c :: l')) = l :: split c l'.
Proof.
  induction l as [|x l IH]; cbn; [by rewrite Z.eqb_refl|]. rewrite not_elem_of_cons. intros [Hx Hl]. destruct (Z.eqb_spec x c); [done|]. by rewrite (IH Hl).
Qed.

(** The first part of a split, and the parts of what follows the separator. *)
Lemma split_cases c l :
  (c ∉ l) ∧ split c l = [l] ∨ (∃ l1 l2, l = l1 ++ (c :: l2) ∧ (c ∉ l1) ∧ split c l = l1 :: split c l2).
Proof.
  destruct (decide (c ∈ l)) as [Hin|Hn]; [|left; split; [done|by apply split_nodot]].
  right. apply list_elem_of_split_l in Hin as (l1 & l2 & -> & Hn). exists l1, l2. split_and!; [done|done|by apply split_app].
Qed.

Lemma short_ok_not l c : Forall short_ok l → c = dot ∨ c = slash → c ∉ l.
Proof. rewrite Forall_forall. intros Hl Hc Hin. specialize (Hl c Hin). unfold short_ok, dot, slash in *. lia. Qed.

Lemma no_slash l : existsb (λ c, c =? slash) l = false ↔ slash ∉ l.
Proof.
  induction l as [|x l IH]; cbn; [split; [by intros _ ?%elem_of_nil|done]|]. rewrite orb_false_iff, IH, not_elem_of_cons, Z.eqb_neq. naive_solver.
Qed.

Lemma pad_empty n : pad n [] = replicate n 32.
Proof. unfold pad. cbn. by rewrite Nat.sub_0_r. Qed.

Lemma pad_long (l : list Z) : (length l ≤ 8)%nat → pad SHORT_NAME_LEN l = pad 8 l ++ pad 3 [].
Proof.
  intros Hl. rewrite pad_empty. unfold pad, SHORT_NAME_LEN. rewrite <- app_assoc, <- replicate_add. do 2 f_equal. lia.
Qed.

(** Short names.  A path has a short name exactly when, the slashes around it
    removed, it is a name of one to eight characters and an extension of at most
    three after a dot, or no dot and no extension, all of them letters, digits or
    underscores; the short name is then the two parts in upper case, each padded
    with spaces.  So a name finds its file whatever the case of its letters, and
    two paths have the same short name only if they are the same up to case, the
    slashes and a last dot. *)
Theorem format_short_name_correct path s : format_short_name path = Some s ↔
  ∃ name ext, (trim_matches slash path = name ++ (dot :: ext) ∨ trim_matches slash path = name ∧ ext = []) ∧
    Forall short_ok name ∧ Forall short_ok ext ∧ (1 ≤ length name ≤ 8)%nat ∧ (length ext ≤ 3)%nat ∧
    s = pad 8 (upper <$> name) ++ pad 3 (upper <$> ext).
Proof.
  unfold format_short_name. set (t := trim_matches slash path). split.
  - destruct (Nat.eqb_spec (length t) 0); [done|]. destruct (existsb _ t); [done|].
    destruct (split_cases dot t) as [[Hn ->]|(name & rest & -> & Hn & ->)].
    + change (1 <? length [])%nat with false. cbn [orb].
      destruct (Nat.eqb_spec (length t) 0); [done|]. destruct (Nat.ltb_spec 8 (length t)); [done|]. cbn [orb].
      rewrite bind_Some. intros (cs & [Hok ->]%short_chars_spec & [= <-]). exists t, []. rewrite pad_long by by rewrite length_fmap. split_and!; auto; lia.
    + destruct (split_cases dot rest) as [[_ ->]|(? & ? & _ & _ & ->)]; [|by destruct (split_cases dot x0) as [[_ ->]|(? & ? & _ & _ & ->)]].
      change (1 <? length [rest])%nat with false. cbn [orb].
      destruct (Nat.eqb_spec (length name) 0); [done|]. destruct (Nat.ltb_spec 8 (length name)), (Nat.ltb_spec 3 (length rest)); try done. cbn [orb].
      rewrite bind_Some. setoid_rewrite bind_Some. intros (cs & [Hok ->]%short_chars_spec & e & [Hoke ->]%short_chars_spec & [= <-]).
      exists name, rest. split_and!; auto; lia.
  - intros (name & ext & Ht & Hname & Hext & Hl & Hle & ->).
    assert ((slash ∉ t) ∧ length t ≠ 0%nat) as [->%no_slash Hlen].
    { destruct Ht as [->| [-> _]].
      - rewrite elem_of_app, elem_of_cons, length_app. split; [|lia].
        pose proof (short_ok_not name slash Hname). pose proof (short_ok_not ext slash Hext). unfold slash, dot in *. naive_solver.
      - split; [|lia]. apply short_ok_not; auto. }
    destruct (Nat.eqb_spec (length t) 0); [done|].
    assert (short_chars name = Some (upper <$> name)) as Hsn by by apply short_chars_spec.
    assert (short_chars ext = Some (upper <$> ext)) as Hse by by apply short_chars_spec.
    assert (dot ∉ name) as Hd by (apply short_ok_not; auto). assert (dot ∉ ext) by (apply short_ok_not; auto).
    destruct Ht as [->| [-> ->]]; [rewrite split_app, split_nodot by done|rewrite split_nodot by done];
      [change (1 <? length [ext])%nat with false|change (1 <? length [])%nat with false];
      (destruct (Nat.eqb_spec (length name) 0); [lia|]; destruct (Nat.ltb_spec 8 (length name)); [lia|]; cbn [orb]).
    + destruct (Nat.ltb_spec 3 (length ext)); [lia|]. by rewrite Hsn, Hse.
    + rewrite Hsn. cbn. f_equal. apply pad_long. by rewrite length_fmap.
Qed.

(** ** The root directory *)

Section directory.
Context {W : Type} (v : FatVolume W) `{!BlockDeviceLaws (device v)}.
Hypothesis Hblock : block_size (device v) = 512.
Hypothesis Hv : volume_ok v.

Definition root_entry (d : list Z) (i : nat) : list Z := take 32 (drop (Z.to_nat (root_dir_lba v * 512) + 32 * i) d).
Definition root_listing (d : list Z) : list (list Z) := root_entry d <$> seq 0 (16 * Z.to_nat (root_dir_sectors v)).

(** The mark of the end of the directory; the entry of a file of a name, neither
    deleted, nor a part of a long name, a volume label or a directory. *)
Definition end_mark (e : list Z) : Prop := le_at 1 e 0 = 0.
Definition file_entry (name e : list Z) : Prop :=
  le_at 1 e 0 ≠ 0xE5 ∧ le_at 1 e 11 ≠ 0x0F ∧ Z.land (le_at 1 e 11) 0x08 = 0 ∧ Z.land (le_at 1 e 11) 0x10 = 0 ∧ take SHORT_NAME_LEN e = name.

#[global] Instance end_mark_dec e : Decision (end_mark e).
Proof. unfold end_mark. apply _. Defined.

#[global] Instance file_entry_dec name e : Decision (file_entry name e).
Proof. unfold file_entry. apply _. Defined.

Fixpoint scan_list (name : list Z) (l : list (list Z)) : scan_result :=
  match l with
  | [] => ScanNext
  | e :: l => match scan_entry name e with ScanNext => scan_list name l | r => r end
  end.

Lemma scan_list_app name l1 l2 :
  scan_list name (l1 ++ l2) = match scan_list name l1 with ScanNext => scan_list name l2 | r => r end.
Proof. induction l1 as [|e l1 IH]; [done|]. cbn. by destruct (scan_entry name e). Qed.

Lemma scan_entries_list n name sector k :
  scan_entries n name sector k = scan_list name ((λ i, take 32 (drop (i * 32) sector)) <$> seq k n).
Proof. revert k. induction n as [|n IH]; intros k; [done|]. cbn. by rewrite IH. Qed.

Lemma scan_entry_spec name e : scan_entry name e =
  if decide (end_mark e) then ScanEnd else if decide (file_entry name e) then ScanFound (le_at 2 e 26) (le_at 4 e 28) else ScanNext.
Proof.
  unfold scan_entry, end_mark, file_entry.
  destruct (Z.eqb_spec (le_at 1 e 0) 0); [by rewrite decide_True|]. rewrite (decide_False (P := le_at 1 e 0 = 0)) by done.
  destruct (Z.eqb_spec (le_at 1 e 0) 0xE5), (Z.eqb_spec (le_at 1 e 11) 0x0F), (Z.eqb_spec (Z.land (le_at 1 e 11) 8) 0),
    (Z.eqb_spec (Z.land (le_at 1 e 11) 0x10) 0), (bool_decide_reflect (take SHORT_NAME_LEN e = name)); cbn [orb negb];
    (rewrite decide_True by done; done) || (rewrite decide_False by tauto; done).
Qed.

(** The first entry that ends the search decides it. *)
Lemma scan_list_find name l : scan_list name l =
  match list_find (λ e, end_mark e ∨ file_entry name e) l with
  | Some (_, e) => if decide (end_mark e) then ScanEnd else ScanFound (le_at 2 e 26) (le_at 4 e 28)
  | None => ScanNext
  end.
Proof.
  induction l as [|e l IH]; [done|]. cbn [scan_list list_find]. rewrite scan_entry_spec.
  destruct (decide (end_mark e)) as [He|He]; [rewrite decide_True by auto; by rewrite decide_True|].
  destruct (decide (file_entry name e)) as [Hf|Hf]; [rewrite decide_True by auto; by rewrite decide_False|].
  rewrite decide_False by tauto. rewrite IH. by destruct (list_find _ l) as [[]|].
Qed.

(** The entries of a sector of the root directory. *)
Lemma sector_entries d i : 0 ≤ root_dir_lba v →
  (λ k, take 32 (drop (k * 32) (sector_of d (root_dir_lba v + Z.of_nat i)))) <$> seq 0 16 = root_entry d <$> seq (16 * i) 16.
Proof.
  intros Hr. apply list_eq. intros k. rewrite !list_lookup_fmap. destruct (decide (k < 16)%nat) as [Hk|Hk].
  - rewrite !lookup_seq_lt by done. cbn [fmap option_fmap option_map]. f_equal. rewrite sector_part by lia. unfold root_entry. do 2 f_equal. lia.
  - by rewrite !lookup_seq_ge by lia.
Qed.

Lemma scan_sectors_ok n w name i : disk_ok v w → 0 ≤ root_dir_lba v → (root_dir_lba v + Z.of_nat (i + n)) * 512 ≤ Z.of_nat (length (bd_disk w)) →
  ∃ w', same_disk v w w' ∧ scan_sectors n v name (Z.of_nat i) w =
    match scan_list name (root_entry (bd_disk w) <$> seq (16 * i) (16 * n)) with
    | ScanFound c sz => Ok ((c, sz), w')
    | _ => Err (NotFound, w')
    end.
Proof.
  intros Hw Hr Hend. pose proof (vo_bps _ Hv) as Hbps. revert w i Hw Hend. induction n as [|n IH]; intros w i Hw Hend.
  { exists w. rewrite Nat.mul_0_r. done. }
  cbn [scan_sectors]. pose proof Hw as [_ Hd]. rewrite !(M_bind_lift _ _ _ (root_dir_lba v + Z.of_nat i)) by (apply add64_ok; lia).
  destruct (read_sector_ok v Hblock w (root_dir_lba v + Z.of_nat i)) as (w1 & Hrd & Hs1); [done|lia|lia|]. rewrite !(M_bind_ok _ _ _ _ _ Hrd).
  rewrite Hbps. change (Z.to_nat (512 / 32)) with 16%nat. rewrite scan_entries_list, sector_entries by done.
  replace (16 * S n)%nat with (16 + 16 * n)%nat by lia. rewrite seq_app, fmap_app, scan_list_app. pose proof Hs1 as [Hw1 Hd1].
  destruct (scan_list name (root_entry (bd_disk w) <$> seq (16 * i) 16)); [exists w1; done..|].
  destruct (IH w1 (S i)) as (w' & Hs' & Hres); [done|rewrite Hd1; lia|]. exists w'. split; [by eapply same_disk_trans|].
  replace (Z.of_nat i + 1) with (Z.of_nat (S i)) by lia. rewrite Hres, Hd1. by replace (16 * S i)%nat with (16 * i + 16)%nat by lia.
Qed.

Lemma find_root_file_spec w path : disk_ok v w → 0 ≤ root_dir_lba v → 0 ≤ root_dir_sectors v →
  (root_dir_lba v + root_dir_sectors v) * 512 ≤ Z.of_nat (length (bd_disk w)) →
  match format_short_name path with
  | None => find_root_file v path w = Err (InvalidPath, w)
  | Some name => ∃ w', disk_ok v w' ∧ bd_disk w' = bd_disk w ∧
      match list_find (λ e, end_mark e ∨ file_entry name e) (root_listing (bd_disk w)) with
      | Some (_, e) =>
          if decide (end_mark e) then find_root_file v path w = Err (NotFound, w')
          else find_root_file v path w = Ok ((le_at 2 e 26, le_at 4 e 28), w')
      | None => find_root_file v path w = Err (NotFound, w')
      end
  end.
Proof.
  intros Hw Hr Hs Hend. unfold find_root_file. destruct (format_short_name path) as [name|]; [|done].
  destruct (scan_sectors_ok (Z.to_nat (root_dir_sectors v)) w name 0 Hw Hr) as (w' & [Hw' Hd'] & Hres); [lia|].
  exists w'. split_and!; [done|done|]. rewrite scan_list_find in Hres. unfold root_listing. 
  cbn [ok_or]. rewrite (M_bind_ok _ _ w name w) by done. change (Z.of_nat 0) with 0 in Hres. rewrite Hres, Nat.mul_0_r.
  destruct (list_find _ _) as [[k e]|]; [|done]. by destruct (decide (end_mark e)).
Qed.

(** Finding a file.  For a path with a short name, the search through the
    sectors of the root directory returns the first cluster and the size of the
    first entry that is of a file of that name, when no mark of the end of the
    directory comes before it; otherwise it fails with [NotFound].  A path without
    a short name fails with [InvalidPath] before anything is read. *)
Theorem find_root_file_correct w path : disk_ok v w → 0 ≤ root_dir_lba v → 0 ≤ root_dir_sectors v →
  (root_dir_lba v + root_dir_sectors v) * 512 ≤ Z.of_nat (length (bd_disk w)) →
  match format_short_name path with
  | None => find_root_file v path w = Err (InvalidPath, w)
  | Some name => ∃ w', disk_ok v w' ∧ bd_disk w' = bd_disk w ∧
      match list_find (λ e, end_mark e ∨ file_entry name e) (root_listing (bd_disk w)) with
      | Some (_, e) =>
          if decide (end_mark e) then find_root_file v path w = Err (NotFound, w')
          else find_root_file v path w = Ok ((le_at 2 e 26, le_at 4 e 28), w')
      | None => find_root_file v path w = Err (NotFound, w')
      end
  end.
Proof. apply find_root_file_spec. Qed.

End directory.

(** ** Mounting *)

(** What a boot sector says of its volume, and the sector that says it. *)
Record geometry := mkGeometry { g_cluster : Z; g_reserved : Z; g_fats : Z; g_entries : Z; g_fat_sectors : Z }.

Record geometry_ok (g : geometry) : Prop := {
  go_cluster : 0 < g_cluster g < 256; go_reserved : 0 ≤ g_reserved g < U16; go_fats : 0 ≤ g_fats g < 256;
  go_entries : 0 ≤ g_entries g < U16; go_fat_sectors : 0 ≤ g_fat_sectors g < U16
}.

Definition boot_fields (g : geometry) (total_media : list Z) : list Z :=
  le_bytes 2 512 ++ le_bytes 1 (g_cluster g) ++ le_bytes 2 (g_reserved g) ++ le_bytes 1 (g_fats g) ++ le_bytes 2 (g_entries g) ++
  total_media ++ le_bytes 2 (g_fat_sectors g).

Definition formatted (sector : list Z) (g : geometry) : Prop :=
  ∃ jump total_media rest, length jump = 11%nat ∧ length total_media = 3%nat ∧ sector = jump ++ boot_fields g total_media ++ rest.

Lemma le_at_skip n (pre l : list Z) i : (length pre ≤ i)%nat → le_at n (pre ++ l) i = le_at n l (i - length pre).
Proof. intros Hi. unfold le_at. by rewrite drop_app_ge. Qed.

Lemma le_at_here n x (l : list Z) : 0 ≤ x < 256 ^ Z.of_nat n → le_at n (le_bytes n x ++ l) 0 = x.
Proof. intros Hx. unfold le_at. rewrite drop_0, take_app_length' by (by rewrite length_le_bytes). by apply le_val_bytes. Qed.

(** A field of the sector, after the fields before it. *)
Ltac boot_field Hj Hm :=
  rewrite ?le_at_skip by (rewrite ?length_le_bytes, ?Hj, ?Hm; lia); rewrite ?length_le_bytes, ?Hj, ?Hm;
  cbn [Nat.sub]; rewrite le_at_here by (cbn; lia).

Lemma volume_of_formatted {W} (d : BlockDevice W) lba sector g : formatted sector g → geometry_ok g → 0 ≤ lba → lba + 2 ^ 25 < U64 →
  ∃ n, volume_of d lba sector = Ok (mkVolume d lba 512 (g_cluster g) (g_reserved g) (g_fats g) (g_entries g) (g_fat_sectors g)
      (lba + g_reserved g) (lba + g_reserved g + g_fats g * g_fat_sectors g) n
      (lba + g_reserved g + g_fats g * g_fat_sectors g + n) (512 * g_cluster g)) ∧ 16 * (n - 1) < g_entries g ≤ 16 * n.
Proof.
  intros (jump & mid & rest & Hj & Hm & ->) [Hc Hr Hf He Hs] Hl Hlim. unfold boot_fields. rewrite <- !app_assoc.
  assert (g_fats g * g_fat_sectors g ≤ 255 * 65535) by nia.
  assert (0 ≤ (g_entries g * 32 + (512 - 1)) / 512 ≤ 4096) by (Z.div_mod_to_equations; lia).
  exists ((g_entries g * 32 + (512 - 1)) / 512). split; [|Z.div_mod_to_equations; lia]. unfold volume_of.
  do 6 boot_field Hj Hm. cbn [Z.eqb negb Pos.eqb SECTOR_SIZE].
  rewrite add64_ok by lia. cbn [mbind comp_bind]. rewrite add64_ok by nia. cbn [mbind comp_bind]. by rewrite add64_ok by nia.
Qed.

Section mount.
Context {W : Type} (d : BlockDevice W) `{!BlockDeviceLaws d}.
Hypothesis Hblock : block_size d = 512.
Implicit Types s : fs W.

Lemma boot_sector_ok w lba : bd_inv w → 0 ≤ lba → (lba + 1) * 512 ≤ Z.of_nat (length (bd_disk w)) →
  ∃ w', read_blocks d lba 512 w = Ok (sector_of (bd_disk w) lba, w') ∧ bd_inv w' ∧ bd_disk w' = bd_disk w.
Proof. intros Hw Hl He. destruct (bd_read_ok w lba 1) as (w' & Hr & ?); [done|done|by rewrite Hblock|]. rewrite Hblock in Hr. by exists w'. Qed.

Lemma load_run w lba : bd_inv w → 0 ≤ lba → (lba + 1) * 512 ≤ Z.of_nat (length (bd_disk w)) →
  ∃ w', load d lba w = lift (volume_of d lba (sector_of (bd_disk w) lba)) w' ∧ bd_inv w' ∧ bd_disk w' = bd_disk w.
Proof.
  intros Hw Hl He. destruct (boot_sector_ok _ _ Hw Hl He) as (w' & Hr & Hw' & Hd). exists w'. split; [|done].
  unfold load. by rewrite (M_bind_ok _ _ _ _ _ (map_err_ok (λ _, FatIo) _ _ _ Hr)).
Qed.

(** The volume a boot sector describes. *)
Record describes (lba : Z) (g : geometry) (v : FatVolume W) : Prop := {
  de_device : device v = d; de_ok : volume_ok v; de_cluster : sectors_per_cluster v = g_cluster g;
  de_fat : fat_lba v = lba + g_reserved g; de_root : root_dir_lba v = fat_lba v + g_fats g * g_fat_sectors g;
  de_entries : 16 * (root_dir_sectors v - 1) < g_entries g ≤ 16 * root_dir_sectors v;
  de_data : data_lba v = root_dir_lba v + root_dir_sectors v
}.

Lemma mount_ok lba s g : bd_inv (fs_world s) → 0 ≤ lba → (lba + 1) * 512 ≤ Z.of_nat (length (bd_disk (fs_world s))) → lba + 2 ^ 25 < U64 →
  formatted (sector_of (bd_disk (fs_world s)) lba) g → geometry_ok g →
  ∃ w' v, mount d lba s = Ok (tt, mkFs w' (Some v) (fs_heap s)) ∧ bd_inv w' ∧ bd_disk w' = bd_disk (fs_world s) ∧ describes lba g v.
Proof.
  intros Hw Hl He Hlim Hg Hok. destruct (load_run _ _ Hw Hl He) as (w' & Hload & Hw' & Hd).
  destruct (volume_of_formatted d lba _ g Hg Hok Hl Hlim) as (n & Hv & Hn). unfold lift in Hload. rewrite Hv in Hload.
  eexists w', _. unfold mount. rewrite (M_bind_ok _ _ s _ (mkFs w' (fs_volume s) (fs_heap s))) by (by unfold on_device, zoom; rewrite Hload).
  destruct Hok as [Hc Hre Hf Hen Hs]. split; [reflexivity|]. cbn. split_and!; try done. split; cbn; try done; try lia. split; cbn; try done; nia.
Qed.

(** Mounting.  A formatted volume is mounted with the geometry its boot sector
    gives: the FATs follow the reserved sectors, the root directory follows the FATs
    and has a sector for every sixteen entries, the clusters follow it; this is a
    volume the reads and searches are proved for.  A sector size other than 512 is
    refused and the volume mounted before stays.  The disk and the heap are not
    changed. *)
Theorem mount_correct lba s : bd_inv (fs_world s) → 0 ≤ lba → (lba + 1) * 512 ≤ Z.of_nat (length (bd_disk (fs_world s))) → lba + 2 ^ 25 < U64 →
  (∀ g, formatted (sector_of (bd_disk (fs_world s)) lba) g → geometry_ok g →
     ∃ w' v, mount d lba s = Ok (tt, mkFs w' (Some v) (fs_heap s)) ∧ bd_inv w' ∧ bd_disk w' = bd_disk (fs_world s) ∧ describes lba g v) ∧
  (le_at 2 (sector_of (bd_disk (fs_world s)) lba) 11 ≠ 512 → ∃ w', mount d lba s = Err (FatIo, mkFs w' (fs_volume s) (fs_heap s)) ∧
     bd_disk w' = bd_disk (fs_world s)).
Proof.
  intros Hw Hl He Hlim. split; [intros g Hg Hok; by apply mount_ok|].
  intros Hb. destruct (load_run _ _ Hw Hl He) as (w' & Hload & _ & Hd). exists w'. split; [|done].
  unfold volume_of in Hload. rewrite (proj2 (Z.eqb_neq _ SECTOR_SIZE) Hb) in Hload.
  unfold mount, mbind, M_bind, on_device, zoom. by rewrite Hload.
Qed.

End mount.

(** ** A disk *)

(** A boot sector, a FAT, the root directory and three clusters of one sector; the
    file takes the third cluster and then the first one. *)
Definition fill (n : nat) (l : list Z) : list Z := l ++ replicate (n - length l) 0.
Definition example_boot : list Z :=
  fill 512 (replicate 11 0 ++ le_bytes 2 512 ++ [1] ++ le_bytes 2 1 ++ [1] ++ le_bytes 2 16 ++ replicate 3 0 ++ le_bytes 2 1).
Definition example_fat : list Z := fill 512 (le_bytes 2 0xFFF8 ++ le_bytes 2 0xFFFF ++ le_bytes 2 0xFFFF ++ le_bytes 2 0 ++ le_bytes 2 2).
Definition example_dir : list Z :=
  fill 512 (fill 32 (0xE5 :: replicate 31 65) ++
    str_bytes "INIT    ELF" ++ replicate 15 0 ++ le_bytes 2 4 ++ le_bytes 4 600).
Definition example_disk : list Z := example_boot ++ example_fat ++ example_dir ++ replicate 512 1 ++ replicate 512 2 ++ replicate 512 3.

Definition example_device : BlockDevice (list Z) := Drivers.MemBlockDevice "disk" 512.
Definition example_volume : FatVolume (list Z) := mkVolume example_device 0 512 1 1 1 16 1 1 2 1 3 512.

Example load_example : load example_device 0 example_disk = Ok (example_volume, example_disk).
Proof. reflexivity. Qed.

Lemma example_volume_ok : volume_ok example_volume.
Proof. split; cbn; lia. Qed.

Lemma example_disk_ok : Drivers.mem_inv 512 example_disk ∧ Z.of_nat (length example_disk) < I64.
Proof.
  split; [split|]; [by vm_compute| |by vm_compute]. apply list_forallb_byte. by vm_compute.
Qed.

Definition example_laws : BlockDeviceLaws example_device := Drivers.mem_block_laws "disk" 512 eq_refl.

Definition example_geometry : geometry := mkGeometry 1 1 1 16 1.

Lemma mount_correct_witness : ∃ w' v, mount example_device 0 (mkFs example_disk None []) = Ok (tt, mkFs w' (Some v) []) ∧
  fat_lba v = 1 ∧ root_dir_lba v = 2 ∧ w' = example_disk.
Proof.
  assert (Drivers.mem_inv 512 example_disk) as Hinv by (split; [by vm_compute|apply list_forallb_byte; by vm_compute]).
  assert (formatted (sector_of example_disk 0) example_geometry) as Hg
    by (exists (replicate 11 0), (replicate 3 0), (replicate 488 0); by vm_compute).
  destruct (@mount_correct _ example_device example_laws ltac:(done) 0 (mkFs example_disk None []) Hinv ltac:(done) ltac:(by vm_compute) ltac:(done))
    as [Hm _].
  destruct (Hm example_geometry Hg ltac:(by split)) as (w' & v & Hr & _ & Hd & [_ _ _ Hf Hroot _ _]).
  exists w', v. split; [exact Hr|]. split; [exact Hf|]. split; [rewrite Hroot, Hf; reflexivity|exact Hd].
Defined.

(** The path in lower case finds the file. *)
Lemma find_root_file_correct_witness :
  ∃ w', Drivers.mem_inv 512 w' ∧ w' = example_disk ∧ find_root_file example_volume (str_bytes "/init.elf") example_disk = Ok ((4, 600), w').
Proof.
  destruct (@find_root_file_correct _ example_volume example_laws ltac:(done) example_volume_ok example_disk (str_bytes "/init.elf"))
    as (w' & [Hw' _] & Hd & Hres); [exact example_disk_ok|done|done|by vm_compute|].
  exists w'. split_and!; [exact Hw'|exact Hd|]. exact Hres.
Defined.

Definition example_file : FatFile (list Z) := mkFatFile example_volume 4 600.

Lemma example_chain : chain example_volume example_disk 4 [4; 2].
Proof.
  apply chain_next; [by vm_compute|by vm_compute|]. change (fat_entry example_volume example_disk 4) with 2.
  apply chain_last; by vm_compute.
Qed.

(** A read across the two clusters, and past the end of the file. *)
Lemma fat_read_correct_witness :
  ∃ w', fat_read_at example_file 500 200 example_disk = Ok (replicate 12 3 ++ replicate 88 1, w') ∧ Drivers.mem_inv 512 w' ∧ w' = example_disk.
Proof.
  destruct (@fat_read_correct _ example_file example_laws ltac:(done) example_volume_ok example_disk [4; 2] 500 200)
    as (w' & Hr & [Hw' _] & Hd); [exact example_disk_ok|exact example_chain|done|done|done|].
  exists w'. split_and!; [|exact Hw'|exact Hd]. rewrite Hr. by vm_compute.
Defined.

End Fat.
