(* ===== verification/Asm.v ===== *)
(** * The assembly of the kernel: src/src/arch/x86_64/kernel/context_switch.asm,
    interrupts/stubs.rs, syscall/entry.rs and usermode/entry.rs

    The routines are lists of instructions over the registers, the segment
    selectors, the flags and memory of one processor.  An instruction is what the
    architecture manual says of its form in 64-bit mode; a jump, return or call
    that leaves a routine gives the address it goes to.  The descriptors of the
    segments all have base 0, so a load of fs or gs makes its base 0. *)

From S2P Require Import Prelude Mem Heap Types.
Local Open Scope Z_scope.

Module Asm.

Inductive reg := RAX | RBX | RCX | RDX | RSI | RDI | RBP | RSP | R8 | R9 | R10 | R11 | R12 | R13 | R14 | R15.
Inductive seg := CS | DS | ES | FS | GS | SS.

#[export] Instance reg_eq_dec : EqDecision reg.
Proof. solve_decision. Defined.
#[export] Instance seg_eq_dec : EqDecision seg.
Proof. solve_decision. Defined.

Record machine := mkMachine {
  m_reg : reg → Z; m_seg : seg → Z; m_flags : Z; m_gs_base : Z; m_kernel_gs_base : Z; m_mem : mem
}.

Definition set_reg (r : reg) (v : Z) (m : machine) : machine :=
  mkMachine (λ r', if decide (r' = r) then v else m_reg m r') (m_seg m) (m_flags m) (m_gs_base m) (m_kernel_gs_base m) (m_mem m).
Definition set_seg (s : seg) (v : Z) (m : machine) : machine :=
  mkMachine (m_reg m) (λ s', if decide (s' = s) then v else m_seg m s') (m_flags m)
    (if decide (s = GS) then 0 else m_gs_base m) (m_kernel_gs_base m) (m_mem m).
Definition set_flags (f : Z) (m : machine) : machine :=
  mkMachine (m_reg m) (m_seg m) f (m_gs_base m) (m_kernel_gs_base m) (m_mem m).
Definition set_mem (x : mem) (m : machine) : machine :=
  mkMachine (m_reg m) (m_seg m) (m_flags m) (m_gs_base m) (m_kernel_gs_base m) x.

(** ** Instructions *)

Inductive instr :=
| Mov (d s : reg)
| MovI (d : reg) (imm : Z)
| MovI16 (d : reg) (imm : Z)       (* mov ax, imm *)
| Load (d base : reg) (off : Z)    (* mov d, [base + off] *)
| Store (base : reg) (off : Z) (s : reg)
| Lea (d : reg) (address : Z)      (* lea d, [rel label] *)
| Push (r : reg)
| PushI (imm : Z)
| Pop (r : reg)
| PopMem (base : reg) (off : Z)    (* pop QWORD [base + off] *)
| Pushfq
| Popfq
| AddI (r : reg) (imm : Z)
| MovSeg (s : seg) (r : reg)       (* mov ds, ax *)
| MovFromSeg (r : reg) (s : seg)   (* mov ax, ds *)
| Cli
| Sti
| Swapgs.

Definition IF : Z := 9.

(** A 16-bit destination keeps the upper bits of the register. *)
Definition low16 (v x : Z) : Z := v - v mod 65536 + x mod 65536.

Definition push (v : Z) (m : machine) : machine :=
  let sp := (m_reg m RSP - 8) mod U64 in set_mem (store64 (m_mem m) sp v) (set_reg RSP sp m).
Definition top (m : machine) : Z := load64 (m_mem m) (m_reg m RSP).
Definition drop_top (m : machine) : machine := set_reg RSP ((m_reg m RSP + 8) mod U64) m.

Definition exec (i : instr) (m : machine) : machine :=
  match i with
  | Mov d s => set_reg d (m_reg m s) m
  | MovI d imm => set_reg d imm m
  | MovI16 d imm => set_reg d (low16 (m_reg m d) imm) m
  | Load d base off => set_reg d (load64 (m_mem m) ((m_reg m base + off) mod U64)) m
  | Store base off s => set_mem (store64 (m_mem m) ((m_reg m base + off) mod U64) (m_reg m s)) m
  | Lea d address => set_reg d address m
  | Push r => push (m_reg m r) m
  | PushI imm => push imm m
  | Pop r => set_reg r (top m) (drop_top m)
  | PopMem base off =>
      let m' := drop_top m in set_mem (store64 (m_mem m) ((m_reg m' base + off) mod U64) (top m)) m'
  | Pushfq => push (m_flags m) m
  | Popfq => set_flags (top m) (drop_top m)
  | AddI r imm => set_reg r ((m_reg m r + imm) mod U64) m
  | MovSeg s r => set_seg s (m_reg m r mod 65536) m
  | MovFromSeg r s => set_reg r (low16 (m_reg m r) (m_seg m s)) m
  | Cli => set_flags (Z.clearbit (m_flags m) IF) m
  | Sti => set_flags (Z.setbit (m_flags m) IF) m
  | Swapgs => mkMachine (m_reg m) (m_seg m) (m_flags m) (m_kernel_gs_base m) (m_gs_base m) (m_mem m)
  end.

Definition run (l : list instr) (m : machine) : machine := foldl (λ m i, exec i m) m l.

(** Control transfers: the address execution goes on at, and the machine there. *)

Definition ret (m : machine) : Z * machine := (top m, drop_top m).

(** [iretq]: rip, cs, rflags, rsp and ss come from the stack. *)
Definition iretq (m : machine) : Z * machine :=
  let sp := m_reg m RSP in
  let word i := load64 (m_mem m) ((sp + 8 * i) mod U64) in
  (word 0, set_reg RSP (word 3) (set_flags (word 2) (set_seg SS (word 4 mod 65536) (set_seg CS (word 1 mod 65536) m)))).

(** [sysret] without an operand-size prefix goes to the 32-bit address in ecx, in
    compatibility mode; the selectors come from the upper half of STAR, the flags
    from r11. *)
Definition sysret (star : Z) (m : machine) : Z * machine :=
  let base := Z.shiftr star 48 in
  (m_reg m RCX mod U32, set_flags (Z.lor (Z.land (m_reg m R11) 0x3C7FD7) 2) (set_seg SS (Z.lor (base + 8) 3) (set_seg CS (Z.lor base 3) m))).

(** A called function: it runs with the return address on the stack. *)
Definition call (return_address : Z) (f : machine → machine) (m : machine) : machine := f (push return_address m).

(** ** context_switch.asm *)

Definition context_switch_save (return_point : Z) : list instr :=
  [ Store RDI 0x00 R15; Store RDI 0x08 R14; Store RDI 0x10 R13; Store RDI 0x18 R12; Store RDI 0x20 RBX; Store RDI 0x28 RBP;
    Store RDI 0x30 RSP; Lea RAX return_point; Store RDI 0x38 RAX; Pushfq; PopMem RDI 0x40 ].

Definition context_switch_load : list instr :=
  [ Load R15 RSI 0x00; Load R14 RSI 0x08; Load R13 RSI 0x10; Load R12 RSI 0x18; Load RBX RSI 0x20; Load RBP RSI 0x28;
    Load RSP RSI 0x30; Load RAX RSI 0x40; Push RAX; Popfq; Load RAX RSI 0x38 ].

(** The routine up to [jmp rax]; at [.return_point] there is a [ret]. *)
Definition context_switch (return_point : Z) (m : machine) : Z * machine :=
  let m := run (context_switch_save return_point ++ context_switch_load) m in (m_reg m RAX, m).

(** [preempt_trampoline]: a call of [preempt_do_switch], and a jump to what it
    returned. *)
Definition preempt_trampoline (return_address : Z) (preempt_do_switch : machine → machine) (m : machine) : Z * machine :=
  let m := call return_address preempt_do_switch m in (m_reg m RAX, m).

(** ** usermode/entry.rs *)

Definition enter_user_mode_code : list instr :=
  [ Mov RAX R15; Mov RDX R14; MovI16 RBX 0x23; MovSeg DS RBX; MovSeg ES RBX; MovSeg FS RBX; MovSeg GS RBX;
    MovI RCX 0x202; PushI 0x23; Push RDX; Push RCX; PushI 0x1B; Push RAX ].

Definition enter_user_mode (m : machine) : Z * machine := iretq (run enter_user_mode_code m).

(** ** interrupts/stubs.rs *)

Definition push_all : list instr :=
  [ Push RAX; Push RCX; Push RDX; Push RBX; Mov RAX RSP; Push RAX; Push RBP; Push RSI; Push RDI;
    Push R8; Push R9; Push R10; Push R11; Push R12; Push R13; Push R14; Push R15 ].

Definition pop_all : list instr :=
  [ Pop R15; Pop R14; Pop R13; Pop R12; Pop R11; Pop R10; Pop R9; Pop R8; Pop RDI; Pop RSI; Pop RBP;
    Pop RAX; Mov RSP RAX; Pop RBX; Pop RDX; Pop RCX; Pop RAX ].

Definition isr_noerr (num : Z) : list instr := [ Cli; PushI 0; PushI num ].
Definition isr_err (num : Z) : list instr := [ Cli; PushI num ].
Definition irq (vector : Z) : list instr := [ Cli; PushI 0; PushI vector ].

(** The stubs by vector: the exceptions and then the lines of the interrupt
    controllers. *)
Definition stub (vector : Z) : list instr :=
  if bool_decide (vector ∈ [8; 10; 11; 12; 13; 14]) then isr_err vector
  else if vector <? 32 then isr_noerr vector else irq vector.

Definition common_entry : list instr :=
  push_all ++ [ MovFromSeg RAX DS; Push RAX; MovI16 RAX 0x10; MovSeg DS RAX; MovSeg ES RAX; MovSeg FS RAX; MovSeg GS RAX; Mov RDI RSP ].

Definition common_exit : list instr :=
  [ Pop RBX; MovSeg DS RBX; MovSeg ES RBX; MovSeg FS RBX; MovSeg GS RBX ] ++ pop_all ++ [ AddI RSP 16; Sti ].

(** [isr_common] and [irq_common] differ in the function they call. *)
Definition common (return_address : Z) (handler : machine → machine) (m : machine) : Z * machine :=
  let m := call return_address handler (run common_entry m) in
  iretq (run common_exit m).

(** ** syscall/entry.rs *)

Definition syscall_entry_code : list instr :=
  [ Swapgs; Push RBP; Mov RBP RSP; Push R11; Push RCX; Push RAX; Push RDI; Push RSI; Push RDX; Push R10; Push R8; Push R9; Mov RDI RSP ].

Definition syscall_exit_code : list instr := [ AddI RSP (8 * 7); Pop RCX; Pop R11; Pop RBP; Swapgs ].

Definition syscall_entry (star return_address : Z) (syscall_trampoline : machine → machine) (m : machine) : Z * machine :=
  let m := call return_address syscall_trampoline (run syscall_entry_code m) in
  sysret star (run syscall_exit_code m).

(** ** The processor's part

    What an interrupt or exception through a 64-bit interrupt gate pushes on the
    stack at [sp] before the stub runs; the gate clears the interrupt flag. *)
Definition hardware_entry (sp rip selector : Z) (error : option Z) (m : machine) : machine :=
  let saved := push rip (push (m_seg m CS) (push (m_flags m) (push (m_reg m RSP) (push (m_seg m SS) (set_reg RSP sp m))))) in
  let saved := match error with Some code => push code saved | None => saved end in
  set_seg CS selector (set_flags (Z.clearbit (m_flags m) IF) saved).

(** The [syscall] instruction: rip to rcx, the flags to r11, and the masked flags
    in force; the stack pointer is not changed. *)
Definition syscall_instruction (star fmask rip : Z) (m : machine) : machine :=
  let base := Z.land (Z.shiftr star 32) 0xFFFF in
  set_seg CS (Z.land base 0xFFFC) (set_seg SS (base + 8) (set_flags (Z.ldiff (m_flags m) fmask) (set_reg R11 (m_flags m) (set_reg RCX rip m)))).

End Asm.
