(* ===== verification/Cpu.v ===== *)
(** * Descriptor tables and machine registers: src/src/arch/x86_64/kernel/gdt.rs,
    msr.rs, cpu/mod.rs, cpu/cpuid.rs and [init] of syscall.rs

    [lgdt], [ltr], [rdmsr], [wrmsr], the moves of control registers and [cpuid] are
    what the architecture manual says of them; the addresses of the statics and the
    answers of [cpuid] are arguments. *)

From S2P Require Import Prelude Mem Heap Types Paging Asm.
Import Asm.
Local Open Scope Z_scope.

Module Cpu.

(** ** gdt.rs *)

Definition KERNEL_CODE : Z := 0x00A09A0000000000.
Definition KERNEL_DATA : Z := 0x00A0920000000000.
Definition USER_CODE : Z := 0x00A0FA0000000000.
Definition USER_DATA : Z := 0x00A0F20000000000.

Definition KERNEL_CODE_SELECTOR : Z := 0x08.
Definition KERNEL_DATA_SELECTOR : Z := 0x10.
Definition USER_CODE_SELECTOR : Z := 0x18.
Definition USER_DATA_SELECTOR : Z := 0x20.
Definition TSS_SELECTOR : Z := 0x28.

Record TaskStateSegment := mkTss { tss_rsp : list Z; tss_ist : list Z; iomap_base : Z }.

(** The packed bytes: reserved words, [rsp], reserved, [ist], reserved, the base of
    the I/O map. *)
Definition tss_bytes (t : TaskStateSegment) : list Z :=
  le_bytes 4 0 ++ mjoin (le_bytes 8 <$> tss_rsp t) ++ le_bytes 8 0 ++ mjoin (le_bytes 8 <$> tss_ist t) ++
  le_bytes 8 0 ++ le_bytes 2 0 ++ le_bytes 2 (iomap_base t).
Definition TSS_SIZE : Z := 104.

Definition tss_new : TaskStateSegment := mkTss [0; 0; 0] [0; 0; 0; 0; 0; 0; 0] TSS_SIZE.

Definition GDT_LEN : Z := 7.

(** The statics, and the registers that [lgdt] and [ltr] load. *)
Record gdt := mkGdt {
  initialised : bool; table : list Z; tss : TaskStateSegment; gdtr_limit : Z; gdtr_base : Z; loaded : option (Z * Z); task_register : Z
}.

Definition gdt_boot : gdt := mkGdt false [0; KERNEL_CODE; KERNEL_DATA; USER_CODE; USER_DATA; 0; 0] tss_new 0 0 None 0.

Definition tss_lower (base limit : Z) : Z :=
  let base_low := Z.land base 0xFFFF in
  let base_mid := Z.land (Z.shiftr base 16) 0xFF in
  let base_high := Z.land (Z.shiftr base 24) 0xFF in
  let limit_low := Z.land limit 0xFFFF in
  let limit_high := Z.land (Z.shiftr limit 16) 0xF in
  Z.lor (Z.lor (Z.lor (Z.lor (Z.lor limit_low (Z.shiftl base_low 16)) (Z.shiftl base_mid 32)) (Z.shiftl 0x89 40)) (Z.shiftl limit_high 48))
    (Z.shiftl base_high 56).
Definition tss_upper (base : Z) : Z := Z.land (Z.shiftr base 32) 0xFFFFFFFF.

Definition encode_tss_descriptor (tss_address : Z) (g : gdt) : gdt :=
  mkGdt (initialised g) (<[6%nat := tss_upper tss_address]> (<[5%nat := tss_lower tss_address (TSS_SIZE - 1)]> (table g)))
    (tss g) (gdtr_limit g) (gdtr_base g) (loaded g) (task_register g).

(** [lgdt] reads GDTR; [ltr] loads the selector and marks its descriptor busy (bit 41). *)
Definition lgdt (g : gdt) : gdt :=
  mkGdt (initialised g) (table g) (tss g) (gdtr_limit g) (gdtr_base g) (Some (gdtr_limit g, gdtr_base g)) (task_register g).
Definition ltr (selector : Z) (g : gdt) : gdt :=
  mkGdt (initialised g) (alter (λ d, Z.lor d (Z.shiftl 1 41)) (Z.to_nat (selector / 8)) (table g)) (tss g)
    (gdtr_limit g) (gdtr_base g) (loaded g) selector.

Definition gdt_init (gdt_address tss_address : Z) (g : gdt) : gdt :=
  if initialised g then g
  else
    let g := mkGdt true (table g) (tss g) (gdtr_limit g) (gdtr_base g) (loaded g) (task_register g) in
    let g := encode_tss_descriptor tss_address g in
    let g := mkGdt (initialised g) (table g) (tss g) (GDT_LEN * 8 - 1) gdt_address (loaded g) (task_register g) in
    ltr TSS_SELECTOR (lgdt g).

Definition set_kernel_stack (stack_top : Z) (g : gdt) : gdt :=
  mkGdt (initialised g) (table g) (mkTss (<[0%nat := stack_top]> (tss_rsp (tss g))) (tss_ist (tss g)) (iomap_base (tss g)))
    (gdtr_limit g) (gdtr_base g) (loaded g) (task_register g).

(** ** msr.rs and the control registers *)

Record registers := mkRegisters { msr : Z → Z; cr0 : Z; cr4 : Z }.

(** [wrmsr] with the halves in eax and edx. *)
Definition wrmsr (ecx eax edx : Z) (r : registers) : registers :=
  mkRegisters (λ n, if n =? ecx then edx * U32 + eax else msr r n) (cr0 r) (cr4 r).
Definition rdmsr (ecx : Z) (r : registers) : Z * Z := (msr r ecx mod U32, msr r ecx / U32).

Definition msr_write (n value : Z) (r : registers) : registers := wrmsr n (Z.land value 0xFFFFFFFF) (Z.shiftr value 32 mod U32) r.
Definition msr_read (n : Z) (r : registers) : Z := let '(low, high) := rdmsr n r in Z.lor (Z.shiftl high 32) low.

(** ** [init] of syscall.rs *)

Definition IA32_EFER : Z := 0xC0000080.
Definition IA32_STAR : Z := 0xC0000081.
Definition IA32_LSTAR : Z := 0xC0000082.
Definition IA32_FMASK : Z := 0xC0000084.

Definition syscall_init (syscall_entry : Z) (r : registers) : registers :=
  let efer := Z.lor (msr_read IA32_EFER r) (Z.shiftl 1 0) in
  let r := msr_write IA32_EFER efer r in
  let star := Z.lor (Z.shiftl 0x08 48) (Z.shiftl 0x1B 32) in
  let r := msr_write IA32_STAR star r in
  let r := msr_write IA32_LSTAR syscall_entry r in
  msr_write IA32_FMASK (Z.lor (Z.shiftl 1 8) (Z.shiftl 1 9)) r.

(** ** cpu/mod.rs *)

Definition enable_sse (r : registers) : registers :=
  let c0 := Z.ldiff (Z.lor (cr0 r) (Z.shiftl 1 1)) (Z.shiftl 1 2) in
  let c4 := Z.lor (Z.lor (cr4 r) (Z.shiftl 1 9)) (Z.shiftl 1 10) in
  mkRegisters (msr r) c0 c4.

Record CpuidResult := mkCpuid { eax : Z; ebx : Z; ecx : Z; edx : Z }.

Record Features := mkFeatures { features_ecx : Z; features_edx : Z }.
Definition has_ecx (f : Features) (flag : Z) : bool := negb (Z.land (features_ecx f) flag =? 0).
Definition has_edx (f : Features) (flag : Z) : bool := negb (Z.land (features_edx f) flag =? 0).

Definition SSE : Z := Z.shiftl 1 25.
Definition SSE2 : Z := Z.shiftl 1 26.
Definition AVX : Z := Z.shiftl 1 28.

Section cpuid.
Context (cpuid_count : Z → Z → CpuidResult).

Definition cpuid_ecx (eax ecx : Z) : CpuidResult := cpuid_count eax ecx.
Definition cpuid (eax : Z) : CpuidResult := cpuid_ecx eax 0.
Definition highest_basic_leaf : Z := eax (cpuid 0).
Definition highest_extended_leaf : Z := eax (cpuid 0x80000000).
Definition vendor_string : list Z :=
  let res := cpuid 0 in le_bytes 4 (ebx res) ++ le_bytes 4 (edx res) ++ le_bytes 4 (ecx res).
Definition features : Features := let res := cpuid 1 in mkFeatures (ecx res) (edx res).

(** What [kmain] does with them. *)
Definition start_sse (r : registers) : registers := if has_edx features SSE && has_edx features SSE2 then enable_sse r else r.
End cpuid.

(** ** What the processor reads

    The fields of a descriptor, by the bits of the manual. *)

Definition bits (v lo n : Z) : Z := Z.shiftr v lo mod 2 ^ n.

Record segment := mkSegment { seg_type : Z; seg_system : bool; seg_dpl : Z; seg_present : bool; seg_long : bool }.
Definition segment_of (d : Z) : segment :=
  mkSegment (bits d 40 4) (bits d 44 1 =? 0) (bits d 45 2) (bits d 47 1 =? 1) (bits d 53 1 =? 1).

(** Base and limit of a 16-byte system descriptor. *)
Definition system_base (lower upper : Z) : Z := bits lower 16 24 + 2 ^ 24 * bits lower 56 8 + 2 ^ 32 * bits upper 0 32.
Definition system_limit (lower : Z) : Z := bits lower 0 16 + 2 ^ 16 * bits lower 48 4.

(** The descriptor a selector names. *)
Definition descriptor (g : gdt) (selector : Z) : option Z := table g !! Z.to_nat (selector / 8).

(** What the processor finds at an offset of the task state segment. *)
Definition tss_word (t : TaskStateSegment) (offset : nat) : Z := le_val (take 8 (drop offset (tss_bytes t))).

Lemma lor_above a b k : 0 ≤ k → 0 ≤ a < 2 ^ k → 0 ≤ b → Z.lor a (Z.shiftl b k) = a + 2 ^ k * b.
Proof.
  intros Hk Ha Hb. rewrite Z.shiftl_mul_pow2, Z.mul_comm by done. symmetry. apply Z.add_nocarry_lor.
  apply Z.bits_inj'. intros i Hi. rewrite Z.land_spec, Z.bits_0. destruct (Z.ltb_spec i k).
  - by rewrite (Z.mul_comm (2 ^ k)), (Z.mul_pow2_bits_low b k i), andb_false_r by lia.
  - destruct (decide (a = 0)) as [->|]; [by rewrite Z.bits_0|]. rewrite (Z.bits_above_log2 a i); [done|lia|].
    apply Z.log2_lt_pow2; [lia|]. assert (2 ^ k ≤ 2 ^ i) by (apply Z.pow_le_mono_r; lia). lia.
Qed.

(** The bytes of the descriptor, field by field. *)
Lemma tss_lower_sum base : u64 base →
  tss_lower base 103 = 103 + 2 ^ 16 * (base mod 2 ^ 16) + 2 ^ 32 * ((base / 2 ^ 16) mod 2 ^ 8) + 2 ^ 40 * 0x89 +
    2 ^ 56 * ((base / 2 ^ 24) mod 2 ^ 8).
Proof.
  intros Hb. unfold tss_lower. change 0xFFFF with (2 ^ 16 - 1). change 0xFF with (2 ^ 8 - 1).
  rewrite !land_low_mask, !Z.shiftr_div_pow2 by lia. change (Z.shiftl (Z.land (103 / 2 ^ 16) 15) 48) with 0. rewrite Z.lor_0_r.
  change (103 mod 2 ^ 16) with 103.
  pose proof (Z.mod_pos_bound base (2 ^ 16) ltac:(lia)). pose proof (Z.mod_pos_bound (base / 2 ^ 16) (2 ^ 8) ltac:(lia)).
  pose proof (Z.mod_pos_bound (base / 2 ^ 24) (2 ^ 8) ltac:(lia)).
  rewrite (lor_above 103), (lor_above _ _ 32), (lor_above _ 0x89 40), (lor_above _ _ 56); lia.
Qed.

(** Marking it busy turns the type from 9 to 11. *)
Lemma tss_lower_busy base : u64 base → Z.lor (tss_lower base 103) (Z.shiftl 1 41) = tss_lower base 103 + 2 ^ 41.
Proof.
  intros Hb. change (Z.shiftl 1 41) with (2 ^ 41). symmetry. apply Z.add_nocarry_lor. apply Z.bits_inj'. intros i Hi.
  rewrite Z.land_spec, Z.bits_0, Z.pow2_bits_eqb by lia. destruct (Z.eqb_spec 41 i) as [<-|]; [|by rewrite andb_false_r].
  rewrite andb_true_r, tss_lower_sum, Z.testbit_false by done || lia.
  pose proof (Z.mod_pos_bound base (2 ^ 16) ltac:(lia)). pose proof (Z.mod_pos_bound (base / 2 ^ 16) (2 ^ 8) ltac:(lia)).
  pose proof (Z.mod_pos_bound (base / 2 ^ 24) (2 ^ 8) ltac:(lia)).
  generalize dependent (base mod 2 ^ 16). generalize dependent ((base / 2 ^ 16) mod 2 ^ 8). generalize dependent ((base / 2 ^ 24) mod 2 ^ 8).
  intros z Hz y Hy x Hx. rewrite <- (Z.div_unique _ (2 ^ 41) (68 + 2 ^ 15 * z) (2 ^ 40 + 103 + 2 ^ 16 * x + 2 ^ 32 * y)) by lia.
  replace (68 + 2 ^ 15 * z) with ((34 + 2 ^ 14 * z) * 2) by lia. by rewrite Z_mod_mult.
Qed.

(** A field of a number written as a sum. *)
Lemma bits_at v lo n q r c f :
  0 ≤ lo → 0 ≤ n → v = 2 ^ lo * q + r → 0 ≤ r < 2 ^ lo → q = 2 ^ n * c + f → 0 ≤ f < 2 ^ n → bits v lo n = f.
Proof.
  intros Hlo Hn -> Hr -> Hf. unfold bits. rewrite Z.shiftr_div_pow2 by done.
  rewrite <- (Z.div_unique _ (2 ^ lo) (2 ^ n * c + f) r) by auto. symmetry. apply (Z.mod_unique _ _ c f); auto.
Qed.

(** The fields of the busy descriptor of an address in its parts. *)
Lemma busy_fields x y z :
  0 ≤ x < 2 ^ 16 → 0 ≤ y < 2 ^ 8 → 0 ≤ z < 2 ^ 8 →
  let lower := 103 + 2 ^ 16 * x + 2 ^ 32 * y + 2 ^ 40 * 0x8B + 2 ^ 56 * z in
  segment_of lower = mkSegment 11 true 0 true false ∧ bits lower 16 24 = x + 2 ^ 16 * y ∧ bits lower 56 8 = z ∧ system_limit lower = 103.
Proof.
  intros Hx Hy Hz lower. unfold segment_of, system_limit. set (low := 103 + 2 ^ 16 * x + 2 ^ 32 * y).
  assert (0 ≤ low < 2 ^ 40) by (subst low; lia).
  rewrite (bits_at lower 40 4 (0x8B + 2 ^ 16 * z) low (8 + 2 ^ 12 * z) 11) by (subst low lower; lia).
  rewrite (bits_at lower 44 1 (8 + 2 ^ 12 * z) (low + 2 ^ 40 * 11) (4 + 2 ^ 11 * z) 0) by (subst low lower; lia).
  rewrite (bits_at lower 45 2 (4 + 2 ^ 11 * z) (low + 2 ^ 40 * 11) (1 + 2 ^ 9 * z) 0) by (subst low lower; lia).
  rewrite (bits_at lower 47 1 (1 + 2 ^ 9 * z) (low + 2 ^ 40 * 11) (2 ^ 8 * z) 1) by (subst low lower; lia).
  rewrite (bits_at lower 53 1 (2 ^ 3 * z) (low + 2 ^ 40 * 0x8B) (2 ^ 2 * z) 0) by (subst low lower; lia).
  rewrite (bits_at lower 16 24 (x + 2 ^ 16 * y + 2 ^ 24 * 0x8B + 2 ^ 40 * z) 103 (0x8B + 2 ^ 16 * z) (x + 2 ^ 16 * y)) by (subst low lower; lia).
  rewrite (bits_at lower 56 8 z (low + 2 ^ 40 * 0x8B) 0 z) by (subst low lower; lia).
  rewrite (bits_at lower 0 16 lower 0 (x + 2 ^ 16 * y + 2 ^ 24 * 0x8B + 2 ^ 40 * z) 103) by (subst low lower; lia).
  rewrite (bits_at lower 48 4 (2 ^ 8 * z) (low + 2 ^ 40 * 0x8B) (2 ^ 4 * z) 0) by (subst low lower; lia).
  by split_and!.
Qed.

(** An address is the four parts the descriptor spreads. *)
Lemma address_parts a : 0 ≤ a < U64 →
  a mod 2 ^ 16 + 2 ^ 16 * ((a / 2 ^ 16) mod 2 ^ 8) + 2 ^ 24 * ((a / 2 ^ 24) mod 2 ^ 8) + 2 ^ 32 * ((a / 2 ^ 32) mod 2 ^ 32) = a.
Proof.
  intros H. rewrite (Z.mod_small (a / 2 ^ 32)) by (split; [apply Z.div_pos; lia|apply Z.div_lt_upper_bound; lia]).
  replace (a / 2 ^ 24) with (a / 2 ^ 16 / 2 ^ 8) by (by rewrite Z.div_div by lia).
  replace (a / 2 ^ 32) with (a / 2 ^ 16 / 2 ^ 8 / 2 ^ 8) by (by rewrite !Z.div_div by lia).
  pose proof (Z.div_mod a (2 ^ 16) ltac:(lia)). pose proof (Z.div_mod (a / 2 ^ 16) (2 ^ 8) ltac:(lia)).
  pose proof (Z.div_mod (a / 2 ^ 16 / 2 ^ 8) (2 ^ 8) ltac:(lia)). lia.
Qed.

Lemma busy_descriptor base : u64 base →
  let lower := tss_lower base 103 + 2 ^ 41 in
  segment_of lower = mkSegment 11 true 0 true false ∧ system_base lower (tss_upper base) = base ∧ system_limit lower = 103.
Proof.
  intros Hb lower. unfold u64 in Hb. subst lower. rewrite tss_lower_sum by done.
  pose proof (Z.mod_pos_bound base (2 ^ 16) ltac:(lia)). pose proof (Z.mod_pos_bound (base / 2 ^ 16) (2 ^ 8) ltac:(lia)).
  pose proof (Z.mod_pos_bound (base / 2 ^ 24) (2 ^ 8) ltac:(lia)).
  destruct (busy_fields (base mod 2 ^ 16) ((base / 2 ^ 16) mod 2 ^ 8) ((base / 2 ^ 24) mod 2 ^ 8)) as (A & B & C & D); [done..|].
  replace (103 + _ + _ + 2 ^ 40 * 137 + _ + 2 ^ 41)
    with (103 + 2 ^ 16 * (base mod 2 ^ 16) + 2 ^ 32 * ((base / 2 ^ 16) mod 2 ^ 8) + 2 ^ 40 * 0x8B + 2 ^ 56 * ((base / 2 ^ 24) mod 2 ^ 8)) by lia.
  split_and!; [done| |done]. unfold system_base. rewrite B, C. unfold tss_upper, bits. change 0xFFFFFFFF with (2 ^ 32 - 1).
  rewrite land_low_mask, Z.shiftr_0_r, Z.shiftr_div_pow2, Z.mod_mod by lia.
  by apply address_parts.
Qed.

Lemma msr_written n v r : u64 v → msr (msr_write n v r) n = v.
Proof.
  intros Hv. unfold msr_write, wrmsr. cbn. rewrite Z.eqb_refl. change 0xFFFFFFFF with (2 ^ 32 - 1).
  rewrite land_low_mask, Z.shiftr_div_pow2 by lia. unfold u64 in Hv. rewrite (Z.mod_small (v / 2 ^ 32)) by (split; [apply Z.div_pos; lia|apply Z.div_lt_upper_bound; lia]).
  pose proof (Z.div_mod v (2 ^ 32) ltac:(lia)). lia.
Qed.
Lemma msr_other n n' v r : n ≠ n' → msr (msr_write n' v r) n = msr r n.
Proof. intros H. unfold msr_write, wrmsr. cbn. destruct (Z.eqb_spec n n'); [done|done]. Qed.

Lemma msr_read_value n r : u64 (msr r n) → msr_read n r = msr r n.
Proof.
  intros Hv. unfold msr_read, rdmsr. unfold u64 in Hv.
  pose proof (Z.div_mod (msr r n) U32 ltac:(lia)). pose proof (Z.mod_pos_bound (msr r n) U32 ltac:(lia)).
  rewrite Z.lor_comm, lor_above; [lia|lia|lia|apply Z.div_pos; lia].
Qed.

(** C33. After [gdt::init] the processor has the descriptors the rest of the kernel
    counts on. GDTR covers the table exactly; each selector constant names a present
    segment of its ring and kind (kernel code and data in ring 0, user code and data in
    ring 3, code segments in 64-bit mode); the task register names a busy 64-bit TSS whose
    base is the address of the TSS whatever that address is, and whose limit is its last
    byte; the port map starts past that limit, so ring 3 has no ports. A second call changes nothing, and the stack [set_kernel_stack] stores is the
    word at offset 4, where the processor takes RSP0. *)
Theorem gdt_init_correct gdt_address tss_address stack_top :
  u64 tss_address → u64 stack_top →
  let g := gdt_init gdt_address tss_address gdt_boot in
  loaded g = Some (55, gdt_address) ∧ Z.of_nat (length (table g)) * 8 = 56 ∧ gdt_init gdt_address tss_address g = g ∧
  segment_of <$> descriptor g KERNEL_CODE_SELECTOR = Some (mkSegment 10 false 0 true true) ∧
  segment_of <$> descriptor g KERNEL_DATA_SELECTOR = Some (mkSegment 2 false 0 true true) ∧
  segment_of <$> descriptor g USER_CODE_SELECTOR = Some (mkSegment 10 false 3 true true) ∧
  segment_of <$> descriptor g USER_DATA_SELECTOR = Some (mkSegment 2 false 3 true true) ∧
  (∃ lower upper, descriptor g (task_register g) = Some lower ∧ descriptor g (task_register g + 8) = Some upper ∧
    segment_of lower = mkSegment 11 true 0 true false ∧ system_base lower upper = tss_address ∧
    system_limit lower = Z.of_nat (length (tss_bytes (tss g))) - 1) ∧
  le_val (drop 102 (tss_bytes (tss g))) = 104 ∧ tss_word (tss (set_kernel_stack stack_top g)) 4 = stack_top.
Proof.
  intros Hb Hs g. do 7 (split; [reflexivity|]). split.
  - exists (Z.lor (tss_lower tss_address 103) (Z.shiftl 1 41)), (tss_upper tss_address).
    do 2 (split; [reflexivity|]). rewrite tss_lower_busy by done. by apply busy_descriptor.
  - split; [reflexivity|]. transitivity (le_val (le_bytes 8 stack_top)); [reflexivity|]. apply le_val_bytes. unfold u64 in Hs. lia.
Qed.

Lemma gdt_init_correct_witness :
  let g := gdt_init 0xFFFFFFFF80107000 0xFFFFFFFF80108010 gdt_boot in
  loaded g = Some (55, 0xFFFFFFFF80107000) ∧ tss_word (tss (set_kernel_stack 0xFFFF800000200000 g)) 4 = 0xFFFF800000200000.
Proof.
  pose proof (gdt_init_correct 0xFFFFFFFF80107000 0xFFFFFFFF80108010 0xFFFF800000200000 ltac:(done) ltac:(done)) as H. cbn zeta in H |- *.
  split; [apply H|apply H].
Defined.

(** [msr::write] and [msr::read] move any 64-bit value through the two 32-bit
    halves unchanged, and touch no other register. *)
Theorem msr_roundtrip n v r :
  u64 v → msr_read n (msr_write n v r) = v ∧ ∀ n', n' ≠ n → msr (msr_write n v r) n' = msr r n'.
Proof.
  intros Hv. split; [|intros n' H; by apply msr_other]. rewrite msr_read_value; rewrite msr_written; done.
Qed.

Lemma msr_roundtrip_witness : msr_read IA32_LSTAR (msr_write IA32_LSTAR 0xFFFFFFFF80123456 (mkRegisters (λ _, 0) 0 0)) = 0xFFFFFFFF80123456.
Proof. apply (msr_roundtrip IA32_LSTAR 0xFFFFFFFF80123456 (mkRegisters (λ _, 0) 0 0)). done. Defined.

(** The writes of [syscall::init], last one first. *)
Lemma syscall_init_msrs entry r : u64 entry → u64 (msr r IA32_EFER) →
  msr (syscall_init entry r) IA32_EFER = Z.lor (msr r IA32_EFER) 1 ∧ msr (syscall_init entry r) IA32_STAR = 0x0008001B00000000 ∧
  msr (syscall_init entry r) IA32_LSTAR = entry ∧ msr (syscall_init entry r) IA32_FMASK = 0x300.
Proof.
  intros He Hf. unfold syscall_init. rewrite msr_read_value by done.
  assert (u64 (Z.lor (msr r IA32_EFER) 1)) by (by apply Paging.lor_u64).
  split_and!; repeat (rewrite msr_other by done); by rewrite msr_written.
Qed.

Lemma entered_flags star fmask rip m : m_flags (syscall_instruction star fmask rip m) = Z.ldiff (m_flags m) fmask.
Proof. done. Qed.

(** What [syscall::init] sets up, seen from the instructions: SCE is set in EFER and
    its other bits are kept, LSTAR is the entry, and SYSCALL enters with interrupts and
    single stepping off.  STAR has its fields the wrong way round for the table of
    [gdt::init]: SYSCALL enters with the selector of the user's code, whose descriptor is
    of ring 3, and the [sysret] of the entry routine leaves with the indices of the
    kernel's code and data, whose descriptors are of ring 0. *)
Theorem syscall_init_registers entry gdt_address tss_address r m rip :
  u64 entry → u64 (msr r IA32_EFER) →
  let r' := syscall_init entry r in
  let g := gdt_init gdt_address tss_address gdt_boot in
  let entered := syscall_instruction (msr r' IA32_STAR) (msr r' IA32_FMASK) rip m in
  let left := (sysret (msr r' IA32_STAR) m).2 in
  Z.testbit (msr r' IA32_EFER) 0 = true ∧ (∀ i, i ≠ 0 → Z.testbit (msr r' IA32_EFER) i = Z.testbit (msr r IA32_EFER) i) ∧
  msr r' IA32_LSTAR = entry ∧ Z.testbit (m_flags entered) 9 = false ∧ Z.testbit (m_flags entered) 8 = false ∧
  m_seg entered CS = USER_CODE_SELECTOR ∧ seg_dpl ∘ segment_of <$> descriptor g (m_seg entered CS) = Some 3 ∧
  m_seg left CS = Z.lor KERNEL_CODE_SELECTOR 3 ∧ seg_dpl ∘ segment_of <$> descriptor g (m_seg left CS) = Some 0 ∧
  m_seg left SS = Z.lor KERNEL_DATA_SELECTOR 3 ∧ seg_dpl ∘ segment_of <$> descriptor g (m_seg left SS) = Some 0.
Proof.
  intros He Hf. cbv zeta. destruct (syscall_init_msrs entry r He Hf) as (-> & -> & -> & ->).
  split_and!; try reflexivity.
  - by rewrite Z.lor_spec, orb_true_r.
  - intros i Hi. rewrite Z.lor_spec. change 1 with (2 ^ 0). rewrite Z.pow2_bits_eqb by lia. destruct (Z.eqb_spec 0 i); [lia|apply orb_false_r].
  - by rewrite entered_flags, Z.ldiff_spec, andb_false_r.
  - by rewrite entered_flags, Z.ldiff_spec, andb_false_r.
Qed.

Definition example_machine : machine := mkMachine (λ _, 0) (λ _, 0) 0x302 0 0 (λ _, 0).

Lemma syscall_init_registers_witness :
  let r' := syscall_init 0xFFFFFFFF80123456 (mkRegisters (λ _, 0x500) 0x80000011 0x20) in
  Z.testbit (msr r' IA32_EFER) 0 = true ∧ msr r' IA32_LSTAR = 0xFFFFFFFF80123456 ∧
  m_seg (sysret (msr r' IA32_STAR) example_machine).2 CS = 0x0B.
Proof.
  pose proof (syscall_init_registers 0xFFFFFFFF80123456 0x1000 0x2000 (mkRegisters (λ _, 0x500) 0x80000011 0x20) example_machine 0x400000
    ltac:(done) ltac:(done)) as H. cbv zeta in *. split; [apply H|split; [apply H|apply H]].
Defined.

(** ** cpu/mod.rs *)

(** The three registers of leaf 0 spell the vendor. *)
Lemma vendor_intel count : count 0 0 = mkCpuid 0x16 0x756E6547 0x6C65746E 0x49656E69 →
  vendor_string count = [71; 101; 110; 117; 105; 110; 101; 73; 110; 116; 101; 108] ∧ highest_basic_leaf count = 0x16.
Proof. intros H. unfold vendor_string, highest_basic_leaf, cpuid, cpuid_ecx. rewrite H. by vm_compute. Qed.

(** [start_sse] turns SSE on exactly when both features are there, and changes only the
    four bits it names. *)
Lemma start_sse_bits count r i : 0 ≤ i →
  let on := Z.testbit (edx (count 1 0)) 25 && Z.testbit (edx (count 1 0)) 26 in
  let r' := start_sse count r in
  Z.testbit (cr0 r') i = (if on && (i =? 1) then true else if on && (i =? 2) then false else Z.testbit (cr0 r) i) ∧
  Z.testbit (cr4 r') i = (if on && ((i =? 9) || (i =? 10)) then true else Z.testbit (cr4 r) i) ∧ ∀ n, msr r' n = msr r n.
Proof.
  intros Hi. cbv zeta. unfold start_sse, has_edx, features, cpuid, cpuid_ecx. cbn [features_edx].
  replace (negb (Z.land (edx (count 1 0)) SSE =? 0)) with (Z.testbit (edx (count 1 0)) 25) by (symmetry; apply flag_testbit; lia).
  replace (negb (Z.land (edx (count 1 0)) SSE2 =? 0)) with (Z.testbit (edx (count 1 0)) 26) by (symmetry; apply flag_testbit; lia).
  destruct (_ && _); cbn [andb enable_sse cr0 cr4 msr]; [|done].
  rewrite Z.ldiff_spec, !Z.lor_spec, !bit_shift by lia.
  destruct (Z.eqb_spec i 1), (Z.eqb_spec i 2), (Z.eqb_spec i 9), (Z.eqb_spec i 10); try lia; cbn [orb negb];
    by rewrite ?orb_true_r, ?andb_true_r, ?andb_false_r, ?orb_false_r.
Qed.

End Cpu.
