(* ===== verification/Boot.v ===== *)
(** * From the boot loader to [kmain]: src/src/arch/x86_64/boot/main.asm

    The state is the part of the processor the entry code works on, with physical
    memory; before paging is on and in the identity window after it, a virtual address is
    the physical one.  The layout of the tables and of the stack is the one of
    src/targets/x86_64/linker.ld; the other symbols are arguments. *)

From S2P Require Import Prelude Mem Heap Phys Paging Elf Loader Cpu.
Local Open Scope Z_scope.

Module Boot.
Import Paging.

Definition KERNEL_VMA_OFFSET : Z := 0xFFFFFFFF80000000.

(** The labels of .boot: [pml4] is where the linker script aligns to after the code, and
    the data follows [gdt_tab] without padding. *)
Record symbols := mkSymbols { pml4 : Z; gdt_tab : Z; clean_gdt : Z; enter_long : Z }.
Definition gdt_1 (y : symbols) : Z := gdt_tab y + 64.
Definition gdt_2 (y : symbols) : Z := gdt_1 y + 6.
Definition gdt_3 (y : symbols) : Z := gdt_2 y + 10.
Definition multiboot_magic (y : symbols) : Z := gdt_3 y + 10.
Definition multiboot_info (y : symbols) : Z := multiboot_magic y + 4.
Definition pdpt (y : symbols) : Z := pml4 y + 0x1000.
Definition pd (y : symbols) : Z := pml4 y + 0x2000.
Definition pt (y : symbols) : Z := pml4 y + 0x3000.
Definition _stack (y : symbols) : Z := pml4 y + 0x4000 + 0x8000.

(** The data of .boot. *)
Definition gdt_tab_words : list Z :=
  [ 0; 0x00CF9A000000FFFF; 0x00CF92000000FFFF; 0; 0x00A09A0000000000; 0x00A0920000000000; 0x00A0FA0000000000; 0x00A0F20000000000 ].
Definition gdt_1_bytes (y : symbols) : list Z := le_bytes 2 23 ++ le_bytes 4 (gdt_tab y).
Definition gdt_2_bytes (y : symbols) : list Z := le_bytes 2 39 ++ le_bytes 4 (gdt_tab y + 24) ++ le_bytes 4 0.
Definition gdt_3_bytes (y : symbols) : list Z := le_bytes 2 39 ++ le_bytes 8 (gdt_tab y + 24 + KERNEL_VMA_OFFSET).

Record boot := mkBoot {
  b_mem : mem; b_esp : Z; b_cs : Z; b_ds : Z; b_es : Z; b_ss : Z; b_gdtr : Z * Z;
  b_cr0 : Z; b_cr3 : Z; b_cr4 : Z; b_efer : Z; b_rdi : Z; b_rsi : Z
}.

Definition store32 (m : mem) (addr v : Z) : mem := store_bytes m addr (le_bytes 4 v).

Definition set_mem (f : mem → mem) (b : boot) : boot :=
  mkBoot (f (b_mem b)) (b_esp b) (b_cs b) (b_ds b) (b_es b) (b_ss b) (b_gdtr b) (b_cr0 b) (b_cr3 b) (b_cr4 b) (b_efer b) (b_rdi b) (b_rsi b).
Definition set_esp (v : Z) (b : boot) : boot :=
  mkBoot (b_mem b) v (b_cs b) (b_ds b) (b_es b) (b_ss b) (b_gdtr b) (b_cr0 b) (b_cr3 b) (b_cr4 b) (b_efer b) (b_rdi b) (b_rsi b).
Definition set_cs (v : Z) (b : boot) : boot :=
  mkBoot (b_mem b) (b_esp b) v (b_ds b) (b_es b) (b_ss b) (b_gdtr b) (b_cr0 b) (b_cr3 b) (b_cr4 b) (b_efer b) (b_rdi b) (b_rsi b).
Definition set_data (ds es ss : Z) (b : boot) : boot :=
  mkBoot (b_mem b) (b_esp b) (b_cs b) ds es ss (b_gdtr b) (b_cr0 b) (b_cr3 b) (b_cr4 b) (b_efer b) (b_rdi b) (b_rsi b).
Definition set_gdtr (v : Z * Z) (b : boot) : boot :=
  mkBoot (b_mem b) (b_esp b) (b_cs b) (b_ds b) (b_es b) (b_ss b) v (b_cr0 b) (b_cr3 b) (b_cr4 b) (b_efer b) (b_rdi b) (b_rsi b).
Definition set_control (cr0 cr3 cr4 efer : Z) (b : boot) : boot :=
  mkBoot (b_mem b) (b_esp b) (b_cs b) (b_ds b) (b_es b) (b_ss b) (b_gdtr b) cr0 cr3 cr4 efer (b_rdi b) (b_rsi b).
Definition set_arguments (rdi rsi : Z) (b : boot) : boot :=
  mkBoot (b_mem b) (b_esp b) (b_cs b) (b_ds b) (b_es b) (b_ss b) (b_gdtr b) (b_cr0 b) (b_cr3 b) (b_cr4 b) (b_efer b) rdi rsi.

(** [lgdt] reads a limit of 16 bits and a base of 32 bits, or of 64 in long mode. *)
Definition lgdt32 (addr : Z) (b : boot) : boot := set_gdtr (load16 (b_mem b) addr, load32 (b_mem b) (addr + 2)) b.
Definition lgdt64 (addr : Z) (b : boot) : boot := set_gdtr (load16 (b_mem b) addr, load64 (b_mem b) (addr + 2)) b.

Definition push32 (v : Z) (b : boot) : boot := let sp := (b_esp b - 4) mod U32 in set_mem (λ m, store32 m sp v) (set_esp sp b).

(** [push selector; push target; retf] *)
Definition far_jump (selector target : Z) (b : boot) : boot :=
  let b := push32 target (push32 selector b) in
  set_esp ((b_esp b + 8) mod U32) (set_cs (load32 (b_mem b) (b_esp b + 4) mod 65536) b).

Definition save_multiboot (y : symbols) (eax ebx : Z) (b : boot) : boot :=
  set_mem (λ m, store32 (store32 m (multiboot_magic y) eax) (multiboot_info y) ebx) b.

Definition clean (y : symbols) (b : boot) : boot :=
  let b := far_jump 0x08 (clean_gdt y) (lgdt32 (gdt_1 y) b) in
  set_esp (_stack y) (set_data 0x10 (b_es b) 0x10 b).

(** The loop over the entries of [pd], from entry [ecx]. *)
Fixpoint map_kernel_pages (fuel : nat) (pd ecx : Z) (m : mem) : mem :=
  match fuel with
  | O => m
  | S fuel =>
      let eax := Z.lor (Z.shiftl ecx 21 mod U32) 0x83 in
      let m := store32 m (pd + ecx * 8) eax in
      let ecx := ecx + 1 in
      if ecx <? 512 then map_kernel_pages fuel pd ecx m else m
  end.

Definition link_tables (y : symbols) (m : mem) : mem :=
  let eax := Z.lor (pdpt y) 3 in
  let m := store32 m (pml4 y) eax in
  let m := store32 m (pml4 y + 0x800) eax in
  let m := store32 m (pml4 y + 0xFF8) eax in
  let eax := Z.lor (pd y) 3 in
  let m := store32 m (pdpt y) eax in
  let m := store32 m (pdpt y + 0xFF0) eax in
  store32 m (pd y + 0) 0x000083.

Definition build_tables (y : symbols) (m : mem) : mem := map_kernel_pages 512 (pd y) 0 (link_tables y m).

Definition enable_paging (y : symbols) (b : boot) : boot :=
  let b := set_control (b_cr0 b) (pml4 y) (b_cr4 b) (b_efer b) b in
  let b := set_control (b_cr0 b) (b_cr3 b) (Z.lor (b_cr4 b) (Z.shiftl 1 5)) (b_efer b) b in
  let b := set_control (b_cr0 b) (b_cr3 b) (b_cr4 b) (Z.lor (b_efer b) (Z.shiftl 1 8)) b in
  set_control (Z.lor (b_cr0 b) (Z.shiftl 1 31)) (b_cr3 b) (b_cr4 b) (b_efer b) b.

Definition enter_long_mode (y : symbols) (b : boot) : boot := far_jump 0x08 (enter_long y) (lgdt32 (gdt_2 y) b).

(** 64-bit code up to the call; the return address is below the stack top. *)
Definition call_kmain (y : symbols) (return_address : Z) (b : boot) : boot :=
  let b := set_data 0x10 0x10 0x10 b in
  let b := set_esp ((_stack y + KERNEL_VMA_OFFSET) mod U64) b in
  let b := lgdt64 (gdt_3 y) b in
  let rsi := load32 (b_mem b) (multiboot_magic y) in
  let rdi := (load64 (b_mem b) (multiboot_info y) + KERNEL_VMA_OFFSET) mod U64 in
  let b := set_arguments rdi rsi b in
  let sp := (b_esp b - 8) mod U64 in
  set_mem (λ m, store64 m ((sp - KERNEL_VMA_OFFSET) mod U64) return_address) (set_esp sp b).

Definition _entry (y : symbols) (eax ebx return_address : Z) (b : boot) : boot :=
  let b := save_multiboot y eax ebx b in
  let b := clean y b in
  let b := set_mem (build_tables y) b in
  call_kmain y return_address (enter_long_mode y (enable_paging y b)).

(** ** 32-bit stores *)

Lemma load64_halves m a : load64 m a = load32 m a + U32 * load32 m (a + 4).
Proof. unfold load64, load32. change 8%nat with (4 + 4)%nat. rewrite (load_bytes_app m a 4 4), le_val_app, length_load_bytes. done. Qed.

Lemma load32_store32 m a v : 0 ≤ v < U32 → load32 (store32 m a v) a = v.
Proof.
  intros Hv. unfold load32, store32. pose proof (load_store_same m a (le_bytes 4 v)) as H. rewrite length_le_bytes in H. rewrite H.
  by apply le_val_bytes.
Qed.

Lemma store32_out m a v x : ¬ (a ≤ x < a + 4) → store32 m a v x = m x.
Proof. intros H. apply store_bytes_out. rewrite length_le_bytes. lia. Qed.

Lemma load32_out m a v b : b + 4 ≤ a ∨ a + 4 ≤ b → load32 (store32 m a v) b = load32 m b.
Proof. intros H. unfold load32, store32. rewrite load_store_disjoint; [done|]. rewrite length_le_bytes. lia. Qed.

Lemma load64_out m a v b : b + 8 ≤ a ∨ a + 4 ≤ b → load64 (store32 m a v) b = load64 m b.
Proof. intros H. unfold load64, store32. rewrite load_store_disjoint; [done|]. rewrite length_le_bytes. lia. Qed.

(** Storing the lower half of an entry whose upper half is clear stores the entry. *)
Lemma load64_store32 m a v : mem_ok m → 0 ≤ v < U32 → load64 m a < U32 → load64 (store32 m a v) a = v.
Proof.
  intros Hm Hv Ha. rewrite load64_halves in *. rewrite load32_store32, load32_out by lia.
  pose proof (load32_bound m a Hm). pose proof (load32_bound m (a + 4) Hm). lia.
Qed.

Lemma mem_ok_store32 m a v : mem_ok m → mem_ok (store32 m a v).
Proof. intros H. apply mem_ok_store; [done|apply le_bytes_byte]. Qed.

(** ** The tables *)

Definition large_page (i : Z) : Z := Z.lor (Z.shiftl i 21) 0x83.

Lemma large_page_value i : 0 ≤ i < 512 → Z.shiftl i 21 mod U32 = Z.shiftl i 21 ∧ large_page i = 2 ^ 21 * i + 0x83 ∧ 0 ≤ large_page i < U32.
Proof.
  intros Hi. unfold large_page. rewrite Z.lor_comm, Cpu.lor_above by lia. rewrite Z.shiftl_mul_pow2 by lia.
  split; [apply Z.mod_small; lia|lia].
Qed.

(** The loop fills the entries from [ecx] on and nothing else. *)
Lemma map_kernel_pages_spec fuel p ecx m : mem_ok m → 0 ≤ ecx < 512 → ecx + Z.of_nat fuel = 512 →
  (∀ i, ecx ≤ i < 512 → load64 m (slot p i) < U32) →
  let m' := map_kernel_pages fuel p ecx m in
  mem_ok m' ∧ (∀ i, ecx ≤ i < 512 → load64 m' (slot p i) = large_page i) ∧ (∀ x, x < slot p ecx ∨ p + 4096 ≤ x → m' x = m x).
Proof.
  revert ecx m. induction fuel as [|fuel IH]; intros ecx m Hm He Hf Hs; [lia|]. cbn [map_kernel_pages].
  destruct (large_page_value ecx He) as (-> & _ & Hv). fold (large_page ecx). replace (p + ecx * 8) with (slot p ecx) by (unfold slot; lia).
  pose proof (mem_ok_store32 m (slot p ecx) (large_page ecx) Hm) as Hm1.
  assert (load64 (store32 m (slot p ecx) (large_page ecx)) (slot p ecx) = large_page ecx) as Hl by (apply load64_store32; [done|done|apply Hs; lia]).
  assert (∀ x, x < slot p ecx ∨ p + 4096 ≤ x → store32 m (slot p ecx) (large_page ecx) x = m x) as Ho.
  { intros x Hx. apply store32_out. unfold slot in *. lia. }
  destruct (Z.ltb_spec (ecx + 1) 512).
  - destruct (IH (ecx + 1) (store32 m (slot p ecx) (large_page ecx))) as (A & B & C); [done|lia|lia| |].
    { intros i Hi. rewrite load64_out by (unfold slot; lia). apply Hs. lia. }
    split_and!; [done| |].
    + intros i Hi. destruct (decide (i = ecx)) as [->|]; [|apply B; lia].
      etransitivity; [|exact Hl]. apply load64_ext. intros x Hx. apply C. unfold slot in *. lia.
    + intros x Hx. rewrite C by (unfold slot in *; lia). by apply Ho.
  - split_and!; [done| |done]. intros i Hi. replace i with ecx by lia. done.
Qed.

(** Where things are in .boot, and what the loader put there. *)
Record layout (y : symbols) : Prop := {
  ly_tables : pml4 y mod 4096 = 0;
  ly_data : 0x100000 ≤ gdt_tab y ∧ multiboot_info y + 8 ≤ pml4 y;
  ly_end : _stack y ≤ 2 ^ 30
}.
Record image (y : symbols) (m : mem) : Prop := {
  im_ok : mem_ok m;
  im_gdt : load_bytes m (gdt_tab y) 64 = mjoin (le_bytes 8 <$> gdt_tab_words);
  im_gdt_1 : load_bytes m (gdt_1 y) 6 = gdt_1_bytes y;
  im_gdt_2 : load_bytes m (gdt_2 y) 10 = gdt_2_bytes y;
  im_gdt_3 : load_bytes m (gdt_3 y) 10 = gdt_3_bytes y;
  im_info : load64 m (multiboot_info y) = 0;
  im_tables : ∀ x, pml4 y ≤ x < pml4 y + 0x4000 → m x = 0
}.

(** The entries of the tables. *)
Record tables (y : symbols) (m : mem) : Prop := {
  tb_pml4 : ∀ i, i = 0 ∨ i = 256 ∨ i = 511 → load64 m (slot (pml4 y) i) = Z.lor (pdpt y) 3;
  tb_pdpt : ∀ i, i = 0 ∨ i = 510 → load64 m (slot (pdpt y) i) = Z.lor (pd y) 3;
  tb_hole : ∀ i, 0 < i < 510 → load64 m (slot (pdpt y) i) = 0;
  tb_pd : ∀ i, 0 ≤ i < 512 → load64 m (slot (pd y) i) = large_page i
}.

Lemma table_frames y : layout y → frame_ok (pml4 y) ∧ frame_ok (pdpt y) ∧ frame_ok (pd y) ∧ 0 ≤ Z.lor (pdpt y) 3 < U32 ∧ 0 ≤ Z.lor (pd y) 3 < U32.
Proof.
  intros [Ht [Hd1 Hd2] He]. unfold multiboot_info, multiboot_magic, gdt_3, gdt_2, gdt_1, pdpt, pd, _stack, frame_ok in *.
  assert (∀ k, 0 ≤ k < 3 → (pml4 y + 0x1000 * k) mod 4096 = 0) as Hm by (intros k Hk; rewrite Z.mul_comm, Z.mod_add by lia; done).
  assert (∀ k, 0 ≤ k < 3 → 0 ≤ Z.lor (pml4 y + 0x1000 * k) 3 < U32) as Hb.
  { intros k Hk. rewrite <- Z.add_nocarry_lor; [lia|]. apply frame_low; [|lia]. unfold frame_ok. split; [lia|by apply Hm]. }
  pose proof (Hm 1 ltac:(lia)). pose proof (Hm 2 ltac:(lia)). pose proof (Hb 1 ltac:(lia)). pose proof (Hb 2 ltac:(lia)).
  change (0x1000 * 1) with 0x1000 in *. change (0x1000 * 2) with 0x2000 in *. split_and!; try lia; assumption.
Qed.

Lemma load64_store32_at m a b v : b = a → mem_ok m → 0 ≤ v < U32 → load64 m a < U32 → load64 (store32 m a v) b = v.
Proof. intros ->. apply load64_store32. Qed.

(** Finds the store that wrote an entry of a zeroed table, or none. *)
Ltac entry Hz :=
  repeat (rewrite load64_out by lia);
  first
    [ rewrite Hz by lia; first [done | lia]
    | rewrite load64_store32_at; [done | lia | repeat apply mem_ok_store32; done | lia | entry Hz] ].

(** The six stores of [link_tables], on tables that are zero. *)
Lemma link_tables_spec y m : layout y → mem_ok m → (∀ x, pml4 y ≤ x < pml4 y + 0x4000 → m x = 0) →
  let m' := link_tables y m in
  mem_ok m' ∧ (∀ i, i = 0 ∨ i = 256 ∨ i = 511 → load64 m' (slot (pml4 y) i) = Z.lor (pdpt y) 3) ∧
  (∀ i, i = 0 ∨ i = 510 → load64 m' (slot (pdpt y) i) = Z.lor (pd y) 3) ∧ (∀ i, 0 < i < 510 → load64 m' (slot (pdpt y) i) = 0) ∧
  (∀ i, 0 ≤ i < 512 → load64 m' (slot (pd y) i) < U32) ∧ (∀ x, x < pml4 y ∨ pml4 y + 0x3000 ≤ x → m' x = m x).
Proof.
  intros Hy H0 Hm. destruct (table_frames y Hy) as (_ & _ & _ & Hv1 & Hv2).
  assert (∀ a, pml4 y ≤ a → a + 8 ≤ pml4 y + 0x4000 → load64 m a = 0) as Hz.
  { intros a Ha Ha'. rewrite (load64_ext m (λ _, 0) a); [done|]. intros x Hx. apply Hm. lia. }
  unfold link_tables. generalize dependent (Z.lor (pdpt y) 3). generalize dependent (Z.lor (pd y) 3). intros v2 Hv2 v1 Hv1. cbv zeta.
  unfold slot, pdpt, pd in *.
  split_and!.
  - by do 6 apply mem_ok_store32.
  - intros i [->|[->| ->]]; entry Hz.
  - intros i [->| ->]; entry Hz.
  - intros i Hi. entry Hz.
  - intros i Hi. destruct (decide (i = 0)) as [->|].
    + rewrite load64_store32_at; [lia|lia|by do 5 apply mem_ok_store32|lia|entry Hz].
    + apply Z.le_lt_trans with 0; [|lia]. apply Z.eq_le_incl. entry Hz.
  - intros x Hx. rewrite !store32_out by lia. done.
Qed.

Lemma build_tables_spec y m : layout y → mem_ok m → (∀ x, pml4 y ≤ x < pml4 y + 0x4000 → m x = 0) →
  let m' := build_tables y m in
  mem_ok m' ∧ tables y m' ∧ ∀ x, x < pml4 y ∨ pml4 y + 0x3000 ≤ x → m' x = m x.
Proof.
  intros Hy H0 Hm. destruct (link_tables_spec y m Hy H0 Hm) as (Hok & A & B & C & D & E). cbv zeta. unfold build_tables.
  destruct (map_kernel_pages_spec 512 (pd y) 0 (link_tables y m) Hok ltac:(lia) ltac:(lia) D) as (Hok' & F & G).
  generalize dependent (map_kernel_pages 512 (pd y) 0 (link_tables y m)). intros m' Hok' F G.
  assert (∀ a, a + 8 ≤ pd y → load64 m' a = load64 (link_tables y m) a) as Hl.
  { intros a Ha. apply load64_ext. intros x Hx. apply G. unfold slot. lia. }
  split; [done|]. split.
  - split; [intros i Hi|intros i Hi|intros i Hi|done]; rewrite Hl by (unfold slot, pdpt, pd; lia); auto.
  - intros x Hx. rewrite G by (unfold slot, pd in *; lia). by apply E.
Qed.

(** A store elsewhere keeps them. *)
Lemma tables_ext y m m' : (∀ x, pml4 y ≤ x < pml4 y + 0x3000 → m' x = m x) → tables y m → tables y m'.
Proof.
  intros H [A B C D].
  assert (∀ a, pml4 y ≤ a → a + 8 ≤ pml4 y + 0x3000 → load64 m' a = load64 m a) as Hl.
  { intros a Ha Ha'. apply load64_ext. intros x Hx. apply H. lia. }
  split; intros i Hi; rewrite Hl by (unfold slot, pdpt, pd in *; lia); auto.
Qed.

(** ** Walks *)

(** The flags of the entries. *)
Lemma link_flags f : frame_ok f → has (Z.lor f 3) FLAG_PRESENT = true ∧ has (Z.lor f 3) FLAG_HUGE = false ∧ Z.land (Z.lor f 3) ENTRY_ADDR_MASK = f.
Proof.
  intros Hf. unfold FLAG_PRESENT, FLAG_HUGE. rewrite !entry_flag by done || lia. split_and!; [done|done|]. by apply entry_addr.
Qed.
Lemma large_flags i : 0 ≤ i < 512 →
  has (large_page i) FLAG_PRESENT = true ∧ has (large_page i) FLAG_HUGE = true ∧ Z.land (large_page i) ENTRY_ADDR_MASK = 2 ^ 21 * i.
Proof.
  intros Hi. assert (frame_ok (Z.shiftl i 21)) as Hf.
  { rewrite Z.shiftl_mul_pow2 by lia. split; [lia|]. replace (i * 2 ^ 21) with (i * 512 * 4096) by lia. apply Z_mod_mult. }
  unfold large_page, FLAG_PRESENT, FLAG_HUGE. rewrite !entry_flag by done || lia. split_and!; [done|done|].
  rewrite entry_addr by done. rewrite Z.shiftl_mul_pow2; lia.
Qed.

(** A walk that ends in the page directory. *)
Lemma walk_window {E} y m va i j : layout y → tables y m → pml4_index va = i → pdpt_index va = j →
  (i = 0 ∨ i = 256 ∨ i = 511) → (j = 0 ∨ j = 510) →
  @translate E m (pml4 y) va = Ok (Some (2 ^ 21 * ((va / 2 ^ 21) mod 512) + va mod 2 ^ 21)).
Proof.
  intros Hy [A B _ D] Hi Hj Hi' Hj'. destruct (table_frames y Hy) as (F1 & F2 & F3 & _).
  unfold translate. rewrite table_from_phys_ok by apply F1. cbn [mbind comp_bind]. rewrite Hi, (A _ Hi').
  destruct (link_flags _ F2) as (-> & _ & ->). cbn [negb]. rewrite table_from_phys_ok by apply F2. cbn [mbind comp_bind]. rewrite Hj, (B _ Hj').
  destruct (link_flags _ F3) as (-> & -> & ->). cbn [negb]. rewrite table_from_phys_ok by apply F3. cbn [mbind comp_bind].
  assert (0 ≤ pd_index va < 512) as Hk by (unfold pd_index; rewrite index_spec by lia; apply Z.mod_pos_bound; lia). rewrite (D _ Hk).
  destruct (large_flags _ Hk) as (-> & -> & ->). cbn [negb]. rewrite land_low_mask by lia. pose proof (Z.mod_pos_bound va (2 ^ 21) ltac:(lia)).
  rewrite add64_ok by lia. cbn [mbind comp_bind mret comp_ret]. unfold pd_index. by rewrite index_spec by lia.
Qed.

(** The indices of the three windows onto the first GiB. *)
Lemma window_index base phys : base mod 2 ^ 30 = 0 → 0 ≤ base → 0 ≤ phys < 2 ^ 30 →
  pml4_index (base + phys) = (base / 2 ^ 39) mod 512 ∧ pdpt_index (base + phys) = (base / 2 ^ 30) mod 512 ∧
  2 ^ 21 * (((base + phys) / 2 ^ 21) mod 512) + (base + phys) mod 2 ^ 21 = phys.
Proof.
  intros Hb H0 Hp. unfold pml4_index, pdpt_index. rewrite !index_spec by lia.
  assert ((base + phys) / 2 ^ 30 = base / 2 ^ 30) as E30.
  { rewrite (Z.div_mod base (2 ^ 30)) at 1 by lia. rewrite Hb, Z.add_0_r, Z.mul_comm, Z.div_add_l by lia. rewrite (Z.div_small phys) by lia. lia. }
  assert (∀ x, 0 ≤ x → x / 2 ^ 39 = x / 2 ^ 30 / 2 ^ 9) as E39 by (intros x Hx; rewrite Z.div_div by lia; done).
  split_and!; [rewrite !E39, E30 by lia; done|by rewrite E30|].
  rewrite (Z.div_mod base (2 ^ 30)) by lia. rewrite Hb. generalize (base / 2 ^ 30). intros q.
  replace (2 ^ 30 * q + 0 + phys) with (phys + (q * 512) * 2 ^ 21) by lia. rewrite Z.div_add, Z.mod_add by lia.
  rewrite Z.mod_add by lia. rewrite (Z.mod_small (phys / 2 ^ 21)) by (split; [apply Z.div_pos; lia|apply Z.div_lt_upper_bound; lia]).
  pose proof (Z.div_mod phys (2 ^ 21) ltac:(lia)). lia.
Qed.

(** The three windows. *)
Lemma windows {E} y m phys : layout y → tables y m → 0 ≤ phys < 2 ^ 30 →
  @translate E m (pml4 y) phys = Ok (Some phys) ∧ @translate E m (pml4 y) (Phys.KERNEL_VMA_BASE + phys) = Ok (Some phys) ∧
  @translate E m (pml4 y) (KERNEL_VMA_OFFSET + phys) = Ok (Some phys).
Proof.
  intros Hy Hm Hp. split_and!.
  - destruct (window_index 0 phys eq_refl ltac:(lia) Hp) as (A & B & C). rewrite Z.add_0_l in *.
    rewrite (walk_window y m phys _ _ Hy Hm A B) by auto. by rewrite C.
  - destruct (window_index Phys.KERNEL_VMA_BASE phys eq_refl ltac:(by vm_compute) Hp) as (A & B & C).
    rewrite (walk_window y m _ _ _ Hy Hm A B) by auto. by rewrite C.
  - destruct (window_index KERNEL_VMA_OFFSET phys eq_refl ltac:(by vm_compute) Hp) as (A & B & C).
    rewrite (walk_window y m _ _ _ Hy Hm A B) by auto. by rewrite C.
Qed.

(** The direct map ends at 1 GiB. *)
Lemma direct_map_end {E} y m phys : layout y → tables y m → 2 ^ 30 ≤ phys < 510 * 2 ^ 30 →
  @translate E m (pml4 y) (Phys.KERNEL_VMA_BASE + phys) = Ok None.
Proof.
  intros Hy [A _ C _] Hp. destruct (table_frames y Hy) as (F1 & F2 & F3 & _).
  assert (pml4_index (Phys.KERNEL_VMA_BASE + phys) = 256) as Hi.
  { unfold pml4_index, Phys.KERNEL_VMA_BASE. rewrite index_spec by lia. Z.div_mod_to_equations. lia. }
  assert (0 < pdpt_index (Phys.KERNEL_VMA_BASE + phys) < 510) as Hj.
  { unfold pdpt_index, Phys.KERNEL_VMA_BASE. rewrite index_spec by lia. Z.div_mod_to_equations. lia. }
  unfold translate. rewrite table_from_phys_ok by apply F1. cbn [mbind comp_bind]. rewrite Hi, A by auto.
  destruct (link_flags _ F2) as (-> & _ & ->). cbn [negb]. rewrite table_from_phys_ok by apply F2. cbn [mbind comp_bind].
  by rewrite (C _ Hj).
Qed.

(** ** The entry code *)

(** A far jump through the stack writes only the eight bytes below it. *)
Lemma far_jump_spec selector target b : mem_ok (b_mem b) → 8 ≤ b_esp b < U32 → 0 ≤ selector < 65536 →
  let b' := far_jump selector target b in
  b_esp b' = b_esp b ∧ b_cs b' = selector ∧ mem_ok (b_mem b') ∧ (∀ x, ¬ (b_esp b - 8 ≤ x < b_esp b) → b_mem b' x = b_mem b x) ∧
  b_gdtr b' = b_gdtr b ∧ b_cr0 b' = b_cr0 b ∧ b_cr3 b' = b_cr3 b ∧ b_cr4 b' = b_cr4 b ∧ b_efer b' = b_efer b.
Proof.
  intros Hm He Hs. unfold far_jump, push32. cbn -[load32 store32 Z.modulo Z.add Z.sub].
  rewrite (Z.mod_small (b_esp b - 4)) by lia. rewrite (Z.mod_small (b_esp b - 4 - 4)) by lia. rewrite (Z.mod_small (_ + 8)) by lia.
  split_and!; try done; [lia| | |].
  - replace (b_esp b - 4 - 4 + 4) with (b_esp b - 4) by lia. rewrite load32_out by lia. rewrite load32_store32 by lia. by apply Z.mod_small.
  - by do 2 apply mem_ok_store32.
  - intros x Hx. rewrite !store32_out by lia. done.
Qed.

Section entry.
Context (y : symbols) (eax ebx return_address : Z) (b : boot).
Context (Hy : layout y) (Hm : image y (b_mem b)) (Hax : 0 ≤ eax < U32) (Hbx : 0 ≤ ebx < U32).
(** The stack the loader left is outside of the image. *)
Context (Hsp : 8 ≤ b_esp b < U32) (Hsp' : b_esp b ≤ 0x100000 ∨ _stack y + 8 ≤ b_esp b).

(** The state the tables are built in. *)
Definition ready (before : boot) : Prop :=
  mem_ok (b_mem before) ∧ b_esp before = _stack y ∧
  load32 (b_mem before) (multiboot_magic y) = eax ∧ load64 (b_mem before) (multiboot_info y) = ebx ∧
  (∀ x, 0x100000 ≤ x < _stack y → ¬ (multiboot_magic y ≤ x < multiboot_magic y + 12) → b_mem before x = b_mem b x).

Lemma before_spec : ready (clean y (save_multiboot y eax ebx b)).
Proof.
  unfold ready, clean. pose proof (im_ok _ _ Hm) as H0. pose proof (ly_data _ Hy) as [Hd1 Hd2].
  set (s := lgdt32 (gdt_1 y) (save_multiboot y eax ebx b)).
  assert (mem_ok (b_mem s)) as Hs by (by do 2 apply mem_ok_store32).
  destruct (far_jump_spec 0x08 (clean_gdt y) s Hs Hsp ltac:(lia)) as (_ & _ & C & D & _). change (b_esp s) with (b_esp b) in D.
  generalize dependent (far_jump 0x08 (clean_gdt y) s). intros j C D. cbn [set_esp set_data b_mem b_esp].
  unfold multiboot_info, multiboot_magic, gdt_3, gdt_2, gdt_1, _stack in *.
  assert (∀ x, 0x100000 ≤ x < pml4 y + 0x4000 + 0x8000 → b_mem j x = b_mem s x) as Hout by (intros x Hx; apply D; lia).
  assert (b_mem s = store32 (store32 (b_mem b) (multiboot_magic y) eax) (multiboot_info y) ebx) as Hmem by done.
  unfold multiboot_info, multiboot_magic, gdt_3, gdt_2, gdt_1 in Hmem.
  split_and!; [done|done| | |].
  - transitivity (load32 (b_mem s) (gdt_tab y + 64 + 6 + 10 + 10)); [unfold load32; f_equal; apply load_bytes_ext; intros i Hi; apply Hout; lia|].
    rewrite Hmem, load32_out by lia. by apply load32_store32.
  - transitivity (load64 (b_mem s) (gdt_tab y + 64 + 6 + 10 + 10 + 4)); [apply load64_ext; intros x Hx; apply Hout; lia|].
    rewrite Hmem, load64_store32; [done|by apply mem_ok_store32|done|]. rewrite load64_out by lia. pose proof (im_info _ _ Hm) as Hi.
    unfold multiboot_info, multiboot_magic, gdt_3, gdt_2, gdt_1 in Hi. rewrite Hi. lia.
  - intros x Hx Hne. rewrite Hout, Hmem, !store32_out by lia. done.
Qed.

(** [enable_paging] sets the bits it names. *)
Lemma enable_paging_bits s : let s' := enable_paging y s in
  b_mem s' = b_mem s ∧ b_esp s' = b_esp s ∧ b_cr3 s' = pml4 y ∧ Z.testbit (b_cr0 s') 31 = true ∧ Z.testbit (b_cr4 s') 5 = true ∧
  Z.testbit (b_efer s') 8 = true.
Proof. cbn -[Z.testbit Z.lor Z.shiftl]. rewrite !Z.lor_spec, !orb_true_r. done. Qed.

(** The state in 64-bit mode. *)
Definition ready64 (long : boot) : Prop :=
  mem_ok (b_mem long) ∧ tables y (b_mem long) ∧ load32 (b_mem long) (multiboot_magic y) = eax ∧ load64 (b_mem long) (multiboot_info y) = ebx ∧
  (∀ x, 0x100000 ≤ x < pml4 y → ¬ (multiboot_magic y ≤ x < multiboot_magic y + 12) → b_mem long x = b_mem b x) ∧
  b_cs long = 0x08 ∧ b_cr3 long = pml4 y ∧ Z.testbit (b_cr0 long) 31 = true ∧ Z.testbit (b_cr4 long) 5 = true ∧ Z.testbit (b_efer long) 8 = true.

Lemma long_spec before : ready before → ready64 (enter_long_mode y (enable_paging y (set_mem (build_tables y) before))).
Proof.
  intros (A & Hesp & B & C & D). pose proof (ly_data _ Hy) as [Hd1 Hd2]. pose proof (ly_end _ Hy) as He.
  destruct (build_tables_spec y (b_mem before) Hy A) as (F & G & H).
  { intros x Hx. rewrite D; [by apply Hm| |]; unfold multiboot_info, multiboot_magic, gdt_3, gdt_2, gdt_1, _stack in *; lia. }
  unfold ready64, enter_long_mode. set (s := lgdt32 (gdt_2 y) _).
  destruct (enable_paging_bits (set_mem (build_tables y) before)) as (Hs & Hse & Hc3 & Hc0 & Hc4 & Hce).
  change (b_mem s = build_tables y (b_mem before)) in Hs. change (b_esp s = b_esp before) in Hse. rewrite Hesp in Hse.
  change (b_cr3 s = pml4 y) in Hc3. change (Z.testbit (b_cr0 s) 31 = true) in Hc0. change (Z.testbit (b_cr4 s) 5 = true) in Hc4.
  change (Z.testbit (b_efer s) 8 = true) in Hce. clearbody s.
  destruct (far_jump_spec 0x08 (enter_long y) s) as (_ & Jc & Jm & Jo & _ & J0 & J3 & J4 & Je);
    [by rewrite Hs|rewrite Hse; unfold multiboot_info, multiboot_magic, gdt_3, gdt_2, gdt_1, _stack in *; lia|lia|].
  rewrite Jc, J0, J3, J4, Je. generalize dependent (far_jump 0x08 (enter_long y) s). intros j _ Jm Jo _ _ _ _. rewrite Hse, Hs in Jo.
  assert (∀ x, x < pml4 y → b_mem j x = b_mem before x) as Hlow.
  { intros x Hx. rewrite Jo by (unfold _stack; lia). apply H. lia. }
  unfold multiboot_info, multiboot_magic, gdt_3, gdt_2, gdt_1 in *.
  split; [exact Jm|]. split_and!; [..|reflexivity|exact Hc3|exact Hc0|exact Hc4|exact Hce].
  - apply (tables_ext y (build_tables y (b_mem before))); [|exact G]. intros x Hx. apply Jo. unfold _stack. lia.
  - rewrite <- B. unfold load32. f_equal. apply load_bytes_ext. intros i Hi. apply Hlow. lia.
  - rewrite <- C. apply load64_ext. intros x Hx. apply Hlow. lia.
  - intros x Hx Hne. rewrite Hlow by lia. apply D; [unfold _stack; lia|done].
Qed.

End entry.

(** The table the processor is left with. *)
Lemma boot_gdtr y m : layout y → load_bytes m (gdt_3 y) 10 = gdt_3_bytes y → (load16 m (gdt_3 y), load64 m (gdt_3 y + 2)) = (39, KERNEL_VMA_OFFSET + gdt_tab y + 24).
Proof.
  intros Hy H. pose proof (ly_data _ Hy) as [Hd1 Hd2]. pose proof (ly_end _ Hy) as He.
  change 10%nat with (2 + 8)%nat in H. rewrite load_bytes_app in H. unfold gdt_3_bytes in H.
  apply app_inj_1 in H as [H1 H2]; [|by rewrite length_load_bytes, length_le_bytes]. change (Z.of_nat 2) with 2 in H2.
  unfold load16, load64. rewrite H1, H2, le_val_bytes, le_val_bytes; [f_equal; lia| |done].
  unfold KERNEL_VMA_OFFSET, multiboot_info, multiboot_magic, gdt_3, gdt_2, gdt_1, _stack in *. change (256 ^ Z.of_nat 8) with U64. lia.
Qed.

Lemma boot_descriptor y m : load_bytes m (gdt_tab y) 64 = mjoin (le_bytes 8 <$> gdt_tab_words) → load64 m (gdt_tab y + 24 + 8) = Cpu.KERNEL_CODE.
Proof.
  intros H. change 64%nat with (32 + (8 + 24))%nat in H. rewrite !load_bytes_app in H.
  change (mjoin (le_bytes 8 <$> gdt_tab_words))
    with (mjoin (le_bytes 8 <$> take 4 gdt_tab_words) ++ le_bytes 8 Cpu.KERNEL_CODE ++ mjoin (le_bytes 8 <$> drop 5 gdt_tab_words)) in H.
  apply app_inj_1 in H as [_ H]; [|by rewrite length_load_bytes]. apply app_inj_1 in H as [H _]; [|by rewrite length_load_bytes].
  unfold load64. replace (gdt_tab y + 24 + 8) with (gdt_tab y + Z.of_nat 32) by lia. rewrite H. by vm_compute.
Qed.

(** C12. The entry code brings the processor from the state the boot loader leaves to
    [kmain] in 64-bit mode.  It calls [kmain] with the loader's magic number and the
    higher-half address of the multiboot information, on the boot stack at its
    higher-half address, with paging, PAE and long mode on, the code selector naming a
    64-bit ring 0 code segment of the table GDTR covers, and the tables it built in CR3.
    Under these every physical address below 1 GiB is reached at itself, in the direct map
    at [KERNEL_VMA_BASE] and in the window the kernel is linked at; the direct map has
    nothing from 1 GiB up to 510 GiB. *)
Theorem boot_entry_correct y eax ebx return_address b :
  layout y → image y (b_mem b) → 0 ≤ eax < U32 → 0 ≤ ebx < 2 ^ 30 →
  8 ≤ b_esp b < U32 → b_esp b ≤ 0x100000 ∨ _stack y + 8 ≤ b_esp b →
  let b' := _entry y eax ebx return_address b in
  b_rsi b' = eax ∧ b_rdi b' = KERNEL_VMA_OFFSET + ebx ∧ b_esp b' = KERNEL_VMA_OFFSET + _stack y - 8 ∧
  Z.testbit (b_cr0 b') 31 = true ∧ Z.testbit (b_cr4 b') 5 = true ∧ Z.testbit (b_efer b') 8 = true ∧ b_cr3 b' = pml4 y ∧
  b_gdtr b' = (39, KERNEL_VMA_OFFSET + gdt_tab y + 24) ∧
  Cpu.segment_of (load64 (b_mem b') (gdt_tab y + 24 + b_cs b')) = Cpu.mkSegment 10 false 0 true true ∧
  (∀ phys, 0 ≤ phys < 2 ^ 30 →
    @translate Empty_set (b_mem b') (b_cr3 b') phys = Ok (Some phys) ∧
    @translate Empty_set (b_mem b') (b_cr3 b') (Phys.KERNEL_VMA_BASE + phys) = Ok (Some phys) ∧
    @translate Empty_set (b_mem b') (b_cr3 b') (KERNEL_VMA_OFFSET + phys) = Ok (Some phys)) ∧
  (∀ phys, 2 ^ 30 ≤ phys < 510 * 2 ^ 30 → @translate Empty_set (b_mem b') (b_cr3 b') (Phys.KERNEL_VMA_BASE + phys) = Ok None).
Proof.
  intros Hy Hm Hax Hbx Hsp Hsp'. cbv zeta. unfold _entry.
  destruct (long_spec y eax ebx b Hy Hm _ (before_spec y eax ebx b Hy Hm Hax ltac:(lia) Hsp Hsp')) as (A & B & C & D & E & F & G & P & Q & R).
  generalize dependent (enter_long_mode y (enable_paging y (set_mem (build_tables y) (clean y (save_multiboot y eax ebx b))))).
  intros s A B C D E F G P Q R. pose proof (ly_data _ Hy) as [Hd1 Hd2]. pose proof (ly_end _ Hy) as He.
  assert (0 ≤ _stack y - 8 ∧ pml4 y + 0x3000 ≤ _stack y - 8) as Hst
    by (unfold multiboot_info, multiboot_magic, gdt_3, gdt_2, gdt_1, _stack in *; lia).
  set (b' := call_kmain y return_address s).
  assert (b_mem b' = store64 (b_mem s) (_stack y - 8) return_address) as Hmem.
  { unfold b', call_kmain. cbn -[store64 Z.modulo Z.add Z.sub]. f_equal. unfold KERNEL_VMA_OFFSET.
    rewrite (Z.mod_small (_stack y + _)) by lia. rewrite (Z.mod_small (_ - 8)) by lia. rewrite Z.mod_small; lia. }
  assert (tables y (b_mem b')) as Htb.
  { apply (tables_ext y (b_mem s)); [|done]. intros x Hx. rewrite Hmem. unfold store64. apply store_bytes_out. rewrite length_le_bytes. lia. }
  assert (∀ a n, 0x100000 ≤ a → a + Z.of_nat n ≤ multiboot_magic y →
    load_bytes (b_mem s) a n = load_bytes (b_mem b) a n ∧ load_bytes (b_mem b') a n = load_bytes (b_mem b) a n) as Hdata.
  { intros a n Ha Hn. assert (load_bytes (b_mem s) a n = load_bytes (b_mem b) a n) as Hl.
    { apply load_bytes_ext. intros i Hi. apply E; unfold multiboot_info in *; lia. }
    split; [exact Hl|]. rewrite Hmem, <- Hl. apply load_store_disjoint. unfold multiboot_info in *. lia. }
  assert (b_cr3 b' = pml4 y) as Hcr3 by exact G. rewrite Hcr3.
  split; [exact C|]. split.
  { change (b_rdi b') with ((load64 (b_mem s) (multiboot_info y) + KERNEL_VMA_OFFSET) mod U64). rewrite D. unfold KERNEL_VMA_OFFSET. rewrite Z.mod_small; lia. }
  split.
  { change (b_esp b') with (((_stack y + KERNEL_VMA_OFFSET) mod U64 - 8) mod U64). unfold KERNEL_VMA_OFFSET.
    rewrite (Z.mod_small (_stack y + _)) by lia. rewrite Z.mod_small; lia. }
  split; [exact P|]. split; [exact Q|]. split; [exact R|]. split; [done|]. split.
  { apply (boot_gdtr y (b_mem s) Hy). rewrite <- (im_gdt_3 _ _ Hm). apply Hdata; unfold multiboot_magic, gdt_3, gdt_2, gdt_1 in *; lia. }
  split.
  { change (b_cs b') with (b_cs s). rewrite F. replace (load64 (b_mem b') (gdt_tab y + 24 + 8)) with Cpu.KERNEL_CODE; [done|].
    symmetry. apply boot_descriptor. rewrite <- (im_gdt _ _ Hm). apply Hdata; unfold multiboot_magic, gdt_3, gdt_2, gdt_1 in *; lia. }
  split; intros phys Hp; [by apply windows|by apply direct_map_end].
Qed.

(** ** The kernel in every address space *)

(** The entries a walk of a window reads. *)
Lemma window_reads y m va i j : layout y → tables y m → pml4_index va = i → pdpt_index va = j →
  (i = 0 ∨ i = 256 ∨ i = 511) → (j = 0 ∨ j = 510) → reads m (pml4 y) va = [slot (pml4 y) i; slot (pdpt y) j; slot (pd y) (pd_index va)].
Proof.
  intros Hy [A B _ D] Hi Hj Hi' Hj'. destruct (table_frames y Hy) as (F1 & F2 & F3 & _).
  assert (0 ≤ pd_index va < 512) as Hk by (unfold pd_index; rewrite index_spec by lia; apply Z.mod_pos_bound; lia).
  unfold reads, next_table. rewrite Hi, (A _ Hi'). destruct (link_flags _ F2) as (-> & _ & ->). rewrite Hj, (B _ Hj').
  destruct (link_flags _ F3) as (-> & -> & ->). rewrite (D _ Hk). by destruct (large_flags _ Hk) as (_ & -> & _).
Qed.

Lemma window_tail y m va i j a : layout y → tables y m → pml4_index va = i → pdpt_index va = j →
  (i = 0 ∨ i = 256 ∨ i = 511) → (j = 0 ∨ j = 510) → a ∈ tail (reads m (pml4 y) va) → pml4 y + 0x1000 ≤ a ∧ a + 8 ≤ pml4 y + 0x3000.
Proof.
  intros Hy Hm Hi Hj Hi' Hj'. rewrite (window_reads y m va i j) by done. cbn [tail]. rewrite !elem_of_cons, elem_of_nil.
  assert (0 ≤ pd_index va < 512) as Hk by (unfold pd_index; rewrite index_spec by lia; apply Z.mod_pos_bound; lia).
  unfold slot, pdpt, pd. lia.
Qed.

Section spaces.
Context {S : Type} `{!FrameAlloc S} `{!FrameAllocLaws S}.

(** C34. The kernel stays reachable in the address space of every process: a root that
    [clone_kernel_pml4] makes from the tables of the entry code, with any frame that is
    not one of these tables, translates the direct map and the window the kernel is linked
    at as the boot tables do, and nothing below 2^47, so in particular the identity window is
    gone. *)
Theorem kernel_windows_in_every_space y s root rest :
  layout y → tables y (pm_mem s) → mem_ok (pm_mem s) →
  fa_inv (pm_fa s) → fa_pool (pm_fa s) = root :: rest → Forall frame_ok (root :: rest) → NoDup (root :: rest) →
  Forall (λ f, f + 4096 ≤ pml4 y ∨ pml4 y + 0x3000 ≤ f) (root :: rest) →
  ∃ s', clone_kernel_pml4 (pml4 y) s = Ok (root, s') ∧ tables y (pm_mem s') ∧
    (∀ phys, 0 ≤ phys < 2 ^ 30 →
      @translate Empty_set (pm_mem s') root (Phys.KERNEL_VMA_BASE + phys) = Ok (Some phys) ∧
      @translate Empty_set (pm_mem s') root (KERNEL_VMA_OFFSET + phys) = Ok (Some phys)) ∧
    (∀ va, 0 ≤ va < 2 ^ 47 → @translate Empty_set (pm_mem s') root va = Ok None).
Proof.
  intros Hy Hm Hok Hfa Hpool Hf Hnd Hout. destruct (table_frames y Hy) as (F1 & _).
  pose proof (clone_kernel_pml4_spec (pml4 y) s) as H. rewrite Hpool in H.
  assert (pml4 y ∉ root :: rest) as Hnin by (intros Hin; rewrite Forall_forall in Hout; specialize (Hout _ Hin); lia).
  destruct (H Hfa Hf Hnd Hok F1 Hnin) as (s' & Hrun & Hinv & _ & Hlow & Hhigh & Hsame). clear H.
  apply Forall_cons_iff in Hout as [Hr _]. exists s'. split; [done|]. split.
  { apply (tables_ext y (pm_mem s)); [|done]. intros x Hx. apply Hsame. lia. }
  split.
  - intros phys Hp. destruct (windows (E:=Empty_set) y (pm_mem s) phys Hy Hm Hp) as (_ & W1 & W2).
    destruct (window_index Phys.KERNEL_VMA_BASE phys eq_refl ltac:(by vm_compute) Hp) as (A1 & B1 & _).
    destruct (window_index KERNEL_VMA_OFFSET phys eq_refl ltac:(by vm_compute) Hp) as (A2 & B2 & _).
    rewrite <- W1 at 1. rewrite <- W2. split; apply Hhigh.
    + rewrite A1. by vm_compute.
    + intros a Ha. apply (window_tail y (pm_mem s) _ _ _ a Hy Hm A1 B1) in Ha; [lia|by auto|by auto].
    + rewrite A2. by vm_compute.
    + intros a Ha. apply (window_tail y (pm_mem s) _ _ _ a Hy Hm A2 B2) in Ha; [lia|by auto|by auto].
  - intros va Hva. destruct Hinv as [_ Hsi]. rewrite (translate_mapped _ _ _ _ Hsi Hva). by rewrite Hlow.
Qed.

End spaces.

(** A machine as a loader leaves it, with the image of a small kernel. *)
Definition example_symbols : symbols := mkSymbols 0x101000 0x100100 0x100080 0x1000C0.
Definition example_image : list Z :=
  mjoin (le_bytes 8 <$> gdt_tab_words) ++ gdt_1_bytes example_symbols ++ gdt_2_bytes example_symbols ++ gdt_3_bytes example_symbols.
Definition example_boot : boot :=
  mkBoot (store_bytes (λ _, 0) 0x100100 example_image) 0x7FF00 0x10 0x18 0x18 0x18 (0, 0) 0x11 0 0 0 0 0.

Lemma example_layout : layout example_symbols.
Proof. by split; [..|vm_compute]. Qed.

Lemma example_image_ok : image example_symbols (b_mem example_boot).
Proof.
  split; [|by vm_compute..|].
  - apply mem_ok_store; [done|]. apply list_forallb_byte. by vm_compute.
  - intros x Hx. cbn [b_mem example_boot]. rewrite store_bytes_out; [done|]. change (length example_image) with 90%nat. cbn in Hx. lia.
Qed.

Lemma boot_entry_correct_witness :
  let b' := _entry example_symbols 0x36D76289 0x9500 0x1000F0 example_boot in
  b_rsi b' = 0x36D76289 ∧ b_rdi b' = 0xFFFFFFFF80009500 ∧ @translate Empty_set (b_mem b') (b_cr3 b') (Phys.KERNEL_VMA_BASE + 0x123456) = Ok (Some 0x123456).
Proof.
  assert (0 ≤ 0x123456 < 2 ^ 30) as Hp by lia.
  destruct (boot_entry_correct example_symbols 0x36D76289 0x9500 0x1000F0 example_boot example_layout example_image_ok) as (A & B & _ & _ & _ & _ & _ & _ & _ & W & _);
    [done|done|done|by left|].
  cbv zeta. split; [exact A|]. split; [exact B|]. destruct (W 0x123456 Hp) as (_ & H & _). exact H.
Defined.

Lemma kernel_windows_in_every_space_witness :
  ∃ s', clone_kernel_pml4 0x101000 (mkPmem (build_tables example_symbols (b_mem example_boot)) (pm_fa example_space)) = Ok (0xC00000, s') ∧
    @translate Empty_set (pm_mem s') 0xC00000 (Phys.KERNEL_VMA_BASE + 0x123456) = Ok (Some 0x123456).
Proof.
  assert (0 ≤ 0x123456 < 2 ^ 30) as Hp by lia.
  destruct (build_tables_spec example_symbols (b_mem example_boot) example_layout (im_ok _ _ example_image_ok) (im_tables _ _ example_image_ok)) as (Hok & Ht & _).
  destruct example_pool_ok as [Hf Hnd]. rewrite example_pool in Hf, Hnd.
  assert (Forall (λ f, f + 4096 ≤ pml4 example_symbols ∨ pml4 example_symbols + 0x3000 ≤ f)
    [0xC00000; 0xC01000; 0xC02000; 0xC03000; 0xC04000; 0xC05000; 0xC06000; 0xC07000]) as Hout.
  { rewrite !Forall_cons. cbn [pml4 example_symbols]. split_and!; try lia. apply Forall_nil_2. }
  generalize dependent (build_tables example_symbols (b_mem example_boot)). intros m Hok Ht.
  destruct (kernel_windows_in_every_space example_symbols (mkPmem m (pm_fa example_space)) _ _ example_layout Ht Hok example_fa_inv example_pool Hf Hnd Hout)
    as (s' & Hrun & _ & W & _).
  exists s'. split; [exact Hrun|]. destruct (W 0x123456 Hp) as [H _]. exact H.
Defined.

(** The pages of a segment that is not executable have bit 63 set in their entries,
    which the processor takes as no-execute only with NXE, bit 11 of EFER; otherwise
    the bit is reserved and an access faults.  Neither the entry code nor
    [syscall::init] sets NXE. *)
Lemma no_execute_reserved y b r entry f g : u64 (b_efer b) → Z.testbit (b_efer b) 11 = false → u64 entry →
  Cpu.msr r Cpu.IA32_EFER = b_efer (enable_paging y b) → frame_ok f → Z.testbit (Elf.flags g) 0 = false →
  Z.testbit (Cpu.msr (Cpu.syscall_init entry r) Cpu.IA32_EFER) 11 = false ∧
  Z.testbit (Z.lor f (Z.lor (Loader.segment_page_flags (Elf.flags g)) FLAG_PRESENT)) 63 = true.
Proof.
  intros Hb Hnx He Hr Hf Hx. change (b_efer (enable_paging y b)) with (Z.lor (b_efer b) (Z.shiftl 1 8)) in Hr.
  assert (u64 (Cpu.msr r Cpu.IA32_EFER)) as Hu by (rewrite Hr; by apply lor_u64).
  destruct (Cpu.syscall_init_msrs entry r He Hu) as [-> _]. split; [by rewrite Hr, !Z.lor_spec, Hnx|].
  pose proof (f_equal snd (Loader.segment_entry f g Hf)) as Hp. unfold Loader.protection, Loader.segment_protection in Hp. cbn [snd] in Hp.
  rewrite Hx in Hp. by apply negb_false_iff in Hp.
Qed.

End Boot.
