(* ===== verification/Program.v ===== *)
(** * User programs: [read_binary] (src/src/kernel/user/fs.rs), [load_elf]
    (src/src/kernel/user/loader.rs) and [Process::new_user]
    (src/src/kernel/process/mod.rs)

    The world of the kernel outside the process table holds the devices, the
    mounted FAT volume and physical memory with its frame allocator.  The buffer
    of the file is taken from the kernel's heap and released when the function
    returns; the parser's vector of segments is not tracked. *)

From S2P Require Import Prelude Mem Heap Phys Paging RawVec Types UserMem Drivers Vfs Process Sched SchedSpec Elf Loader Fat.
Local Open Scope Z_scope.

Module Program.
Import Paging UserMem Proc Sched SchedSpec.

Section world.
Context {D F : Type}.

Record world := mkWorld { w_dev : D; w_volume : option (Fat.FatVolume D); w_pm : pmem F }.

Definition set_dev (d : D) (w : world) : world := mkWorld d (w_volume w) (w_pm w).
Definition set_volume (v : option (Fat.FatVolume D)) (w : world) : world := mkWorld (w_dev w) v (w_pm w).
Definition set_pm (p : pmem F) (w : world) : world := mkWorld (w_dev w) (w_volume w) p.

(** A file of the devices, as a file of the kernel. *)
Definition lift_file (f : VfsFile D) : VfsFile world :=
  mkVfsFile (vf_name f) (λ offset n, zoom w_dev set_dev (read_at f offset n))
    (λ offset buf, zoom w_dev set_dev (write_at f offset buf)) (zoom w_dev set_dev (vf_flush f)) (zoom w_dev set_dev (vf_size f)).

(** The free list of the heap with the world. *)
Definition hworld : Type := list Heap.ListNode * world.

Definition on_world {E A} (m : M world E A) : M hworld E A := zoom snd (λ w s, (s.1, w)) m.
Definition on_free_list {E A} (m : M (list Heap.ListNode) E A) : M hworld E A := zoom fst (λ l s, (l, s.2)) m.

(** [fat::open_file] *)
Definition open_fat (file_size : Z) (path : list Z) : M hworld Fat.FatError (VfsFile world) :=
  file ← zoom (λ s : hworld, Fat.mkFs (w_dev s.2) (w_volume s.2) s.1)
              (λ f s, (Fat.fs_heap f, set_volume (Fat.fs_volume f) (set_dev (Fat.fs_world f) s.2))) (Fat.open_file file_size path);
  mret (lift_file file).

(** *** [user::fs] and [user::loader] *)

Inductive FileError := FileNotFound | FileIo.

Definition map_vfs_err (err : VfsError) : FileError := match err with VfsIo => FileIo | _ => FileNotFound end.

Definition map_open_err (err : Fat.FatError) : FileError :=
  match err with Fat.NotFound | Fat.InvalidPath => FileNotFound | _ => FileIo end.

(** [str::strip_prefix] *)
Fixpoint strip_prefix (prefix l : list Z) : option (list Z) :=
  match prefix, l with
  | [], _ => Some l
  | p :: prefix, x :: l => if x =? p then strip_prefix prefix l else None
  | _ :: _, [] => None
  end.

(** A [Vec<u8>]: its block, its capacity and its contents. *)
Record vec := mkVec { vec_ptr : Z; vec_cap : Z; vec_bytes : list Z }.

Definition drop_vec {E} (v : vec) : M hworld E unit := on_free_list (vec_drop (vec_ptr v) (vec_cap v)).

(** A computation that owns a [Vec]: when it ends, with a value or by [?], the
    [Vec] is dropped. *)
Definition scoped_vec {S E A} (dropper : M S E unit) (m : M S E A) : M S E A :=
  r ← attempt m;
  _ ← dropper;
  match r with inl a => mret a | inr e => throw e end.

Definition BIN_PREFIX : list Z := Fat.str_bytes "/bin/".

Definition read_binary (file_size : Z) (path : list Z) : M hworld FileError vec :=
  trimmed ← ok_or (strip_prefix BIN_PREFIX path) FileNotFound;
  file ← map_err map_open_err (open_fat file_size trimmed);
  size ← map_err map_vfs_err (on_world (vf_size file));
  buffer ← on_free_list (vec_zeroed size);
  if 0 <? size then
    r ← attempt (on_world (read_at file 0 size));
    match r with
    | inl bytes => mret (mkVec buffer size bytes)
    | inr err => _ ← drop_vec (mkVec buffer size []); throw (map_vfs_err err)
    end
  else mret (mkVec buffer size []).

Inductive LoaderError := LoadFile (e : FileError) | LoadElf (e : Elf.ElfError).

Definition load_elf (file_size : Z) (path : list Z) : M hworld LoaderError (Elf.ElfImage * vec) :=
  data ← map_err LoadFile (read_binary file_size path);
  r ← attempt (lift (Elf.parse (vec_bytes data)));
  match r with
  | inl image => mret (image, data)
  | inr err => _ ← drop_vec data; throw (LoadElf err)
  end.

(** *** [Process::new_user] *)

Definition map_loader_err (err : LoaderError) : ProcessError :=
  match err with
  | LoadFile FileNotFound => PathNotFound
  | LoadFile _ => UserImageIo
  | LoadElf _ => InvalidElf
  end.

Definition uheap : Type := @theap world * world.

Definition on_hworld {E A} (m : M hworld E A) : M uheap E A :=
  zoom (λ s : uheap, (Heap.ga_free s.1.2, s.2)) (λ h s, ((s.1.1, Heap.mkAllocator h.1 (Heap.ga_mem s.1.2)), h.2)) m.
Definition on_allocator {E A} (m : M Heap.allocator E A) : M uheap E A := zoom (λ s : uheap, s.1.2) (λ a s, ((s.1.1, a), s.2)) m.
Definition on_pmem {E A} (m : M (pmem F) E A) : M uheap E A := zoom (λ s : uheap, w_pm s.2) (λ p s, (s.1, set_pm p s.2)) m.

Context `{!FrameAlloc F} (file_size region_size enter_user_mode : Z) (e : env world).

(** The registers a user process starts with: it enters user mode through
    [enter_user_mode], which finds the entry point and the stack in r15 and r14. *)
Definition user_context (entry stack_top aligned_top : Z) : Context :=
  mkContext entry stack_top 0 0 0 aligned_top aligned_top enter_user_mode (rflags Context_new).

Definition new_user (read_cr3 : Z) (path : list Z) (name : string) (pid : Pid) (parent : option Pid) (credentials : Credentials)
    : M uheap ProcessError (Process world) :=
  '(image, data) ← map_err map_loader_err (on_hworld (load_elf file_size path));
  scoped_vec (on_hworld (drop_vec data)) (
    '(address_space, user_stack) ← on_pmem (Loader.create_default_user_address_space read_cr3);
    _ ← on_pmem (Loader.map_user_segments address_space image (vec_bytes data));
    '(stack_ptr, layout, aligned_top) ← on_allocator (new_stack e);
    let context := user_context (Elf.entry image) (stack_top user_stack) aligned_top in
    let process := mkProcess pid parent name credentials address_space Ready None None false None 0
      (replicate MAX_FDS None) context stack_ptr (Some layout) RawVec.new (Some user_stack) (Some (Elf.entry image)) in
    process ← on_allocator (register_stack region_size process layout);
    lift (install_fds e process)).

(** [process::spawn_user_process(name, path)] *)
Definition spawn_user_program (process_size : Z) (name : string) (path : list Z) : M (kernel world) ProcessError Pid :=
  k ← Prelude.get;
  spawn_user_process process_size region_size (new_user (k_cr3 k) path name).

End world.
Arguments world : clear implicits.

End Program.
