(* ===== verification/ProgramSpec.v ===== *)
(** * Loading a user program

    [Process::new_user] composes the FAT reader, the ELF parser, the page tables,
    the frame allocator and the heap.  Its theorem puts theirs together: the
    process it returns runs the program of the file. *)

From S2P Require Import Prelude Mem Heap Phys Paging RawVec Types UserMem Drivers Vfs Process Sched SchedSpec Elf Loader Fat Program.
Local Open Scope Z_scope.

Module ProgramSpec.
Import Paging UserMem Proc Sched SchedSpec Program.

Lemma scoped_vec_inv {S E A} (d : M S E unit) (m : M S E A) s a s' : scoped_vec d m s = Ok (a, s') →
  ∃ s1, m s = Ok (a, s1) ∧ d s1 = Ok (tt, s').
Proof.
  intros (r & s1 & Hm & ([] & s2 & Hd & Hr)%M_bind_inv)%M_bind_inv. unfold attempt in Hm.
  destruct (m s) as [[b t]|[b t]| |]; [..|done|done]; injection Hm as <- <-; [|done]. injection Hr as -> ->. eauto.
Qed.

Lemma scoped_vec_run {S E A} (d : M S E unit) (m : M S E A) s a s1 s' : m s = Ok (a, s1) → d s1 = Ok (tt, s') →
  scoped_vec d m s = Ok (a, s').
Proof.
  intros Hm Hd. unfold scoped_vec. rewrite (M_bind_ok (attempt m) _ s (inl a) s1) by (unfold attempt; by rewrite Hm).
  by rewrite (M_bind_ok _ _ _ _ _ Hd).
Qed.

(** ** The constructor fits the process table *)

Section constructor.
Context {D F : Type} `{!FrameAlloc F} (file_size region_size enter_user_mode : Z) (e : env (world D F)).

Definition same_process_table (s s' : @uheap D F) : Prop := s'.1.1 = s.1.1.

#[local] Instance same_process_table_preorder : PreOrder same_process_table.
Proof. split; unfold same_process_table; [done|]. intros ? ? ? ? ?. congruence. Qed.

Lemma on_hworld_table {E A} (m : M hworld E A) : preserves same_process_table (on_hworld m).
Proof. intros s. unfold on_hworld, zoom. by destruct (m _) as [[? ?]|[? ?]| |]. Qed.

Lemma on_allocator_table {E A} (m : M Heap.allocator E A) : preserves same_process_table (on_allocator m).
Proof. intros s. unfold on_allocator, zoom. by destruct (m _) as [[? ?]|[? ?]| |]. Qed.

Lemma on_pmem_table {E A} (m : M (pmem F) E A) : preserves same_process_table (on_pmem m).
Proof. intros s. unfold on_pmem, zoom. by destruct (m _) as [[? ?]|[? ?]| |]. Qed.

Lemma scoped_vec_table {E A} (d : M uheap E unit) (m : M uheap E A) :
  preserves same_process_table d → preserves same_process_table m → preserves same_process_table (scoped_vec d m).
Proof.
  intros Hd Hm. unfold scoped_vec. apply preserves_bind; [apply _|by apply preserves_attempt|]. intros r.
  apply preserves_bind; [apply _|done|]. intros _. destruct r; [apply preserves_ret|apply preserves_throw]; apply _.
Qed.

#[local] Hint Resolve on_hworld_table on_allocator_table on_pmem_table : preserves.

Lemma new_user_table cr path name pid parent c :
  preserves same_process_table (new_user file_size region_size enter_user_mode e cr path name pid parent c).
Proof.
  unfold new_user. apply preserves_bind; [apply _|apply preserves_map_err, on_hworld_table|]. intros [image data].
  apply scoped_vec_table; [apply on_hworld_table|]. preserves.
Qed.

(** [new_user] gives the table what it expects. *)
Lemma new_user_constructs cr path name : constructs (new_user file_size region_size enter_user_mode e cr path name).
Proof.
  intros pid parent c s. pose proof (new_user_table cr path name pid parent c s) as Htable.
  destruct (new_user _ _ _ _ _ _ _ _ _ _ s) as [[p s']|[err s']| |] eqn:Hnew; [|done..]. split; [|done].
  apply M_bind_inv in Hnew as ([image data] & s1 & _ & Hnew). apply scoped_vec_inv in Hnew as (s2 & Heq & _).
  apply M_bind_inv in Heq as ([a us] & s4 & _ & Heq). apply M_bind_inv in Heq as ([] & s5 & _ & Heq).
  apply M_bind_inv in Heq as ([[sp layout] top] & s6 & _ & Heq). apply M_bind_inv in Heq as (p1 & s7 & Hreg & Hfd).
  unfold lift in Hfd. destruct (install_fds e p1) as [p2|x| |] eqn:Hinst; [|done..]. injection Hfd as <- <-.
  apply install_fds_shape in Hinst as [fds ->]. unfold on_allocator, zoom in Hreg.
  destruct (register_stack _ _ _ _) as [[p3 a3]|[? ?]| |] eqn:Hr; [|done..]. injection Hreg as <- <-.
  apply register_stack_shape in Hr as [rs ->]. by constructor.
Qed.

End constructor.

(** ** The heap requests *)

Lemma room_cost_pos layout : 0 ≤ lay_align layout → 0 ≤ Heap.room_cost layout.
Proof. intros H. pose proof (Heap.block_size_ge layout). unfold Heap.room_cost, Heap.block_align, Heap.align_of_ListNode. lia. Qed.

Section requests.
Context (lo hi : Z).
Hypothesis Hlo : 0 < lo.
Hypothesis Hle : lo ≤ hi + 1.
Hypothesis Hhi : hi + 16 < U64.

Definition heap_ok (n : Z) (l : list Heap.ListNode) : Prop := Heap.free_list lo hi l ∧ Heap.room n l.

(** [l'] after requests: no more addresses are free than before. *)
Definition shrunk (l l' : list Heap.ListNode) : Prop := ∀ a, Heap.free_addr l' a → Heap.free_addr l a.

(** A block that belongs to a client. *)
Definition owned (p size : Z) (l : list Heap.ListNode) : Prop :=
  lo ≤ p ∧ p mod 8 = 0 ∧ p + size ≤ hi ∧ ∀ a, p ≤ a < p + size → ¬ Heap.free_addr l a.

Lemma owned_shrunk p size l l' : shrunk l l' → owned p size l → owned p size l'.
Proof. intros Hl (? & ? & ? & Hfree). split_and!; try done. intros a Ha Hf. by apply (Hfree a), Hl. Qed.

Lemma request_ok {E} n l layout : heap_ok n l → layout_ok layout → lay_align layout ≤ 16 → Heap.room_cost layout ≤ n →
  ∃ p l', @Heap.allocate E l layout = Ok (p, l') ∧ p ≠ 0 ∧ heap_ok (n - Heap.room_cost layout) l' ∧ shrunk l l' ∧
    owned p (Heap.block_size layout) l' ∧ p mod Heap.block_align layout = 0.
Proof.
  intros [Hl Hr] Hlay Hal Hn.
  destruct (Heap.allocate_room (E:=E) lo hi l layout n) as (p & l' & Heq & Hp & Hl' & Halloc & Hr'); try done.
  { unfold Heap.block_align, Heap.align_of_ListNode. lia. }
  destruct Halloc as (Hlop & Hhip & Hmod & _ & Hcov & _). exists p, l'. split_and!; try done.
  - intros a Ha. by apply Hcov.
  - split_and!; try done; [|intros a Ha Hf; by apply Hcov in Hf as [_ Hf]].
    apply (Heap.mod_mod_8 p (Heap.block_align layout)); [..|done].
    + unfold Heap.block_align, Heap.align_of_ListNode. lia.
    + destruct Hlay as [Hpow _]. by destruct (Heap.pow2_max8 _ Hpow).
Qed.

Lemma release_ok {E} n l p layout : heap_ok n l → owned p (Heap.block_size layout) l →
  ∃ l', @Heap.deallocate E l p layout = Ok l' ∧ heap_ok n l' ∧ (∀ a, Heap.free_addr l a → Heap.free_addr l' a).
Proof.
  intros [Hl Hr] (Hp & Hm & He & Hf). pose proof (Heap.block_size_ge layout).
  destruct (Heap.deallocate_spec (E:=E) lo hi l p layout) as (l' & Heq & Hl' & _ & Hcov); try done; [lia|lia|..].
  { apply (Heap.disjoint_from_free lo hi); [done|lia|done]. }
  exists l'. assert (∀ a, Heap.free_addr l a → Heap.free_addr l' a) by (intros a Ha; apply Hcov; by left).
  split_and!; try done. split; [done|]. by eapply Heap.room_grow.
Qed.

Lemma vec_zeroed_ok {E} n l size : heap_ok n l → 0 < size < I64 - 1 → Heap.room_cost (mkLayout size 1) ≤ n →
  ∃ p l', @vec_zeroed E size l = Ok (p, l') ∧ heap_ok (n - Heap.room_cost (mkLayout size 1)) l' ∧ shrunk l l' ∧
    owned p (Heap.block_size (mkLayout size 1)) l'.
Proof.
  intros Hl Hs Hn. unfold vec_zeroed. destruct (Z.eqb_spec size 0); [lia|]. destruct (Z.ltb_spec (I64 - 1) size); [lia|].
  destruct (request_ok (E:=E) n l (mkLayout size 1)) as (p & l' & -> & Hp & Hl' & Hsh & Ho & _); try done.
  { split; [by apply (pow2_intro 0)|cbn; lia]. }
  destruct (Z.eqb_spec p 0); [done|]. by exists p, l'.
Qed.

Lemma vec_drop_ok {E} n l p size : heap_ok n l → 0 < size → owned p (Heap.block_size (mkLayout size 1)) l →
  ∃ l', @vec_drop E p size l = Ok (tt, l') ∧ heap_ok n l'.
Proof.
  intros Hl Hs Ho. unfold vec_drop. destruct (Z.eqb_spec size 0); [lia|].
  destruct (release_ok (E:=E) n l p (mkLayout size 1) Hl Ho) as (l' & -> & Hl' & _). by exists l'.
Qed.

(** The first element of an array takes a block for four. *)
Lemma first_push_ok {A E} (c : RawVec.config E) (x : A) n l : heap_ok n l →
  layout_ok (mkLayout (RawVec.elem_size c * 4) (RawVec.elem_align c)) → RawVec.elem_align c ≤ 16 →
  Heap.room_cost (mkLayout (RawVec.elem_size c * 4) (RawVec.elem_align c)) ≤ n →
  ∃ q l', RawVec.push c x (RawVec.new, l) = Ok (tt, (RawVec.mkRawVec q [x] 4, l')) ∧
    heap_ok (n - Heap.room_cost (mkLayout (RawVec.elem_size c * 4) (RawVec.elem_align c))) l' ∧ shrunk l l' ∧
    owned q (Heap.block_size (mkLayout (RawVec.elem_size c * 4) (RawVec.elem_align c))) l'.
Proof.
  intros Hl Hlay Hal Hn. set (layout := mkLayout (RawVec.elem_size c * 4) (RawVec.elem_align c)) in *.
  destruct (request_ok (E:=E) n l layout) as (q & l' & Hq & Hq0 & Hl' & Hsh & Ho & _); try done.
  exists q, l'. split; [|done]. set (s0 := (@RawVec.new A, l)).
  assert (RawVec.ensure_capacity c 1 s0 = Ok (tt, (RawVec.mkRawVec q [] 4, l'))) as Hcap.
  { unfold RawVec.ensure_capacity. rewrite (M_bind_ok (gets fst) _ s0 RawVec.new s0) by done.
    rewrite (M_bind_ok (ok_or _ _) _ s0 1 s0) by done. cbn [RawVec.capacity RawVec.ptr RawVec.new Z.leb Z.compare Z.eqb Bool.eqb negb].
    rewrite andb_false_r. rewrite (M_bind_ok (mret tt) _ s0 tt s0) by done. rewrite (M_bind_lift _ _ s0 4) by done.
    rewrite (M_bind_ok (ok_or _ _) _ s0 layout s0).
    - rewrite (M_bind_ok (RawVec.heap_alloc layout) _ s0 q (RawVec.new, l')) by (unfold RawVec.heap_alloc; cbn [fst snd s0]; by rewrite Hq).
      destruct (Z.eqb_spec q 0); done.
    - unfold RawVec.array_layout, layout_array. destruct Hlay as [_ Hb]. cbn [lay_size lay_align layout] in Hb.
      destruct (Z.leb_spec (RawVec.elem_size c * 4) (I64 - RawVec.elem_align c)); [done|lia]. }
  unfold RawVec.push, mbind, M_bind. fold s0. by rewrite Hcap.
Qed.

(** A full array moves to a block of twice its size. *)
Lemma push_grows {A E} (c : RawVec.config E) (x : A) (v : RawVec.rawvec A) n l :
  let new := mkLayout (RawVec.elem_size c * (2 * RawVec.capacity v)) (RawVec.elem_align c) in
  heap_ok n l → RawVec.len v = RawVec.capacity v → 0 < RawVec.capacity v < 2 ^ 60 → RawVec.ptr v ≠ 0 →
  RawVec.double c (RawVec.capacity v) = Some (2 * RawVec.capacity v) → 0 < RawVec.elem_size c → layout_ok new → RawVec.elem_align c ≤ 16 →
  owned (RawVec.ptr v) (Heap.block_size (mkLayout (RawVec.elem_size c * RawVec.capacity v) (RawVec.elem_align c))) l →
  Heap.room_cost new ≤ n →
  ∃ q l', RawVec.push c x (v, l) = Ok (tt, (RawVec.mkRawVec q (RawVec.elems v ++ [x]) (2 * RawVec.capacity v), l')) ∧
    heap_ok (n - Heap.room_cost new) l'.
Proof.
  intros new Hl Hlen Hcap Hptr Hdouble Hsz Hlay Hal Ho Hn.
  destruct (request_ok (E:=E) n l new) as (q & l1 & Hq & Hq0 & Hl1 & Hsh & _ & _); try done.
  destruct (release_ok (E:=E) _ l1 _ _ Hl1 (owned_shrunk _ _ _ _ Hsh Ho)) as (l2 & Hd & Hl2 & _).
  exists q, l2. split; [|done]. unfold RawVec.push.
  rewrite (M_bind_ok (RawVec.ensure_capacity c 1) _ _ tt (RawVec.mkRawVec q (RawVec.elems v) (2 * RawVec.capacity v), l2)); [done|].
  unfold RawVec.ensure_capacity. rewrite (M_bind_ok (gets fst) _ (v, l) v (v, l) eq_refl). unfold checked_add64.
  rewrite (proj2 (Z.ltb_lt (RawVec.len v + 1) U64)) by lia. rewrite (M_bind_ok (ok_or (Some (RawVec.len v + 1)) _) _ (v, l) (RawVec.len v + 1) (v, l) eq_refl).
  rewrite (proj2 (Z.leb_gt _ _)) by lia. rewrite (proj2 (Z.eqb_neq (RawVec.ptr v) 0)), (proj2 (Z.eqb_neq (RawVec.capacity v) 0)) by lia.
  cbn [Bool.eqb negb]. rewrite andb_false_r. rewrite (M_bind_ok (mret tt) _ (v, l) tt (v, l) eq_refl).
  rewrite (M_bind_lift _ _ _ (2 * RawVec.capacity v)).
  2:{ cbn [RawVec.grow]. rewrite (proj2 (Z.leb_gt _ _)) by lia. rewrite Hdouble. by rewrite (proj2 (Z.leb_le _ _)) by lia. }
  assert (∀ m, 0 < m ≤ 2 * RawVec.capacity v → RawVec.array_layout c m = Some (mkLayout (RawVec.elem_size c * m) (RawVec.elem_align c))) as Hlayout.
  { intros m Hm. unfold RawVec.array_layout, layout_array. destruct Hlay as [_ Hb]. cbn [lay_size lay_align new] in Hb.
    by rewrite (proj2 (Z.leb_le _ _)) by nia. }
  rewrite (Hlayout (2 * RawVec.capacity v)), (Hlayout (RawVec.capacity v)) by lia. fold new.
  rewrite (M_bind_ok (ok_or (Some new) _) _ (v, l) new (v, l) eq_refl).
  rewrite (M_bind_ok (RawVec.heap_alloc new) _ (v, l) q (v, l1)) by (unfold RawVec.heap_alloc; cbn [fst snd]; by rewrite Hq).
  rewrite (proj2 (Z.eqb_neq q 0) Hq0). unfold mbind, M_bind, ok_or, RawVec.heap_free. cbn [fst snd]. by rewrite Hd.
Qed.

End requests.

(** ** Reading the file *)

Section file.
Context {D F : Type} (v : Fat.FatVolume D) `{!BlockDeviceLaws (Fat.device v)} (lo hi file_size : Z).
Hypothesis Hlo : 0 < lo.
Hypothesis Hle : lo ≤ hi + 1.
Hypothesis Hhi : hi + 16 < U64.
Hypothesis Hblock : block_size (Fat.device v) = 512.
Hypothesis Hv : Fat.volume_ok v.
Hypothesis Hfile : 0 < file_size < 2 ^ 32.

(** The disk holds a file under the path: its entry, its size and its clusters. *)
Record stored (d path : list Z) (cluster size : Z) (cs : list Z) : Prop := {
  st_dir : 0 ≤ Fat.root_dir_lba v ∧ 0 ≤ Fat.root_dir_sectors v;
  st_dir_end : (Fat.root_dir_lba v + Fat.root_dir_sectors v) * 512 ≤ Z.of_nat (length d);
  st_entry : ∃ name i entry, Fat.format_short_name path = Some name ∧
    list_find (λ x, Fat.end_mark x ∨ Fat.file_entry name x) (Fat.root_listing v d) = Some (i, entry) ∧ ¬ Fat.end_mark entry ∧
    cluster = Fat.le_at 2 entry 26 ∧ size = Fat.le_at 4 entry 28;
  st_chain : Fat.chain v d cluster cs
}.

(** The contents of the file. *)
Definition contents (d : list Z) (size : Z) (cs : list Z) : list Z := take (Z.to_nat size) (Fat.chain_data v d cs).

Definition file_layout : Layout := mkLayout file_size 8.

Lemma file_layout_ok : layout_ok file_layout ∧ lay_align file_layout ≤ 16.
Proof. split; [split; [by apply (pow2_intro 3)|cbn; lia]|done]. Qed.

Lemma find_stored w path cluster size cs : Fat.disk_ok v w → stored (bd_disk w) path cluster size cs →
  ∃ w', Fat.find_root_file v path w = Ok ((cluster, size), w') ∧ Fat.same_disk v w w'.
Proof.
  intros Hw [[Hd1 Hd2] Hend (name & i & entry & Hname & Hfind & Hnot & -> & ->) _].
  pose proof (Fat.find_root_file_spec v Hblock Hv w path Hw Hd1 Hd2 Hend) as H. rewrite Hname in H.
  destruct H as (w' & Hw' & Hdisk & Hres). rewrite Hfind, decide_False in Hres by done. by exists w'.
Qed.

Lemma open_fat_ok n l (w : world D F) path cluster size cs : w_volume w = Some v → Fat.disk_ok v (w_dev w) → heap_ok lo hi n l →
  stored (bd_disk (w_dev w)) (Fat.trim_matches Fat.slash path) cluster size cs → Fat.trim_matches Fat.slash path ≠ [] →
  Heap.room_cost file_layout ≤ n →
  ∃ l' d', open_fat file_size path (l, w) = Ok (lift_file (Fat.fat_file (Fat.mkFatFile v cluster size)), (l', set_dev d' w)) ∧
    Fat.same_disk v (w_dev w) d' ∧ heap_ok lo hi (n - Heap.room_cost file_layout) l' ∧ shrunk l l'.
Proof.
  intros Hvol Hw Hl Hst Hne Hn. destruct (find_stored _ _ _ _ _ Hw Hst) as (d' & Hfind & Hsame).
  destruct file_layout_ok as [Hlay Hal].
  destruct (request_ok (E:=Fat.FatError) lo hi Hlo Hle Hhi n l file_layout) as (p & l' & Hp & Hp0 & Hl' & Hsh & _); try done.
  exists l', d'. split_and!; try done. unfold open_fat. set (view := Fat.mkFs (w_dev w) (w_volume w) l).
  assert (Fat.open_file file_size path view =
    Ok (Fat.fat_file (Fat.mkFatFile v cluster size), Fat.mkFs d' (w_volume w) l')) as Hopen.
  { unfold Fat.open_file. destruct (Nat.eqb_spec (length (Fat.trim_matches Fat.slash path)) 0) as [H0|_].
    { destruct (Fat.trim_matches Fat.slash path); done. }
    rewrite (M_bind_ok (gets Fat.fs_volume) _ view (w_volume w) view eq_refl), Hvol.
    rewrite (M_bind_ok (ok_or (Some v) _) _ view v view eq_refl).
    rewrite (M_bind_ok (Fat.on_device _) _ view (cluster, size) (Fat.mkFs d' (w_volume w) l)) 
      by exact (zoom_ok Fat.fs_world (λ w s, Fat.mkFs w (Fat.fs_volume s) (Fat.fs_heap s)) _ view _ _ Hfind).
    rewrite (M_bind_ok (Fat.alloc_file file_size) _ _ p (Fat.mkFs d' (w_volume w) l')).
    - destruct (Z.eqb_spec p 0); [done|]. by rewrite Hvol.
    - unfold Fat.alloc_file. cbn [Fat.fs_heap]. fold file_layout. by rewrite Hp. }
  rewrite (M_bind_ok (zoom _ _ _) _ _ (Fat.fat_file (Fat.mkFatFile v cluster size)) (l', set_dev d' w)); [done|].
  erewrite zoom_ok by exact Hopen. reflexivity.
Qed.

Lemma contents_bytes w cs size : bd_inv w → Forall byte (contents (bd_disk w) size cs).
Proof.
  intros Hinv. apply Forall_take. pose proof (bd_disk_bytes w Hinv) as Hb. unfold Fat.chain_data.
  induction cs as [|c cs IH]; [constructor|]. cbn. apply Forall_app. split; [|done]. by apply Forall_take, Forall_drop.
Qed.

(** The whole file is read to a buffer of the heap. *)
Lemma read_binary_ok n l (w : world D F) path trimmed cluster size cs : w_volume w = Some v → Fat.disk_ok v (w_dev w) →
  heap_ok lo hi n l → strip_prefix BIN_PREFIX path = Some trimmed →
  stored (bd_disk (w_dev w)) (Fat.trim_matches Fat.slash trimmed) cluster size cs → Fat.trim_matches Fat.slash trimmed ≠ [] →
  0 < size < 2 ^ 32 → Heap.room_cost file_layout + Heap.room_cost (mkLayout size 1) ≤ n →
  ∃ p l' d', read_binary file_size path (l, w) = Ok (mkVec p size (contents (bd_disk (w_dev w)) size cs), (l', set_dev d' w)) ∧
    Fat.same_disk v (w_dev w) d' ∧ heap_ok lo hi (n - Heap.room_cost file_layout - Heap.room_cost (mkLayout size 1)) l' ∧
    shrunk l l' ∧ owned lo hi p (Heap.block_size (mkLayout size 1)) l'.
Proof.
  intros Hvol Hw Hl Hpath Hst Hne Hsize Hn. pose proof (Heap.block_size_ge (mkLayout size 1)).
  destruct (open_fat_ok n l w trimmed cluster size cs) as (l1 & d1 & Hopen & Hs1 & Hl1 & Hsh1); try done.
  { unfold Heap.room_cost, Heap.block_align, Heap.align_of_ListNode in *. cbn [lay_align] in *. lia. }
  pose proof Hs1 as [Hw1 Hd1].
  destruct (vec_zeroed_ok (E:=FileError) lo hi Hlo Hle Hhi _ _ size Hl1) as (p & l2 & Hvec & Hl2 & Hsh2 & Ho); [lia|lia|].
  destruct (Fat.fat_read_spec (Fat.mkFatFile v cluster size) Hblock Hv d1 cs 0 size) as (d2 & Hread & Hw2 & Hd2); try done; try (cbn; lia).
  { cbn [Fat.volume Fat.start_cluster]. rewrite Hd1. by destruct Hst. }
  cbn [Fat.volume Fat.size] in Hread, Hw2, Hd2. rewrite drop_0, take_take, Nat.min_id, Hd1 in Hread.
  exists p, l2, d2. split_and!; try done.
  - unfold read_binary. rewrite Hpath. rewrite (M_bind_ok (ok_or (Some trimmed) _) _ (l, w) trimmed (l, w) eq_refl).
    rewrite (M_bind_ok _ _ _ _ _ (map_err_ok map_open_err _ _ _ Hopen)).
    rewrite (M_bind_ok _ _ (l1, set_dev d1 w) size (l1, set_dev d1 w)) by done.
    rewrite (M_bind_ok _ _ _ _ _ (zoom_ok fst (λ l s, (l, s.2)) (vec_zeroed size) (l1, set_dev d1 w) _ _ Hvec)).
    destruct (Z.ltb_spec 0 size); [|lia].
    rewrite (M_bind_ok _ _ _ (inl (contents (bd_disk (w_dev w)) size cs)) (l2, set_dev d2 w)); [done|].
    apply attempt_ok. unfold on_world. apply (zoom_ok snd (λ w s, (s.1, w)) _ (l2, set_dev d1 w)). cbn [snd].
    apply (zoom_ok w_dev set_dev _ (set_dev d1 w)). exact Hread.
  - split; [done|]. by rewrite Hd2.
  - intros a Ha. by apply Hsh1, Hsh2.
Qed.

End file.

(** ** The kernel stack *)

Lemma install_fds_ok {W} (e : env W) p : ∃ fds, install_fds e p = Ok (set_fds fds p).
Proof. unfold install_fds, set_fd. destruct (scratch e); cbn; by eexists. Qed.

Section stack.
Context {W : Type} (lo hi region_size : Z) (e : env W).
Hypothesis Hlo : 0 < lo.
Hypothesis Hle : lo ≤ hi + 1.
Hypothesis Hhi : hi + 16 < U64.
Hypothesis Hregion : 0 < region_size < 2 ^ 32.
Hypothesis Hexit : u64 (process_exit e).

Definition stack_layout : Layout := mkLayout KERNEL_STACK_SIZE 16.
Definition regions_layout : Layout := mkLayout (region_size * 4) 8.

(** The stack has the address of [process_exit] at its top. *)
Lemma new_stack_ok n a : heap_ok lo hi n (Heap.ga_free a) → Heap.room_cost stack_layout ≤ n →
  ∃ p l', let top := p + KERNEL_STACK_SIZE - 8 in
    new_stack e a = Ok ((p, stack_layout, top), Heap.mkAllocator l' (store64 (Heap.ga_mem a) top (process_exit e))) ∧
    heap_ok lo hi (n - Heap.room_cost stack_layout) l' ∧ shrunk (Heap.ga_free a) l' ∧
    lo ≤ p ∧ p + KERNEL_STACK_SIZE ≤ hi ∧ p mod 16 = 0.
Proof.
  intros Hl Hn. destruct (request_ok (E:=ProcessError) lo hi Hlo Hle Hhi n (Heap.ga_free a) stack_layout)
    as (p & l' & Hp & Hp0 & Hl' & Hsh & (Hlop & _ & Hhip & _) & Hm); try done.
  { split; [by apply (pow2_intro 4)|done]. }
  change (Heap.block_align stack_layout) with 16 in Hm. change (Heap.block_size stack_layout) with KERNEL_STACK_SIZE in Hhip.
  exists p, l'. cbv zeta. split_and!; try done. unfold new_stack.
  rewrite (M_bind_ok (ok_or _ _) _ a stack_layout a) by done.
  rewrite (M_bind_ok (Heap.heap_allocate stack_layout) _ a p (Heap.mkAllocator l' (Heap.ga_mem a))) by (unfold Heap.heap_allocate; by rewrite Hp).
  destruct (Z.eqb_spec p 0); [done|]. change (not64 15) with (not64 (16 - 1)).
  rewrite land_not_mask by (done || (unfold u64, KERNEL_STACK_SIZE in *; lia) || by apply (pow2_intro 4)).
  replace ((p + KERNEL_STACK_SIZE) mod 16) with 0 by (unfold KERNEL_STACK_SIZE; Z.div_mod_to_equations; lia). rewrite Z.sub_0_r.
  unfold saturating_sub64. rewrite Z.max_l by (unfold KERNEL_STACK_SIZE; lia). done.
Qed.

Lemma register_stack_ok n (p : Process W) layout a : heap_ok lo hi n (Heap.ga_free a) → p_regions p = RawVec.new →
  Heap.room_cost regions_layout ≤ n →
  ∃ rs l', register_stack region_size p layout a = Ok (set_regions rs p, Heap.mkAllocator l' (Heap.ga_mem a)) ∧
    heap_ok lo hi (n - Heap.room_cost regions_layout) l' ∧ shrunk (Heap.ga_free a) l' ∧
    RawVec.elems rs = [mkMemoryRegion (p_stack_ptr p) layout Stack read_write].
Proof.
  intros Hl Hnew Hn. set (r := mkMemoryRegion (p_stack_ptr p) layout Stack read_write).
  destruct (first_push_ok lo hi Hlo Hle Hhi (regions_config region_size) r n (Heap.ga_free a)) as (q & l' & Hpush & Hl' & Hsh & _); try done.
  { split; [by apply (pow2_intro 3)|cbn; lia]. }
  exists (RawVec.mkRawVec q [r] 4), l'. split_and!; try done.
  unfold register_stack, register, zoom. cbn [fst snd]. fold r. by rewrite Hnew, Hpush.
Qed.

End stack.

(** ** The program *)

Section program.
Context {D F : Type} `{!FrameAlloc F, !FrameAllocLaws F} (v : Fat.FatVolume D) `{!BlockDeviceLaws (Fat.device v)}.
Context (lo hi file_size region_size enter_user_mode : Z) (e : env (world D F)).
Hypothesis Hlo : 0 < lo.
Hypothesis Hle : lo ≤ hi + 1.
Hypothesis Hhi : hi + 16 < U64.
Hypothesis Hblock : block_size (Fat.device v) = 512.
Hypothesis Hv : Fat.volume_ok v.
Hypothesis Hfile : 0 < file_size < 2 ^ 32.
Hypothesis Hregion : 0 < region_size < 2 ^ 32.
Hypothesis Hexit : u64 (process_exit e).

Definition stack_base : Z := user_stack_top - 8 * 4096.

Definition heap_need (size : Z) : Z :=
  Heap.room_cost (file_layout file_size) + Heap.room_cost (mkLayout size 1) + Heap.room_cost stack_layout +
  Heap.room_cost (regions_layout region_size).

(** What has to be there: a mounted volume with the file, an image in it whose
    segments lie in pages of their own below the stack, frames for them, and room
    on the heap. *)
Record loadable (s : @uheap D F) (cr : Z) (path trimmed : list Z) (cluster size : Z) (cs : list Z) (image : Elf.ElfImage) : Prop := {
  ld_heap : heap_ok lo hi (heap_need size) (Heap.ga_free s.1.2);
  ld_volume : w_volume s.2 = Some v;
  ld_disk : Fat.disk_ok v (w_dev s.2);
  ld_path : strip_prefix BIN_PREFIX path = Some trimmed;
  ld_file : stored v (bd_disk (w_dev s.2)) (Fat.trim_matches Fat.slash trimmed) cluster size cs;
  ld_size : 0 < size < 2 ^ 32;
  ld_image : Elf.parse (contents v (bd_disk (w_dev s.2)) size cs) = Ok image;
  ld_segments : Forall (Loader.segment_ok (contents v (bd_disk (w_dev s.2)) size cs)) (Elf.segments image);
  ld_apart : ForallOrdPairs Loader.apart (Elf.segments image);
  ld_below : Forall (λ g, Loader.page_limit g ≤ stack_base) (Elf.segments image);
  ld_fa : fa_inv (pm_fa (w_pm s.2));
  ld_frames : Forall frame_ok (fa_pool (pm_fa (w_pm s.2))) ∧ NoDup (fa_pool (pm_fa (w_pm s.2)));
  ld_mem : mem_ok (pm_mem (w_pm s.2));
  ld_kernel : frame_ok cr ∧ cr ∉ fa_pool (pm_fa (w_pm s.2));
  ld_free : (33 + 4 * Loader.total_pages (Elf.segments image) ≤ Loader.free (w_pm s.2))%nat
}.

(** The address space holds the image and the stack, and nothing else. *)
Record holds_image (pm : pmem F) (root : Z) (data : list Z) (image : Elf.ElfImage) : Prop := {
  hi_space : Loader.us root pm;
  hi_bytes : ∀ g x, g ∈ Elf.segments image → Loader.page_start g ≤ x < Loader.page_limit g →
    Loader.shows_segment (pm_mem pm) root data g x;
  hi_stack : ∀ x, stack_base ≤ x < user_stack_top → Loader.protection <$> mapped (pm_mem pm) root x = Some (true, true, true);
  hi_only : ∀ x, 0 ≤ x < 2 ^ 47 → is_Some (mapped (pm_mem pm) root x) →
    stack_base ≤ x < user_stack_top ∨ ∃ g, g ∈ Elf.segments image ∧ Loader.page_start g ≤ x < Loader.page_limit g
}.

Lemma stored_path d path cluster size cs : stored v d path cluster size cs → path ≠ [].
Proof. intros [_ _ (name & i & en & Hn & _) _] ->. done. Qed.

(** The address space is built. *)
Lemma space_ok pm cr data image : fa_inv (pm_fa pm) → Forall frame_ok (fa_pool (pm_fa pm)) → NoDup (fa_pool (pm_fa pm)) →
  mem_ok (pm_mem pm) → frame_ok cr → cr ∉ fa_pool (pm_fa pm) → Forall byte data → Elf.len data < 2 ^ 62 →
  Forall (Loader.segment_ok data) (Elf.segments image) → ForallOrdPairs Loader.apart (Elf.segments image) →
  Forall (λ g, Loader.page_limit g ≤ stack_base) (Elf.segments image) →
  (33 + 4 * Loader.total_pages (Elf.segments image) ≤ Loader.free pm)%nat →
  ∃ a pm1 pm2, Loader.create_default_user_address_space cr pm = Ok ((a, mkUserStack user_stack_top (4096 * 8)), pm1) ∧
    Loader.map_user_segments a image data pm1 = Ok (tt, pm2) ∧ is_user a = true ∧ holds_image pm2 (cr3 a) data image.
Proof.
  intros Hfa Hok Hnd Hm Hk Hkp Hb Hlen Hseg Hap Hbelow Hfree.
  destruct (Loader.create_user_spec cr 8 pm) as (a & pm1 & Hc & Hu & Hus & Hfr & Hmap); try done; [lia|].
  assert (∀ x, 0 ≤ x < 2 ^ 47 → ¬ (stack_base ≤ x < user_stack_top) → mapped (pm_mem pm1) (cr3 a) x = None) as Hnone.
  { intros x Hx Hnot. specialize (Hmap x Hx). rewrite decide_False in Hmap by done.
    by destruct (mapped (pm_mem pm1) (cr3 a) x). }
  assert (∀ g x, g ∈ Elf.segments image → Loader.page_start g ≤ x < Loader.page_limit g → 0 ≤ x < stack_base) as Hrange.
  { intros g x Hg Hx. rewrite Forall_forall in Hseg, Hbelow. specialize (Hbelow g Hg). cbn in Hbelow. destruct (Hseg g Hg) as [? ? _ ? _ _ _].
    unfold Loader.page_start in Hx. pose proof (Z.div_pos (Elf.vaddr g) 4096). lia. }
  destruct (Loader.load_segments_spec (cr3 a) data (Elf.segments image) pm1) as (pm2 & Hl & Hus2 & Hin & Hout); try done.
  { intros g x Hg Hx. apply Hnone; [|specialize (Hrange g x Hg Hx); lia]. specialize (Hrange g x Hg Hx).
    unfold stack_base, user_stack_top, USER_ADDR_LIMIT in *. lia. }
  { lia. }
  exists a, pm1, pm2. split_and!; try done. constructor; [done|done|..].
  - intros x Hx. assert (0 ≤ x < 2 ^ 47) by (unfold stack_base, user_stack_top, USER_ADDR_LIMIT in *; lia).
    destruct (Hout x) as [-> _]; [done| |rewrite Hmap by done; by rewrite decide_True]. intros g Hg Hgx. specialize (Hrange g x Hg Hgx). lia.
  - intros x Hx [en Hen]. destruct (decide (Exists (λ g, Loader.page_start g ≤ x < Loader.page_limit g) (Elf.segments image))) as [Hex|Hex].
    + right. apply Exists_exists in Hex as (g & Hg & Hgx). eauto.
    + left. destruct (Hout x Hx) as [Heq _].
      { intros g Hg Hgx. apply Hex, Exists_exists. eauto. }
      rewrite Hen in Heq. specialize (Hmap x Hx). rewrite <- Heq in Hmap. by case_decide.
Qed.

Lemma load_elf_ok s cr path trimmed cluster size cs image : loadable s cr path trimmed cluster size cs image →
  ∃ p l d, load_elf file_size path (Heap.ga_free s.1.2, s.2) =
      Ok ((image, mkVec p size (contents v (bd_disk (w_dev s.2)) size cs)), (l, set_dev d s.2)) ∧
    Fat.same_disk v (w_dev s.2) d ∧
    heap_ok lo hi (Heap.room_cost stack_layout + Heap.room_cost (regions_layout region_size)) l ∧
    owned lo hi p (Heap.block_size (mkLayout size 1)) l.
Proof.
  intros [Hl Hvol Hdisk Hpath Hst Hsz Himg _ _ _ _ _ _ _ _].
  assert (∀ layout, lay_align layout ≤ 16 → 0 < Heap.room_cost layout) as Hpos.
  { intros layout _. pose proof (Heap.block_size_ge layout). unfold Heap.room_cost, Heap.block_align, Heap.align_of_ListNode. lia. }
  pose proof (Hpos stack_layout ltac:(done)). pose proof (Hpos (regions_layout region_size) ltac:(done)).
  destruct (read_binary_ok v lo hi file_size Hlo Hle Hhi Hblock Hv Hfile (heap_need size) (Heap.ga_free s.1.2) s.2 path trimmed cluster size cs)
    as (p & l & d & Hr & Hs & Hl' & Hsh & Ho); try done; [by eapply stored_path|unfold heap_need; lia|].
  exists p, l, d. split_and!; try done.
  - unfold load_elf. rewrite (M_bind_ok _ _ _ _ _ (map_err_ok LoadFile _ _ _ Hr)). cbn [vec_bytes].
    by rewrite (M_bind_ok _ _ _ (inl image) (l, set_dev d s.2)) by (apply attempt_ok; unfold lift; by rewrite Himg).
  - replace (Heap.room_cost stack_layout + Heap.room_cost (regions_layout region_size)) with
      (heap_need size - Heap.room_cost (file_layout file_size) - Heap.room_cost (mkLayout size 1)) by (unfold heap_need; lia). done.
Qed.


End program.

(** ** A program on a disk *)

Definition example_dir : list Z :=
  Fat.fill 512 (Fat.str_bytes "INIT    ELF" ++ replicate 15 0 ++ le_bytes 2 2 ++ le_bytes 4 (Z.of_nat (length Elf.example_elf))).
Definition example_disk : list Z := Fat.example_boot ++ Fat.example_fat ++ example_dir ++ Fat.fill 512 Elf.example_elf ++ replicate 1024 0.

Definition example_char : CharDevice (world (list Z) Phys.phys) :=
  mkCharDevice "example" (mret tt) (λ _, mret []) (λ b, mret (Z.of_nat (length b))).
Definition example_env : env (world (list Z) Phys.phys) := mkEnv example_char example_char None 0xFFFF800000001000.
Definition example_pmem : pmem Phys.phys :=
  mkPmem (λ _, 0) (Phys.mkPhys Phys.example_symbols [Phys.mkRegion 0xC00000 0x40000] (Phys.mkFA 0xC00000 0xC40000 1)).
Definition example_state : uheap :=
  ((table_new, Heap.mkAllocator [Heap.Node 0x100000 0x100000] (λ _, 0)), mkWorld example_disk (Some Fat.example_volume) example_pmem).
Definition example_image : Elf.ElfImage := Elf.mkImage 0x400000 [Elf.example_segment].

Lemma example_frames : Forall frame_ok (fa_pool (pm_fa example_pmem)) ∧ NoDup (fa_pool (pm_fa example_pmem)).
Proof.
  split.
  - assert (forallb (λ f, (0 <=? f) && (f <? 2 ^ 40) && (f mod 4096 =? 0)) (fa_pool (pm_fa example_pmem)) = true) as H by (by vm_compute).
    apply Forall_forall. intros f Hf%list_elem_of_In. rewrite forallb_forall in H. specialize (H f Hf). bool_to_prop. split; [lia|done].
  - apply (bool_decide_unpack _). by vm_compute.
Qed.

Lemma example_stored : stored Fat.example_volume example_disk (Fat.str_bytes "init.elf") 2 128 [2].
Proof.
  constructor; [done|by vm_compute| |apply Fat.chain_last; by vm_compute].
  eexists _, 0%nat, _. split; [by vm_compute|]. split_and!; by vm_compute.
Qed.

Lemma example_loadable : @loadable _ _ _ Fat.example_volume Fat.example_laws 0x100000 0x200000 64 64 example_state 0x800000
  (Fat.str_bytes "/bin/init.elf") (Fat.str_bytes "init.elf") 2 128 [2] example_image.
Proof.
  constructor.
  - split; [by vm_compute|]. exists 0x100000. split; [done|]. intros x Hx. apply Heap.free_addr_cons. left. split; [apply Hx|].
    apply Z.lt_le_trans with (1 := proj2 Hx). by vm_compute.
  - done.
  - split; [split; [by vm_compute|apply list_forallb_byte; by vm_compute]|by vm_compute].
  - by vm_compute.
  - apply example_stored.
  - done.
  - by vm_compute.
  - repeat constructor; by vm_compute.
  - repeat constructor.
  - repeat constructor. by vm_compute.
  - split_and!; [apply Phys.example_symbols_ok| |by vm_compute]. repeat constructor; by vm_compute.
  - apply example_frames.
  - done.
  - split; [done|]. apply (bool_decide_unpack _). by vm_compute.
  - by vm_compute; lia.
Qed.


End ProgramSpec.
