(* ===== verification/Devices.v ===== *)
(** * The devices at boot: src/src/kernel/kmain.rs and src/src/kernel/drivers/builtin.rs

    [kmain] registers the built-in drivers, looks for the disk, puts the scratch
    file on it and mounts the FAT volume.  The registry, the heap, the disk and the
    file system meet here: with room on the heap every device is found under its
    name afterwards, and a formatted disk is mounted. *)

From S2P Require Import Prelude Mem Heap Types RawVec Drivers Vfs Fat ProgramSpec.
Local Open Scope Z_scope.

Module Devices.
Import Drivers.

Section devices.
Context {W : Type} (slot_size : Z).

(** The registry, [FAT_VOLUME] and [SCRATCH_FILE]. *)
Record devices := mkDevices {
  dv_drivers : dstate W; dv_volume : option (Fat.FatVolume W); dv_scratch : option (Vfs.AtaScratchFile W)
}.

Definition on_drivers {E A} (m : M (dstate W) E A) : M devices E A :=
  zoom dv_drivers (λ d s, mkDevices d (dv_volume s) (dv_scratch s)) m.
Definition on_fs {E A} (m : M (Fat.fs W) E A) : M devices E A :=
  zoom (λ s, Fat.mkFs (ds_world (dv_drivers s)) (dv_volume s) (ds_heap (dv_drivers s)))
    (λ f s, mkDevices (mkDstate (Fat.fs_world f) (ds_registry (dv_drivers s)) (Fat.fs_heap f)) (Fat.fs_volume f) (dv_scratch s)) m.

Definition FAT_START_LBA : Z := 4096.

(** [AtaScratchFile::init] *)
Definition scratch_init {E} (device : BlockDevice W) (lba : Z) (name : string) : M devices E unit :=
  modify (λ s, mkDevices (dv_drivers s) (dv_volume s) (Some (Vfs.mkScratch device lba name))).

Definition kmain_devices {E} (console keyboard : CharDevice W) (ata : BlockDevice W) : M devices E unit :=
  _ ← on_drivers (register slot_size console keyboard ata);
  s ← Prelude.get;
  match block_device_by_name "ata0-master"%string (dv_drivers s) with
  | Some ata_dev =>
      _ ← scratch_init ata_dev 2048 "ata0-scratch"%string;
      _ ← attempt (on_fs (Fat.mount ata_dev FAT_START_LBA));
      mret tt
  | None => mret tt
  end.

End devices.
Arguments devices : clear implicits.

(** ** Registration *)

Section laws.
Context {W : Type} (lo hi slot_size : Z).
Hypothesis Hlo : 0 < lo.
Hypothesis Hle : lo ≤ hi + 1.
Hypothesis Hhi : hi + 16 < U64.
Hypothesis Hslot : 0 < slot_size < 2 ^ 32.

Definition slots_layout (n : Z) : Layout := mkLayout (slot_size * n) 8.

(** The registry while it holds [slots]: a block for four, later for eight. *)
Inductive holds (n : Z) (w : W) (slots : list (DriverSlot W)) : dstate W → Prop :=
| holds_none l : slots = [] → ProgramSpec.heap_ok lo hi (n + Heap.room_cost (slots_layout 4) + Heap.room_cost (slots_layout 8)) l →
    holds n w slots (mkDstate w RawVec.new l)
| holds_four p l : (0 < length slots ≤ 4)%nat → p ≠ 0 → ProgramSpec.heap_ok lo hi (n + Heap.room_cost (slots_layout 8)) l →
    ProgramSpec.owned lo hi p (Heap.block_size (slots_layout 4)) l → holds n w slots (mkDstate w (RawVec.mkRawVec p slots 4) l)
| holds_eight p l : (length slots ≤ 8)%nat → ProgramSpec.heap_ok lo hi n l → holds n w slots (mkDstate w (RawVec.mkRawVec p slots 8) l).

Lemma slots_layout_ok n : 0 ≤ n ≤ 8 → layout_ok (slots_layout n).
Proof. intros Hn. split; [by apply (pow2_intro 3)|cbn; nia]. Qed.

Lemma insert_slot_ok n w slots slot s : 0 ≤ n → holds n w slots s → (length slots < 8)%nat →
  ∃ s', insert_slot slot_size slot s = Ok (tt, s') ∧ holds n w (slots ++ [slot]) s'.
Proof.
  intros Hn0 Hs Hlen. pose proof (ProgramSpec.room_cost_pos (slots_layout 8) ltac:(done)). unfold insert_slot, on_registry.
  destruct Hs as [l -> Hl|p l Hs Hp Hl Ho|p l Hs Hl].
  - destruct (ProgramSpec.first_push_ok lo hi Hlo Hle Hhi (registry_config slot_size) slot _ l Hl) as (q & l' & Hpush & Hl' & _ & Ho);
      [by apply (slots_layout_ok 4)|done|change (Heap.room_cost (slots_layout 4) ≤ n + Heap.room_cost (slots_layout 4) + Heap.room_cost (slots_layout 8)); lia|].
    eexists. split; [eapply zoom_ok; exact Hpush|]. cbn. apply holds_four; [cbn; lia| | |done].
    + destruct Ho as (? & _). lia.
    + change (ProgramSpec.heap_ok lo hi (n + Heap.room_cost (slots_layout 4) + Heap.room_cost (slots_layout 8) - Heap.room_cost (slots_layout 4)) l') in Hl'.
      by replace (n + Heap.room_cost (slots_layout 8))
        with (n + Heap.room_cost (slots_layout 4) + Heap.room_cost (slots_layout 8) - Heap.room_cost (slots_layout 4)) by lia.
  - destruct (decide (length slots = 4%nat)) as [Hfull|Hroom].
    + destruct (ProgramSpec.push_grows lo hi Hlo Hle Hhi (registry_config slot_size) slot (RawVec.mkRawVec p slots 4) _ l Hl) as (q & l' & Hpush & Hl').
      { unfold RawVec.len. cbn. lia. } { cbn. lia. } { done. } { done. } { cbn. lia. } { by apply (slots_layout_ok 8). } { done. } { done. }
      { change (Heap.room_cost (slots_layout 8) ≤ n + Heap.room_cost (slots_layout 8)). lia. }
      eexists. split; [eapply zoom_ok; exact Hpush|]. cbn. apply holds_eight; [rewrite length_app; cbn; lia|].
      change (ProgramSpec.heap_ok lo hi (n + Heap.room_cost (slots_layout 8) - Heap.room_cost (slots_layout 8)) l') in Hl'. by rewrite Z.add_simpl_r in Hl'.
    + eexists. split; [apply (zoom_ok _ _ _ _ tt (RawVec.mkRawVec p (slots ++ [slot]) 4, l)); apply RawVec.push_fits; unfold RawVec.len; cbn; lia|].
      cbn. apply holds_four; try done. rewrite length_app. cbn. lia.
  - eexists. split; [apply (zoom_ok _ _ _ _ tt (RawVec.mkRawVec p (slots ++ [slot]) 8, l)); apply RawVec.push_fits; unfold RawVec.len; cbn; lia|].
    cbn. apply holds_eight; [|done]. rewrite length_app. cbn. lia.
Qed.

Lemma holds_world n w w' slots s : holds n w slots s → holds n w' slots (mkDstate w' (ds_registry s) (ds_heap s)).
Proof. intros [l ? ?|p l ? ? ? ?|p l ? ?]; cbn; [by apply holds_none|by apply holds_four|by apply holds_eight]. Qed.

Lemma holds_elems n w slots s : holds n w slots s → RawVec.elems (ds_registry s) = slots ∧ ds_world s = w.
Proof. by intros [l ->|p l|p l]. Qed.

Lemma holds_heap n w slots s : 0 ≤ n → holds n w slots s → Heap.free_list lo hi (ds_heap s).
Proof. intros Hn [l ? [? _]|p l ? ? [? _] ?|p l ? [? _]]; done. Qed.

Lemma register_char_ok n w w' slots d s : 0 ≤ n → holds n w slots s → (length slots < 8)%nat → cd_init d w = Ok (tt, w') →
  ∃ s', @ignore W Empty_set (register_char slot_size d) s = Ok (tt, s') ∧ holds n w' (slots ++ [CharSlot d]) s'.
Proof.
  intros Hn Hs Hlen Hinit. pose proof (holds_elems _ _ _ _ Hs) as [_ Hw].
  destruct (insert_slot_ok n w' slots (CharSlot d) _ Hn (holds_world _ _ w' _ _ Hs) Hlen) as (s' & Hi & Hs'). exists s'. split; [|done].
  unfold ignore. rewrite (M_bind_ok _ _ s (inl tt) s'); [done|]. apply attempt_ok. unfold register_char.
  rewrite (M_bind_ok _ _ s tt (mkDstate w' (ds_registry s) (ds_heap s))); [done|].
  apply map_err_ok. unfold on_world, zoom. by rewrite Hw, Hinit.
Qed.

Lemma register_block_ok n w w' slots d s : 0 ≤ n → holds n w slots s → (length slots < 8)%nat → bd_init d w = Ok (tt, w') →
  ∃ s', @ignore W Empty_set (register_block slot_size d) s = Ok (tt, s') ∧ holds n w' (slots ++ [BlockSlot d]) s'.
Proof.
  intros Hn Hs Hlen Hinit. pose proof (holds_elems _ _ _ _ Hs) as [_ Hw].
  destruct (insert_slot_ok n w' slots (BlockSlot d) _ Hn (holds_world _ _ w' _ _ Hs) Hlen) as (s' & Hi & Hs'). exists s'. split; [|done].
  unfold ignore. rewrite (M_bind_ok _ _ s (inl tt) s'); [done|]. apply attempt_ok. unfold register_block.
  rewrite (M_bind_ok _ _ s tt (mkDstate w' (ds_registry s) (ds_heap s))); [done|].
  apply map_err_ok. unfold on_world, zoom. by rewrite Hw, Hinit.
Qed.

Lemma register_block_fails n w w' slots d s err : holds n w slots s → bd_init d w = Err (err, w') →
  ∃ s', @ignore W Empty_set (register_block slot_size d) s = Ok (tt, s') ∧ holds n w' slots s'.
Proof.
  intros Hs Hinit. pose proof (holds_elems _ _ _ _ Hs) as [_ Hw]. eexists. split; [|exact (holds_world _ _ w' _ _ Hs)].
  assert (register_block slot_size d s = Err (InitFailed, mkDstate w' (ds_registry s) (ds_heap s))) as He
    by (unfold register_block; apply M_bind_err; unfold map_err, on_world, zoom; by rewrite Hw, Hinit).
  unfold ignore, mbind, M_bind, attempt. by rewrite He.
Qed.

(** The slots after [register]: the disk is there when it answered. *)
Lemma register_ok n w0 w1 w2 w3 console keyboard ata present s : 0 ≤ n → holds n w0 [] s →
  cd_init console w0 = Ok (tt, w1) → cd_init keyboard w1 = Ok (tt, w2) →
  (if present : bool then bd_init ata w2 = Ok (tt, w3) else ∃ err, bd_init ata w2 = Err (err, w3)) →
  ∃ s', @register W slot_size Empty_set console keyboard ata s = Ok (tt, s') ∧
    holds n w3 ([CharSlot console; CharSlot keyboard] ++ (if present then [BlockSlot ata] else []) ++ [CharSlot NULL_DRIVER; CharSlot ZERO_DRIVER]) s'.
Proof.
  intros Hn Hs Hc Hk Ha.
  destruct (register_char_ok n w0 w1 [] console s Hn Hs ltac:(cbn; lia) Hc) as (s1 & H1 & Hs1).
  destruct (register_char_ok n w1 w2 _ keyboard s1 Hn Hs1 ltac:(cbn; lia) Hk) as (s2 & H2 & Hs2).
  assert (∃ s3, @ignore W Empty_set (register_block slot_size ata) s2 = Ok (tt, s3) ∧
    holds n w3 ([CharSlot console; CharSlot keyboard] ++ (if present then [BlockSlot ata] else [])) s3) as (s3 & H3 & Hs3).
  { destruct present; [by eapply register_block_ok; [..|cbn; lia|]|]. destruct Ha as [err Ha]. by eapply register_block_fails. }
  destruct (register_char_ok n w3 w3 _ NULL_DRIVER s3 Hn Hs3 ltac:(destruct present; cbn; lia) eq_refl) as (s4 & H4 & Hs4).
  destruct (register_char_ok n w3 w3 _ ZERO_DRIVER s4 Hn Hs4 ltac:(destruct present; cbn; lia) eq_refl) as (s5 & H5 & Hs5).
  exists s5. split; [|by destruct present].
  unfold register. rewrite (M_bind_ok _ _ _ _ _ H1), (M_bind_ok _ _ _ _ _ H2), (M_bind_ok _ _ _ _ _ H3), (M_bind_ok _ _ _ _ _ H4). done.
Qed.

(** What [kmain] finds and uses. *)
Record found (console keyboard : CharDevice W) (s : devices W) : Prop := {
  fo_console : char_device_by_name "console"%string (dv_drivers s) = Some console;
  fo_keyboard : char_device_by_name "keyboard"%string (dv_drivers s) = Some keyboard;
  fo_null : ∃ d, char_device_by_name "null"%string (dv_drivers s) = Some d ∧
    (∀ n w, cd_read d n w = Ok ([], w)) ∧ ∀ bs w, cd_write d bs w = Ok (Z.of_nat (length bs), w);
  fo_zero : ∃ d, char_device_by_name "zero"%string (dv_drivers s) = Some d ∧
    ∀ n w, cd_read d n w = Ok (replicate (Z.to_nat n) 0, w)
}.

Lemma found_slots console keyboard middle s vol scratch : cd_name console = "console"%string → cd_name keyboard = "keyboard"%string →
  Forall (λ m, as_char m = None) middle →
  RawVec.elems (ds_registry s) = [CharSlot console; CharSlot keyboard] ++ middle ++ [CharSlot NULL_DRIVER; CharSlot ZERO_DRIVER] →
  found console keyboard (mkDevices s vol scratch).
Proof.
  intros Hc Hk Hm Hs. assert (∀ name, find_char name middle = None) as Hno.
  { intros name. clear Hs. induction Hm as [|m l Hm _ IH]; [done|]. cbn. by rewrite Hm. }
  split; unfold char_device_by_name; cbn [dv_drivers]; rewrite Hs, !find_char_app, Hno; cbn; rewrite Hc, Hk; cbn; [done|done|..].
  - by eexists.
  - by eexists.
Qed.

End laws.

Section boot.
Context {W : Type} (lo hi slot_size : Z) (console keyboard : CharDevice W) (ata : BlockDevice W) `{!BlockDeviceLaws ata}.
Hypothesis Hlo : 0 < lo.
Hypothesis Hle : lo ≤ hi + 1.
Hypothesis Hhi : hi + 16 < U64.
Hypothesis Hslot : 0 < slot_size < 2 ^ 32.
Hypothesis Hconsole : cd_name console = "console"%string.
Hypothesis Hkeyboard : cd_name keyboard = "keyboard"%string.
Hypothesis Hata : bd_name ata = "ata0-master"%string.
Hypothesis Hblock : block_size ata = 512.

(** C23. The devices at boot. When the console and the keyboard start and the heap has room
    for the registry, [kmain] leaves every built-in character device under its name.
    When the disk starts and has a formatted volume at its place, the disk is
    registered, the scratch file is on its sector 2048 and the volume is mounted as
    its boot sector describes it, without a change to the disk; when the disk does
    not start there is no block device, no scratch file and no volume, and the boot
    goes on. *)
Theorem kmain_devices_correct n l w0 w1 w2 : 0 ≤ n →
  ProgramSpec.heap_ok lo hi (n + Heap.room_cost (slots_layout slot_size 4) + Heap.room_cost (slots_layout slot_size 8)) l →
  cd_init console w0 = Ok (tt, w1) → cd_init keyboard w1 = Ok (tt, w2) →
  let s0 := mkDevices (mkDstate w0 RawVec.new l) None None in
  (∀ w3 g, bd_init ata w2 = Ok (tt, w3) → bd_inv w3 → 4097 * 512 ≤ Z.of_nat (length (bd_disk w3)) →
     Fat.formatted (Fat.sector_of (bd_disk w3) 4096) g → Fat.geometry_ok g →
     ∃ s v, @kmain_devices W slot_size Empty_set console keyboard ata s0 = Ok (tt, s) ∧ found console keyboard s ∧
       block_device_by_name "ata0-master"%string (dv_drivers s) = Some ata ∧ dv_scratch s = Some (Vfs.mkScratch ata 2048 "ata0-scratch"%string) ∧
       dv_volume s = Some v ∧ Fat.describes ata 4096 g v ∧ bd_inv (ds_world (dv_drivers s)) ∧
       bd_disk (ds_world (dv_drivers s)) = bd_disk w3 ∧ Heap.free_list lo hi (ds_heap (dv_drivers s))) ∧
  (∀ w3 err, bd_init ata w2 = Err (err, w3) →
     ∃ s, @kmain_devices W slot_size Empty_set console keyboard ata s0 = Ok (tt, s) ∧ found console keyboard s ∧
       (∀ name, block_device_by_name name (dv_drivers s) = None) ∧ dv_scratch s = None ∧ dv_volume s = None ∧
       Heap.free_list lo hi (ds_heap (dv_drivers s))).
Proof.
  intros Hn Hl Hc Hk s0. assert (holds lo hi slot_size n w0 [] (dv_drivers s0)) as Hs0 by (by apply holds_none). split.
  - intros w3 g Ha Hinv Hlen Hg Hok.
    destruct (register_ok lo hi slot_size Hlo Hle Hhi Hslot n w0 w1 w2 w3 console keyboard ata true _ Hn Hs0 Hc Hk Ha) as (s1 & Hreg & Hs1).
    pose proof (holds_heap _ _ _ _ _ _ _ Hn Hs1) as Hheap. destruct (holds_elems _ _ _ _ _ _ _ Hs1) as [Hel Hw].
    assert (block_device_by_name "ata0-master"%string s1 = Some ata) as Hfind.
    { unfold block_device_by_name. rewrite Hel. cbn. by rewrite Hata. }
    rewrite <- Hw in Hinv, Hlen, Hg.
    destruct (Fat.mount_ok ata Hblock 4096 (Fat.mkFs (ds_world s1) None (ds_heap s1)) g Hinv ltac:(done) Hlen ltac:(done) Hg Hok)
      as (w' & v & Hmount & Hinv' & Hdisk & Hdesc).
    exists (mkDevices (mkDstate w' (ds_registry s1) (ds_heap s1)) (Some v) (Some (Vfs.mkScratch ata 2048 "ata0-scratch"%string))), v.
    split; [|split_and!; try done; [apply (found_slots console keyboard [BlockSlot ata]); try done; by repeat constructor|by rewrite <- Hw]].
    unfold kmain_devices. rewrite (M_bind_ok _ _ s0 tt (mkDevices s1 None None)) by (exact (zoom_ok dv_drivers _ _ _ _ _ Hreg)).
    rewrite (M_bind_ok Prelude.get _ _ (mkDevices s1 None None) (mkDevices s1 None None)) by done. cbn [dv_drivers]. rewrite Hfind.
    rewrite (M_bind_ok (scratch_init _ _ _) _ _ tt (mkDevices s1 None (Some (Vfs.mkScratch ata 2048 "ata0-scratch"%string)))) by done.
    rewrite (M_bind_ok (attempt _) _ _ (inl tt) (mkDevices (mkDstate w' (ds_registry s1) (ds_heap s1)) (Some v) (Some (Vfs.mkScratch ata 2048 "ata0-scratch"%string)))); [done|].
    apply attempt_ok. unfold on_fs, zoom. cbn [dv_drivers dv_volume ds_world ds_heap]. unfold FAT_START_LBA. by rewrite Hmount.
  - intros w3 err Ha.
    destruct (register_ok lo hi slot_size Hlo Hle Hhi Hslot n w0 w1 w2 w3 console keyboard ata false _ Hn Hs0 Hc Hk (ex_intro _ err Ha)) as (s1 & Hreg & Hs1).
    pose proof (holds_heap _ _ _ _ _ _ _ Hn Hs1) as Hheap. destruct (holds_elems _ _ _ _ _ _ _ Hs1) as [Hel Hw].
    assert (∀ name, block_device_by_name name s1 = None) as Hfind by (intros name; unfold block_device_by_name; by rewrite Hel).
    exists (mkDevices s1 None None). split; [|split_and!; try done; by apply (found_slots console keyboard [])].
    unfold kmain_devices. rewrite (M_bind_ok _ _ s0 tt (mkDevices s1 None None)) by (exact (zoom_ok dv_drivers _ _ _ _ _ Hreg)).
    rewrite (M_bind_ok Prelude.get _ _ (mkDevices s1 None None) (mkDevices s1 None None)) by done. cbn [dv_drivers]. by rewrite Hfind.
Qed.

End boot.

(** A disk whose volume starts at sector 4096. *)
Definition example_disk : list Z := replicate (Z.to_nat (4096 * 512)) 0 ++ Fat.example_boot.
Definition example_ata : BlockDevice (list Z) := MemBlockDevice "ata0-master" 512.
Definition example_char (name : string) : CharDevice (list Z) := mkCharDevice name (mret tt) (λ _, mret []) (λ bs, mret (Z.of_nat (length bs))).

Lemma example_sector : Fat.sector_of example_disk 4096 = Fat.example_boot.
Proof.
  unfold Fat.sector_of, example_disk. rewrite drop_app_length' by (by rewrite length_replicate).
  assert (length Fat.example_boot = 512%nat) as <- by (by vm_compute). by rewrite firstn_all.
Qed.

Lemma example_disk_inv : mem_inv 512 example_disk ∧ 4097 * 512 ≤ Z.of_nat (length example_disk).
Proof.
  assert (Z.of_nat (length example_disk) = 4097 * 512) as Hlen.
  { unfold example_disk. rewrite length_app, length_replicate. assert (length Fat.example_boot = 512%nat) as -> by (by vm_compute). lia. }
  split; [split; [lia|]|lia]. unfold example_disk. apply Forall_app. split; [|apply list_forallb_byte; by vm_compute].
  apply Forall_replicate. unfold byte. lia.
Qed.

Lemma kmain_devices_correct_witness :
  ∃ s v, @kmain_devices _ 24 Empty_set (example_char "console") (example_char "keyboard") example_ata
      (mkDevices (mkDstate example_disk RawVec.new [Heap.Node 0x100000 0x100000]) None None) = Ok (tt, s) ∧
    dv_volume s = Some v ∧ Fat.fat_lba v = 4097.
Proof.
  assert (ProgramSpec.heap_ok 0x100000 0x200000 (0 + Heap.room_cost (slots_layout 24 4) + Heap.room_cost (slots_layout 24 8))
    [Heap.Node 0x100000 0x100000]) as Hh.
  { split; [by vm_compute|]. exists 0x100000. split; [lia|]. intros x Hx. apply Heap.free_addr_cons. left. split; [apply Hx|].
    apply Z.lt_le_trans with (1 := proj2 Hx). by vm_compute. }
  assert (Fat.formatted Fat.example_boot Fat.example_geometry) as Hg
    by (exists (replicate 11 0), (replicate 3 0), (replicate 488 0); by vm_compute).
  rewrite <- example_sector in Hg. destruct example_disk_inv as [Hinv Hlen].
  generalize dependent example_disk. intros disk Hg Hinv Hlen.
  destruct (@kmain_devices_correct _ 0x100000 0x200000 24 (example_char "console") (example_char "keyboard") example_ata
    (mem_block_laws "ata0-master" 512 eq_refl) ltac:(lia) ltac:(lia) ltac:(lia) ltac:(lia) eq_refl eq_refl eq_refl eq_refl 0 _ disk disk disk
    ltac:(lia) Hh eq_refl eq_refl) as [H _].
  destruct (H disk Fat.example_geometry eq_refl Hinv Hlen Hg ltac:(split; cbn; lia)) as (s & v & Hr & _ & _ & _ & Hv & [_ _ _ Hf _ _ _] & _).
  exists s, v. split; [exact Hr|]. split; [exact Hv|]. rewrite Hf. reflexivity.
Defined.

End Devices.
