(* ===== verification/AsmSpec.v ===== *)
(** * What the assembly does

    [context_switch] moves the processor from one [Context] of memory to another
    and a switch back returns to its caller; [enter_user_mode] takes a fresh user
    process to its entry point; an interrupt builds the [InterruptFrame] its
    handler reads and resumes what the handler left in it. *)

From S2P Require Import Prelude Mem Heap Phys Paging RawVec Types UserMem Drivers Vfs Process Sched Elf Loader Fat Asm Program.
Local Open Scope Z_scope.

Module AsmSpec.
Import Asm.

(** ** The stack *)

(** The words [l] are in memory from [sp] up. *)
Definition words (x : mem) (sp : Z) (l : list Z) : Prop := ∀ i v, l !! i = Some v → load64 x (sp + 8 * Z.of_nat i) = v.

Lemma words_nil x sp : words x sp [].
Proof. done. Qed.

Lemma words_cons x sp v l : words x sp (v :: l) ↔ load64 x sp = v ∧ words x (sp + 8) l.
Proof.
  split.
  - intros H. split; [pose proof (H 0%nat v eq_refl) as H0; by rewrite Z.add_0_r in H0|]. intros i w Hi.
    rewrite <- (H (S i) w Hi). f_equal. lia.
  - intros [H0 H] [|i] w Hi; [cbn in Hi; injection Hi as <-; by rewrite Z.add_0_r|]. rewrite <- (H i w Hi). f_equal. lia.
Qed.

Lemma words_app x sp l1 l2 : words x sp (l1 ++ l2) ↔ words x sp l1 ∧ words x (sp + 8 * Z.of_nat (length l1)) l2.
Proof.
  revert sp. induction l1 as [|v l1 IH]; intros sp; cbn [app length].
  - rewrite Z.add_0_r. split; [by split|by intros [_ ?]].
  - rewrite !words_cons, IH. replace (sp + 8 + 8 * Z.of_nat (length l1)) with (sp + 8 * Z.of_nat (S (length l1))) by lia. tauto.
Qed.

Lemma words_store x sp l a v : a + 8 ≤ sp ∨ sp + 8 * Z.of_nat (length l) ≤ a → words x sp l → words (store64 x a v) sp l.
Proof. intros Ha H i w Hi. rewrite load64_store64_ne; [by apply H|]. apply lookup_lt_Some in Hi. lia. Qed.

Lemma words_ext x x' sp l : (∀ a, sp ≤ a < sp + 8 * Z.of_nat (length l) → x' a = x a) → words x sp l → words x' sp l.
Proof.
  intros Hx H i w Hi. rewrite <- (H i w Hi). apply lookup_lt_Some in Hi. apply load64_ext. intros a Ha. apply Hx. lia.
Qed.

(** The stack pointer and the words above it. *)
Definition stack (m : machine) (sp : Z) (l : list Z) : Prop := m_reg m RSP = sp ∧ words (m_mem m) sp l.

(** Everything but the stack pointer and memory agrees. *)
Record same_cpu (m m' : machine) : Prop := {
  sc_reg : ∀ r, r ≠ RSP → m_reg m' r = m_reg m r;
  sc_seg : ∀ s, m_seg m' s = m_seg m s;
  sc_flags : m_flags m' = m_flags m;
  sc_gs : m_gs_base m' = m_gs_base m ∧ m_kernel_gs_base m' = m_kernel_gs_base m
}.

#[export] Instance same_cpu_preorder : PreOrder same_cpu.
Proof.
  split; [done|]. intros a b c [H1 H2 H3 [H4 H5]] [H1' H2' H3' [H4' H5']]. split; [|congruence..|split; congruence].
  intros r Hr. by rewrite H1', H1.
Qed.

(** Memory agrees at and above [sp]. *)
Definition same_above (sp : Z) (x x' : mem) : Prop := ∀ a, sp ≤ a → x' a = x a.

#[export] Instance same_above_preorder sp : PreOrder (same_above sp).
Proof. split; [done|]. intros a b c H1 H2 x Hx. by rewrite H2, H1. Qed.

Lemma same_above_le sp sp' x x' : sp ≤ sp' → same_above sp x x' → same_above sp' x x'.
Proof. intros Hs H a Ha. apply H. lia. Qed.

Lemma set_reg_eq r v m : m_reg (set_reg r v m) r = v.
Proof. cbn. by rewrite decide_True. Qed.
Lemma set_reg_ne r r' v m : r' ≠ r → m_reg (set_reg r v m) r' = m_reg m r'.
Proof. intros H. cbn. by rewrite decide_False. Qed.

Lemma push_word m sp l v : stack m sp l → 8 ≤ sp < U64 → u64 v →
  stack (push v m) (sp - 8) (v :: l) ∧ same_cpu m (push v m) ∧ same_above sp (m_mem m) (m_mem (push v m)).
Proof.
  intros [Hsp Hw] Hb Hv. assert ((m_reg m RSP - 8) mod U64 = sp - 8) as Hmod by (rewrite Hsp; apply Z.mod_small; lia).
  unfold push. rewrite Hmod. split; [|split].
  - split; [done|]. cbn [m_mem set_mem]. rewrite words_cons. split; [by apply load64_store64|].
    replace (sp - 8 + 8) with sp by lia. apply words_store; [lia|done].
  - split; try done. intros r Hr. cbn. by rewrite decide_False.
  - intros a Ha. cbn. unfold store64. rewrite store_bytes_out; [done|]. rewrite length_le_bytes. lia.
Qed.

Lemma top_spec m sp v l : stack m sp (v :: l) → top m = v.
Proof. intros [<- Hw]. unfold top. by apply words_cons in Hw as [-> _]. Qed.

Lemma drop_top_spec m sp v l : stack m sp (v :: l) → 0 ≤ sp < U64 - 8 → stack (drop_top m) (sp + 8) l ∧ same_cpu m (drop_top m).
Proof.
  intros [Hsp Hw] Hb. unfold drop_top. rewrite Hsp, Z.mod_small by lia. apply words_cons in Hw as [_ Hw]. split; [by split|].
  split; try done. intros r Hr. by apply set_reg_ne.
Qed.

Definition pushes (vs : list Z) (m : machine) : machine := foldl (λ m v, push v m) m vs.

Lemma pushes_spec vs m sp l : stack m sp l → 8 * Z.of_nat (length vs) ≤ sp < U64 → Forall u64 vs →
  stack (pushes vs m) (sp - 8 * Z.of_nat (length vs)) (reverse vs ++ l) ∧ same_cpu m (pushes vs m) ∧
  same_above sp (m_mem m) (m_mem (pushes vs m)).
Proof.
  revert m sp l. induction vs as [|v vs IH]; intros m sp l Hs Hb Hu.
  { change (8 * Z.of_nat (length [])) with 0. rewrite Z.sub_0_r. split_and!; [done|reflexivity|reflexivity]. }
  apply Forall_cons in Hu as [Hv Hu]. cbn [length] in Hb.
  destruct (push_word m sp l v Hs) as (Hs1 & Hc1 & Ha1); [lia|done|].
  destruct (IH (push v m) (sp - 8) (v :: l)) as (Hs2 & Hc2 & Ha2); [done|lia|done|].
  change (pushes (v :: vs) m) with (pushes vs (push v m)).
  split; [|split; [by etransitivity|etransitivity; [done|by eapply same_above_le; [|done]; lia]]].
  replace (sp - 8 - 8 * Z.of_nat (length vs)) with (sp - 8 * Z.of_nat (length (v :: vs))) in Hs2 by (cbn [length]; lia).
  rewrite reverse_cons, <- app_assoc. exact Hs2.
Qed.

(** A sequence of pushes of registers other than rsp pushes their values. *)
Lemma push_reg v r m : r ≠ RSP → m_reg (push v m) r = m_reg m r.
Proof. intros H. unfold push. cbn. by rewrite decide_False. Qed.

Lemma run_pushes rs m : RSP ∉ rs → run (Push <$> rs) m = pushes (m_reg m <$> rs) m.
Proof.
  revert m. induction rs as [|r rs IH]; intros m Hr; [done|]. apply not_elem_of_cons in Hr as [Hr Hrs].
  change (run (Push <$> r :: rs) m) with (run (Push <$> rs) (push (m_reg m r) m)). rewrite IH by done.
  rewrite fmap_cons. change (pushes (?v :: ?vs) m) with (pushes vs (push v m)). f_equal. apply list_fmap_ext. intros i r' Hi.
  apply push_reg. intros ->. apply Hrs. by eapply list_elem_of_lookup_2.
Qed.

(** The processor outside the registers and memory. *)
Definition same_system (m m' : machine) : Prop :=
  (∀ s, m_seg m' s = m_seg m s) ∧ m_flags m' = m_flags m ∧ m_gs_base m' = m_gs_base m ∧ m_kernel_gs_base m' = m_kernel_gs_base m.

(** A sequence of pops to registers. *)
Lemma run_pops rs m sp vs l : NoDup rs → RSP ∉ rs → length vs = length rs → stack m sp (vs ++ l) → 0 ≤ sp →
  sp + 8 * Z.of_nat (length rs) < U64 →
  let m' := run (Pop <$> rs) m in
  stack m' (sp + 8 * Z.of_nat (length rs)) l ∧ m_mem m' = m_mem m ∧ same_system m m' ∧ m_reg m' <$> rs = vs ∧
  ∀ r, r ∉ rs → r ≠ RSP → m_reg m' r = m_reg m r.
Proof.
  revert m sp vs. induction rs as [|r rs IH]; intros m sp [|v vs] Hnd Hr Hlen Hs H0 Hb m'; try done.
  { cbn. rewrite Z.add_0_r. by split_and!. }
  apply NoDup_cons in Hnd as [Hrr Hnd]. apply not_elem_of_cons in Hr as [Hr Hrs]. cbn [length app] in *.
  destruct (drop_top_spec m sp v (vs ++ l) Hs) as [Hs1 Hc1]; [lia|]. pose proof (top_spec _ _ _ _ Hs) as Htop.
  set (m1 := set_reg r (top m) (drop_top m)).
  assert (stack m1 (sp + 8) (vs ++ l)) as Hs2.
  { destruct Hs1 as [Hsp Hw]. split; [unfold m1; by rewrite set_reg_ne|done]. }
  destruct (IH m1 (sp + 8) vs Hnd Hrs ltac:(lia) Hs2) as (Hst & Hm & Hsys & Hvs & Hother); [lia..|].
  change (run (Pop <$> rs) m1) with m' in *. split_and!.
  - by replace (sp + 8 * Z.of_nat (S (length rs))) with (sp + 8 + 8 * Z.of_nat (length rs)) by lia.
  - by rewrite Hm.
  - destruct Hsys as (E1 & E2 & E3 & E4), Hc1 as [_ D1 D2 [D3 D4]]. unfold m1 in *. cbn [m_seg m_flags m_gs_base m_kernel_gs_base set_reg] in *.
    split_and!; congruence.
  - rewrite fmap_cons, Hvs. f_equal. rewrite (Hother r Hrr) by done. unfold m1. by rewrite set_reg_eq.
  - intros r' [Hne Hr']%not_elem_of_cons Hrsp. rewrite (Hother r' Hr' Hrsp). unfold m1. rewrite set_reg_ne by done. by apply (sc_reg _ _ Hc1).
Qed.

(** ** The context switch *)

Definition context_words (c : Context) : list Z := [r15 c; r14 c; r13 c; r12 c; rbx c; rbp c; rsp c; rip c; rflags c].

(** The registers a function keeps for its caller. *)
Definition callee_saved : list reg := [R15; R14; R13; R12; RBX; RBP].

Lemma rsp_not_callee_saved : RSP ∉ callee_saved.
Proof. apply (bool_decide_unpack _). by vm_compute. Qed.

(** The processor's registers as a [Context]. *)
Definition cpu (rip : Z) (m : machine) : Context :=
  mkContext (m_reg m R15) (m_reg m R14) (m_reg m R13) (m_reg m R12) (m_reg m RBX) (m_reg m RBP) (m_reg m RSP) rip (m_flags m).

(** Registers stored to, and loaded from, consecutive words. *)
Fixpoint stores (base : reg) (off : Z) (rs : list reg) : list instr :=
  match rs with [] => [] | r :: rs => Store base off r :: stores base (off + 8) rs end.
Fixpoint loads (base : reg) (off : Z) (rs : list reg) : list instr :=
  match rs with [] => [] | r :: rs => Load r base off :: loads base (off + 8) rs end.

(** Memory agrees outside [n] bytes at [p]. *)
Definition same_outside (p n : Z) (x x' : mem) : Prop := ∀ a, ¬ (p ≤ a < p + n) → x' a = x a.

Lemma store64_outside x p v : same_outside p 8 x (store64 x p v).
Proof. intros a Ha. unfold store64. apply store_bytes_out. rewrite length_le_bytes. lia. Qed.

Lemma run_stores base rs off m : (∀ r, u64 (m_reg m r)) → 0 ≤ m_reg m base + off →
  m_reg m base + off + 8 * Z.of_nat (length rs) ≤ U64 →
  ∃ x, run (stores base off rs) m = set_mem x m ∧ words x (m_reg m base + off) (m_reg m <$> rs) ∧
    same_outside (m_reg m base + off) (8 * Z.of_nat (length rs)) (m_mem m) x.
Proof.
  intros Hu. revert m off Hu. induction rs as [|r rs IH]; intros m off Hu H0 Hb.
  { exists (m_mem m). split_and!; [by destruct m|done|done]. }
  cbn [stores length] in *. set (p := m_reg m base + off) in *. set (m1 := set_mem (store64 (m_mem m) p (m_reg m r)) m).
  assert (exec (Store base off r) m = m1) as Hstep by (unfold m1; cbn; fold p; by rewrite Z.mod_small by lia).
  destruct (IH m1 (off + 8)) as (x & Hx & Hw & Ho); [done|cbn; lia|cbn; lia|].
  change (m_reg m1) with (m_reg m) in *. replace (m_reg m base + (off + 8)) with (p + 8) in * by lia.
  exists x. split_and!.
  - change (run (Store base off r :: stores base (off + 8) rs) m) with (run (stores base (off + 8) rs) (exec (Store base off r) m)).
    by rewrite Hstep, Hx.
  - rewrite fmap_cons, words_cons. split; [|done]. rewrite (load64_ext x (store64 (m_mem m) p (m_reg m r))).
    + by apply load64_store64.
    + intros a Ha. apply Ho. lia.
  - intros a Ha. rewrite Ho by lia. apply store64_outside. lia.
Qed.

Lemma run_loads base rs off m vs : NoDup rs → base ∉ rs → words (m_mem m) (m_reg m base + off) vs → length vs = length rs →
  0 ≤ m_reg m base + off → m_reg m base + off + 8 * Z.of_nat (length rs) ≤ U64 →
  let m' := run (loads base off rs) m in
  m_mem m' = m_mem m ∧ same_system m m' ∧ m_reg m' <$> rs = vs ∧ ∀ r, r ∉ rs → m_reg m' r = m_reg m r.
Proof.
  revert m off vs. induction rs as [|r rs IH]; intros m off [|v vs] Hnd Hbase Hw Hlen H0 Hb m'; try done.
  apply NoDup_cons in Hnd as [Hr Hnd]. apply not_elem_of_cons in Hbase as [Hbr Hbase]. cbn [length] in *. apply words_cons in Hw as [Hv Hw].
  set (m1 := set_reg r v m).
  assert (exec (Load r base off) m = m1) as Hstep by (unfold m1; cbn [exec]; by rewrite Z.mod_small, Hv by lia).
  assert (m_reg m1 base = m_reg m base) as Hmb by (by apply set_reg_ne).
  destruct (IH m1 (off + 8) vs Hnd Hbase) as (Hm & Hsys & Hvs & Ho); [rewrite Hmb; by replace (m_reg m base + (off + 8)) with (m_reg m base + off + 8) by lia|lia..|].
  assert (m' = run (loads base (off + 8) rs) m1) as Heq.
  { unfold m'. cbn [loads]. change (run (?i :: ?l) m) with (run l (exec i m)). by rewrite Hstep. }
  rewrite <- Heq in *. split_and!; [done|done| |].
  - rewrite fmap_cons, Hvs. f_equal. rewrite Ho by done. apply set_reg_eq.
  - intros r' [Hne Hr']%not_elem_of_cons. rewrite Ho by done. by apply set_reg_ne.
Qed.

Lemma run_app l1 l2 m : run (l1 ++ l2) m = run l2 (run l1 m).
Proof. apply foldl_app. Qed.

Definition apart (p n q k : Z) : Prop := p + n ≤ q ∨ q + k ≤ p.

(** The registers and flags hold 64-bit values. *)
Definition machine_ok (m : machine) : Prop := (∀ r, u64 (m_reg m r)) ∧ u64 (m_flags m).

Lemma words_apart x x' p n q l : same_outside p n x x' → apart p n q (8 * Z.of_nat (length l)) → words x q l → words x' q l.
Proof. intros Ho Ha. apply words_ext. intros a Ha'. apply Ho. destruct Ha; lia. Qed.

Lemma save_spec rp m : machine_ok m → u64 rp → m_reg m RDI + 72 ≤ U64 → 8 ≤ m_reg m RSP → apart (m_reg m RDI) 72 (m_reg m RSP - 8) 8 →
  let m' := run (context_switch_save rp) m in
  words (m_mem m') (m_reg m RDI) (context_words (cpu rp m)) ∧ (∀ r, r ≠ RAX → m_reg m' r = m_reg m r) ∧ same_system m m' ∧
  (∀ a, ¬ (m_reg m RDI ≤ a < m_reg m RDI + 72) → ¬ (m_reg m RSP - 8 ≤ a < m_reg m RSP) → m_mem m' a = m_mem m a).
Proof.
  intros [Hu Hf] Hrp Hb Hsp Hap m'. set (p := m_reg m RDI) in *. set (sp := m_reg m RSP) in *. pose proof (Hu RDI) as Hu1. pose proof (Hu RSP) as Hu2.
  unfold u64 in Hu1, Hu2. fold p in Hu1. fold sp in Hu2.
  destruct (run_stores RDI [R15; R14; R13; R12; RBX; RBP; RSP] 0 m Hu) as (x & Hx & Hw & Ho); [fold p; lia|cbn [length]; fold p; lia|].
  fold p in Hw, Ho. rewrite Z.add_0_r in Hw, Ho. cbn [length] in Ho. change (8 * Z.of_nat 7) with 56 in Ho.
  assert (m' = run [Lea RAX rp; Store RDI 0x38 RAX; Pushfq; PopMem RDI 0x40] (set_mem x m)) as Hm.
  { unfold m'. rewrite <- Hx, <- run_app. done. }
  set (x1 := store64 x (p + 56) rp). set (x2 := store64 x1 (sp - 8) (m_flags m)). set (x3 := store64 x2 (p + 64) (m_flags m)).
  assert (m_mem m' = x3 ∧ (∀ r, r ≠ RAX → m_reg m' r = m_reg m r) ∧ same_system m m') as (Hmem & Hreg & Hsys).
  { rewrite Hm. cbn -[store64 load64 Z.modulo Z.add Z.sub]. fold p sp. rewrite !(Z.mod_small (p + _)), !(Z.mod_small (sp - 8)) by lia.
    unfold top. cbn -[store64 load64 Z.modulo Z.add Z.sub]. fold x1. fold x2. rewrite load64_store64 by done. split_and!; [done| |done].
    intros r Hr. cbn. destruct (decide (r = RSP)) as [->|]; [|by rewrite decide_False].
    rewrite !decide_True by done. replace (sp - 8 + 8) with sp by lia. apply Z.mod_small. lia. }
  assert (same_outside (sp - 8) 8 x1 x2 ∧ same_outside (p + 56) 8 x x1 ∧ same_outside (p + 64) 8 x2 x3) as (O2 & O1 & O3)
    by (split_and!; apply store64_outside).
  split_and!; [|done|done|].
  - rewrite Hmem. change (context_words (cpu rp m)) with ((m_reg m <$> [R15; R14; R13; R12; RBX; RBP; RSP]) ++ [rp] ++ [m_flags m]).
    rewrite !words_app. cbn [length fmap list_fmap]. change (8 * Z.of_nat 7) with 56. change (8 * Z.of_nat 1) with 8.
    assert (apart p 72 (sp - 8) 8) as Hap' by done. unfold apart in *. split_and!.
    + eapply words_apart; [exact O3|unfold apart; cbn [length]; lia|]. eapply words_apart; [exact O2|unfold apart; cbn [length]; lia|].
      eapply words_apart; [exact O1|unfold apart; cbn [length]; lia|done].
    + eapply words_apart; [exact O3|unfold apart; cbn [length]; lia|]. eapply words_apart; [exact O2|unfold apart; cbn [length]; lia|].
      rewrite words_cons. split; [by apply load64_store64|apply words_nil].
    + rewrite words_cons. split; [|apply words_nil]. replace (p + 56 + 8) with (p + 64) by lia. by apply load64_store64.
  - intros a Ha Hs. rewrite Hmem, O3, O2, O1 by lia. apply Ho. lia.
Qed.

Definition context_ok (c : Context) : Prop := Forall u64 (context_words c) ∧ 8 ≤ rsp c.

(** The last instructions of the switch, when the registers are loaded. *)
Lemma load_tail m c : 0 ≤ m_reg m RSI → m_reg m RSI + 72 ≤ U64 → m_reg m RSP = rsp c → 8 ≤ rsp c < U64 → u64 (rflags c) →
  load64 (m_mem m) (m_reg m RSI + 56) = rip c → load64 (m_mem m) (m_reg m RSI + 64) = rflags c → apart (m_reg m RSI) 72 (rsp c - 8) 8 →
  let m' := run [Load RAX RSI 0x40; Push RAX; Popfq; Load RAX RSI 0x38] m in
  m_mem m' = store64 (m_mem m) (rsp c - 8) (rflags c) ∧ m_flags m' = rflags c ∧ (∀ s, m_seg m' s = m_seg m s) ∧ m_reg m' RAX = rip c ∧
  ∀ r, r ≠ RAX → m_reg m' r = m_reg m r.
Proof.
  intros H0 Hb Hsp Hr Hf Hrip Hfl Hap m'.
  set (m1 := set_reg RAX (rflags c) m).
  assert (exec (Load RAX RSI 0x40) m = m1) as E1 by (cbn [exec]; by rewrite Z.mod_small, Hfl by lia).
  set (x := store64 (m_mem m) (rsp c - 8) (rflags c)). set (m2 := set_mem x (set_reg RSP (rsp c - 8) m1)).
  assert (exec (Push RAX) m1 = m2) as E2.
  { cbn [exec]. unfold push. assert (m_reg m1 RSP = rsp c) as -> by (unfold m1; by rewrite set_reg_ne). rewrite Z.mod_small by lia.
    unfold m1 at 2. by rewrite set_reg_eq. }
  set (m3 := set_flags (rflags c) (set_reg RSP (rsp c) m2)).
  assert (m_reg m2 RSP = rsp c - 8) as Hm2 by (unfold m2; apply (set_reg_eq RSP (rsp c - 8) m1)).
  assert (exec Popfq m2 = m3) as E3.
  { cbn [exec]. unfold top, drop_top. rewrite Hm2. replace (rsp c - 8 + 8) with (rsp c) by lia. rewrite Z.mod_small by lia.
    unfold m2 at 1. cbn [m_mem set_mem]. unfold x. by rewrite load64_store64. }
  assert (m_reg m3 RSI = m_reg m RSI) as Hm3 by done.
  assert (exec (Load RAX RSI 0x38) m3 = set_reg RAX (rip c) m3) as E4.
  { cbn [exec]. rewrite Hm3, Z.mod_small by lia. f_equal. change (m_mem m3) with x. unfold x. rewrite load64_store64_ne; [done|].
    unfold apart in Hap. lia. }
  assert (m' = set_reg RAX (rip c) m3) as ->.
  { unfold m', run. cbn [foldl]. by rewrite E1, E2, E3, E4. }
  split_and!; try done. intros r Hr'. rewrite set_reg_ne by done. unfold m3, m2, m1. cbn. destruct (decide (r = RSP)) as [->|]; [done|].
  by rewrite decide_False.
Qed.

Lemma load_spec m c : m_reg m RSI + 72 ≤ U64 → 0 ≤ m_reg m RSI → words (m_mem m) (m_reg m RSI) (context_words c) → context_ok c →
  apart (m_reg m RSI) 72 (rsp c - 8) 8 →
  let m' := run context_switch_load m in
  cpu (m_reg m' RAX) m' = c ∧ (∀ r, r ∉ RAX :: RSP :: callee_saved → m_reg m' r = m_reg m r) ∧
  (∀ s, m_seg m' s = m_seg m s) ∧ same_outside (rsp c - 8) 8 (m_mem m) (m_mem m').
Proof.
  intros Hb H0 Hw [Hu Hsp] Hap m'. set (p := m_reg m RSI) in *.
  change (context_words c) with ([r15 c; r14 c; r13 c; r12 c; rbx c; rbp c; rsp c] ++ [rip c; rflags c]) in Hw.
  apply words_app in Hw as [Hw1 Hw2]. cbn [length] in Hw2. change (8 * Z.of_nat 7) with 56 in Hw2.
  rewrite !words_cons in Hw2. destruct Hw2 as (Hrip & Hfl & _). replace (p + 56 + 8) with (p + 64) in Hfl by lia.
  unfold context_words in Hu. rewrite !Forall_cons in Hu. destruct Hu as (_ & _ & _ & _ & _ & _ & Hursp & Hurip & Huf & _). unfold u64 in Hursp.
  destruct (run_loads RSI [R15; R14; R13; R12; RBX; RBP; RSP] 0 m [r15 c; r14 c; r13 c; r12 c; rbx c; rbp c; rsp c]) as (Hm & (Hseg & _) & Hvs & Ho);
    [by apply (bool_decide_unpack _); vm_compute|by apply (bool_decide_unpack _); vm_compute|fold p; by rewrite Z.add_0_r|done|fold p; lia|cbn [length]; fold p; lia|].
  set (m1 := run (loads RSI 0 [R15; R14; R13; R12; RBX; RBP; RSP]) m) in *.
  assert (m' = run [Load RAX RSI 0x40; Push RAX; Popfq; Load RAX RSI 0x38] m1) as Hm'.
  { unfold m', m1. rewrite <- run_app. f_equal. }
  clearbody m1 m'.
  cbn [fmap list_fmap] in Hvs. injection Hvs as E15 E14 E13 E12 Ebx Ebp Esp.
  assert (RSI ∉ [R15; R14; R13; R12; RBX; RBP; RSP]) as Hrsi by (apply (bool_decide_unpack _); by vm_compute).
  assert (m_reg m1 RSI = p) as Ersi by exact (Ho RSI Hrsi).
  destruct (load_tail m1 c) as (Hmem & Hflags & Hsegs & Hrax & Hreg); rewrite ?Ersi, ?Hm; try done; [lia|].
  rewrite <- Hm' in Hmem, Hflags, Hsegs, Hrax, Hreg. rewrite Hm in Hmem.
  split_and!; try done.
  - unfold cpu. rewrite Hrax, Hflags. rewrite !Hreg by done. rewrite E15, E14, E13, E12, Ebx, Ebp, Esp. by destruct c.
  - intros r [Hrax' Hr]%not_elem_of_cons. rewrite Hreg by done. apply Ho. intros Hin. apply Hr.
    change [R15; R14; R13; R12; RBX; RBP; RSP] with (callee_saved ++ [RSP]) in Hin. apply elem_of_app in Hin as [?|Hin]; [by right|].
    apply elem_of_cons in Hin as [->|Hin]; [left|by apply elem_of_nil in Hin].
  - intros s. rewrite Hsegs. apply Hseg.
  - rewrite Hmem. apply store64_outside.
Qed.

(** A machine at the first instruction of [context_switch]: the contexts at rdi
    and rsi and the words below the two stacks do not overlap. *)
Record at_switch (m : machine) (c : Context) : Prop := {
  as_machine : machine_ok m;
  as_context : context_ok c;
  as_next : words (m_mem m) (m_reg m RSI) (context_words c);
  as_bounds : m_reg m RDI + 72 ≤ U64 ∧ m_reg m RSI + 72 ≤ U64 ∧ 8 ≤ m_reg m RSP;
  as_apart : apart (m_reg m RDI) 72 (m_reg m RSI) 72;
  as_stack : apart (m_reg m RDI) 72 (m_reg m RSP - 8) 8 ∧ apart (m_reg m RSI) 72 (m_reg m RSP - 8) 8;
  as_next_stack : apart (m_reg m RDI) 72 (rsp c - 8) 8 ∧ apart (m_reg m RSI) 72 (rsp c - 8) 8
}.

Lemma context_switch_spec rp m c : at_switch m c → u64 rp →
  let '(target, m') := context_switch rp m in
  cpu target m' = c ∧ (∀ r, r ∉ RAX :: RSP :: callee_saved → m_reg m' r = m_reg m r) ∧ (∀ s, m_seg m' s = m_seg m s) ∧
  words (m_mem m') (m_reg m RDI) (context_words (cpu rp m)) ∧ words (m_mem m') (m_reg m RSI) (context_words c) ∧
  ∀ a, ¬ (m_reg m RDI ≤ a < m_reg m RDI + 72) → ¬ (m_reg m RSP - 8 ≤ a < m_reg m RSP) → ¬ (rsp c - 8 ≤ a < rsp c) → m_mem m' a = m_mem m a.
Proof.
  intros [Hm Hc Hw (Hb1 & Hb2 & Hsp) Hap [Hs1 Hs2] [Hn1 Hn2]] Hrp. unfold context_switch. rewrite run_app.
  destruct (save_spec rp m Hm Hrp Hb1 Hsp Hs1) as (Hsave & Hreg & [Hseg _] & Hout). set (m1 := run (context_switch_save rp) m) in *. clearbody m1.
  assert (m_reg m1 RSI = m_reg m RSI) as Hrsi by (by apply Hreg). unfold apart in *.
  assert (words (m_mem m1) (m_reg m1 RSI) (context_words c)) as Hw1.
  { rewrite Hrsi. eapply words_ext; [|exact Hw]. cbn [length context_words]. intros a Ha. apply Hout; lia. }
  destruct Hm as [Hu _]. pose proof (Hu RSI) as Hu'. unfold u64 in Hu'.
  destruct (load_spec m1 c) as (Hcpu & Hregs & Hsegs & Hmem); rewrite ?Hrsi; [lia|lia|by rewrite <- Hrsi|done|done|].
  set (m2 := run context_switch_load m1) in *. clearbody m2. split_and!; [done| | | | |].
  - intros r Hr. rewrite Hregs by done. apply Hreg. by apply not_elem_of_cons in Hr as [? _].
  - intros s. rewrite Hsegs. apply Hseg.
  - eapply words_apart; [exact Hmem| |done]. unfold apart. cbn [length context_words]. lia.
  - rewrite <- Hrsi. eapply words_apart; [exact Hmem| |done]. unfold apart. rewrite Hrsi. cbn [length context_words]. lia.
  - intros a H1 H2 H3. rewrite Hmem by lia. by apply Hout.
Qed.

(** C14. The context switch.  The routine writes the registers of the caller, with
    the return point as the instruction pointer, to the [Context] at rdi, and
    continues at the instruction pointer of the [Context] at rsi with its
    registers and flags: the step the scheduler's [context_switch] takes.  Apart
    from that [Context] and the word below each stack no memory changes. *)
Theorem context_switch_correct rp m c : at_switch m c → u64 rp →
  let '(target, m') := context_switch rp m in
  target = rip c ∧ cpu target m' = c ∧
  words (m_mem m') (m_reg m RDI) (context_words (Sched.saved_context rp (cpu 0 m))) ∧ words (m_mem m') (m_reg m RSI) (context_words c) ∧
  ∀ a, ¬ (m_reg m RDI ≤ a < m_reg m RDI + 72) → ¬ (m_reg m RSP - 8 ≤ a < m_reg m RSP) → ¬ (rsp c - 8 ≤ a < rsp c) → m_mem m' a = m_mem m a.
Proof.
  intros Hat Hrp. pose proof (context_switch_spec rp m c Hat Hrp) as H. destruct (context_switch rp m) as [target m'].
  destruct H as (Hcpu & _ & _ & Hs & Hn & Hout). split; [by rewrite <- Hcpu|]. split; [done|]. by split_and!.
Qed.

Lemma cpu_inj rp rp' m m' : cpu rp' m' = cpu rp m → rp' = rp ∧ m_flags m' = m_flags m ∧
  ∀ r, r ∈ RSP :: callee_saved → m_reg m' r = m_reg m r.
Proof.
  intros [= ? ? ? ? ? ? ? ? ?]. split_and!; try done. intros r Hr. repeat (apply elem_of_cons in Hr as [->|Hr]; [done|]). by apply elem_of_nil in Hr.
Qed.

(** C17. A switch away and back.  When the processor is later switched to the
    [Context] a call of [context_switch] saved, and neither that [Context] nor the
    word on top of the caller's stack was changed in between, the call returns: to
    its return address, with the stack pointer above it, and with the callee-saved
    registers and the flags it was called with. *)
Theorem context_switch_returns rp m c m2 : at_switch m c → u64 rp →
  (∀ a, m_reg m RDI ≤ a < m_reg m RDI + 72 → m_mem m2 a = m_mem (context_switch rp m).2 a) →
  (∀ a, m_reg m RSP ≤ a < m_reg m RSP + 8 → m_mem m2 a = m_mem m a) →
  m_reg m2 RSI = m_reg m RDI → at_switch m2 (cpu rp m) → m_reg m RSP + 8 < U64 →
  apart (m_reg m2 RDI) 72 (m_reg m RSP) 8 → apart (m_reg m2 RSP - 8) 8 (m_reg m RSP) 8 →
  let '(target, m3) := context_switch rp m2 in
  let '(resumed, m4) := ret m3 in
  target = rp ∧ resumed = load64 (m_mem m) (m_reg m RSP) ∧ m_reg m4 RSP = m_reg m RSP + 8 ∧ m_flags m4 = m_flags m ∧
  ∀ r, r ∈ callee_saved → m_reg m4 r = m_reg m r.
Proof.
  intros Hat Hrp Hctx Hstack Hrsi Hat2 Hb Ha1 Ha2. pose proof (context_switch_spec rp m2 (cpu rp m) Hat2 Hrp) as H2.
  destruct (context_switch rp m2) as [target m3]. destruct H2 as (Hcpu & _ & _ & _ & _ & Hout).
  apply cpu_inj in Hcpu as (-> & Hfl & Hreg). destruct (as_machine _ _ Hat) as [Hu _]. pose proof (Hu RSP) as Hsp. unfold u64 in Hsp.
  assert (m_reg m3 RSP = m_reg m RSP) as Hrsp by (apply Hreg; left). unfold apart in *. cbn [ret]. split_and!; [done| | |done|].
  - unfold top. rewrite Hrsp. apply load64_ext. intros a Ha. rewrite <- Hstack by done. apply Hout; [lia..|]. cbn [cpu rsp]. lia.
  - unfold drop_top. rewrite set_reg_eq, Hrsp, Z.mod_small by lia. done.
  - intros r Hr. unfold drop_top. rewrite set_reg_ne; [apply Hreg; by right|]. intros ->. by apply rsp_not_callee_saved.
Qed.

(** ** Entering user mode *)

Lemma iretq_spec m sp v0 v1 v2 v3 v4 l : stack m sp (v0 :: v1 :: v2 :: v3 :: v4 :: l) → 0 ≤ sp → sp + 40 ≤ U64 →
  iretq m = (v0, set_reg RSP v3 (set_flags v2 (set_seg SS (v4 mod 65536) (set_seg CS (v1 mod 65536) m)))).
Proof.
  intros [Hsp Hw] H0 Hb. unfold iretq. rewrite Hsp. rewrite !words_cons in Hw. destruct Hw as (W0 & W1 & W2 & W3 & W4 & _).
  assert (∀ i, 0 ≤ i ≤ 4 → (sp + 8 * i) mod U64 = sp + 8 * i) as Hm by (intros; apply Z.mod_small; lia). rewrite !Hm by lia.
  replace (sp + 8 * 0) with sp by lia. replace (sp + 8 * 1) with (sp + 8) by lia. replace (sp + 8 * 2) with (sp + 8 + 8) by lia.
  replace (sp + 8 * 3) with (sp + 8 + 8 + 8) by lia. replace (sp + 8 * 4) with (sp + 8 + 8 + 8 + 8) by lia.
  by rewrite W0, W1, W2, W3, W4.
Qed.

Definition USER_CS : Z := 0x1B.
Definition USER_DS : Z := 0x23.

(** A processor in user mode at an address, with a stack. *)
Definition in_user_mode (entry stack_top : Z) (r : Z * machine) : Prop :=
  r.1 = entry ∧ m_reg r.2 RSP = stack_top ∧ m_flags r.2 = 0x202 ∧ m_seg r.2 CS = USER_CS ∧ m_seg r.2 SS = USER_DS ∧
  ∀ s, s ≠ CS → s ≠ SS → m_seg r.2 s = USER_DS.

Lemma low16_mod v x : 0 ≤ v → 0 ≤ x < 65536 → low16 v x mod 65536 = x.
Proof.
  intros Hv Hx. unfold low16. rewrite (Z.mod_small x) by lia. pose proof (Z.div_mod v 65536 ltac:(lia)) as Hd.
  replace (v - v mod 65536) with (65536 * (v / 65536)) by lia. rewrite Z.mul_comm, Z.add_comm, Z.mod_add by lia. by apply Z.mod_small.
Qed.

Lemma enter_user_mode_spec m : u64 (m_reg m R15) → u64 (m_reg m R14) → 0 ≤ m_reg m RBX → 40 ≤ m_reg m RSP < U64 →
  in_user_mode (m_reg m R15) (m_reg m R14) (enter_user_mode m).
Proof.
  intros H15 H14 Hbx Hsp. unfold enter_user_mode.
  set (first := [Mov RAX R15; Mov RDX R14; MovI16 RBX 0x23; MovSeg DS RBX; MovSeg ES RBX; MovSeg FS RBX; MovSeg GS RBX; MovI RCX 0x202]).
  set (m1 := run first m).
  assert (m_reg m1 RAX = m_reg m R15 ∧ m_reg m1 RDX = m_reg m R14 ∧ m_reg m1 RCX = 0x202 ∧ m_reg m1 RSP = m_reg m RSP ∧
    ∀ s, s ≠ CS → s ≠ SS → m_seg m1 s = USER_DS) as (Hax & Hdx & Hcx & Hs & Hseg).
  { assert (low16 (m_reg m RBX) 0x23 mod 65536 = USER_DS) as Hl by (by apply low16_mod).
    split_and!; [reflexivity..|]. intros [] ? ?; first [done|exact Hl]. }
  assert (run enter_user_mode_code m = pushes [0x23; m_reg m R14; 0x202; 0x1B; m_reg m R15] m1) as ->.
  { change enter_user_mode_code with (first ++ [PushI 0x23; Push RDX; Push RCX; PushI 0x1B; Push RAX]). rewrite run_app. fold m1. clearbody m1.
    unfold run, pushes. cbn [foldl exec]. rewrite !push_reg, Hax, Hdx, Hcx by done. reflexivity. }
  clearbody m1. destruct (pushes_spec [0x23; m_reg m R14; 0x202; 0x1B; m_reg m R15] m1 (m_reg m RSP) []) as (Hst & Hc & _).
  - by split.
  - cbn [length]. lia.
  - rewrite !Forall_cons. split_and!; [split; done|exact H14|split; done|split; done|exact H15|apply Forall_nil_2].
  - set (m2 := pushes _ m1) in *. clearbody m2. set (sp := m_reg m RSP - _) in *.
    assert (sp = m_reg m RSP - 40) as Hsp2 by done. clearbody sp.
    assert (stack m2 sp [m_reg m R15; 0x1B; 0x202; m_reg m R14; 0x23]) as Hst2 by exact Hst.
    rewrite (iretq_spec m2 _ _ _ _ _ _ _ Hst2) by lia. unfold in_user_mode. cbn [fst snd]. split_and!; [reflexivity..|].
    intros s Hcs Hss. rewrite <- (Hseg s Hcs Hss), <- (sc_seg _ _ Hc s). cbn [m_seg set_reg set_flags set_seg]. by rewrite !decide_False.
Qed.

(** C32. The first run of a user process.  When the scheduler switches to a process
    that [Process::new_user] made, control goes through [enter_user_mode] to the
    entry point of the program, in user mode with the user selectors, interrupts
    on, and the stack pointer at the top of the process's stack. *)
Theorem user_entry_correct rp m enter entry stack_top top : u64 rp → 40 ≤ top → u64 entry → u64 stack_top →
  at_switch m (Program.user_context enter entry stack_top top) →
  let '(target, m') := context_switch rp m in
  target = enter ∧ in_user_mode entry stack_top (enter_user_mode m').
Proof.
  intros Hrp Htop He Hst Hat. pose proof (context_switch_spec rp m _ Hat Hrp) as H. destruct (context_switch rp m) as [target m'].
  destruct H as (Hcpu & _). assert (target = enter) as -> by (by injection Hcpu). split; [done|].
  assert (m_reg m' R15 = entry ∧ m_reg m' R14 = stack_top ∧ m_reg m' RSP = top) as (E15 & E14 & Esp) by (by injection Hcpu).
  assert (m_reg m' RBX = 0) as Ebx by (by injection Hcpu).
  destruct (as_context _ _ Hat) as [Hc _]. unfold context_words in Hc. rewrite !Forall_cons in Hc. destruct Hc as (_ & _ & _ & _ & _ & _ & Hsp & _).
  unfold u64 in Hsp. cbn [Program.user_context rsp] in Hsp.
  rewrite <- E15, <- E14. apply enter_user_mode_spec; rewrite ?E15, ?E14, ?Ebx, ?Esp; done || lia.
Qed.

(** ** Concrete instances *)

Definition example_reg (rsp : Z) (r : reg) : Z :=
  match r with
  | RAX => 1 | RBX => 2 | RCX => 3 | RDX => 4 | RSI => 0x6000 | RDI => 0x5000 | RBP => 7 | RSP => rsp
  | R8 => 8 | R9 => 9 | R10 => 10 | R11 => 11 | R12 => 12 | R13 => 13 | R14 => 14 | R15 => 15
  end.
Definition example_seg (s : seg) : Z := match s with CS => 0x08 | _ => 0x10 end.
Definition store_words (x : mem) (p : Z) (l : list Z) : mem := store_bytes x p (mjoin (le_bytes 8 <$> l)).

Fixpoint words_b (x : mem) (sp : Z) (l : list Z) : bool :=
  match l with [] => true | v :: l => (load64 x sp =? v) && words_b x (sp + 8) l end.
Lemma words_b_ok x sp l : words_b x sp l = true → words x sp l.
Proof.
  revert sp. induction l as [|v l IH]; intros sp H; [apply words_nil|]. cbn [words_b] in H. apply andb_prop in H as [H1 H2].
  apply words_cons. split; [by apply Z.eqb_eq|by apply IH].
Qed.

(** A machine that calls [context_switch] to switch to [c]. *)
Definition example_switch (c : Context) : machine :=
  mkMachine (example_reg 0x9000) example_seg 0x202 0 0 (store_words (λ _, 0) 0x6000 (context_words c)).
Definition example_context : Context := mkContext 115 114 113 112 103 107 0x8000 0xFFFF800000001234 0x246.

Lemma example_switch_ok c : Forall u64 (context_words c) → 8 ≤ rsp c → words (m_mem (example_switch c)) 0x6000 (context_words c) →
  apart 0x5000 72 (rsp c - 8) 8 → apart 0x6000 72 (rsp c - 8) 8 → at_switch (example_switch c) c.
Proof.
  intros Hu Hsp Hw H1 H2. split; try done.
  - split; [|by split]. intros []; by split.
  - by left.
  - split; by left.
Qed.

Lemma example_context_ok : at_switch (example_switch example_context) example_context.
Proof.
  apply example_switch_ok.
  - repeat (apply Forall_cons_2; [by split|]). apply Forall_nil_2.
  - done.
  - apply words_b_ok. vm_compute. reflexivity.
  - by left.
  - by left.
Qed.

Lemma context_switch_correct_witness : (context_switch 0x4000 (example_switch example_context)).1 = 0xFFFF800000001234.
Proof.
  pose proof (context_switch_correct 0x4000 _ _ example_context_ok ltac:(by split)) as H.
  destruct (context_switch 0x4000 _) as [target m']. exact (proj1 H).
Defined.

Lemma user_entry_correct_witness : ∃ m, (context_switch 0x4000 (example_switch (Program.user_context 0x3000 0x400000 0x7FFFF000 0x8000))) = (0x3000, m) ∧
  in_user_mode 0x400000 0x7FFFF000 (enter_user_mode m).
Proof.
  assert (at_switch (example_switch (Program.user_context 0x3000 0x400000 0x7FFFF000 0x8000)) (Program.user_context 0x3000 0x400000 0x7FFFF000 0x8000)) as Hat.
  { apply example_switch_ok.
    - repeat (apply Forall_cons_2; [by split|]). apply Forall_nil_2.
    - done.
    - apply words_b_ok. vm_compute. reflexivity.
    - by left.
    - by left. }
  pose proof (user_entry_correct 0x4000 _ 0x3000 0x400000 0x7FFFF000 0x8000 ltac:(by split) ltac:(lia) ltac:(by split) ltac:(by split) Hat) as H.
  destruct (context_switch 0x4000 _) as [target m']. destruct H as [-> H]. exists m'. split; [reflexivity|exact H].
Defined.

(** Later the other side switches back, with memory [x]. *)
Definition example_back (x : mem) : machine :=
  mkMachine (λ r, match r with RSI => 0x5000 | RDI => 0x6000 | _ => example_reg 0x8000 r end) example_seg 0x246 0 0 x.

Lemma example_back_mem x : m_mem (example_back x) = x.
Proof. done. Qed.

Lemma example_back_ok x : words x 0x5000 (context_words (cpu 0x4000 (example_switch example_context))) →
  at_switch (example_back x) (cpu 0x4000 (example_switch example_context)).
Proof.
  intros Hw. split; [| |exact Hw|done| | |].
  - split; [|by split]. intros []; by split.
  - split; [|done]. repeat (apply Forall_cons_2; [by split|]). apply Forall_nil_2.
  - by right.
  - split; by left.
  - split; by left.
Qed.

Lemma context_switch_returns_witness : ∃ x, (context_switch 0x4000 (example_back x)).1 = 0x4000.
Proof.
  pose proof (context_switch_spec 0x4000 _ _ example_context_ok ltac:(by split)) as Hs.
  pose proof (context_switch_returns 0x4000 (example_switch example_context) example_context
    (example_back (m_mem (context_switch 0x4000 (example_switch example_context)).2)) example_context_ok ltac:(by split)) as H.
  rewrite example_back_mem in H. destruct (context_switch 0x4000 (example_switch example_context)) as [t m']. cbn [snd] in *.
  destruct Hs as (_ & _ & _ & Hw & _ & Hout). exists (m_mem m'). revert H Hw Hout. generalize (m_mem m'). intros x H Hw Hout.
  assert (∀ a, 0x9000 ≤ a < 0x9008 → x a = m_mem (example_switch example_context) a) as Hm by (intros a Ha; apply Hout; cbn; lia).
  specialize (H (λ a _, eq_refl) Hm eq_refl (example_back_ok x Hw) ltac:(cbn; lia) ltac:(by left) ltac:(by left)).
  destruct (context_switch 0x4000 (example_back x)) as [target m3]. destruct (ret m3) as [resumed m4]. exact (proj1 H).
Defined.

End AsmSpec.
