(* ===== verification/Syscall.v ===== *)
(** * System calls: src/src/arch/x86_64/kernel/syscall.rs, and [open_path] of
    src/src/kernel/process/mod.rs

    The calls run on the whole kernel.  A call gives the value it leaves in rax,
    or does not return ([exit]); a call that switches to another process returns
    when its caller runs again.  The kernel's buffers come from the heap and are
    released when the call ends. *)

From S2P Require Import Prelude Mem Heap Phys Paging RawVec Types UserMem Drivers Vfs Process Sched SchedSpec SchedSteps Fds Elf Loader Fat Program.
Local Open Scope Z_scope.

Module Syscall.
Import Paging UserMem Proc Sched SchedSpec SchedSteps Fds Program.

(** *** Numbers and errors *)

Module nr.
Definition READ : Z := 0.
Definition WRITE : Z := 1.
Definition OPEN : Z := 2.
Definition CLOSE : Z := 3.
Definition SEEK : Z := 8.
Definition YIELD : Z := 24.
Definition EXIT : Z := 60.
End nr.

Inductive SeekWhence := Set_ | Cur | End_.
Definition as_raw (w : SeekWhence) : Z := match w with Set_ => 0 | Cur => 1 | End_ => 2 end.

Definition ERR_BADF : Z := U64 - 1.
Definition ERR_FAULT : Z := U64 - 2.
Definition ERR_NOSYS : Z := U64 - 3.
Definition ERR_INVAL : Z := U64 - 4.
Definition ERR_NOENT : Z := U64 - 5.
Definition ERR_NOMEM : Z := U64 - 6.
Definition ERR_IO : Z := U64 - 7.

Inductive SysError := BadFileDescriptor | Fault | NoSys | InvalidArgument | NoEntry | NoMemory | SysIo.

Definition decode_ret (value : Z) : comp SysError Z :=
  if value =? ERR_BADF then Err BadFileDescriptor
  else if value =? ERR_FAULT then Err Fault
  else if value =? ERR_NOSYS then Err NoSys
  else if value =? ERR_INVAL then Err InvalidArgument
  else if value =? ERR_NOENT then Err NoEntry
  else if value =? ERR_NOMEM then Err NoMemory
  else if value =? ERR_IO then Err SysIo
  else Ok value.

Definition encode_error (err : SysError) : Z :=
  match err with
  | BadFileDescriptor => ERR_BADF | Fault => ERR_FAULT | NoSys => ERR_NOSYS | InvalidArgument => ERR_INVAL
  | NoEntry => ERR_NOENT | NoMemory => ERR_NOMEM | SysIo => ERR_IO
  end.

Definition decode_seek (offset whence : Z) : comp SysError SeekFrom :=
  if whence =? 0 then if as_i64 offset <? 0 then Err InvalidArgument else Ok (SeekStart offset)
  else if whence =? 1 then Ok (SeekCurrent (as_i64 offset))
  else if whence =? 2 then Ok (SeekEnd (as_i64 offset))
  else Err InvalidArgument.

Definition map_file_io_error (err : Vfs.FileIoError) : SysError :=
  match err with
  | Vfs.IoDriver Unsupported => InvalidArgument
  | Vfs.IoDriver IoError => SysIo
  | Vfs.IoDriver RegistryFull => NoMemory
  | Vfs.IoDriver InitFailed => SysIo
  | Vfs.IoVfs VfsUnsupported => InvalidArgument
  | Vfs.IoVfs InvalidOffset => InvalidArgument
  | Vfs.IoVfs VfsIo => SysIo
  end.

(** [str::from_utf8]: the well-formed sequences of the Unicode standard. *)
Definition between (lo hi b : Z) : bool := (lo <=? b) && (b <=? hi).
Definition continuation : Z → bool := between 0x80 0xBF.

Fixpoint utf8_valid (l : list Z) : bool :=
  match l with
  | [] => true
  | a :: l1 =>
      if a <? 0x80 then utf8_valid l1
      else
        match l1 with
        | [] => false
        | b :: l2 =>
            if between 0xC2 0xDF a then continuation b && utf8_valid l2
            else
              match l2 with
              | [] => false
              | c :: l3 =>
                  if between 0xE0 0xEF a then
                    between (if a =? 0xE0 then 0xA0 else 0x80) (if a =? 0xED then 0x9F else 0xBF) b && continuation c && utf8_valid l3
                  else
                    match l3 with
                    | [] => false
                    | d :: l4 =>
                        between 0xF0 0xF4 a && between (if a =? 0xF0 then 0x90 else 0x80) (if a =? 0xF4 then 0x8F else 0xBF) b &&
                        continuation c && continuation d && utf8_valid l4
                    end
              end
        end
  end.

(** What precedes the first zero byte. *)
Fixpoint before_zero (l : list Z) : list Z :=
  match l with
  | [] => []
  | b :: l => if b =? 0 then [] else b :: before_zero l
  end.

(** The frame [syscall_entry] builds on the stack. *)
Record SyscallFrame := mkFrame {
  f_r9 : Z; f_r8 : Z; f_r10 : Z; f_rdx : Z; f_rsi : Z; f_rdi : Z; f_rax : Z; f_rip : Z; f_rflags : Z
}.
Definition frame_empty : SyscallFrame := mkFrame 0 0 0 0 0 0 0 0 0.

(** The frame of a call with three arguments. *)
Definition call_frame (number a b c : Z) : SyscallFrame := mkFrame 0 0 0 c b a number 0 0.

Inductive outcome := Returns (rax : Z) | Gone.

Section syscall.
Context {D F : Type} `{!FrameAlloc F}.
Abbreviation W := (world D F).
Abbreviation K := (kernel W).
Context (rp file_size : Z) (e : env W) (registry : Drivers.dstate W).

Definition on_heap {E A} (m : M (list Heap.ListNode) E A) : M K E A :=
  zoom (λ k : K, Heap.ga_free (k_heap k)) (λ l k, set_heap (Heap.mkAllocator l (Heap.ga_mem (k_heap k))) k) m.
Definition memory (k : K) : mem := pm_mem (w_pm (k_world k)).
Definition set_memory (m : mem) (k : K) : K := set_world (set_pm (mkPmem m (pm_fa (w_pm (k_world k)))) (k_world k)) k.
Definition on_hworld_k {E A} (m : M hworld E A) : M K E A :=
  zoom (λ k : K, (Heap.ga_free (k_heap k), k_world k))
    (λ h k, set_world h.2 (set_heap (Heap.mkAllocator h.1 (Heap.ga_mem (k_heap k))) k)) m.

(** Code without an error path. *)
Definition infallible {A} (c : comp ProcessError A) : comp Empty_set A :=
  match c with Ok a => Ok a | Err _ => Panic | Panic => Panic | Hang => Hang end.

(** A buffer for the time of a call. *)
Definition with_buffer {A} (ptr len : Z) (m : M K Empty_set A) : M K Empty_set A :=
  r ← m; _ ← on_heap (vec_drop ptr len); mret r.

(** *** Opening *)

Definition FAT_PREFIX : list Z := Fat.str_bytes "/fat/".

Definition map_fat_err (err : Fat.FatError) : ProcessError :=
  match err with Fat.FatIo => AllocationFailed | _ => PathNotFound end.

Definition descriptor_of (path : list Z) : M K ProcessError (Vfs.FileDescriptor W) :=
  match strip_prefix FAT_PREFIX path with
  | Some sub =>
      file ← map_err map_fat_err (on_hworld_k (open_fat file_size sub));
      mret (Vfs.FdVfs (Vfs.VfsHandle_new file))
  | None =>
      if bool_decide (path = Fat.str_bytes "/scratch") then
        file ← ok_or (scratch e) PathNotFound; mret (Vfs.FdVfs (Vfs.VfsHandle_new file))
      else if bool_decide (path = Fat.str_bytes "/dev/console") then mret (Vfs.FdChar (console e))
      else if bool_decide (path = Fat.str_bytes "/dev/null") then
        dev ← ok_or (Drivers.char_device_by_name "null" registry) PathNotFound; mret (Vfs.FdChar dev)
      else if bool_decide (path = Fat.str_bytes "/dev/zero") then
        dev ← ok_or (Drivers.char_device_by_name "zero" registry) PathNotFound; mret (Vfs.FdChar dev)
      else throw PathNotFound
  end.

Definition open_path (pid : Pid) (path : list Z) : M K ProcessError Z :=
  descriptor ← descriptor_of path;
  with_process_try pid (allocate_fd_slot descriptor).

Definition sys_open (path_ptr path_len _flags : Z) : M K Empty_set Z :=
  if (path_ptr =? 0) || (path_len =? 0) then mret ERR_INVAL
  else
    k ← Prelude.get;
    match current_address_space k with
    | None => mret ERR_BADF
    | Some space =>
        r ← attempt (on_heap (read_user_buffer (memory k) space path_ptr path_len));
        match r with
        | inr _ => mret ERR_FAULT
        | inl (buffer, bytes) =>
            with_buffer buffer path_len (
              let path := before_zero bytes in
              if negb (utf8_valid path) then mret ERR_INVAL
              else
                match current_pid k with
                | None => mret ERR_BADF
                | Some pid =>
                    r ← attempt (open_path pid path);
                    mret match r with
                         | inl fd => fd
                         | inr NoFreeFileDescriptors => encode_error NoMemory
                         | inr PathNotFound => encode_error NoEntry
                         | inr InvalidFileDescriptor => encode_error BadFileDescriptor
                         | inr _ => encode_error BadFileDescriptor
                         end
                end)
        end
    end.

(** *** Closing and seeking *)

Definition sys_close (fd : Z) : M K Empty_set Z :=
  k ← Prelude.get;
  match current_pid k with
  | None => mret ERR_BADF
  | Some pid =>
      r ← attempt (close_fd pid fd);
      mret match r with inl _ => 0 | inr _ => encode_error BadFileDescriptor end
  end.

(** The closures the calls pass to [with_fd_mut]: when the operation fails the
    descriptor is as it was. *)
Definition closure {A} (op : Vfs.FileDescriptor W → M W Vfs.FileIoError (A * Vfs.FileDescriptor W))
    (d : Vfs.FileDescriptor W) : M W Empty_set ((A + Vfs.FileIoError) * Vfs.FileDescriptor W) :=
  r ← attempt (op d);
  mret match r with inl (a, d') => (inl a, d') | inr err => (inr err, d) end.

Definition sys_seek (fd offset whence : Z) : M K Empty_set Z :=
  k ← Prelude.get;
  match current_pid k with
  | None => mret ERR_BADF
  | Some pid =>
      match decode_seek offset whence with
      | Ok seek_from =>
          r ← attempt (with_fd_mut pid fd (device_op (closure (λ d, Vfs.fd_seek d seek_from))));
          mret match r with
               | inl (inl new_offset) => new_offset
               | inl (inr err) => encode_error (map_file_io_error err)
               | inr _ => encode_error BadFileDescriptor
               end
      | Err err => mret (encode_error err)
      | Panic => panic
      | Hang => λ _, Hang
      end
  end.

(** *** Reading and writing *)

Definition sys_read (fd buf_ptr len : Z) : M K Empty_set Z :=
  if len =? 0 then mret 0
  else if buf_ptr =? 0 then mret ERR_FAULT
  else
    k ← Prelude.get;
    match current_address_space k with
    | None => mret ERR_BADF
    | Some space =>
        kernel_buffer ← on_heap (vec_zeroed len);
        with_buffer kernel_buffer len (
          match current_pid k with
          | None => mret ERR_BADF
          | Some pid =>
              r ← attempt (with_fd_mut pid fd (device_op (closure (λ d, Vfs.fd_read d len))));
              match r with
              | inl (inl bytes) =>
                  (* the slice panics when the device reports more than it was given *)
                  if len <? Z.of_nat (length bytes) then panic
                  else
                    c ← attempt (zoom memory set_memory (copy_to_user space buf_ptr bytes));
                    mret match c with inl _ => Z.of_nat (length bytes) | inr _ => ERR_FAULT end
              | inl (inr err) => mret (encode_error (map_file_io_error err))
              | inr _ => mret (encode_error BadFileDescriptor)
              end
          end)
    end.

Definition sys_write (fd buf_ptr len : Z) : M K Empty_set Z :=
  if len =? 0 then mret 0
  else if buf_ptr =? 0 then mret ERR_FAULT
  else
    k ← Prelude.get;
    match current_address_space k with
    | None => mret ERR_BADF
    | Some space =>
        r ← attempt (on_heap (read_user_buffer (memory k) space buf_ptr len));
        match r with
        | inr _ => mret ERR_FAULT
        | inl (buffer, bytes) =>
            with_buffer buffer len (
              match current_pid k with
              | None => mret ERR_BADF
              | Some pid =>
                  r ← attempt (with_fd_mut pid fd (device_op (closure (λ d, Vfs.fd_write d bytes))));
                  mret match r with
                       | inl (inl count) => count
                       | inl (inr err) => encode_error (map_file_io_error err)
                       | inr _ => encode_error BadFileDescriptor
                       end
              end)
        end
    end.

(** *** Yielding and exiting *)

Definition sys_yield : M K Empty_set Z := λ k,
  match infallible (yield_now rp k) with Ok k' => Ok (0, k') | Err x => match x with end | Panic => Panic | Hang => Hang end.

(** [(code & 0xFFFF_FFFF) as i32] *)
Definition exit_status (code : Z) : Z :=
  let low := Z.land code 0xFFFFFFFF in if low <? 2 ^ 31 then low else low - 2 ^ 32.

Definition sys_exit (code : Z) : M K Empty_set unit := λ k,
  match infallible (exit_current rp (exit_status code) k) with Ok k' => Ok (tt, k') | Err x => match x with end | Panic => Panic | Hang => Hang end.

Definition dispatch (frame : SyscallFrame) : M K Empty_set outcome :=
  let returns (m : M K Empty_set Z) : M K Empty_set outcome := r ← m; mret (Returns r) in
  if f_rax frame =? nr.READ then returns (sys_read (f_rdi frame) (f_rsi frame) (f_rdx frame))
  else if f_rax frame =? nr.WRITE then returns (sys_write (f_rdi frame) (f_rsi frame) (f_rdx frame))
  else if f_rax frame =? nr.OPEN then returns (sys_open (f_rdi frame) (f_rsi frame) (f_rdx frame))
  else if f_rax frame =? nr.CLOSE then returns (sys_close (f_rdi frame))
  else if f_rax frame =? nr.SEEK then returns (sys_seek (f_rdi frame) (f_rsi frame) (f_rdx frame))
  else if f_rax frame =? nr.YIELD then returns sys_yield
  else if f_rax frame =? nr.EXIT then _ ← sys_exit (f_rdi frame); mret Gone
  else mret (Returns ERR_NOSYS).

(** *** The kernel's own calls *)

Definition kernel_call (frame : SyscallFrame) : M K Empty_set (option (comp SysError Z)) :=
  r ← dispatch frame;
  mret match r with Returns v => Some (decode_ret v) | Gone => None end.

Definition write (fd ptr len : Z) := kernel_call (call_frame nr.WRITE fd ptr len).
Definition read (fd ptr len : Z) := kernel_call (call_frame nr.READ fd ptr len).
Definition open (ptr len : Z) := kernel_call (call_frame nr.OPEN ptr len 0).
Definition close (fd : Z) := kernel_call (call_frame nr.CLOSE fd 0 0).
Definition seek (fd offset : Z) (whence : SeekWhence) := kernel_call (call_frame nr.SEEK fd (as_u64 offset) (as_raw whence)).
Definition call_yield_now := kernel_call (call_frame nr.YIELD 0 0 0).
Definition exit (status : Z) := kernel_call (call_frame nr.EXIT (as_u64 status) 0 0).

End syscall.

End Syscall.
