(* ===== verification/SyscallSpec.v ===== *)
(** * What the system calls do

    Every system call is a sequence of steps of the kernel, so the scheduler's
    invariants hold across it; the calls that read and write deliver the file's
    bytes to the caller's memory and take them from there; and a call that is
    refused changes nothing. *)

From S2P Require Import Prelude Mem Heap Phys Paging RawVec Types UserMem Drivers Vfs Process Sched SchedSpec SchedSteps Fds Elf Loader Fat Program.
From S2P Require Import ProgramSpec Syscall.
Local Open Scope Z_scope.

Module SyscallSpec.
Import Paging UserMem Proc Sched SchedSpec SchedSteps Fds Program ProgramSpec Syscall.

(** ** Steps *)

Section steps.
Context {D F : Type} `{!FrameAlloc F}.
Context (rp process_size region_size file_size : Z) (e : env (world D F)) (registry : Drivers.dstate (world D F)).
Abbreviation K := (kernel (world D F)).
Abbreviation kstep := (step rp process_size region_size e).

(** A computation made of kernel steps. *)
Abbreviation in_steps m := (preserves (rtc kstep) m).

Lemma outside_steps {E A} (m : M K E A) :
  (∀ k, match m k with Ok (_, k') | Err (_, k') => ∃ a w, k' = set_heap a (set_world w k) | Panic | Hang => True end) → in_steps m.
Proof.
  intros Hm k. specialize (Hm k).
  destruct (m k) as [[r k']|[r k']| |]; [destruct Hm as (al & w & ->)..|done|done]; apply rtc_once, step_outside.
Qed.

Lemma on_heap_steps {E A} (m : M (list Heap.ListNode) E A) : in_steps (on_heap m).
Proof.
  apply outside_steps. intros k. unfold on_heap, zoom.
  destruct (m _) as [[? l]|[? l]| |]; try done; exists (Heap.mkAllocator l (Heap.ga_mem (k_heap k))), (k_world k); by destruct k.
Qed.

Lemma on_memory_steps {E A} (m : M mem E A) : in_steps (zoom memory set_memory m).
Proof.
  apply outside_steps. intros k. unfold zoom, set_memory.
  destruct (m _) as [[? x]|[? x]| |]; try done; exists (k_heap k), (set_pm (mkPmem x (pm_fa (w_pm (k_world k)))) (k_world k)); by destruct k.
Qed.

Lemma on_hworld_steps {E A} (m : M hworld E A) : in_steps (on_hworld_k m).
Proof.
  apply outside_steps. intros k. unfold on_hworld_k, zoom.
  destruct (m _) as [[? x]|[? x]| |]; try done; exists (Heap.mkAllocator x.1 (Heap.ga_mem (k_heap k))), x.2; by destruct k.
Qed.

Lemma device_op_steps {R} (f : Vfs.FileDescriptor (world D F) → M (world D F) Empty_set (R * Vfs.FileDescriptor (world D F))) d :
  in_steps (device_op f d).
Proof.
  apply outside_steps. intros k. unfold device_op, zoom.
  destruct (f d _) as [[? w]|[? w]| |]; try done; exists (k_heap k), w; by destruct k.
Qed.

Lemma ends_in_steps {E A} (m : M K E A) : (∀ k k', ends_in (m k) k' → kstep k k') → in_steps m.
Proof. intros Hm k. specialize (Hm k). destruct (m k) as [[? k']|[? k']| |]; [apply rtc_once; by apply Hm..|done|done]. Qed.

Lemma process_try_steps {A} pid (f : Process (world D F) → comp ProcessError (A * Process (world D F))) :
  (∀ p r p', f p = Ok (r, p') → core_of p' = core_of p) → in_steps (with_process_try pid f).
Proof. intros Hf. apply ends_in_steps. intros k k'. by apply step_process. Qed.

Lemma with_fd_mut_steps {R} pid fd (f : Vfs.FileDescriptor (world D F) → M (world D F) Empty_set (R * Vfs.FileDescriptor (world D F))) :
  in_steps (with_fd_mut pid fd (device_op f)).
Proof.
  unfold with_fd_mut. apply preserves_bind; [apply _| |].
  { apply process_try_steps. intros p r p'. unfold take_slot. destruct (_ !! _) as [[?|]|]; [|done..]. by intros [= _ <-]. }
  intros d. apply preserves_bind; [apply _|apply preserves_map_err, device_op_steps|]. intros [r d'].
  apply preserves_bind; [apply _| |intros; apply preserves_ret; apply _].
  apply process_try_steps. intros p r' p'. unfold restore_slot. destruct (_ !! _) as [[?|]|]; [done| |done]. by intros [= _ <-].
Qed.

Lemma close_fd_steps pid fd : in_steps (close_fd pid fd).
Proof. apply ends_in_steps. intros k k'. apply step_close. Qed.

Lemma open_slot_steps pid d : in_steps (with_process_try pid (allocate_fd_slot d)).
Proof. apply process_try_steps. intros p r p'. unfold allocate_fd_slot. destruct (first_free _ _); [|done]. by intros [= _ <-]. Qed.

Lemma yield_steps : in_steps (sys_yield rp).
Proof.
  intros k. unfold sys_yield. destruct (yield_now rp k) as [k'|?| |] eqn:Hy; [|done..]. cbn. apply rtc_once. by apply step_yield.
Qed.

Lemma get_steps {E} : in_steps (@Prelude.get K E).
Proof. intros k. apply rtc_refl. Qed.

#[local] Hint Resolve on_heap_steps on_memory_steps on_hworld_steps with_fd_mut_steps close_fd_steps open_slot_steps yield_steps
  preserves_attempt preserves_map_err get_steps : preserves.

Lemma with_buffer_steps {A} ptr len (m : M K Empty_set A) : in_steps m → in_steps (with_buffer ptr len m).
Proof. intros Hm. unfold with_buffer. preserves. Qed.

#[local] Hint Resolve with_buffer_steps : preserves.

Lemma open_path_steps pid path : in_steps (open_path file_size e registry pid path).
Proof. unfold open_path, descriptor_of. preserves. Qed.

#[local] Hint Resolve open_path_steps : preserves.


End steps.

(** ** Reading and writing *)

Section calls.
Context {D F : Type} `{!FrameAlloc F} (lo hi : Z).
Abbreviation K := (kernel (world D F)).
Abbreviation FD := (Vfs.FileDescriptor (world D F)).
Hypothesis Hlo : 0 < lo.
Hypothesis Hle : lo ≤ hi + 1.
Hypothesis Hhi : hi + 16 < U64.

(** The process that makes the call, at index [i] of the table. *)
Record running (k : K) (i : nat) (p : Process (world D F)) : Prop := {
  ru_current : k_current k = p_pid p ∧ p_pid p ≠ 0;
  ru_index : find_index_by_pid (k_table k) (p_pid p) = Some i;
  ru_process : procs (k_table k) !! i = Some p
}.

(** A user process that makes a call. *)
Record caller (k : K) (i : nat) (p : Process (world D F)) : Prop := {
  ca_running : running k i p;
  ca_user : kind (p_address_space p) = User
}.

(** The kernel with another free list. *)
Definition with_free (l : list Heap.ListNode) (k : K) : K := set_heap (Heap.mkAllocator l (Heap.ga_mem (k_heap k))) k.

(** The kernel after an operation on descriptor [n] of the process at [i]. *)
Definition after_op (i : nat) (n : Z) (d : FD) (w : world D F) (k : K) : K :=
  set_world w (set_table (update_index i (λ p, set_fds (<[Z.to_nat n := Some d]> (p_fds p)) p) (k_table k)) k).

Lemma on_heap_ok {E A} (m : M (list Heap.ListNode) E A) k a l : m (Heap.ga_free (k_heap k)) = Ok (a, l) → on_heap m k = Ok (a, with_free l k).
Proof. intros H. unfold on_heap, zoom. by rewrite H. Qed.

Lemma running_space k i p : running k i p → current_address_space k = Some (p_address_space p) ∧ current_pid k = Some (p_pid p).
Proof.
  intros [[Hc H0] Hi Hp]. unfold current_address_space, current_pid. rewrite Hc, (proj2 (Z.eqb_neq _ _) H0).
  unfold get. cbn. rewrite Hi. cbn. by rewrite Hp.
Qed.

(** Releasing the buffer of a call that ends in [k']. *)
Lemma with_buffer_ok n k' ptr len : heap_ok lo hi n (Heap.ga_free (k_heap k')) → 0 < len →
  owned lo hi ptr (Heap.block_size (mkLayout len 1)) (Heap.ga_free (k_heap k')) →
  ∃ l, heap_ok lo hi n l ∧
    ∀ A (m : M K Empty_set A) k r, m k = Ok (r, k') → with_buffer ptr len m k = Ok (r, with_free l k').
Proof.
  intros Hl Hlen Ho. destruct (vec_drop_ok (E:=Empty_set) lo hi Hlo Hhi n _ ptr len Hl Hlen Ho) as (l & Hd & Hl').
  exists l. split; [done|]. intros A m k r Hm. unfold with_buffer.
  by rewrite (M_bind_ok _ _ _ _ _ Hm), (M_bind_ok _ _ _ _ _ (on_heap_ok _ _ _ _ Hd)).
Qed.

(** An operation on an open descriptor of the caller. *)
Lemma fd_op_ok {A} k i p n d (op : FD → M (world D F) Vfs.FileIoError (A * FD)) : running k i p → 0 ≤ n → fd n p = Some d →
  attempt (E:=Empty_set) (with_fd_mut (p_pid p) n (device_op (closure op))) k =
    match op d (k_world k) with
    | Ok ((a, d'), w) => Ok (inl (inl a), after_op i n d' w k)
    | Err (err, w) => Ok (inl (inr err), after_op i n d w k)
    | Panic => Panic
    | Hang => Hang
    end.
Proof.
  intros [_ Hi Hp] Hn Hd. pose proof (with_fd_mut_correct (p_pid p) n (closure op) k Hn) as H. rewrite Hi in H.
  destruct H as (q & Hq & _ & H). assert (q = p) as -> by congruence. rewrite Hd in H. unfold attempt at 1. rewrite H. clear H.
  unfold closure, mbind, M_bind, attempt. by destruct (op d (k_world k)) as [[[a d'] w]|[err w]| |].
Qed.

(** [sys_read], whatever the descriptor reads from and however the bytes reach the
    caller. *)
Lemma sys_read_run k i p n d ptr len bytes d' w (c : unit + ProcessError) m room :
  running k i p → 0 ≤ n → fd n p = Some d → Vfs.fd_read d len (k_world k) = Ok ((bytes, d'), w) →
  Z.of_nat (length bytes) ≤ len → 0 < len < I64 - 1 → 0 < ptr →
  heap_ok lo hi room (Heap.ga_free (k_heap k)) → Heap.room_cost (mkLayout len 1) ≤ room →
  copy_to_user (p_address_space p) ptr bytes (pm_mem (w_pm w)) = match c with inl _ => Ok (tt, m) | inr err => Err (err, m) end →
  ∃ l, sys_read n ptr len k =
      Ok (match c with inl _ => Z.of_nat (length bytes) | inr _ => ERR_FAULT end, with_free l (set_memory m (after_op i n d' w k))) ∧
    heap_ok lo hi (room - Heap.room_cost (mkLayout len 1)) l.
Proof.
  intros Hc Hn Hd Hop Hlen Hl Hptr Hheap Hroom Hcopy. pose proof (running_space _ _ _ Hc) as [Hsp Hpid].
  destruct (vec_zeroed_ok (E:=Empty_set) lo hi Hlo Hle Hhi room _ len Hheap) as (buf & l1 & Hz & Hl1 & _ & Ho); [done..|].
  set (k1 := with_free l1 k). assert (running k1 i p) as Hc1 by (destruct Hc; by split).
  pose proof (fd_op_ok k1 i p n d (λ d, Vfs.fd_read d len) Hc1 Hn Hd) as Hrun. cbv beta in Hrun.
  change (k_world k1) with (k_world k) in Hrun. rewrite Hop in Hrun. set (k2 := after_op i n d' w k1) in *.
  assert (attempt (E:=Empty_set) (zoom memory set_memory (copy_to_user (p_address_space p) ptr bytes)) k2 = Ok (c, set_memory m k2)) as Hatt.
  { unfold attempt, zoom. change (memory k2) with (pm_mem (w_pm w)). rewrite Hcopy. by destruct c as [[]|]. }
  destruct (with_buffer_ok (room - Heap.room_cost (mkLayout len 1)) (set_memory m k2) buf len) as (l2 & Hl2 & Hwb); [done|lia|done|].
  exists l2. split; [|done]. unfold sys_read. destruct (Z.eqb_spec len 0); [lia|]. destruct (Z.eqb_spec ptr 0); [lia|].
  rewrite (M_bind_ok Prelude.get _ k k k) by done. rewrite Hsp, (M_bind_ok _ _ _ _ _ (on_heap_ok _ _ _ _ Hz)). apply Hwb.
  rewrite Hpid, (M_bind_ok _ _ _ _ _ Hrun). destruct (Z.ltb_spec len (Z.of_nat (length bytes))); [lia|].
  rewrite (M_bind_ok _ _ _ _ _ Hatt). by destruct c.
Qed.

(** ... and when the operation fails. *)
Lemma sys_read_fails k i p n d ptr len err w room :
  running k i p → 0 ≤ n → fd n p = Some d → Vfs.fd_read d len (k_world k) = Err (err, w) → 0 < len < I64 - 1 → 0 < ptr →
  heap_ok lo hi room (Heap.ga_free (k_heap k)) → Heap.room_cost (mkLayout len 1) ≤ room →
  ∃ l, sys_read n ptr len k = Ok (encode_error (map_file_io_error err), with_free l (after_op i n d w k)) ∧
    heap_ok lo hi (room - Heap.room_cost (mkLayout len 1)) l.
Proof.
  intros Hc Hn Hd Hop Hl Hptr Hheap Hroom. pose proof (running_space _ _ _ Hc) as [Hsp Hpid].
  destruct (vec_zeroed_ok (E:=Empty_set) lo hi Hlo Hle Hhi room _ len Hheap) as (buf & l1 & Hz & Hl1 & _ & Ho); [done..|].
  set (k1 := with_free l1 k). assert (running k1 i p) as Hc1 by (destruct Hc; by split).
  pose proof (fd_op_ok k1 i p n d (λ d, Vfs.fd_read d len) Hc1 Hn Hd) as Hrun. cbv beta in Hrun.
  change (k_world k1) with (k_world k) in Hrun. rewrite Hop in Hrun.
  destruct (with_buffer_ok (room - Heap.room_cost (mkLayout len 1)) (after_op i n d w k1) buf len) as (l2 & Hl2 & Hwb); [done|lia|done|].
  exists l2. split; [|done]. unfold sys_read. destruct (Z.eqb_spec len 0); [lia|]. destruct (Z.eqb_spec ptr 0); [lia|].
  rewrite (M_bind_ok Prelude.get _ k k k) by done. rewrite Hsp, (M_bind_ok _ _ _ _ _ (on_heap_ok _ _ _ _ Hz)). apply Hwb.
  by rewrite Hpid, (M_bind_ok _ _ _ _ _ Hrun).
Qed.

(** ... for a user process. *)
Lemma sys_read_ok k i p n d ptr len bytes d' w pool room :
  caller k i p → 0 ≤ n → fd n p = Some d → Vfs.fd_read d len (k_world k) = Ok ((bytes, d'), w) →
  Z.of_nat (length bytes) ≤ len → Forall byte bytes → 0 < len < I64 - 1 → 0 < ptr → ptr + len ≤ 2 ^ 47 →
  heap_ok lo hi room (Heap.ga_free (k_heap k)) → Heap.room_cost (mkLayout len 1) ≤ room →
  user_ok (pm_mem (w_pm w)) (cr3 (p_address_space p)) pool →
  ∃ r l m bs, sys_read n ptr len k = Ok (r, with_free l (set_memory m (after_op i n d' w k))) ∧
    heap_ok lo hi (room - Heap.room_cost (mkLayout len 1)) l ∧ copied (pm_mem (w_pm w)) m (cr3 (p_address_space p)) pool ptr bs ∧
    match user_bytes (pm_mem (w_pm w)) (cr3 (p_address_space p)) ptr (length bytes) with
    | Some _ => r = Z.of_nat (length bytes) ∧ bs = bytes
    | None => r = ERR_FAULT ∧ bs `prefix_of` bytes
    end.
Proof.
  intros [Hc Hu] Hn Hd Hop Hlen Hby Hl Hptr Hend Hheap Hroom Huser.
  pose proof (copy_to_user_user (p_address_space p) pool ptr bytes (pm_mem (w_pm w)) Hu Huser Hby) as Hcopy.
  destruct (user_bytes _ _ _ _) as [old|].
  - destruct Hcopy as (m & Hm & Hcp); [lia..|].
    destruct (sys_read_run k i p n d ptr len bytes d' w (inl tt) m room) as (l & Hr & Hh); try done. by eexists _, l, m, bytes.
  - destruct Hcopy as (m & j & Hm & Hcp); [lia..|].
    destruct (sys_read_run k i p n d ptr len bytes d' w (inr UserMemoryNotPresent) m room) as (l & Hr & Hh); try done.
    eexists _, l, m, (take j bytes). split_and!; try done. exists (skipn j bytes). by rewrite take_drop.
Qed.

(** The value a call returns, the descriptor and the world it leaves, from what
    the operation on the descriptor gave. *)
Definition op_gives (d : FD) (c : comp (Vfs.FileIoError * world D F) (Z * FD * world D F)) (v : Z) (d' : FD) (w : world D F) : Prop :=
  c = Ok (v, d', w) ∨ ∃ err, c = Err (err, w) ∧ v = encode_error (map_file_io_error err) ∧ d' = d.

(** [sys_write], whatever the descriptor writes to and however the bytes are reached. *)
Lemma sys_write_run k i p n d ptr len bytes v d' w room :
  running k i p → 0 ≤ n → fd n p = Some d → 0 < len < I64 - 1 → 0 < ptr →
  heap_ok lo hi room (Heap.ga_free (k_heap k)) → Heap.room_cost (mkLayout len 1) ≤ room →
  copy_from_user (memory k) (p_address_space p) ptr len = Ok bytes →
  op_gives d (Vfs.fd_write d bytes (k_world k)) v d' w →
  ∃ l, sys_write n ptr len k = Ok (v, with_free l (after_op i n d' w k)) ∧ heap_ok lo hi (room - Heap.room_cost (mkLayout len 1)) l.
Proof.
  intros Hc Hn Hd Hl Hptr Hheap Hroom Hbytes Hop. pose proof (running_space _ _ _ Hc) as [Hsp Hpid].
  destruct (vec_zeroed_ok (E:=ProcessError) lo hi Hlo Hle Hhi room _ len Hheap) as (buf & l1 & Hz & Hl1 & _ & Ho); [done..|].
  set (k1 := with_free l1 k). assert (running k1 i p) as Hc1 by (destruct Hc; by split).
  assert (attempt (E:=Empty_set) (on_heap (read_user_buffer (memory k) (p_address_space p) ptr len)) k = Ok (inl (buf, bytes), k1)) as Hbuf.
  { apply attempt_ok, on_heap_ok. unfold read_user_buffer. rewrite (M_bind_ok _ _ _ _ _ Hz).
    rewrite (M_bind_ok _ _ _ (inl bytes) l1); [done|]. apply attempt_ok. unfold lift. by rewrite Hbytes. }
  pose proof (fd_op_ok k1 i p n d (λ d, Vfs.fd_write d bytes) Hc1 Hn Hd) as Hrun. cbv beta in Hrun.
  change (k_world k1) with (k_world k) in Hrun.
  destruct (with_buffer_ok (room - Heap.room_cost (mkLayout len 1)) (after_op i n d' w k1) buf len) as (l2 & Hl2 & Hwb); [done|lia|done|].
  exists l2. split; [|done]. unfold sys_write. destruct (Z.eqb_spec len 0); [lia|]. destruct (Z.eqb_spec ptr 0); [lia|].
  rewrite (M_bind_ok Prelude.get _ k k k) by done. rewrite Hsp, (M_bind_ok _ _ _ _ _ Hbuf). apply Hwb. rewrite Hpid.
  destruct Hop as [Hop|(err & Hop & -> & ->)]; rewrite Hop in Hrun; by rewrite (M_bind_ok _ _ _ _ _ Hrun).
Qed.

Context (rp file_size : Z) (e : env (world D F)) (registry : Drivers.dstate (world D F)).

(** C26. Writing by system call.  A write of a buffer that is mapped for the process
    gives the descriptor exactly the bytes the process sees there, once; the value
    returned is what the file or device reports, or the code of its error, in which
    case the descriptor is as it was.  The kernel is otherwise as the device left it,
    and the kernel's buffer is released. *)
Theorem write_call_correct k i p n d ptr len bytes v d' w pool room :
  caller k i p → 0 ≤ n → fd n p = Some d → 0 < len < I64 - 1 → 0 < ptr → ptr + len ≤ 2 ^ 47 →
  heap_ok lo hi room (Heap.ga_free (k_heap k)) → Heap.room_cost (mkLayout len 1) ≤ room →
  user_ok (memory k) (cr3 (p_address_space p)) pool → user_bytes (memory k) (cr3 (p_address_space p)) ptr (Z.to_nat len) = Some bytes →
  op_gives d (Vfs.fd_write d bytes (k_world k)) v d' w →
  ∃ l, dispatch rp file_size e registry (call_frame nr.WRITE n ptr len) k = Ok (Returns v, with_free l (after_op i n d' w k)) ∧
    Heap.free_list lo hi l.
Proof.
  intros [Hc Hu] Hn Hd Hl Hptr Hend Hheap Hroom Huser Hbytes Hop.
  destruct (sys_write_run k i p n d ptr len bytes v d' w room) as (l & Hr & [Hl' _]); try done.
  { rewrite (copy_from_user_user _ _ pool) by (done || lia). by rewrite Hbytes. }
  exists l. split; [|done]. change (dispatch _ _ _ _ _) with (r ← sys_write (D:=D) (F:=F) n ptr len; mret (Returns r)).
  by rewrite (M_bind_ok _ _ _ _ _ Hr).
Qed.

End calls.

(** ** Reading a file of the disk *)

Section file.
Context {D F : Type} `{!FrameAlloc F} (v : Fat.FatVolume D) `{!BlockDeviceLaws (Fat.device v)} (lo hi rp file_size : Z).
Context (e : env (world D F)) (registry : Drivers.dstate (world D F)).
Hypothesis Hlo : 0 < lo.
Hypothesis Hle : lo ≤ hi + 1.
Hypothesis Hhi : hi + 16 < U64.
Hypothesis Hblock : block_size (Fat.device v) = 512.
Hypothesis Hv : Fat.volume_ok v.

(** A descriptor of a file of the volume, at an offset. *)
Definition file_fd (cluster size offset : Z) : Vfs.FileDescriptor (world D F) :=
  Vfs.FdVfs (Vfs.mkHandle (lift_file (Fat.fat_file (Fat.mkFatFile v cluster size))) offset).

Lemma fd_read_file (w : world D F) cluster size offset cs n : Fat.disk_ok v (w_dev w) → Fat.chain v (bd_disk (w_dev w)) cluster cs →
  0 ≤ offset → 0 ≤ n → 0 ≤ size → offset + n < U64 →
  let bytes := take (Z.to_nat n) (skipn (Z.to_nat offset) (contents v (bd_disk (w_dev w)) size cs)) in
  ∃ d', Vfs.fd_read (file_fd cluster size offset) n w = Ok ((bytes, file_fd cluster size (offset + Z.of_nat (length bytes))), set_dev d' w) ∧
    Fat.same_disk v (w_dev w) d'.
Proof.
  intros Hw Hch Ho Hn Hs Hend bytes.
  destruct (Fat.fat_read_spec (Fat.mkFatFile v cluster size) Hblock Hv (w_dev w) cs offset n) as (d' & Hread & Hw' & Hd'); try done.
  exists d'. split; [|by split]. unfold file_fd, Vfs.fd_read.
  assert (Vfs.handle_read (Vfs.mkHandle (lift_file (Fat.fat_file (Fat.mkFatFile v cluster size))) offset) n w =
    Ok ((bytes, Vfs.mkHandle (lift_file (Fat.fat_file (Fat.mkFatFile v cluster size))) (offset + Z.of_nat (length bytes))), set_dev d' w)) as Hh.
  { unfold Vfs.handle_read. rewrite (M_bind_ok _ _ w bytes (set_dev d' w)) by exact (zoom_ok w_dev set_dev _ w _ _ Hread).
    unfold saturating_add64. rewrite Z.min_l; [done|]. unfold bytes. rewrite length_take. cbn [Vfs.offset]. lia. }
  by rewrite (M_bind_ok _ _ _ _ _ (map_err_ok Vfs.IoVfs _ _ _ Hh)).
Qed.

Lemma dispatch_read a b c :
  dispatch rp file_size e registry (call_frame nr.READ a b c) = (r ← sys_read a b c; mret (Returns r)).
Proof. done. Qed.

(** Reading a file by system call.  When a user process reads [len] bytes
    from a descriptor of a file on the disk into a buffer mapped for it, the call
    returns the number of bytes there are from the descriptor's offset, at most
    [len]; these bytes of the file are at the buffer, and no other byte of memory
    visible to the process changes; the descriptor's offset has advanced by that
    number, and nothing else of the process table, the disk or the memory of the
    heap changes; the kernel's buffer is released.  When the buffer is not mapped
    the call gives the fault error; the offset has advanced all the same. *)
Theorem read_file_correct k i p n cluster size offset cs ptr len pool room :
  caller k i p → 0 ≤ n → fd n p = Some (file_fd cluster size offset) →
  Fat.disk_ok v (w_dev (k_world k)) → Fat.chain v (bd_disk (w_dev (k_world k))) cluster cs → 0 ≤ offset → 0 ≤ size → offset + len < U64 →
  0 < len < I64 - 1 → 0 < ptr → ptr + len ≤ 2 ^ 47 → user_ok (memory k) (cr3 (p_address_space p)) pool →
  heap_ok lo hi room (Heap.ga_free (k_heap k)) → Heap.room_cost (mkLayout len 1) ≤ room →
  let bytes := take (Z.to_nat len) (skipn (Z.to_nat offset) (contents v (bd_disk (w_dev (k_world k))) size cs)) in
  ∃ r k' bs, dispatch rp file_size e registry (call_frame nr.READ n ptr len) k = Ok (Returns r, k') ∧
    match user_bytes (memory k) (cr3 (p_address_space p)) ptr (length bytes) with
    | Some _ => r = Z.of_nat (length bytes) ∧ bs = bytes
    | None => r = ERR_FAULT ∧ bs `prefix_of` bytes
    end ∧
    copied (memory k) (memory k') (cr3 (p_address_space p)) pool ptr bs ∧
    k_table k' = update_index i (λ p, set_fds (<[Z.to_nat n := Some (file_fd cluster size (offset + Z.of_nat (length bytes)))]> (p_fds p)) p)
      (k_table k) ∧
    Fat.same_disk v (w_dev (k_world k)) (w_dev (k_world k')) ∧ Heap.ga_mem (k_heap k') = Heap.ga_mem (k_heap k) ∧
    Heap.free_list lo hi (Heap.ga_free (k_heap k')).
Proof.
  intros Hc Hn Hd Hw Hch Ho Hs Hend Hl Hptr Hpend Huser Hheap Hroom bytes.
  destruct (fd_read_file (k_world k) cluster size offset cs len) as (d' & Hread & Hsame); [done..|lia|done|done|]. fold bytes in Hread.
  destruct (sys_read_ok lo hi Hlo Hle Hhi k i p n _ ptr len bytes _ _ pool room Hc Hn Hd Hread) as (r & l & m & bs & Hr & Hl' & Hcp & Hres);
    try done.
  { unfold bytes. rewrite length_take. lia. }
  { unfold bytes. apply Forall_take, Forall_drop. by apply contents_bytes, Hw. }
  exists r, (with_free l (set_memory m (after_op i n (file_fd cluster size (offset + Z.of_nat (length bytes))) (set_dev d' (k_world k)) k))), bs.
  split; [|split; [exact Hres|split_and!; [exact Hcp|done|done|done|by destruct Hl']]].
  by rewrite dispatch_read, (M_bind_ok _ _ _ _ _ Hr).
Qed.

End file.

(** ** Refused calls *)

Section refused.
Context {D F : Type} `{!FrameAlloc F} (rp file_size : Z) (e : env (world D F)) (registry : Drivers.dstate (world D F)).
Abbreviation K := (kernel (world D F)).

(** [exit] keeps the low 32 bits of its argument, as a signed number. *)
Lemma exit_status_spec code : -2 ^ 31 ≤ exit_status code < 2 ^ 31 ∧ exit_status code mod 2 ^ 32 = code mod 2 ^ 32.
Proof.
  unfold exit_status. change 0xFFFFFFFF with (Z.ones 32). rewrite Z.land_ones by lia. cbv zeta.
  destruct (Z.ltb_spec (code mod 2 ^ 32) (2 ^ 31)); Z.div_mod_to_equations; lia.
Qed.

Lemma decode_encode err : decode_ret (encode_error err) = Err err.
Proof. by destruct err. Qed.

(** The descriptor of the running process under a number. *)
Definition open_descriptor (k : K) (n : Z) : option (Vfs.FileDescriptor (world D F)) :=
  pid ← current_pid k; p ← get (k_table k) pid; fd n p.

(** The error of a seek that is refused. *)
Definition seek_refusal (k : K) (n offset whence : Z) : option SysError :=
  if k_current k =? 0 then Some BadFileDescriptor
  else if negb (whence <=? 2) || ((whence =? 0) && (2 ^ 63 <=? offset)) then Some InvalidArgument
  else if bool_decide (open_descriptor k n = None) then Some BadFileDescriptor else None.

(** The error of the calls that are refused before they change anything: what the
    interface promises for each number. *)
Definition refusal (k : K) (frame : SyscallFrame) : option SysError :=
  let no_process := bool_decide (current_address_space k = None) in
  let closed := bool_decide (open_descriptor k (f_rdi frame) = None) in
  if (f_rax frame =? nr.READ) || (f_rax frame =? nr.WRITE) then
    if f_rdx frame =? 0 then None
    else if f_rsi frame =? 0 then Some Fault
    else if no_process then Some BadFileDescriptor else None
  else if f_rax frame =? nr.OPEN then
    if (f_rdi frame =? 0) || (f_rsi frame =? 0) then Some InvalidArgument
    else if no_process then Some BadFileDescriptor else None
  else if f_rax frame =? nr.CLOSE then
    if closed then Some BadFileDescriptor else None
  else if f_rax frame =? nr.SEEK then
    seek_refusal k (f_rdi frame) (f_rsi frame) (f_rdx frame)
  else if (f_rax frame =? nr.YIELD) || (f_rax frame =? nr.EXIT) then None
  else Some NoSys.

(** Nothing is open under the number: the process is missing or its slot is empty. *)
Lemma closed_try {A} k pid n (f : Process (world D F) → comp ProcessError (A * Process (world D F))) : current_pid k = Some pid →
  open_descriptor k n = None → (∀ p, fd n p = None → f p = Err InvalidFileDescriptor) → ∃ err, with_process_try pid f k = Err (err, k).
Proof.
  intros Hpid Hclosed Hf. unfold open_descriptor, get in Hclosed. rewrite Hpid in Hclosed. cbn in Hclosed.
  unfold with_process_try, mbind, M_bind, Prelude.get, ok_or, lift.
  destruct (find_index_by_pid (k_table k) pid) as [i|]; [|by eexists]. cbn in Hclosed.
  destruct (procs (k_table k) !! i) as [p|]; [|by eexists]. rewrite Hf by done. by eexists.
Qed.

Lemma close_closed k pid n : current_pid k = Some pid → open_descriptor k n = None → ∃ err, close_fd pid n k = Err (err, k).
Proof.
  intros Hpid Hc. destruct (closed_try k pid n (release_fd_slot n) Hpid Hc) as [err Herr].
  - intros p Hp. unfold release_fd_slot. destruct (_ <=? _); [done|]. unfold fd in Hp. by destruct (_ !! _) as [[?|]|].
  - exists err. unfold close_fd. by rewrite (M_bind_err _ _ _ _ Herr).
Qed.

Lemma with_closed {R} k pid n (f : Vfs.FileDescriptor (world D F) → M K Empty_set (R * Vfs.FileDescriptor (world D F))) :
  current_pid k = Some pid → open_descriptor k n = None → ∃ err, with_fd_mut pid n f k = Err (err, k).
Proof.
  intros Hpid Hc. destruct (closed_try k pid n (take_slot n) Hpid Hc) as [err Herr].
  - intros p Hp. unfold take_slot. unfold fd in Hp. by destruct (_ !! _) as [[?|]|].
  - exists err. unfold with_fd_mut. by rewrite (M_bind_err _ _ _ _ Herr).
Qed.

Lemma attempt_err {S E E' A} (m : M S E' A) s err s' : m s = Err (err, s') → attempt (E:=E) m s = Ok (inr err, s').
Proof. intros H. unfold attempt. by rewrite H. Qed.

Lemma decode_seek_cases offset whence : 0 ≤ offset < U64 → 0 ≤ whence →
  if negb (whence <=? 2) || ((whence =? 0) && (2 ^ 63 <=? offset)) then decode_seek offset whence = Err InvalidArgument
  else ∃ pos, decode_seek offset whence = Ok pos.
Proof.
  intros Ho Hw. unfold decode_seek, as_i64.
  destruct (Z.leb_spec whence 2), (Z.eqb_spec whence 0), (Z.eqb_spec whence 1), (Z.eqb_spec whence 2), (Z.leb_spec (2 ^ 63) offset);
    cbn [negb orb andb]; try lia; eauto.
  all: repeat case_match; bool_to_prop; try lia; eauto.
Qed.

(** What [with_fd_mut] and [close_fd] report when no descriptor is open. *)
Lemma close_refused k n : open_descriptor k n = None → sys_close n k = Ok (ERR_BADF, k).
Proof.
  intros Hc. unfold sys_close. rewrite (M_bind_ok Prelude.get _ k k k) by done. destruct (current_pid k) as [pid|] eqn:Hpid; [|done].
  destruct (close_closed k pid n Hpid Hc) as [err Herr]. by rewrite (M_bind_ok _ _ _ _ _ (attempt_err _ _ _ _ Herr)).
Qed.

Lemma seek_refused k n offset whence err : 0 ≤ offset < U64 → 0 ≤ whence →
  seek_refusal k n offset whence = Some err → sys_seek n offset whence k = Ok (encode_error err, k).
Proof.
  intros Ho Hw. unfold seek_refusal, sys_seek. rewrite (M_bind_ok Prelude.get _ k k k) by done. unfold current_pid.
  destruct (Z.eqb_spec (k_current k) 0) as [H0|H0]; [by intros [= <-]|].
  pose proof (decode_seek_cases offset whence Ho Hw) as Hds. destruct (negb _ || _).
  { intros [= <-]. by rewrite Hds. }
  destruct Hds as [pos ->]. case_bool_decide as Hc; [|done]. intros [= <-].
  assert (current_pid k = Some (k_current k)) as Hpid by (unfold current_pid; by rewrite (proj2 (Z.eqb_neq _ _) H0)).
  destruct (with_closed k (k_current k) n (device_op (closure (λ d, Vfs.fd_seek d pos))) Hpid Hc) as [err Herr].
  by rewrite (M_bind_ok _ _ _ _ _ (attempt_err _ _ _ _ Herr)).
Qed.


End refused.

(** ** A process with an open file *)

Definition example_world : world (list Z) Phys.phys := mkWorld ProgramSpec.example_disk (Some Fat.example_volume) UserMem.example_state.
Definition example_registry : Drivers.dstate (world (list Z) Phys.phys) := Drivers.mkDstate example_world RawVec.new [].
Definition example_caller : Process (world (list Z) Phys.phys) :=
  mkProcess 2 None "init" Credentials_root UserMem.example_as Running None None false None 0
    (replicate 3 (Some (Vfs.FdChar ProgramSpec.example_char)) ++ Some (file_fd Fat.example_volume 2 128 1) :: replicate 12 None)
    Context_new 0 None RawVec.new None None.
Definition example_kernel : kernel (world (list Z) Phys.phys) :=
  mkKernel (set_procs [example_caller] table_new) 2 Context_new false Context_new 0x800000 0
    (Heap.mkAllocator [Heap.Node 0x100000 0x100000] (λ _, 0)) example_world.

Lemma example_caller_ok : caller example_kernel 0 example_caller.
Proof. by split. Qed.

Lemma example_heap_ok : heap_ok 0x100000 0x200000 0x1000 (Heap.ga_free (k_heap example_kernel)).
Proof.
  split; [by vm_compute|]. exists 0x100000. split; [done|]. intros x Hx. apply Heap.free_addr_cons. left. split; [apply Hx|].
  apply Z.lt_le_trans with (1 := proj2 Hx). by vm_compute.
Qed.

(** The letters of the ELF magic, read from the second byte of the file. *)
Lemma read_file_correct_witness :
  ∃ k', dispatch 7 64 ProgramSpec.example_env example_registry (call_frame nr.READ 3 0x400010 3) example_kernel = Ok (Returns 3, k') ∧
    user_byte (memory k') 0x800000 0x400011 = Some 76.
Proof.
  assert (take 3 (skipn 1 (contents Fat.example_volume ProgramSpec.example_disk 128 [2])) = [69; 76; 70]) as Hbytes by (by vm_compute).
  assert (bd_inv (BlockDeviceLaws:=Fat.example_laws) ProgramSpec.example_disk) as Hdisk by (split; [by vm_compute|apply list_forallb_byte; by vm_compute]).
  assert (Z.of_nat (length (bd_disk (BlockDeviceLaws:=Fat.example_laws) ProgramSpec.example_disk)) < I64) as Hlen by (by vm_compute).
  destruct (@read_file_correct _ _ Fat.example_volume Fat.example_laws 0x100000 0x200000 7 64 ProgramSpec.example_env example_registry
    ltac:(done) ltac:(done) ltac:(done) ltac:(done) Fat.example_volume_ok example_kernel 0 example_caller 3 2 128 1 [2] 0x400010 3
    (fa_pool (pm_fa UserMem.example_state)) 0x1000 example_caller_ok ltac:(done) ltac:(done)) as (r & k' & bs & Hr & Hres & Hcp & _).
  - split; [exact Hdisk|exact Hlen].
  - exact (st_chain _ _ _ _ _ _ ProgramSpec.example_stored).
  - lia.
  - lia.
  - done.
  - done.
  - lia.
  - lia.
  - exact UserMem.example_user_ok.
  - exact example_heap_ok.
  - done.
  - change (Z.to_nat 3) with 3%nat in Hres. change (Z.to_nat 1) with 1%nat in Hres.
    change (bd_disk (w_dev (k_world example_kernel))) with (bd_disk (BlockDeviceLaws:=Fat.example_laws) ProgramSpec.example_disk) in Hres.
    change (bd_disk (BlockDeviceLaws:=Fat.example_laws) ProgramSpec.example_disk) with ProgramSpec.example_disk in Hres.
    rewrite Hbytes in Hres. cbn [length] in Hres.
    change (user_bytes (memory example_kernel) (cr3 (p_address_space example_caller)) 0x400010 3) with
      (user_bytes (pm_mem UserMem.example_state) 0x800000 0x400010 3) in Hres.
    rewrite UserMem.example_mapped in Hres. destruct Hres as [-> ->].
    exists k'. split; [exact Hr|]. change (cr3 (p_address_space example_caller)) with 0x800000 in Hcp.
    rewrite (cp_bytes _ _ _ _ _ _ Hcp) by lia. rewrite decide_True by (cbn [length]; lia). reflexivity.
Defined.

(** Three bytes of the buffer, written to the console. *)
Lemma write_call_correct_witness :
  ∃ k', dispatch 7 64 ProgramSpec.example_env example_registry (call_frame nr.WRITE 1 0x400010 3) example_kernel = Ok (Returns 3, k').
Proof.
  destruct (write_call_correct 0x100000 0x200000 ltac:(done) ltac:(done) ltac:(done) 7 64 ProgramSpec.example_env example_registry example_kernel
    0 example_caller 1 (Vfs.FdChar ProgramSpec.example_char) 0x400010 3 [0; 0; 0] 3 (Vfs.FdChar ProgramSpec.example_char) example_world
    (fa_pool (pm_fa UserMem.example_state)) 0x1000 example_caller_ok ltac:(done) ltac:(done) ltac:(done) ltac:(done) ltac:(done)
    example_heap_ok ltac:(done) UserMem.example_user_ok UserMem.example_mapped ltac:(left; reflexivity)) as (l & Hr & _).
  eexists. exact Hr.
Defined.



End SyscallSpec.
