(* ===== verification/FileCalls.v ===== *)
(** * Opening, seeking and closing by system call

    A process works on files through a sequence of calls.  Between two calls of
    the sequence the kernel differs from the one it started with in the
    descriptors of the process, the world outside the table and the free list of
    the heap: [session].  Each call has a lemma from one session to the next, for
    any process, with the way its bytes are reached left open; the theorems put
    them together. *)

From S2P Require Import Prelude Mem Heap Phys Paging RawVec Types UserMem Drivers Vfs Process Sched SchedSpec SchedSteps Fds Elf Loader Fat Program.
From S2P Require Import ProgramSpec Syscall SyscallSpec.
Local Open Scope Z_scope.

Module FileCalls.
Import Paging UserMem Proc Sched SchedSpec SchedSteps Fds Program ProgramSpec Syscall SyscallSpec.

(** ** What a path names *)

Section names.
Context {D F : Type} `{!FrameAlloc F} (file_size : Z) (e : env (world D F)) (registry : Drivers.dstate (world D F)).
Abbreviation K := (kernel (world D F)).
Abbreviation FD := (Vfs.FileDescriptor (world D F)).

(** The names outside the mounted volume, each with a new descriptor of its
    device or file when there is one. *)
Definition names : list (string * option FD) :=
  [ ("/scratch"%string, (λ f, Vfs.FdVfs (Vfs.VfsHandle_new f)) <$> scratch e);
    ("/dev/console"%string, Some (Vfs.FdChar (console e)));
    ("/dev/null"%string, Vfs.FdChar <$> Drivers.char_device_by_name "null" registry);
    ("/dev/zero"%string, Vfs.FdChar <$> Drivers.char_device_by_name "zero" registry) ].

Fixpoint named_in (path : list Z) (l : list (string * option FD)) : option FD :=
  match l with
  | [] => None
  | (name, d) :: l => if bool_decide (path = Fat.str_bytes name) then d else named_in path l
  end.
Definition named (path : list Z) : option FD := named_in path names.

Lemma descriptor_of_named (k : K) path : strip_prefix FAT_PREFIX path = None →
  descriptor_of file_size e registry path k = match named path with Some d => Ok (d, k) | None => Err (PathNotFound, k) end.
Proof.
  intros Hp. unfold descriptor_of, named, names. rewrite Hp. cbn [named_in].
  destruct (bool_decide (path = Fat.str_bytes "/scratch")).
  { unfold mbind, M_bind, ok_or. by destruct (scratch e). }
  destruct (bool_decide (path = Fat.str_bytes "/dev/console")); [done|].
  destruct (bool_decide (path = Fat.str_bytes "/dev/null")).
  { unfold mbind, M_bind, ok_or. by destruct (Drivers.char_device_by_name _ _). }
  destruct (bool_decide (path = Fat.str_bytes "/dev/zero")); [|done].
  unfold mbind, M_bind, ok_or. by destruct (Drivers.char_device_by_name _ _).
Qed.

(** The value of an open. *)
Definition open_value (r : Z + ProcessError) : Z :=
  match r with
  | inl n => n
  | inr NoFreeFileDescriptors => ERR_NOMEM
  | inr PathNotFound => ERR_NOENT
  | inr _ => ERR_BADF
  end.

End names.

(** A call that returns. *)
Lemma call_returns {D F} `{!FrameAlloc F} rp file_size e registry frame (m : M (kernel (world D F)) Empty_set Z) k v k' :
  dispatch rp file_size e registry frame = (r ← m; mret (Returns r)) → m k = Ok (v, k') →
  dispatch rp file_size e registry frame k = Ok (Returns v, k').
Proof. intros -> Hm. by rewrite (M_bind_ok _ _ _ _ _ Hm). Qed.

(** ** A sequence of calls *)

Section session.
Context {D F : Type} `{!FrameAlloc F} (lo hi : Z).
Abbreviation K := (kernel (world D F)).
Abbreviation FD := (Vfs.FileDescriptor (world D F)).
Hypothesis Hlo : 0 < lo.
Hypothesis Hle : lo ≤ hi + 1.
Hypothesis Hhi : hi + 16 < U64.
Context (k : K) (i : nat) (p : Process (world D F)).
Hypothesis Hrun : running k i p.

Definition session (fds : list (option FD)) (w : world D F) (l : list Heap.ListNode) : K :=
  with_free l (set_world w (set_table (update_index i (set_fds fds) (k_table k)) k)).

(** The descriptors [fds], with [d] under number [n]. *)
Definition slot (n : Z) (d : FD) (fds : list (option FD)) : list (option FD) := <[Z.to_nat n := Some d]> fds.
Definition at_slot (fds : list (option FD)) (n : Z) : option FD := mjoin (fds !! Z.to_nat n).

Lemma update_twice (t : ProcessTable (world D F)) f g h : (∀ p, f (g p) = h p) →
  update_index i f (update_index i g t) = update_index i h t.
Proof.
  intros Hf. unfold update_index, set_procs, procs. cbn. f_equal. f_equal. apply list_eq. intros j. destruct (decide (i = j)) as [<-|Hne].
  - rewrite !list_lookup_alter_eq, <- option_fmap_compose. by apply option_fmap_ext.
  - by rewrite !list_lookup_alter_ne.
Qed.

Lemma session_start : session (p_fds p) (k_world k) (Heap.ga_free (k_heap k)) = k.
Proof.
  unfold session, with_free, set_world, set_table, set_heap. cbn. destruct Hrun as [_ _ Hp].
  assert (update_index i (set_fds (p_fds p)) (k_table k) = k_table k) as ->.
  { unfold update_index. rewrite (list_alter_ext _ id _ (procs (k_table k)) i); [rewrite list_alter_id by done| |done].
    - by destruct k as [[[]] ].
    - intros q Hq. assert (q = p) as -> by congruence. by destruct p. }
  by destruct k as [? ? ? ? ? ? ? []].
Qed.

Lemma session_running fds w l : running (session fds w l) i (set_fds fds p).
Proof.
  destruct Hrun as [Hc Hi Hp]. split; [done| |].
  - change (find_index_by_pid (update_index i (set_fds fds) (k_table k)) (p_pid p) = Some i). by rewrite find_index_update.
  - cbn. by rewrite list_lookup_alter_eq, Hp.
Qed.

Lemma session_op n d w' fds w l : after_op i n d w' (session fds w l) = session (slot n d fds) w' l.
Proof.
  unfold after_op, session, with_free, set_world, set_table, set_heap. cbn. f_equal. by apply update_twice.
Qed.

Lemma session_put fds' fds w l :
  set_table (update_index i (λ _, set_fds fds' p) (k_table (session fds w l))) (session fds w l) = session fds' w l.
Proof.
  unfold session, with_free, set_world, set_table, set_heap. cbn. f_equal. unfold update_index, set_procs, procs. cbn. f_equal. f_equal.
  apply list_eq. intros j. destruct Hrun as [_ _ Hp]. unfold procs in Hp. destruct (decide (i = j)) as [<-|Hne].
  - by rewrite !list_lookup_alter_eq, Hp.
  - by rewrite !list_lookup_alter_ne.
Qed.

Lemma session_free l' fds w l : with_free l' (session fds w l) = session fds w l'.
Proof. done. Qed.

Lemma session_memory m fds w l : set_memory m (session fds w l) = session fds (set_pm (mkPmem m (pm_fa (w_pm w))) w) l.
Proof. done. Qed.

(** *** The calls *)

Abbreviation cost n := (Heap.room_cost (mkLayout n 1)).

Lemma call_write fds w l n d ptr len bytes v d' w' room : 0 ≤ n → at_slot fds n = Some d → 0 < len < I64 - 1 → 0 < ptr →
  heap_ok lo hi room l → cost len ≤ room → copy_from_user (pm_mem (w_pm w)) (p_address_space p) ptr len = Ok bytes →
  op_gives d (Vfs.fd_write d bytes w) v d' w' →
  ∃ l', sys_write n ptr len (session fds w l) = Ok (v, session (slot n d' fds) w' l') ∧ heap_ok lo hi (room - cost len) l'.
Proof.
  intros Hn Hd Hl Hp Hh Hr Hb Hop.
  destruct (sys_write_run lo hi Hlo Hle Hhi (session fds w l) i (set_fds fds p) n d ptr len bytes v d' w' room) as (l' & Hw & Hl');
    try done; [by apply session_running|]. exists l'. by rewrite Hw, session_op.
Qed.

Lemma call_read fds w l n d ptr len bytes d' w' m room : 0 ≤ n → at_slot fds n = Some d → Vfs.fd_read d len w = Ok ((bytes, d'), w') →
  Z.of_nat (length bytes) ≤ len → 0 < len < I64 - 1 → 0 < ptr → heap_ok lo hi room l → cost len ≤ room →
  copy_to_user (p_address_space p) ptr bytes (pm_mem (w_pm w')) = Ok (tt, m) →
  ∃ l', sys_read n ptr len (session fds w l) =
      Ok (Z.of_nat (length bytes), session (slot n d' fds) (set_pm (mkPmem m (pm_fa (w_pm w'))) w') l') ∧ heap_ok lo hi (room - cost len) l'.
Proof.
  intros Hn Hd Hop Hlen Hl Hp Hh Hr Hc.
  destruct (sys_read_run lo hi Hlo Hle Hhi (session fds w l) i (set_fds fds p) n d ptr len bytes d' w' (inl tt) m room) as (l' & Hw & Hl');
    try done; [by apply session_running|]. exists l'. by rewrite Hw, session_op, session_memory.
Qed.

Lemma call_seek fds w l n d offset whence pos v d' w' : 0 ≤ n → at_slot fds n = Some d → decode_seek offset whence = Ok pos →
  op_gives d (Vfs.fd_seek d pos w) v d' w' →
  sys_seek n offset whence (session fds w l) = Ok (v, session (slot n d' fds) w' l).
Proof.
  intros Hn Hd Hpos Hop. pose proof (session_running fds w l) as Hc. pose proof (running_space _ _ _ Hc) as [_ Hpid].
  pose proof (fd_op_ok _ _ _ n d (λ d, Vfs.fd_seek d pos) Hc Hn Hd) as Hop'. cbv beta in Hop'.
  change (k_world (session fds w l)) with w in Hop'. unfold sys_seek.
  rewrite (M_bind_ok Prelude.get _ _ (session fds w l) (session fds w l)) by done. rewrite Hpid, Hpos.
  destruct Hop as [Hop|(err & Hop & -> & ->)]; rewrite Hop, session_op in Hop'; by rewrite (M_bind_ok _ _ _ _ _ Hop').
Qed.

Lemma call_close fds w l n d r w' : 0 ≤ n < Z.of_nat MAX_FDS → at_slot fds n = Some d →
  attempt (E:=ProcessError) (Vfs.fd_flush d) w = Ok (r, w') →
  sys_close n (session fds w l) = Ok (0, session (<[Z.to_nat n := None]> fds) w' l).
Proof.
  intros Hn Hd Hfl. pose proof (session_running fds w l) as Hc. pose proof (running_space _ _ _ Hc) as [_ Hpid].
  destruct Hc as [_ Hi Hp]. unfold sys_close.
  rewrite (M_bind_ok Prelude.get _ _ (session fds w l) (session fds w l)) by done. rewrite Hpid.
  rewrite (M_bind_ok _ _ _ (inl tt) (session (<[Z.to_nat n := None]> fds) w' l)); [done|]. apply attempt_ok. unfold close_fd.
  rewrite (M_bind_ok _ _ _ _ _ (with_process_try_run _ (release_fd_slot n) _ i (set_fds fds p) d (set_fds (<[Z.to_nat n := None]> fds) p) Hi Hp
    ltac:(unfold release_fd_slot; rewrite (proj2 (Z.leb_gt _ _)) by lia; unfold at_slot in Hd; cbn; by destruct (fds !! _) as [[?|]|]; simplify_eq/=))).
  rewrite session_put. set (k1 := session _ w l).
  assert (attempt (E:=ProcessError) (zoom k_world set_world (Vfs.fd_flush d)) k1 = Ok (r, set_world w' k1)) as Hz.
  { unfold attempt, zoom in *. change (k_world k1) with w. by destruct (Vfs.fd_flush d w) as [[[] ?]|[]| |]; simplify_eq. }
  by rewrite (M_bind_ok _ _ _ _ _ Hz).
Qed.

(** *** Opening *)

Context (file_size : Z) (e : env (world D F)) (registry : Drivers.dstate (world D F)).

Lemma open_slot d fds w l : with_process_try (p_pid p) (allocate_fd_slot d) (session fds w l) =
  match first_free 0 fds with
  | Some n => Ok (Z.of_nat n, session (slot (Z.of_nat n) d fds) w l)
  | None => Err (NoFreeFileDescriptors, session fds w l)
  end.
Proof.
  pose proof (session_running fds w l) as [_ Hi Hp]. change (p_pid (set_fds fds p)) with (p_pid p) in Hi. destruct (first_free 0 fds) as [n|] eqn:Hf.
  - rewrite (with_process_try_run _ (allocate_fd_slot d) _ i (set_fds fds p) (Z.of_nat n) (set_fds (<[n := Some d]> fds) p) Hi Hp
      ltac:(unfold allocate_fd_slot; cbn; by rewrite Hf)). unfold slot. by rewrite session_put, Nat2Z.id.
  - unfold with_process_try, mbind, M_bind, Prelude.get, ok_or, lift. rewrite Hi, Hp. unfold allocate_fd_slot. cbn. by rewrite Hf.
Qed.

Lemma call_open (Q : Z + ProcessError → list (option FD) → world D F → Prop) fds w l ptr len flags bytes need room :
  0 < len < I64 - 1 → 0 < ptr → heap_ok lo hi room l → cost len ≤ room →
  copy_from_user (pm_mem (w_pm w)) (p_address_space p) ptr len = Ok bytes → utf8_valid (before_zero bytes) = true →
  (∀ l1, heap_ok lo hi (room - cost len) l1 → ∃ r fds' w' l2,
    attempt (E:=Empty_set) (open_path file_size e registry (p_pid p) (before_zero bytes)) (session fds w l1) = Ok (r, session fds' w' l2) ∧
    Q r fds' w' ∧ heap_ok lo hi (room - cost len - need) l2 ∧ shrunk l1 l2) →
  ∃ r fds' w' l', sys_open file_size e registry ptr len flags (session fds w l) = Ok (open_value r, session fds' w' l') ∧ Q r fds' w' ∧
    heap_ok lo hi (room - cost len - need) l'.
Proof.
  intros Hl Hptr Hheap Hroom Hbytes Hutf Hopen. pose proof (session_running fds w l) as Hc.
  pose proof (running_space _ _ _ Hc) as [Hsp Hpid].
  destruct (vec_zeroed_ok (E:=ProcessError) lo hi Hlo Hle Hhi room l len Hheap) as (buf & l1 & Hz & Hl1 & _ & Ho); [done..|].
  assert (attempt (E:=Empty_set) (on_heap (read_user_buffer (memory (session fds w l)) (p_address_space p) ptr len)) (session fds w l) =
    Ok (inl (buf, bytes), session fds w l1)) as Hbuf.
  { apply attempt_ok. apply (on_heap_ok _ (session fds w l)). unfold read_user_buffer. change (Heap.ga_free _) with l. rewrite (M_bind_ok _ _ _ _ _ Hz).
    rewrite (M_bind_ok _ _ _ (inl bytes) l1); [done|]. apply attempt_ok. unfold lift. change (memory _) with (pm_mem (w_pm w)). by rewrite Hbytes. }
  destruct (Hopen l1 Hl1) as (r & fds' & w' & l2 & Hop & HQ & Hl2 & Hsh).
  destruct (with_buffer_ok lo hi Hlo Hhi (room - cost len - need) (session fds' w' l2) buf len) as (l3 & Hl3 & Hwb);
    [done|lia|by apply (owned_shrunk lo hi buf _ l1)|].
  exists r, fds', w', l3. split; [|done]. unfold sys_open. rewrite (proj2 (Z.eqb_neq ptr 0)), (proj2 (Z.eqb_neq len 0)) by lia. cbn [orb].
  rewrite (M_bind_ok Prelude.get _ _ (session fds w l) (session fds w l)) by done. rewrite Hsp.
  change (p_address_space (set_fds fds p)) with (p_address_space p). rewrite (M_bind_ok _ _ _ _ _ Hbuf).
  rewrite <- (session_free l3 fds' w' l2). apply Hwb. rewrite Hutf, Hpid. cbn [negb]. change (p_pid (set_fds fds p)) with (p_pid p).
  rewrite (M_bind_ok _ _ _ _ _ Hop). by destruct r as [?|[]].
Qed.

(** The calls that fail before the path is looked up. *)
Lemma call_open_fault fds w l ptr len flags err room : 0 < len < I64 - 1 → 0 < ptr → heap_ok lo hi room l → cost len ≤ room →
  copy_from_user (pm_mem (w_pm w)) (p_address_space p) ptr len = Err err →
  ∃ l', sys_open file_size e registry ptr len flags (session fds w l) = Ok (ERR_FAULT, session fds w l') ∧ heap_ok lo hi (room - cost len) l'.
Proof.
  intros Hl Hptr Hheap Hroom Herr. pose proof (session_running fds w l) as Hc. pose proof (running_space _ _ _ Hc) as [Hsp _].
  destruct (vec_zeroed_ok (E:=ProcessError) lo hi Hlo Hle Hhi room l len Hheap) as (buf & l1 & Hz & Hl1 & _ & Ho); [done..|].
  destruct (vec_drop_ok (E:=ProcessError) lo hi Hlo Hhi _ _ buf len Hl1 ltac:(lia) Ho) as (l2 & Hd & Hl2).
  assert (read_user_buffer (pm_mem (w_pm w)) (p_address_space p) ptr len l = Err (err, l2)) as Hread.
  { unfold read_user_buffer. rewrite (M_bind_ok _ _ _ _ _ Hz). rewrite (M_bind_ok _ _ _ (inr err) l1) by (unfold attempt, lift; by rewrite Herr).
    by rewrite (M_bind_ok _ _ _ _ _ Hd). }
  exists l2. split; [|done]. unfold sys_open. rewrite (proj2 (Z.eqb_neq ptr 0)), (proj2 (Z.eqb_neq len 0)) by lia. cbn [orb].
  rewrite (M_bind_ok Prelude.get _ _ (session fds w l) (session fds w l)) by done. rewrite Hsp.
  rewrite (M_bind_ok _ _ _ (inr err) (session fds w l2)); [done|]. unfold attempt, on_heap, zoom.
  change (Heap.ga_free (k_heap (session fds w l))) with l. change (memory (session fds w l)) with (pm_mem (w_pm w)).
  change (p_address_space (set_fds fds p)) with (p_address_space p). by rewrite Hread.
Qed.

Lemma call_open_invalid fds w l ptr len flags bytes room : 0 < len < I64 - 1 → 0 < ptr → heap_ok lo hi room l → cost len ≤ room →
  copy_from_user (pm_mem (w_pm w)) (p_address_space p) ptr len = Ok bytes → utf8_valid (before_zero bytes) = false →
  ∃ l', sys_open file_size e registry ptr len flags (session fds w l) = Ok (ERR_INVAL, session fds w l') ∧ heap_ok lo hi (room - cost len) l'.
Proof.
  intros Hl Hptr Hheap Hroom Hbytes Hutf. pose proof (session_running fds w l) as Hc. pose proof (running_space _ _ _ Hc) as [Hsp _].
  destruct (vec_zeroed_ok (E:=ProcessError) lo hi Hlo Hle Hhi room l len Hheap) as (buf & l1 & Hz & Hl1 & _ & Ho); [done..|].
  destruct (with_buffer_ok lo hi Hlo Hhi (room - cost len) (session fds w l1) buf len) as (l2 & Hl2 & Hwb); [done|lia|done|].
  exists l2. split; [|done]. unfold sys_open. rewrite (proj2 (Z.eqb_neq ptr 0)), (proj2 (Z.eqb_neq len 0)) by lia. cbn [orb].
  rewrite (M_bind_ok Prelude.get _ _ (session fds w l) (session fds w l)) by done. rewrite Hsp.
  rewrite (M_bind_ok _ _ _ (inl (buf, bytes)) (session fds w l1)).
  - rewrite <- (session_free l2 fds w l1). apply Hwb. by rewrite Hutf.
  - apply attempt_ok, (on_heap_ok _ (session fds w l)). unfold read_user_buffer. change (Heap.ga_free _) with l. rewrite (M_bind_ok _ _ _ _ _ Hz).
    rewrite (M_bind_ok _ _ _ (inl bytes) l1); [done|]. apply attempt_ok. unfold lift. change (memory _) with (pm_mem (w_pm w)).
    change (p_address_space (set_fds fds p)) with (p_address_space p). by rewrite Hbytes.
Qed.

(** *** What an open promises

    The value and the descriptors, from the bytes the process sees at the path's
    address. *)
Inductive opens (fds : list (option FD)) : option (list Z) → Z → list (option FD) → Prop :=
| opens_unmapped : opens fds None (encode_error Fault) fds
| opens_invalid bytes : utf8_valid (before_zero bytes) = false → opens fds (Some bytes) (encode_error InvalidArgument) fds
| opens_nothing bytes : utf8_valid (before_zero bytes) = true → named e registry (before_zero bytes) = None →
    opens fds (Some bytes) (encode_error NoEntry) fds
| opens_full bytes d : utf8_valid (before_zero bytes) = true → named e registry (before_zero bytes) = Some d →
    (∀ m, 0 ≤ m < Z.of_nat MAX_FDS → is_Some (at_slot fds m)) → opens fds (Some bytes) (encode_error NoMemory) fds
| opens_new bytes d n : utf8_valid (before_zero bytes) = true → named e registry (before_zero bytes) = Some d →
    0 ≤ n < Z.of_nat MAX_FDS → at_slot fds n = None → (∀ m, 0 ≤ m < n → is_Some (at_slot fds m)) → opens fds (Some bytes) n (slot n d fds).

Lemma first_free_slot (fds : list (option FD)) : length fds = MAX_FDS →
  match first_free 0 fds with
  | Some n => 0 ≤ Z.of_nat n < Z.of_nat MAX_FDS ∧ at_slot fds (Z.of_nat n) = None ∧ ∀ m, 0 ≤ m < Z.of_nat n → is_Some (at_slot fds m)
  | None => ∀ m, 0 ≤ m < Z.of_nat MAX_FDS → is_Some (at_slot fds m)
  end.
Proof.
  intros Hlen. pose proof (first_free_spec 0 fds) as Hf. unfold at_slot. destruct (first_free 0 fds) as [n|].
  - destruct Hf as (_ & Hn & Hlt). rewrite Nat.sub_0_r in *. apply lookup_lt_Some in Hn as Hl. rewrite Nat2Z.id, Hn. split_and!; [lia|lia|done|].
    intros m Hm. destruct (Hlt (Z.to_nat m)) as [d ->]; [lia|]. by eexists.
  - intros m Hm. destruct (lookup_lt_is_Some_2 fds (Z.to_nat m)) as [o Ho]; [lia|]. rewrite Ho. by destruct (Hf _ _ Ho) as [d ->]; eexists.
Qed.

Lemma call_open_named fds w l ptr len flags c room : length fds = MAX_FDS → 0 < len < I64 - 1 → 0 < ptr → heap_ok lo hi room l → cost len ≤ room →
  copy_from_user (pm_mem (w_pm w)) (p_address_space p) ptr len = match c with Some bytes => Ok bytes | None => Err UserMemoryNotPresent end →
  (∀ bytes, c = Some bytes → strip_prefix FAT_PREFIX (before_zero bytes) = None) →
  ∃ v fds' l', sys_open file_size e registry ptr len flags (session fds w l) = Ok (v, session fds' w l') ∧ opens fds c v fds' ∧
    heap_ok lo hi (room - cost len) l'.
Proof.
  intros Hfds Hl Hptr Hheap Hroom Hcopy Hfat. destruct c as [bytes|].
  2:{ destruct (call_open_fault fds w l ptr len flags _ room Hl Hptr Hheap Hroom Hcopy) as (l' & Hop & Hl').
      exists ERR_FAULT, fds, l'. split_and!; [done|constructor|done]. }
  destruct (utf8_valid (before_zero bytes)) eqn:Hutf.
  2:{ destruct (call_open_invalid fds w l ptr len flags bytes room Hl Hptr Hheap Hroom Hcopy Hutf) as (l' & Hop & Hl').
      exists ERR_INVAL, fds, l'. split_and!; [done|by constructor|done]. }
  pose proof (first_free_slot fds Hfds) as Hfree.
  assert (∃ r fds', opens fds (Some bytes) (open_value r) fds' ∧
    ∀ l1, attempt (E:=Empty_set) (open_path file_size e registry (p_pid p) (before_zero bytes)) (session fds w l1) = Ok (r, session fds' w l1))
    as (r & fds' & Hspec & Hrun').
  { unfold open_path, attempt. destruct (named e registry (before_zero bytes)) as [d|] eqn:Hd.
    2:{ exists (inr PathNotFound), fds. split; [by constructor|]. intros l1. unfold mbind, M_bind.
        by rewrite descriptor_of_named, Hd by (by apply Hfat). }
    destruct (first_free 0 fds) as [n|] eqn:Hf.
    - destruct Hfree as (Hn & Hnone & Hlow). exists (inl (Z.of_nat n)), (slot (Z.of_nat n) d fds). split; [by constructor|].
      intros l1. unfold mbind, M_bind. rewrite descriptor_of_named, Hd by (by apply Hfat). by rewrite open_slot, Hf.
    - exists (inr NoFreeFileDescriptors), fds. split; [by eapply opens_full|].
      intros l1. unfold mbind, M_bind. rewrite descriptor_of_named, Hd by (by apply Hfat). by rewrite open_slot, Hf. }
  destruct (call_open (λ r0 fds0 w0, r0 = r ∧ fds0 = fds' ∧ w0 = w) fds w l ptr len flags bytes 0 room)
    as (? & ? & ? & l' & Hop & (-> & -> & ->) & Hl'); try done.
  { intros l1 Hl1. exists r, fds', w, l1. rewrite Z.sub_0_r. split_and!; [apply Hrun'|done..|by intros a Ha]. }
  rewrite Z.sub_0_r in Hl'. by exists (open_value r), fds', l'.
Qed.

End session.

(** ** Opening a device or the scratch file *)

Section open.
Context {D F : Type} `{!FrameAlloc F} (lo hi rp file_size : Z) (e : env (world D F)) (registry : Drivers.dstate (world D F)).
Hypothesis Hlo : 0 < lo.
Hypothesis Hle : lo ≤ hi + 1.
Hypothesis Hhi : hi + 16 < U64.

(** C30. Opening by system call.  When a user process opens a path outside the
    mounted volume, the call looks at the bytes the process sees at the address, up
    to the first zero.  It gives the error documented for memory that is not mapped,
    for bytes that are not text, for a name that stands for nothing and for a process
    without a free slot, and then leaves the descriptors as they were; otherwise it
    returns the lowest free number, and the slot holds a new descriptor of what the
    name stands for, at offset 0.  Nothing else changes, and the kernel's buffer is
    released. *)
Theorem open_call_correct k i p ptr len flags pool room : caller k i p → length (p_fds p) = MAX_FDS → 0 < len < I64 - 1 → 0 < ptr → ptr + len ≤ 2 ^ 47 →
  heap_ok lo hi room (Heap.ga_free (k_heap k)) → Heap.room_cost (mkLayout len 1) ≤ room → user_ok (memory k) (cr3 (p_address_space p)) pool →
  let seen := user_bytes (memory k) (cr3 (p_address_space p)) ptr (Z.to_nat len) in
  (∀ bytes, seen = Some bytes → strip_prefix FAT_PREFIX (before_zero bytes) = None) →
  ∃ v fds l, dispatch rp file_size e registry (call_frame nr.OPEN ptr len flags) k = Ok (Returns v, session k i fds (k_world k) l) ∧
    opens e registry (p_fds p) seen v fds ∧ Heap.free_list lo hi l.
Proof.
  intros [Hc Hu] Hfds Hl Hptr Hend Hheap Hroom Huser seen Hfat.
  destruct (call_open_named lo hi Hlo Hle Hhi k i p Hc file_size e registry (p_fds p) (k_world k) (Heap.ga_free (k_heap k)) ptr len flags seen room)
    as (v & fds & l & Hop & Hspec & [Hl' _]); try done.
  { by apply (copy_from_user_user _ _ pool); [..|lia|lia|lia]. }
  exists v, fds, l. split_and!; [|done..]. rewrite (session_start k i p Hc) in Hop.
  exact (call_returns rp file_size e registry (call_frame nr.OPEN ptr len flags) (sys_open file_size e registry ptr len flags) _ _ _ eq_refl Hop).
Qed.

End open.

(** ** A file of the volume by its path *)

Section path.
Context {D F : Type} `{!FrameAlloc F} (v : Fat.FatVolume D) `{!BlockDeviceLaws (Fat.device v)} (lo hi rp file_size : Z).
Context (e : env (world D F)) (registry : Drivers.dstate (world D F)).
Hypothesis Hlo : 0 < lo.
Hypothesis Hle : lo ≤ hi + 1.
Hypothesis Hhi : hi + 16 < U64.
Hypothesis Hblock : block_size (Fat.device v) = 512.
Hypothesis Hv : Fat.volume_ok v.
Hypothesis Hfile : 0 < file_size < 2 ^ 32.
Abbreviation K := (kernel (world D F)).
Abbreviation cost n := (Heap.room_cost (mkLayout n 1)).

(** The call finds the file and gives its descriptor at the lowest free number. *)
Lemma call_open_file (k : K) i p fds w l ptr len flags bytes sub cluster size cs n room : running k i p →
  0 < len < I64 - 1 → 0 < ptr → heap_ok lo hi room l → cost len + Heap.room_cost (file_layout file_size) ≤ room →
  copy_from_user (pm_mem (w_pm w)) (p_address_space p) ptr len = Ok bytes → utf8_valid (before_zero bytes) = true →
  strip_prefix FAT_PREFIX (before_zero bytes) = Some sub → w_volume w = Some v → Fat.disk_ok v (w_dev w) →
  stored v (bd_disk (w_dev w)) (Fat.trim_matches Fat.slash sub) cluster size cs → first_free 0 fds = Some n →
  ∃ d' l', sys_open file_size e registry ptr len flags (session k i fds w l) =
      Ok (Z.of_nat n, session k i (slot (Z.of_nat n) (file_fd v cluster size 0) fds) (set_dev d' w) l') ∧
    Fat.same_disk v (w_dev w) d' ∧ heap_ok lo hi (room - cost len - Heap.room_cost (file_layout file_size)) l'.
Proof.
  intros Hc Hl Hptr Hheap Hroom Hbytes Hutf Hsub Hvol Hw Hst Hn.
  pose proof (room_cost_pos (file_layout file_size) ltac:(done)) as Hpos.
  destruct (call_open lo hi Hlo Hle Hhi k i p Hc file_size e registry (λ r fds' w', r = inl (Z.of_nat n) ∧
    fds' = slot (Z.of_nat n) (file_fd v cluster size 0) fds ∧ ∃ d', w' = set_dev d' w ∧ Fat.same_disk v (w_dev w) d') fds w l ptr len flags bytes
    (Heap.room_cost (file_layout file_size)) room) as (r & fds' & w' & l' & Hop & (-> & -> & d' & -> & Hsame) & Hl'); try done; [lia| |by exists d', l'].
  intros l1 Hl1.
  destruct (open_fat_ok v lo hi file_size Hlo Hle Hhi Hblock Hv Hfile _ l1 w sub cluster size cs Hvol Hw Hl1 Hst) as (l2 & d' & Hopen & Hsame & Hl2 & Hsh);
    [by eapply stored_path|lia|].
  eexists (inl (Z.of_nat n)), _, (set_dev d' w), l2. split; [|split; [split_and!; try done; by exists d'|by split]].
  apply attempt_ok. unfold open_path.
  rewrite (M_bind_ok _ _ _ (file_fd v cluster size 0) (session k i fds (set_dev d' w) l2)); [by rewrite open_slot, Hn by done|].
  unfold descriptor_of. rewrite Hsub. rewrite (M_bind_ok _ _ _ (lift_file (Fat.fat_file (Fat.mkFatFile v cluster size))) (session k i fds (set_dev d' w) l2)); [done|].
  apply map_err_ok. unfold on_hworld_k, zoom. change (Heap.ga_free (k_heap (session k i fds w l1))) with l1.
  change (k_world (session k i fds w l1)) with w. by rewrite Hopen.
Qed.

(** A descriptor that was opened and closed again leaves the table as it was. *)
Lemma reopened (fds : list (option (Vfs.FileDescriptor (world D F)))) n d : at_slot fds n = None → (Z.to_nat n < length fds)%nat →
  <[Z.to_nat n := None]> (slot n d fds) = fds.
Proof.
  intros Hn Hlen. unfold slot. rewrite list_insert_insert_eq. apply list_insert_id.
  destruct (lookup_lt_is_Some_2 fds (Z.to_nat n)) as [o Ho]; [lia|]. unfold at_slot in Hn. rewrite Ho in Hn. cbn in Hn. by subst o.
Qed.

Lemma session_table (k : K) i p w l : running k i p → k_table (session k i (p_fds p) w l) = k_table k.
Proof. intros Hc. exact (f_equal k_table (session_start k i p Hc)). Qed.

Lemma first_free_lowest (fds : list (option (Vfs.FileDescriptor (world D F)))) n : length fds = MAX_FDS → 0 ≤ n < Z.of_nat MAX_FDS → at_slot fds n = None →
  (∀ m, 0 ≤ m < n → is_Some (at_slot fds m)) → first_free 0 fds = Some (Z.to_nat n).
Proof.
  intros Hlen Hn Hnone Hlow. pose proof (first_free_slot fds Hlen) as Hf. destruct (first_free 0 fds) as [m|].
  - destruct Hf as (Hm & Hm0 & Hml). f_equal. destruct (Z.lt_trichotomy (Z.of_nat m) n) as [H|[H|H]]; [|lia|].
    + destruct (Hlow (Z.of_nat m)) as [d Hd]; [lia|congruence].
    + destruct (Hml n) as [d Hd]; [lia|congruence].
  - destruct (Hf n Hn) as [d Hd]. congruence.
Qed.

(** C27. A file by its path.  When the volume holds a file under the path a user
    process gives, opening it returns the lowest free number, reading from that
    number puts the first bytes of the file, as many as it has and at most the length
    asked for, at the buffer, and closing it succeeds.  Afterwards the buffer holds
    these bytes and no other byte of memory the process sees has changed, the process
    table is what it was before, the disk has not changed, and the heap is in order. *)
Theorem read_by_path_correct k i p pptr plen flags bytes sub cluster size cs n ptr len pool room :
  caller k i p → length (p_fds p) = MAX_FDS →
  0 < plen < I64 - 1 → 0 < pptr → pptr + plen ≤ 2 ^ 47 → user_ok (memory k) (cr3 (p_address_space p)) pool →
  user_bytes (memory k) (cr3 (p_address_space p)) pptr (Z.to_nat plen) = Some bytes → utf8_valid (before_zero bytes) = true →
  strip_prefix FAT_PREFIX (before_zero bytes) = Some sub → w_volume (k_world k) = Some v → Fat.disk_ok v (w_dev (k_world k)) →
  stored v (bd_disk (w_dev (k_world k))) (Fat.trim_matches Fat.slash sub) cluster size cs →
  0 ≤ n < Z.of_nat MAX_FDS → at_slot (p_fds p) n = None → (∀ m, 0 ≤ m < n → is_Some (at_slot (p_fds p) m)) →
  0 < len < I64 - 1 → 0 < ptr → ptr + len ≤ 2 ^ 47 → 0 ≤ size →
  let data := take (Z.to_nat len) (contents v (bd_disk (w_dev (k_world k))) size cs) in
  is_Some (user_bytes (memory k) (cr3 (p_address_space p)) ptr (length data)) →
  heap_ok lo hi room (Heap.ga_free (k_heap k)) → cost plen + Heap.room_cost (file_layout file_size) + cost len ≤ room →
  let call number a b c := dispatch rp file_size e registry (call_frame number a b c) in
  ∃ k1 k2 k3, call nr.OPEN pptr plen flags k = Ok (Returns n, k1) ∧ call nr.READ n ptr len k1 = Ok (Returns (Z.of_nat (length data)), k2) ∧
    call nr.CLOSE n 0 0 k2 = Ok (Returns 0, k3) ∧ copied (memory k) (memory k3) (cr3 (p_address_space p)) pool ptr data ∧
    k_table k3 = k_table k ∧ Fat.same_disk v (w_dev (k_world k)) (w_dev (k_world k3)) ∧ Heap.free_list lo hi (Heap.ga_free (k_heap k3)).
Proof.
  intros [Hc Hu] Hfds Hpl Hpp Hpe Huser Hpath Hutf Hsub Hvol Hw Hst Hn Hnone Hlow Hl Hptr Hend Hsize data Hbuf Hheap Hroom call.
  pose proof (room_cost_pos (file_layout file_size) ltac:(done)) as Hpos. pose proof (room_cost_pos (mkLayout len 1) ltac:(done)) as Hpos'.
  pose proof (first_free_lowest _ _ Hfds Hn Hnone Hlow) as Hff.
  destruct (call_open_file k i p (p_fds p) (k_world k) _ pptr plen flags bytes sub cluster size cs (Z.to_nat n) room Hc Hpl Hpp Hheap) as (d1 & l1 & H1 & Hs1 & Hl1);
    try done; [lia|change (pm_mem (w_pm (k_world k))) with (memory k); by rewrite (copy_from_user_user _ _ pool), Hpath by (done || lia)|].
  rewrite Z2Nat.id in H1 by lia. rewrite (session_start k i p Hc) in H1.
  set (fds1 := slot n (file_fd v cluster size 0) (p_fds p)) in *.
  assert (at_slot fds1 n = Some (file_fd v cluster size 0)) as Hat by (unfold at_slot, fds1, slot; by rewrite list_lookup_insert_eq by lia).
  destruct (fd_read_file v Hblock Hv (set_dev d1 (k_world k)) cluster size 0 cs len) as (d2 & Hread & Hs2);
    [apply Hs1|cbn; rewrite (proj2 Hs1); by destruct Hst|lia..|lia|].
  cbn [w_dev set_dev] in Hread, Hs2. rewrite (proj2 Hs1), drop_0 in Hread. fold data in Hread.
  pose proof (copy_to_user_user (p_address_space p) pool ptr data (memory k) Hu Huser) as Hcopy. destruct Hbuf as [old Hold]. rewrite Hold in Hcopy.
  destruct Hcopy as (m & Hcopy & Hcopied); [unfold data; apply Forall_take, contents_bytes, Hw|lia|unfold data; rewrite length_take; lia|].
  destruct (call_read lo hi Hlo Hle Hhi k i p Hc fds1 _ l1 n _ ptr len data _ _ m
    (room - cost plen - Heap.room_cost (file_layout file_size)) ltac:(lia) Hat Hread) as (l2 & H2 & Hl2);
    [unfold data; rewrite length_take; lia|done|done|exact Hl1|lia|exact Hcopy|].
  set (fds2 := slot n _ fds1) in H2. set (w2 := set_pm _ _) in H2.
  pose proof (call_close k i p Hc fds2 w2 l2 n (file_fd v cluster size (0 + Z.of_nat (length data))) (inl tt) w2 Hn
    ltac:(unfold at_slot, fds2, fds1, slot; by rewrite list_lookup_insert_eq by (rewrite length_insert; lia)) eq_refl) as H3.
  assert (<[Z.to_nat n := None]> fds2 = p_fds p) as Hfds2.
  { unfold fds2, fds1, slot. rewrite list_insert_insert_eq. by apply reopened; [|lia]. }
  rewrite Hfds2 in H3.
  eexists _, _, _. split_and!.
  - exact (call_returns rp file_size e registry (call_frame nr.OPEN pptr plen flags) (sys_open file_size e registry pptr plen flags) _ _ _ eq_refl H1).
  - exact (call_returns rp file_size e registry (call_frame nr.READ n ptr len) (sys_read n ptr len) _ _ _ eq_refl H2).
  - exact (call_returns rp file_size e registry (call_frame nr.CLOSE n 0 0) (sys_close n) _ _ _ eq_refl H3).
  - exact Hcopied.
  - by apply session_table.
  - destruct Hs1 as [? Hd1], Hs2 as [? Hd2]. split; [done|]. cbn. by rewrite Hd2.
  - by destruct Hl2.
Qed.

End path.

(** ** A process with a path in its memory *)

(** A memory of the example in which the process sees [bs] at 0x400010. *)
Lemma example_text bs : Forall byte bs → user_bytes (pm_mem UserMem.example_state) 0x800000 0x400010 (length bs) = Some (replicate (length bs) 0) →
  Z.of_nat (length bs) < 4096 →
  ∃ m, user_ok m 0x800000 (fa_pool (pm_fa UserMem.example_state)) ∧ user_bytes m 0x800000 0x400010 (length bs) = Some bs.
Proof.
  intros Hb Hold Hlen. pose proof (copy_to_user_user UserMem.example_as _ 0x400010 bs (pm_mem UserMem.example_state) eq_refl
    UserMem.example_user_ok Hb ltac:(lia) ltac:(lia)) as H.
  cbn [cr3 UserMem.example_as with_cr3] in H. rewrite Hold in H. destruct H as (m & _ & Hc). exists m.
  split; [apply Hc|]. apply (user_bytes_copied (pm_mem UserMem.example_state) m 0x800000 (fa_pool (pm_fa UserMem.example_state))); [lia|lia|done].
Qed.

Definition kernel_at (m : mem) : kernel (world (list Z) Phys.phys) := set_memory m example_kernel.

Lemma kernel_at_caller m : caller (kernel_at m) 0 example_caller.
Proof. by split. Qed.

Lemma open_call_correct_witness :
  ∃ m v fds l, dispatch 7 64 ProgramSpec.example_env example_registry (call_frame nr.OPEN 0x400010 12 0) (kernel_at m) =
      Ok (Returns v, session (kernel_at m) 0 fds (k_world (kernel_at m)) l) ∧
    opens ProgramSpec.example_env example_registry (p_fds example_caller) (Some (Fat.str_bytes "/dev/console")) v fds.
Proof.
  destruct (example_text (Fat.str_bytes "/dev/console")) as (m & Huser & Hbytes); [apply list_forallb_byte; by vm_compute|by vm_compute|by vm_compute|].
  destruct (open_call_correct 0x100000 0x200000 7 64 ProgramSpec.example_env example_registry ltac:(done) ltac:(done) ltac:(done) (kernel_at m) 0
    example_caller 0x400010 12 0 (fa_pool (pm_fa UserMem.example_state)) 0x1000 (kernel_at_caller m) ltac:(done) ltac:(done) ltac:(done) ltac:(done)
    example_heap_ok ltac:(done) Huser) as (v & fds & l & Hd & Hop & _).
  - intros bytes Hs. change (user_bytes m 0x800000 0x400010 12 = Some bytes) in Hs. change 12%nat with (length (Fat.str_bytes "/dev/console")) in Hs.
    rewrite Hbytes in Hs. injection Hs as <-. by vm_compute.
  - exists m, v, fds, l. split; [exact Hd|]. change (opens ProgramSpec.example_env example_registry (p_fds example_caller)
      (user_bytes m 0x800000 0x400010 (length (Fat.str_bytes "/dev/console"))) v fds) in Hop. rewrite Hbytes in Hop. exact Hop.
Defined.

Lemma read_by_path_correct_witness :
  ∃ m k1 k2 k3, dispatch 7 64 ProgramSpec.example_env example_registry (call_frame nr.OPEN 0x400010 13 0) (kernel_at m) = Ok (Returns 4, k1) ∧
    dispatch 7 64 ProgramSpec.example_env example_registry (call_frame nr.READ 4 0x400010 13) k1 = Ok (Returns 13, k2) ∧
    dispatch 7 64 ProgramSpec.example_env example_registry (call_frame nr.CLOSE 4 0 0) k2 = Ok (Returns 0, k3) ∧
    user_byte (memory k3) 0x800000 0x400012 = Some 76.
Proof.
  destruct (example_text (Fat.str_bytes "/fat/init.elf")) as (m & Huser & Hbytes); [apply list_forallb_byte; by vm_compute|by vm_compute|by vm_compute|].
  assert (take 13 (contents Fat.example_volume ProgramSpec.example_disk 128 [2]) = take 13 Elf.example_elf) as Hdata by (by vm_compute).
  assert (bd_inv (BlockDeviceLaws:=Fat.example_laws) ProgramSpec.example_disk) as Hdisk by (split; [by vm_compute|apply list_forallb_byte; by vm_compute]).
  assert (Z.of_nat (length (bd_disk (BlockDeviceLaws:=Fat.example_laws) ProgramSpec.example_disk)) < I64) as Hlen by (by vm_compute).
  destruct (@read_by_path_correct _ _ _ Fat.example_volume Fat.example_laws 0x100000 0x200000 7 64 ProgramSpec.example_env example_registry
    ltac:(done) ltac:(done) ltac:(done) ltac:(done) Fat.example_volume_ok ltac:(done) (kernel_at m) 0 example_caller 0x400010 13 0
    (Fat.str_bytes "/fat/init.elf") (Fat.str_bytes "init.elf") 2 128 [2] 4 0x400010 13 (fa_pool (pm_fa UserMem.example_state)) 0x1000
    (kernel_at_caller m) eq_refl ltac:(done) ltac:(done) ltac:(done) Huser Hbytes ltac:(by vm_compute) ltac:(by vm_compute) eq_refl
    (conj Hdisk Hlen) ProgramSpec.example_stored ltac:(done) eq_refl) as (k1 & k2 & k3 & H1 & H2 & H3 & Hcp & _).
  - intros j Hj. assert (j = 0 ∨ j = 1 ∨ j = 2 ∨ j = 3) as [->|[->|[->| ->]]] by lia; by eexists.
  - done.
  - done.
  - done.
  - done.
  - change (is_Some (user_bytes m 0x800000 0x400010 (length (take 13 (contents Fat.example_volume ProgramSpec.example_disk 128 [2]))))).
    rewrite Hdata. eexists. exact Hbytes.
  - exact example_heap_ok.
  - by vm_compute.
  - change (take (Z.to_nat 13) _) with (take 13 (contents Fat.example_volume ProgramSpec.example_disk 128 [2])) in H2, Hcp. rewrite Hdata in H2, Hcp.
    exists m, k1, k2, k3. split; [exact H1|]. split; [exact H2|]. split; [exact H3|].
    change (cr3 (p_address_space example_caller)) with 0x800000 in Hcp.
    rewrite (cp_bytes _ _ _ _ _ _ Hcp) by lia. rewrite decide_True by (by vm_compute). by vm_compute.
Defined.

End FileCalls.
