(* ===== verification/FrameSpec.v ===== *)
(** * Interrupts and system calls at the level of the processor

    An interrupt builds the [InterruptFrame] its handler gets and resumes what the
    handler leaves in it; a system call builds the [SyscallFrame] the dispatcher
    gets. *)

From S2P Require Import Prelude Mem Heap Phys Paging RawVec Types UserMem Drivers Vfs Process Sched SchedSpec SchedSteps SchedLive.
From S2P Require Import Ports Keyboard KeyboardSpec Interrupts InterruptsSpec Elf Loader Fat Program Syscall Asm AsmSpec.
Local Open Scope Z_scope.

Module FrameSpec.
Import Asm AsmSpec Interrupts InterruptsSpec.

(** The words of an [InterruptFrame], in the order of its fields. *)
Definition frame_words (f : InterruptFrame) : list Z :=
  [f_ds f; f_r15 f; f_r14 f; f_r13 f; f_r12 f; f_r11 f; f_r10 f; f_r9 f; f_r8 f; f_rdi f; f_rsi f; f_rbp f; f_rsp f;
   f_rbx f; f_rdx f; f_rcx f; f_rax f; f_int_no f; f_err_code f; f_rip f; f_cs f; f_rflags f; f_user_rsp f; f_user_ss f].

(** The general registers of a frame. *)
Definition frame_reg (f : InterruptFrame) (r : reg) : Z :=
  match r with
  | RAX => f_rax f | RBX => f_rbx f | RCX => f_rcx f | RDX => f_rdx f | RSI => f_rsi f | RDI => f_rdi f | RBP => f_rbp f | RSP => f_user_rsp f
  | R8 => f_r8 f | R9 => f_r9 f | R10 => f_r10 f | R11 => f_r11 f | R12 => f_r12 f | R13 => f_r13 f | R14 => f_r14 f | R15 => f_r15 f
  end.

(** The frame of an interrupt of [m] at [rip], built on the stack that ends at [sp].
    The saved stack pointer is that of the stub, and only the low half word of the
    saved selector is one. *)
Definition interrupted (m : machine) (sp rip vector error : Z) : InterruptFrame :=
  let reg := m_reg m in
  mkFrame (low16 (sp - 88) (m_seg m DS)) (reg R15) (reg R14) (reg R13) (reg R12) (reg R11) (reg R10) (reg R9) (reg R8) (reg RDI) (reg RSI)
    (reg RBP) (sp - 88) (reg RBX) (reg RDX) (reg RCX) (reg RAX) vector error rip (m_seg m CS) (m_flags m) (reg RSP) (m_seg m SS).

(** ** Into the handler *)

(** Values that are known to be 64-bit. *)
Ltac forall_u64 := repeat (apply Forall_cons_2; [solve [auto]|]); apply Forall_nil_2.

Lemma stack_set_seg s v m sp l : stack m sp l → stack (set_seg s v m) sp l.
Proof. done. Qed.
Lemma stack_set_flags v m sp l : stack m sp l → stack (set_flags v m) sp l.
Proof. done. Qed.
Lemma stack_set_reg r v m sp l : r ≠ RSP → stack m sp l → stack (set_reg r v m) sp l.
Proof. intros Hr [Hs Hw]. split; [by rewrite set_reg_ne|done]. Qed.

(** A state of the entry code: the words pushed so far, and the registers as they
    were, apart from rsp and rax. *)
Record pushed (m m' : machine) (sp : Z) (l : list Z) : Prop := {
  pu_stack : stack m' (sp - 8 * Z.of_nat (length l)) l;
  pu_reg : ∀ r, r ≠ RSP → r ≠ RAX → m_reg m' r = m_reg m r;
  pu_seg : ∀ s, s ≠ CS → m_seg m' s = m_seg m s;
  pu_above : same_above sp (m_mem m) (m_mem m')
}.

Lemma pushed_more m m' sp l vs : pushed m m' sp l → Forall u64 vs → 8 * Z.of_nat (length vs + length l) ≤ sp < U64 →
  pushed m (pushes vs m') sp (reverse vs ++ l) ∧ m_reg (pushes vs m') RAX = m_reg m' RAX ∧ m_flags (pushes vs m') = m_flags m'.
Proof.
  intros [Hs Hr Hseg Ha] Hu Hb. destruct (pushes_spec vs m' _ l Hs) as (Hs' & Hc & Ha'); [lia|done|].
  split; [|split; [by apply (sc_reg _ _ Hc)|by apply (sc_flags _ _ Hc)]]. split.
  - rewrite length_app, length_reverse. by replace (sp - 8 * Z.of_nat (length vs + length l)) with
      (sp - 8 * Z.of_nat (length l) - 8 * Z.of_nat (length vs)) by lia.
  - intros r H1 H2. rewrite (sc_reg _ _ Hc) by done. by apply Hr.
  - intros s Hsc. rewrite (sc_seg _ _ Hc). by apply Hseg.
  - etransitivity; [done|]. intros a Ha1. apply Ha'. lia.
Qed.

Lemma pushed_flags m m' sp l v : pushed m m' sp l → pushed m (set_flags v m') sp l.
Proof. by intros []. Qed.
Lemma pushed_cs m m' sp l v : pushed m m' sp l → pushed m (set_seg CS v m') sp l.
Proof. intros []. split; try done. intros s Hs. cbn. rewrite decide_False by done. auto. Qed.

Lemma pushed_rax m m' sp l v : pushed m m' sp l → pushed m (set_reg RAX v m') sp l.
Proof.
  intros [Hs Hr Hsg Ha]. split; [by apply stack_set_reg| |done|done]. intros r R1 R2. rewrite set_reg_ne by done. by apply Hr.
Qed.

(** The registers, flags and selectors hold values of their width. *)
Definition interruptible (m : machine) : Prop := machine_ok m ∧ ∀ s, 0 ≤ m_seg m s < 65536.

(** The vectors whose stub expects an error code, and the code that the frame gets. *)
Definition with_error_code : list Z := [8; 10; 11; 12; 13; 14].
Definition error_code (vector : Z) (error : option Z) (code : Z) : Prop :=
  match error with Some e => vector ∈ with_error_code ∧ code = e | None => (vector ∉ with_error_code) ∧ code = 0 end.

Lemma clearbit_if f : Z.testbit (Z.clearbit f IF) IF = false.
Proof. by rewrite Z.clearbit_eq by done. Qed.

Lemma run_stub vector m : run (stub vector) m =
  pushes (if bool_decide (vector ∈ with_error_code) then [vector] else [0; vector]) (set_flags (Z.clearbit (m_flags m) IF) m).
Proof.
  unfold stub. change [8; 10; 11; 12; 13; 14] with with_error_code. destruct (bool_decide _); [reflexivity|]. by destruct (vector <? 32).
Qed.

Lemma hardware_entry_pushes sp rip selector error m : hardware_entry sp rip selector error m =
  set_seg CS selector (set_flags (Z.clearbit (m_flags m) IF)
    (pushes ([m_seg m SS; m_reg m RSP; m_flags m; m_seg m CS; rip] ++ match error with Some e => [e] | None => [] end) (set_reg RSP sp m))).
Proof. by destruct error. Qed.

Lemma entry_stub m sp rip selector vector error code : interruptible m → u64 rip → 0 ≤ vector < 256 → u64 code → error_code vector error code →
  56 ≤ sp < U64 →
  let m1 := run (stub vector) (hardware_entry sp rip selector error m) in
  pushed m m1 sp [vector; code; rip; m_seg m CS; m_flags m; m_reg m RSP; m_seg m SS] ∧ m_reg m1 RAX = m_reg m RAX ∧
  Z.testbit (m_flags m1) IF = false.
Proof.
  intros [[Hu Hf] Hseg] Hrip Hv Hcode He Hsp m1. subst m1.
  assert (∀ s, u64 (m_seg m s)) as Hsu by (intros s; specialize (Hseg s); unfold u64; lia).
  assert (u64 vector) as Hvu by (unfold u64; lia). assert (u64 0) as Hzu by done.
  assert (pushed m (set_reg RSP sp m) sp []) as H0.
  { split; try done; [split; [rewrite set_reg_eq; cbn [length]; lia|apply words_nil]|]. intros r Hr _. by apply set_reg_ne. }
  rewrite hardware_entry_pushes, run_stub. set (vs := _ ++ _).
  destruct (pushed_more m _ sp [] vs H0) as (H1 & A1 & F1).
  { unfold vs. destruct error; [destruct He as [_ ->]|]; cbn [app]; forall_u64. }
  { unfold vs. destruct error; cbn [app length]; lia. }
  rewrite app_nil_r in H1. rewrite set_reg_ne in A1 by done. set (h := pushes vs _) in *. clearbody h.
  apply (pushed_flags _ _ _ _ (Z.clearbit (m_flags m) IF)), (pushed_cs _ _ _ _ selector) in H1.
  set (h1 := set_seg CS selector _) in *. assert (m_reg h1 RAX = m_reg h RAX) as A2 by done. clearbody h1.
  apply (pushed_flags _ _ _ _ (Z.clearbit (m_flags h1) IF)) in H1. set (ws := if bool_decide _ then _ else _).
  destruct (pushed_more m _ sp _ ws H1) as (H3 & A3 & F3).
  { unfold ws. destruct (bool_decide _); forall_u64. }
  { unfold ws, vs. destruct error; destruct He as [Hin _]; [rewrite bool_decide_true by done|rewrite bool_decide_false by done]; cbn [length app reverse rev_append]; lia. }
  split; [|split; [by rewrite A3, <- A1, <- A2|rewrite F3; apply clearbit_if]].
  revert H3. unfold ws, vs. destruct error; destruct He as [Hin ->]; [rewrite bool_decide_true by done|rewrite bool_decide_false by done]; intros H; exact H.
Qed.

Lemma low16_u64 v x : u64 v → 0 ≤ x < 65536 → u64 (low16 v x).
Proof. unfold u64, low16. intros Hv Hx. rewrite (Z.mod_small x) by lia. pose proof (Z.div_mod v 65536 ltac:(lia)). pose proof (Z.mod_pos_bound v 65536). lia. Qed.

(** The end of the entry code loads the kernel's data selector. *)
Definition entry_tail : list instr := [MovI16 RAX 0x10; MovSeg DS RAX; MovSeg ES RAX; MovSeg FS RAX; MovSeg GS RAX; Mov RDI RSP].

Lemma run_entry_tail m : 0 ≤ m_reg m RAX →
  let m' := run entry_tail m in
  m_reg m' RDI = m_reg m RSP ∧ m_reg m' RSP = m_reg m RSP ∧ m_mem m' = m_mem m ∧ m_flags m' = m_flags m ∧
  ∀ s, s ∈ [DS; ES; FS; GS] → m_seg m' s = 0x10.
Proof.
  intros Ha. split_and!; [reflexivity..|]. pose proof (low16_mod (m_reg m RAX) 0x10 Ha ltac:(lia)) as Hl.
  intros s Hs. repeat (apply elem_of_cons in Hs as [->|Hs]; [exact Hl|]). by apply elem_of_nil in Hs.
Qed.

Lemma set_reg_flags r v m : m_flags (set_reg r v m) = m_flags m.
Proof. done. Qed.

Lemma run_mov_rsp m : run [Mov RAX RSP] m = set_reg RAX (m_reg m RSP) m.
Proof. done. Qed.

Lemma run_save_ds m : let ds := low16 (m_reg m RAX) (m_seg m DS) in
  run [MovFromSeg RAX DS; Push RAX] m = pushes [ds] (set_reg RAX ds m).
Proof. unfold run, pushes. cbn [foldl exec]. by rewrite set_reg_eq. Qed.

Lemma run_common_entry m : let m1 := run push_all m in let ds := low16 (m_reg m1 RAX) (m_seg m1 DS) in
  run common_entry m = run entry_tail (pushes [ds] (set_reg RAX ds m1)).
Proof.
  assert (common_entry = push_all ++ [MovFromSeg RAX DS; Push RAX] ++ entry_tail) as -> by reflexivity.
  rewrite (run_app push_all), (run_app [MovFromSeg RAX DS; Push RAX]). cbv zeta. generalize (run push_all m). intros m1. by rewrite run_save_ds.
Qed.

(** [push_all] after the seven words of the processor and the stub. *)
Lemma run_push_all m m1 sp l : machine_ok m → pushed m m1 sp l → length l = 7%nat → m_reg m1 RAX = m_reg m RAX → 192 ≤ sp < U64 →
  let m2 := run push_all m1 in
  pushed m m2 sp ((m_reg m <$> [R15; R14; R13; R12; R11; R10; R9; R8; RDI; RSI; RBP]) ++ [sp - 88; m_reg m RBX; m_reg m RDX; m_reg m RCX; m_reg m RAX] ++ l) ∧
  m_reg m2 RAX = sp - 88 ∧ m_flags m2 = m_flags m1.
Proof.
  intros [Hu _] H1 Hl A1 Hsp m2. set (first := [RAX; RCX; RDX; RBX]). set (rest := [RAX; RBP; RSI; RDI; R8; R9; R10; R11; R12; R13; R14; R15]).
  assert (m_reg m1 <$> first = m_reg m <$> first) as Hfirst by (unfold first; cbn [fmap list_fmap]; by rewrite A1, !(pu_reg _ _ _ _ H1)).
  destruct (pushed_more m m1 sp l (m_reg m1 <$> first) H1) as (H2 & A2 & F2).
  { rewrite Hfirst. apply Forall_fmap, Forall_true. intros r. apply Hu. }
  { rewrite length_fmap, Hl. unfold first. cbn [length]. lia. }
  rewrite <- run_pushes in H2, A2, F2 by (by apply (bool_decide_unpack _); vm_compute).
  rewrite Hfirst in H2. remember (run (Push <$> first) m1) as m3 eqn:Hm3.
  assert (m_reg m3 RSP = sp - 88) as Hsp3.
  { destruct (pu_stack _ _ _ _ H2) as [Hs _]. rewrite Hs, length_app, length_reverse, length_fmap, Hl. unfold first. cbn [length]. lia. }
  apply (pushed_rax _ _ _ _ (sp - 88)) in H2. pose proof (set_reg_eq RAX (sp - 88) m3) as A4.
  assert (m_flags (set_reg RAX (sp - 88) m3) = m_flags m1) as F4 by (by rewrite set_reg_flags).
  remember (set_reg RAX (sp - 88) m3) as m4 eqn:Hm4.
  assert (m_reg m4 <$> rest = (sp - 88) :: (m_reg m <$> [RBP; RSI; RDI; R8; R9; R10; R11; R12; R13; R14; R15])) as Hrest.
  { unfold rest. rewrite fmap_cons, A4. cbn [fmap list_fmap]. by rewrite !(pu_reg _ _ _ _ H2). }
  destruct (pushed_more m m4 sp _ (m_reg m4 <$> rest) H2) as (H5 & A5 & F5).
  { rewrite Hrest. apply Forall_cons_2; [unfold u64; lia|]. apply Forall_fmap, Forall_true. intros r. apply Hu. }
  { rewrite length_app, length_reverse, !length_fmap, Hl. unfold first, rest. cbn [length]. lia. }
  rewrite <- run_pushes in H5, A5, F5 by (by apply (bool_decide_unpack _); vm_compute). rewrite Hrest in H5.
  assert (m2 = run (Push <$> rest) m4) as ->.
  { unfold m2. change push_all with ((Push <$> first) ++ [Mov RAX RSP] ++ (Push <$> rest)). rewrite (run_app (Push <$> first)), <- Hm3, (run_app [Mov RAX RSP]).
    by rewrite run_mov_rsp, Hsp3, <- Hm4. }
  split; [exact H5|]. split; [by rewrite A5|by rewrite F5].
Qed.

(** The frame the handler gets.  rdi points to it, at the top of the stack. *)
Lemma entry_frame m sp rip selector vector error code : interruptible m → u64 rip → 0 ≤ vector < 256 → u64 code → error_code vector error code →
  192 ≤ sp < U64 →
  let m2 := run common_entry (run (stub vector) (hardware_entry sp rip selector error m)) in
  stack m2 (sp - 192) (frame_words (interrupted m sp rip vector code)) ∧ m_reg m2 RDI = sp - 192 ∧ Z.testbit (m_flags m2) IF = false ∧
  (∀ s, s ∈ [DS; ES; FS; GS] → m_seg m2 s = 0x10) ∧ same_above sp (m_mem m) (m_mem m2).
Proof.
  intros Hok Hrip Hv Hcode He Hsp m2. pose proof Hok as [Hmok Hseg].
  destruct (entry_stub m sp rip selector vector error code Hok Hrip Hv Hcode He ltac:(lia)) as (H1 & A1 & F1).
  remember (run (stub vector) (hardware_entry sp rip selector error m)) as m1 eqn:Hm1. clear Hm1.
  destruct (run_push_all m m1 sp _ Hmok H1 eq_refl A1 Hsp) as (H2 & A2 & F2). set (ds := low16 (sp - 88) (m_seg m DS)).
  assert (m2 = run entry_tail (pushes [ds] (set_reg RAX ds (run push_all m1)))) as Hm2.
  { unfold m2. rewrite run_common_entry, A2, (pu_seg _ _ _ _ H2) by discriminate. reflexivity. }
  clearbody m2. remember (run push_all m1) as m3 eqn:Hm3. clear Hm3.
  assert (Z.testbit (m_flags (set_reg RAX ds m3)) IF = false) as F3 by (by rewrite set_reg_flags, F2).
  assert (u64 ds) as Hdu by (apply low16_u64; [unfold u64; lia|apply Hseg]).
  destruct (pushed_more m _ sp _ [ds] (pushed_rax _ _ _ _ ds H2)) as (H4 & A4 & F4).
  { forall_u64. }
  { cbn [length fmap list_fmap app]. lia. }
  rewrite set_reg_eq in A4. remember (pushes [ds] (set_reg RAX ds m3)) as m4 eqn:Hm4. clear Hm4.
  destruct (run_entry_tail m4) as (T1 & T2 & T3 & T4 & T5); [rewrite A4; unfold u64 in Hdu; lia|].
  rewrite <- Hm2 in T1, T2, T3, T4, T5. clear Hm2.
  assert (stack m4 (sp - 192) (frame_words (interrupted m sp rip vector code))) as [Hst Hw] by exact (pu_stack _ _ _ _ H4).
  split; [split; [by rewrite T2|by rewrite T3]|]. split; [by rewrite T1|]. split; [by rewrite T4, F4|].
  split; [exact T5|]. rewrite T3. exact (pu_above _ _ _ _ H4).
Qed.

(** ** Out of the handler *)

Definition load_segs : list instr := [MovSeg DS RBX; MovSeg ES RBX; MovSeg FS RBX; MovSeg GS RBX].

Lemma run_load_segs m : let m' := run load_segs m in
  (∀ r, m_reg m' r = m_reg m r) ∧ m_mem m' = m_mem m ∧ m_seg m' CS = m_seg m CS ∧ m_seg m' SS = m_seg m SS ∧
  ∀ s, s ∈ [DS; ES; FS; GS] → m_seg m' s = m_reg m RBX mod 65536.
Proof.
  split_and!; [reflexivity..|]. intros s Hs. repeat (apply elem_of_cons in Hs as [->|Hs]; [reflexivity|]). by apply elem_of_nil in Hs.
Qed.

Lemma run_pop_tail m : let m' := run [AddI RSP 16; Sti] m in
  m_reg m' RSP = (m_reg m RSP + 16) mod U64 ∧ (∀ r, r ≠ RSP → m_reg m' r = m_reg m r) ∧ m_mem m' = m_mem m ∧ ∀ s, m_seg m' s = m_seg m s.
Proof. split_and!; [reflexivity| |reflexivity..]. intros r Hr. cbn. by rewrite decide_False. Qed.

Lemma run_mov_rax m : run [Mov RSP RAX] m = set_reg RSP (m_reg m RAX) m.
Proof. done. Qed.

Lemma run_mov_rax_spec m : let m' := run [Mov RSP RAX] m in
  (∀ r, r ≠ RSP → m_reg m' r = m_reg m r) ∧ m_mem m' = m_mem m ∧ ∀ s, m_seg m' s = m_seg m s.
Proof. rewrite run_mov_rax. split_and!; [|done|done]. intros r Hr. by apply set_reg_ne. Qed.

Definition pop_first : list reg := [R15; R14; R13; R12; R11; R10; R9; R8; RDI; RSI; RBP; RAX].
Definition pop_last : list reg := [RBX; RDX; RCX; RAX].

Lemma run_common_exit m :
  run common_exit m = run [AddI RSP 16; Sti] (run (Pop <$> pop_last) (run [Mov RSP RAX] (run (Pop <$> pop_first) (run load_segs (run (Pop <$> [RBX]) m))))).
Proof.
  assert (common_exit = (Pop <$> [RBX]) ++ load_segs ++ (Pop <$> pop_first) ++ [Mov RSP RAX] ++ (Pop <$> pop_last) ++ [AddI RSP 16; Sti]) as -> by reflexivity.
  by rewrite !run_app.
Qed.

(** The registers after the pops, from the words of the frame. *)
Lemma exit_frame m fa f : stack m fa (frame_words f) → f_rsp f = fa + 104 → 0 ≤ fa → fa + 192 ≤ U64 →
  let m' := run common_exit m in
  stack m' (fa + 152) [f_rip f; f_cs f; f_rflags f; f_user_rsp f; f_user_ss f] ∧ m_mem m' = m_mem m ∧
  (∀ r, r ≠ RSP → m_reg m' r = frame_reg f r) ∧ ∀ s, s ∈ [DS; ES; FS; GS] → m_seg m' s = f_ds f mod 65536.
Proof.
  intros Hst Hrsp H0 Hb. cbv zeta. rewrite run_common_exit. unfold frame_words in Hst.
  destruct (run_pops [RBX] m fa [f_ds f] _ ltac:(by apply (bool_decide_unpack _); vm_compute) ltac:(by apply (bool_decide_unpack _); vm_compute) eq_refl Hst H0)
    as (S1 & M1 & _ & V1 & _); [cbn [length]; lia|].
  remember (run (Pop <$> [RBX]) m) as m1 eqn:Hm1. clear Hm1. cbn [length] in S1. change (8 * Z.of_nat 1) with 8 in S1.
  cbn [fmap list_fmap] in V1. injection V1 as V1.
  destruct (run_load_segs m1) as (R2 & M2 & _ & _ & G2). remember (run load_segs m1) as m2 eqn:Hm2. clear Hm2.
  assert (stack m2 (fa + 8) (skipn 1 (frame_words f))) as S2 by (destruct S1 as [E W]; split; [by rewrite R2|by rewrite M2]).
  destruct (run_pops pop_first m2 (fa + 8) (take 12 (skipn 1 (frame_words f))) (skipn 13 (frame_words f))
    ltac:(by apply (bool_decide_unpack _); vm_compute) ltac:(by apply (bool_decide_unpack _); vm_compute) eq_refl S2)
    as (S3 & M3 & (G3 & _) & V3 & O3); [lia|cbn [length pop_first]; lia|].
  remember (run (Pop <$> pop_first) m2) as m3 eqn:Hm3. clear Hm3. cbn [length pop_first] in S3. change (8 * Z.of_nat 12) with 96 in S3.
  cbn [fmap list_fmap pop_first skipn frame_words take] in V3. injection V3 as E15 E14 E13 E12 E11 E10 E9 E8 Edi Esi Ebp Eax.
  assert (stack (run [Mov RSP RAX] m3) (fa + 104) (skipn 13 (frame_words f))) as S4.
  { destruct S3 as [E W]. rewrite run_mov_rax, Eax, Hrsp. split; [apply set_reg_eq|]. replace (fa + 104) with (fa + 8 + 96) by lia. exact W. }
  destruct (run_mov_rax_spec m3) as (R4 & M4 & G4). remember (run [Mov RSP RAX] m3) as m4 eqn:Hm4. clear Hm4.
  destruct (run_pops pop_last m4 (fa + 104) [f_rbx f; f_rdx f; f_rcx f; f_rax f] (skipn 17 (frame_words f))
    ltac:(by apply (bool_decide_unpack _); vm_compute) ltac:(by apply (bool_decide_unpack _); vm_compute) eq_refl S4)
    as ([S5 W5] & M5 & (G5 & _) & V5 & O5); [lia|cbn [length pop_last]; lia|].
  remember (run (Pop <$> pop_last) m4) as m5 eqn:Hm5. clear Hm5. cbn [length pop_last] in S5, W5. change (8 * Z.of_nat 4) with 32 in S5, W5.
  cbn [fmap list_fmap pop_last] in V5. injection V5 as Ebx Edx Ecx Eax'.
  destruct (run_pop_tail m5) as (S6 & R6 & M6 & G6). remember (run [AddI RSP 16; Sti] m5) as m6 eqn:Hm6. clear Hm6.
  rewrite S5, Z.mod_small in S6 by lia. split; [|split; [|split]].
  - split; [rewrite S6; lia|]. rewrite M6. replace (fa + 152) with (fa + 104 + 32 + 8 + 8) by lia.
    cbn [skipn frame_words] in W5. rewrite (words_cons _ _ (f_int_no f)), (words_cons _ _ (f_err_code f)) in W5. apply W5.
  - by rewrite M6, M5, M4, M3, M2, M1.
  - intros r Hr. rewrite R6 by done. destruct (decide (r ∈ pop_last)) as [Hl|Hl].
    + repeat (apply elem_of_cons in Hl as [->|Hl]; [done|]). by apply elem_of_nil in Hl.
    + rewrite O5, R4 by done. destruct r; try done; contradict Hl; apply (bool_decide_unpack _); by vm_compute.
  - intros s Hs. rewrite G6, G5, G4, G3, G2, V1; done.
Qed.

Lemma iretq_resumes m sp rip cs flags rsp ss : stack m sp [rip; cs; flags; rsp; ss] → 0 ≤ sp → sp + 40 ≤ U64 →
  let '(target, m') := iretq m in
  target = rip ∧ m_reg m' RSP = rsp ∧ (∀ r, r ≠ RSP → m_reg m' r = m_reg m r) ∧ m_flags m' = flags ∧ m_seg m' CS = cs mod 65536 ∧
  m_seg m' SS = ss mod 65536 ∧ (∀ s, s ≠ CS → s ≠ SS → m_seg m' s = m_seg m s) ∧ m_mem m' = m_mem m.
Proof.
  intros Hs H0 Hb. rewrite (iretq_spec _ _ _ _ _ _ _ _ Hs) by lia. split_and!; try reflexivity.
  - intros r Hne. by rewrite set_reg_ne.
  - intros s H1 H2. cbn [m_seg set_reg set_flags set_seg]. by rewrite !decide_False.
Qed.

(** What is resumed: everything the frame has. *)
Lemma resume_frame m fa f : stack m fa (frame_words f) → f_rsp f = fa + 104 → 0 ≤ fa → fa + 192 ≤ U64 →
  let '(target, m') := iretq (run common_exit m) in
  target = f_rip f ∧ (∀ r, m_reg m' r = frame_reg f r) ∧ m_flags m' = f_rflags f ∧ m_seg m' CS = f_cs f mod 65536 ∧
  m_seg m' SS = f_user_ss f mod 65536 ∧ (∀ s, s ∈ [DS; ES; FS; GS] → m_seg m' s = f_ds f mod 65536) ∧ m_mem m' = m_mem m.
Proof.
  intros Hst Hrsp H0 Hb. destruct (exit_frame m fa f Hst Hrsp H0 Hb) as (Hs & Hm & Hr & Hsg).
  pose proof (iretq_resumes _ _ _ _ _ _ _ Hs ltac:(lia) ltac:(lia)) as H. destruct (iretq (run common_exit m)) as [target m'].
  destruct H as (-> & Rsp & Rr & -> & -> & -> & Rs & Rm). split; [reflexivity|]. split; [|split; [reflexivity|split; [reflexivity|split; [reflexivity|split]]]].
  - intros r. destruct (decide (r = RSP)) as [->|Hne]; [exact Rsp|]. rewrite Rr by exact Hne. exact (Hr r Hne).
  - intros s Hin. rewrite <- (Hsg s Hin). apply Rs; intros ->; revert Hin; apply (bool_decide_unpack (_ ∉ _)); by vm_compute.
  - rewrite Rm. exact Hm.
Qed.

(** The machine at the call of the handler. *)
Definition handler_entry (m : machine) (sp rip selector vector : Z) (error : option Z) : machine :=
  run common_entry (run (stub vector) (hardware_entry sp rip selector error m)).

(** A machine that is in the state a frame describes. *)
Record resumes (f : InterruptFrame) (target : Z) (m : machine) : Prop := {
  re_rip : target = f_rip f;
  re_reg : ∀ r, m_reg m r = frame_reg f r;
  re_flags : m_flags m = f_rflags f;
  re_cs : m_seg m CS = f_cs f mod 65536;
  re_ss : m_seg m SS = f_user_ss f mod 65536;
  re_data : ∀ s, s ∈ [DS; ES; FS; GS] → m_seg m s = f_ds f mod 65536
}.

Lemma common_resumes m sp rip selector vector error ra handler f : 192 ≤ sp < U64 →
  stack (handler (push ra (handler_entry m sp rip selector vector error))) (sp - 192) (frame_words f) → f_rsp f = sp - 88 →
  let '(target, m') := common ra handler (run (stub vector) (hardware_entry sp rip selector error m)) in
  resumes f target m' ∧ m_mem m' = m_mem (handler (push ra (handler_entry m sp rip selector vector error))).
Proof.
  intros Hsp Hst Hrsp. unfold common, call. fold (handler_entry m sp rip selector vector error).
  pose proof (resume_frame _ _ _ Hst ltac:(lia) ltac:(lia) ltac:(lia)) as H. destruct (iretq _) as [target m'].
  destruct H as (H1 & H2 & H3 & H4 & H5 & H6 & H7). split; [by split|exact H7].
Qed.


Lemma frame_reg_interrupted m sp rip vector code target r : frame_reg (set_rip target (interrupted m sp rip vector code)) r = m_reg m r.
Proof. by destruct r. Qed.

(** A frame that differs in the address only: the interrupted code has its registers. *)
Lemma resumes_interrupted m sp rip vector code target m' : interruptible m → 192 ≤ sp < U64 →
  resumes (set_rip target (interrupted m sp rip vector code)) target m' →
  (∀ r, m_reg m' r = m_reg m r) ∧ m_flags m' = m_flags m ∧ (∀ s, s ∈ [CS; SS; DS] → m_seg m' s = m_seg m s).
Proof.
  intros [_ Hseg] Hsp [_ Hr Hf Hcs Hss Hds]. split; [|split; [exact Hf|]].
  - intros r. rewrite Hr. apply frame_reg_interrupted.
  - assert (m_seg m' DS = m_seg m DS) as Hd.
    { rewrite Hds by (apply (bool_decide_unpack _); by vm_compute). apply low16_mod; [lia|apply Hseg]. }
    intros s Hs. repeat (apply elem_of_cons in Hs as [->|Hs]; [try exact Hd; rewrite ?Hcs, ?Hss; apply Z.mod_small, Hseg|]). by apply elem_of_nil in Hs.
Qed.


(** ** System calls *)

Definition syscall_words (f : Syscall.SyscallFrame) : list Z :=
  [Syscall.f_r9 f; Syscall.f_r8 f; Syscall.f_r10 f; Syscall.f_rdx f; Syscall.f_rsi f; Syscall.f_rdi f; Syscall.f_rax f; Syscall.f_rip f; Syscall.f_rflags f].

(** The frame of a [syscall] instruction before [rip]. *)
Definition called (m : machine) (rip : Z) : Syscall.SyscallFrame :=
  Syscall.mkFrame (m_reg m R9) (m_reg m R8) (m_reg m R10) (m_reg m RDX) (m_reg m RSI) (m_reg m RDI) (m_reg m RAX) rip (m_flags m).

Lemma run_swapgs m : run [Swapgs] m = mkMachine (m_reg m) (m_seg m) (m_flags m) (m_kernel_gs_base m) (m_gs_base m) (m_mem m).
Proof. done. Qed.
Lemma run_mov d r m : run [Mov d r] m = set_reg d (m_reg m r) m.
Proof. done. Qed.
Lemma run_push_one r m : run [Push r] m = pushes [m_reg m r] m.
Proof. done. Qed.

Definition syscall_pushes : list reg := [R11; RCX; RAX; RDI; RSI; RDX; R10; R8; R9].

Lemma run_syscall_entry m : run syscall_entry_code m = run [Mov RDI RSP] (run (Push <$> syscall_pushes) (run [Mov RBP RSP] (run [Push RBP] (run [Swapgs] m)))).
Proof.
  assert (syscall_entry_code = [Swapgs] ++ [Push RBP] ++ [Mov RBP RSP] ++ (Push <$> syscall_pushes) ++ [Mov RDI RSP]) as -> by reflexivity.
  by rewrite !run_app.
Qed.

Lemma set_rbp_spec v m : let m' := set_reg RBP v m in
  (∀ r, r ≠ RBP → m_reg m' r = m_reg m r) ∧ m_reg m' RSP = m_reg m RSP ∧ m_mem m' = m_mem m ∧
  m_gs_base m' = m_gs_base m ∧ m_kernel_gs_base m' = m_kernel_gs_base m.
Proof. split_and!; try done. intros r Hr. by apply set_reg_ne. Qed.
Lemma set_rdi_spec v m : let m' := set_reg RDI v m in
  m_reg m' RDI = v ∧ m_reg m' RSP = m_reg m RSP ∧ m_mem m' = m_mem m ∧ m_gs_base m' = m_gs_base m ∧ m_kernel_gs_base m' = m_kernel_gs_base m.
Proof. done. Qed.

(** What the dispatcher is called with: rdi points to the frame, which is followed by
    the saved rbp. *)
Lemma syscall_entry_frame star fmask rip m : machine_ok m → u64 rip → 80 ≤ m_reg m RSP →
  let entry := run syscall_entry_code (syscall_instruction star fmask rip m) in
  stack entry (m_reg m RSP - 80) (syscall_words (called m rip) ++ [m_reg m RBP]) ∧ m_reg entry RDI = m_reg m RSP - 80 ∧
  m_gs_base entry = m_kernel_gs_base m ∧ m_kernel_gs_base entry = m_gs_base m ∧ same_above (m_reg m RSP) (m_mem m) (m_mem entry).
Proof.
  intros [Hu Hf] Hrip Hsp. cbv zeta. rewrite run_syscall_entry, run_swapgs. set (sp := m_reg m RSP) in *.
  assert (sp < U64) as Hsp' by apply Hu.
  set (m0 := mkMachine _ _ _ _ _ _).
  assert (stack m0 sp [] ∧ m_gs_base m0 = m_kernel_gs_base m ∧ m_kernel_gs_base m0 = m_gs_base m ∧ m_mem m0 = m_mem m) as (S0 & G0 & K0 & M0) by done.
  assert (m_reg m0 RBP = m_reg m RBP ∧ (m_reg m0 <$> syscall_pushes) =
    [m_flags m; rip; m_reg m RAX; m_reg m RDI; m_reg m RSI; m_reg m RDX; m_reg m R10; m_reg m R8; m_reg m R9]) as (B0 & V0) by done.
  clearbody m0. rewrite run_push_one, B0.
  destruct (pushes_spec [m_reg m RBP] m0 sp [] S0) as (S1 & C1 & A1); [cbn [length]; lia|forall_u64|]. cbn [length reverse rev_append app] in S1.
  change (8 * Z.of_nat 1) with 8 in S1. remember (pushes [m_reg m RBP] m0) as m1 eqn:Hm1. clear Hm1.
  rewrite (run_mov RBP RSP). destruct (set_rbp_spec (m_reg m1 RSP) m1) as (R2 & S2 & M2 & G2 & K2).
  assert (stack (set_reg RBP (m_reg m1 RSP) m1) (sp - 8) [m_reg m RBP]) as S2' by (destruct S1; split; [by rewrite S2|by rewrite M2]).
  remember (set_reg RBP (m_reg m1 RSP) m1) as m2 eqn:Hm2. clear Hm2.
  assert (m_reg m2 <$> syscall_pushes = m_reg m0 <$> syscall_pushes) as V2.
  { apply list_fmap_ext. intros i r Hr. assert (r ≠ RSP ∧ r ≠ RBP) as [N1 N2] by (by repeat (destruct i as [|i]; [injection Hr as <-|])).
    rewrite R2 by done. by apply (sc_reg _ _ C1). }
  rewrite run_pushes by (by apply (bool_decide_unpack _); vm_compute). rewrite V2, V0.
  destruct (pushes_spec [m_flags m; rip; m_reg m RAX; m_reg m RDI; m_reg m RSI; m_reg m RDX; m_reg m R10; m_reg m R8; m_reg m R9] m2 _ _ S2')
    as (S3 & C3 & A3); [cbn [length]; lia|forall_u64|]. cbn [length reverse rev_append app] in S3. change (8 * Z.of_nat 9) with 72 in S3.
  remember (pushes _ m2) as m3 eqn:Hm3. clear Hm3. replace (sp - 8 - 72) with (sp - 80) in S3 by lia.
  rewrite run_mov. destruct (set_rdi_spec (m_reg m3 RSP) m3) as (R4 & S4 & M4 & G4 & K4).
  remember (set_reg RDI (m_reg m3 RSP) m3) as m4 eqn:Hm4. clear Hm4. destruct S3 as [S3 W3]. destruct (sc_gs _ _ C1) as [G1 K1]. destruct (sc_gs _ _ C3) as [G3 K3].
  split; [split; [by rewrite S4|by rewrite M4]|]. split; [by rewrite R4|]. split; [by rewrite G4, G3, G2, G1|]. split; [by rewrite K4, K3, K2, K1|].
  rewrite M4. intros a Ha. rewrite A3 by lia. rewrite M2, A1 by lia. by rewrite M0.
Qed.

Lemma run_add_rsp n m : let m' := run [AddI RSP n] m in
  m_reg m' RSP = (m_reg m RSP + n) mod U64 ∧ (∀ r, r ≠ RSP → m_reg m' r = m_reg m r) ∧ m_mem m' = m_mem m ∧
  m_gs_base m' = m_gs_base m ∧ m_kernel_gs_base m' = m_kernel_gs_base m.
Proof. split_and!; try done. intros r Hr. cbn. by rewrite decide_False. Qed.

Lemma run_syscall_exit m : run syscall_exit_code m = run [Swapgs] (run (Pop <$> [RCX; R11; RBP]) (run [AddI RSP 56] m)).
Proof. assert (syscall_exit_code = [AddI RSP 56] ++ (Pop <$> [RCX; R11; RBP]) ++ [Swapgs]) as -> by reflexivity. by rewrite !run_app. Qed.

(** The end of the entry routine, from the frame and the saved rbp on the stack. *)
Lemma syscall_exit_frame m sp f b : stack m (sp - 80) (syscall_words f ++ [b]) → 80 ≤ sp < U64 →
  let m' := run syscall_exit_code m in
  m_reg m' RSP = sp ∧ m_reg m' RCX = Syscall.f_rip f ∧ m_reg m' R11 = Syscall.f_rflags f ∧ m_reg m' RBP = b ∧
  (∀ r, r ∉ [RSP; RCX; R11; RBP] → m_reg m' r = m_reg m r) ∧ m_mem m' = m_mem m ∧
  m_gs_base m' = m_kernel_gs_base m ∧ m_kernel_gs_base m' = m_gs_base m.
Proof.
  intros [Hs Hw] Hsp. cbv zeta. rewrite run_syscall_exit.
  destruct (run_add_rsp 56 m) as (S1 & R1 & M1 & G1 & K1). remember (run [AddI RSP 56] m) as m1 eqn:Hm1. clear Hm1.
  rewrite Hs, Z.mod_small in S1 by lia.
  change (syscall_words f ++ [b]) with (take 7 (syscall_words f) ++ [Syscall.f_rip f; Syscall.f_rflags f; b]) in Hw.
  apply words_app in Hw as [_ Hw]. change (8 * Z.of_nat (length (take 7 (syscall_words f)))) with 56 in Hw.
  assert (stack m1 (sp - 24) ([Syscall.f_rip f; Syscall.f_rflags f; b] ++ [])) as S2.
  { split; [rewrite S1; lia|]. rewrite app_nil_r, M1. by replace (sp - 24) with (sp - 80 + 56) by lia. }
  destruct (run_pops [RCX; R11; RBP] m1 (sp - 24) [Syscall.f_rip f; Syscall.f_rflags f; b] [] ltac:(by apply (bool_decide_unpack _); vm_compute)
    ltac:(by apply (bool_decide_unpack _); vm_compute) eq_refl S2) as ([S3 _] & M3 & (_ & _ & G3 & K3) & V3 & O3); [lia|cbn [length]; lia|].
  remember (run (Pop <$> [RCX; R11; RBP]) m1) as m2 eqn:Hm2. clear Hm2. cbn [length] in S3. change (8 * Z.of_nat 3) with 24 in S3.
  cbn [fmap list_fmap] in V3. injection V3 as Vcx Vr11 Vbp. rewrite run_swapgs. cbn [m_reg m_mem m_gs_base m_kernel_gs_base].
  split; [rewrite S3; lia|]. split; [exact Vcx|]. split; [exact Vr11|]. split; [exact Vbp|]. split.
  { intros r [Hr1 Hr2]%not_elem_of_cons. rewrite O3 by done. by apply R1. }
  split; [by rewrite M3|]. split; [by rewrite K3, K1|by rewrite G3, G1].
Qed.

Lemma sysret_spec star m : let r := sysret star m in
  r.1 = m_reg m RCX mod U32 ∧ (∀ x, m_reg r.2 x = m_reg m x) ∧ m_mem r.2 = m_mem m ∧ m_gs_base r.2 = m_gs_base m ∧
  m_kernel_gs_base r.2 = m_kernel_gs_base m.
Proof. done. Qed.

(** C35. System calls at the level of the processor.  [syscall] and the entry routine give
    the dispatcher a [SyscallFrame] with the number, the arguments, the return address
    and the flags of the caller, below the caller's stack pointer, whose memory above is
    untouched.  When the dispatcher returns with that stack pointer and frame the routine
    gives the caller back its stack pointer, rbp, the gs bases and the return address and
    flags in rcx and r11, and rax and the other registers as the dispatcher left them; it
    goes on at the low 32 bits of the return address, which is the return address
    exactly when that lies below 4 GiB. *)
Theorem syscall_entry_correct star fmask rip m ra trampoline : machine_ok m → u64 rip → 80 ≤ m_reg m RSP →
  let entry := run syscall_entry_code (syscall_instruction star fmask rip m) in
  let returned := trampoline (push ra entry) in
  (stack entry (m_reg m RSP - 80) (syscall_words (called m rip) ++ [m_reg m RBP]) ∧ m_reg entry RDI = m_reg m RSP - 80 ∧
    same_above (m_reg m RSP) (m_mem m) (m_mem entry)) ∧
  (stack returned (m_reg m RSP - 80) (syscall_words (called m rip) ++ [m_reg m RBP]) →
    m_gs_base returned = m_gs_base entry → m_kernel_gs_base returned = m_kernel_gs_base entry →
    let '(target, m') := syscall_entry star ra trampoline (syscall_instruction star fmask rip m) in
    target = rip mod U32 ∧ (target = rip ↔ rip < U32) ∧ m_reg m' RSP = m_reg m RSP ∧ m_reg m' RBP = m_reg m RBP ∧ m_reg m' RCX = rip ∧
    m_reg m' R11 = m_flags m ∧ (∀ r, r ∉ [RSP; RCX; R11; RBP] → m_reg m' r = m_reg returned r) ∧ m_mem m' = m_mem returned ∧
    m_gs_base m' = m_gs_base m ∧ m_kernel_gs_base m' = m_kernel_gs_base m).
Proof.
  intros Hm Hrip Hsp. cbv zeta. destruct (syscall_entry_frame star fmask rip m Hm Hrip Hsp) as (H1 & H2 & Hg & Hk & H3).
  split; [done|]. unfold syscall_entry, call. remember (trampoline _) as mt eqn:Hmt. clear Hmt. intros Hst Hg' Hk'.
  assert (m_reg m RSP < U64) as Hsp' by apply Hm.
  destruct (syscall_exit_frame mt (m_reg m RSP) _ _ Hst ltac:(lia)) as (R1 & R2 & R3 & R4 & R5 & R6 & R7 & R8).
  remember (run syscall_exit_code mt) as me eqn:Hme. clear Hme.
  destruct (sysret_spec star me) as (T1 & T2 & T3 & T4 & T5). destruct (sysret star me) as [target m']. cbn [fst snd] in *.
  rewrite R2 in T1. cbn [called Syscall.f_rip] in *. rewrite T4, T5, T3, !T2, T1. unfold u64 in Hrip. split_and!; try done.
  - split; [intros <-; apply Z.mod_pos_bound; lia|]. intros Hlt. apply Z.mod_small. lia.
  - intros r Hr. rewrite T2. by apply R5.
  - by rewrite R7, Hk', Hk.
  - by rewrite R8, Hg', Hg.
Qed.

(** ** Concrete instances *)

Definition example_cpu : machine := mkMachine (example_reg 0x9000) example_seg 0x202 0 0x7000 (λ _, 0).

Lemma example_cpu_ok : machine_ok example_cpu.
Proof. split; [|by split]. intros []; by split. Qed.
Lemma example_interruptible : interruptible example_cpu.
Proof. split; [exact example_cpu_ok|]. intros []; by split. Qed.


Lemma syscall_entry_correct_witness :
  (syscall_entry 0x8001B00000000 0x4000 drop_top (syscall_instruction 0x8001B00000000 0x300 0x401000 example_cpu)).1 = 0x401000.
Proof.
  destruct (syscall_entry_correct 0x8001B00000000 0x300 0x401000 example_cpu 0x4000 drop_top example_cpu_ok ltac:(by split) ltac:(cbn; lia)) as [_ H].
  assert (stack (drop_top (push 0x4000 (run syscall_entry_code (syscall_instruction 0x8001B00000000 0x300 0x401000 example_cpu)))) (0x9000 - 80)
    (syscall_words (called example_cpu 0x401000) ++ [7])) as Hst.
  { split; [vm_compute; reflexivity|]. apply words_b_ok. vm_compute. reflexivity. }
  specialize (H Hst ltac:(by vm_compute) ltac:(by vm_compute)). destruct (syscall_entry _ _ _ _) as [target m']. exact (proj1 H).
Defined.


End FrameSpec.
