(* ===== verification/Tasks.v ===== *)
(** * The loops the kernel runs: [idle_task], [start_scheduler] and [process_exit] of
    src/src/kernel/process/mod.rs and [init_shell_task] of src/src/kernel/kmain.rs

    A loop without end is a function for one of its rounds.  The buffer of the shell is
    on the stack of its process, in the window the kernel is linked at, so the theorem on
    the shell joins the boot tables, the direct accesses of a kernel process, the system
    calls and the devices. *)

From S2P Require Import Prelude Mem Heap Phys Paging RawVec Types UserMem Drivers Vfs Process Sched SchedSpec SchedSteps SchedLive Fds Elf Loader Fat.
From S2P Require Import Cpu Boot Program ProgramSpec Syscall SyscallSpec.
Local Open Scope Z_scope.

Module Tasks.
Import Paging UserMem Proc Sched SchedSpec SchedSteps SchedLive Fds Program.

(** ** The idle process and the boot thread *)

Section loops.
Context {W : Type} (rp process_size region_size idle : Z) (e : env W).
Implicit Types (k : kernel W) (p : Process W).

(** One round of [idle_task], up to the interrupt that ends its [hlt]. *)
Definition idle_round k : comp ProcessError (kernel W) :=
  if k_need_resched k then '(_, k) ← schedule_internal rp (set_need_resched false k); mret k else mret k.

(** One round of the loop of [start_scheduler]. *)
Definition start_scheduler k : comp ProcessError (kernel W) := '(_, k) ← schedule_internal rp k; mret k.

(** Where a process returns to that leaves its entry function. *)
Definition process_exit k : comp ProcessError (kernel W) := exit_current rp (-1) k.

(** A call of the scheduler when some process is ready. *)
Lemma schedule_ready k j p : kernel_inv k → procs (k_table k) !! j = Some p → p_state p = Ready → p_is_idle p = false →
  ∃ i q, procs (k_table k) !! i = Some q ∧ p_state q = Ready ∧ p_is_idle q = false ∧ schedule_internal rp k = Ok (true, switched rp k i q).
Proof.
  intros Hk Hj Hr Hi.
  assert (is_Some (List.find (runnable (procs (k_table k))) (ring (length (procs (k_table k))) (search_start k)))) as [i Hf].
  { apply (find_is_some _ _ j); [apply elem_of_ring; by apply lookup_lt_Some in Hj|apply runnable_true; eauto]. }
  assert (next_index k = Some i) as Hni by (unfold next_index, round_robin; fold (search_start k); by rewrite Hf).
  apply List.find_some in Hf as [_ (q & Hq & Hqr & Hqi)%runnable_true]. exists i, q. split_and!; try done.
  pose proof (current_not_ready k i q Hk Hq Hqr) as Hne.
  destruct (schedule_internal_spec rp k) as [[_ [?|?]]|(ni & next & Hs & Hni' & Hnext & _)]; [congruence..|].
  assert (ni = i) as -> by congruence. assert (next = q) as -> by congruence. done.
Qed.

(** The processor is not left idle while there is work. In every reachable state with a
    ready process that is not idle, the loop of [start_scheduler] hands the processor in its
    first round to a ready process with the registers it was saved with, and so does a
    round of the idle process that finds a reschedule requested; the request is then
    taken. Without a request the idle process halts and changes nothing. *)
Theorem idle_gives_way k j p :
  reachable rp process_size region_size idle e k → procs (k_table k) !! j = Some p → p_state p = Ready → p_is_idle p = false →
  (∃ i q k', start_scheduler k = Ok k' ∧ procs (k_table k) !! i = Some q ∧ p_state q = Ready ∧ p_is_idle q = false ∧
    k_current k' = p_pid q ∧ k_cpu k' = p_context q) ∧
  (if k_need_resched k then
     ∃ i q k', idle_round k = Ok k' ∧ procs (k_table k) !! i = Some q ∧ p_state q = Ready ∧ p_is_idle q = false ∧
       k_current k' = p_pid q ∧ k_cpu k' = p_context q ∧ k_need_resched k' = false
   else idle_round k = Ok k).
Proof.
  intros Hk%reachable_inv Hj Hr Hi. split.
  - destruct (schedule_ready k j p Hk Hj Hr Hi) as (i & q & Hq & Hqr & Hqi & Hs).
    exists i, q, (switched rp k i q). unfold start_scheduler. by rewrite Hs.
  - unfold idle_round. destruct (k_need_resched k); [|done]. apply (set_need_resched_inv false) in Hk.
    destruct (schedule_ready _ j p Hk Hj Hr Hi) as (i & q & Hq & Hqr & Hqi & Hs).
    exists i, q, (switched rp (set_need_resched false k) i q). by rewrite Hs.
Qed.

End loops.

Lemma idle_gives_way_witness : ∃ k', start_scheduler 7 example_spawned = Ok k' ∧ k_current k' ≠ 0.
Proof.
  assert (∃ p, procs (k_table example_spawned) !! 1%nat = Some p ∧ p_state p = Ready ∧ p_is_idle p = false) as (p & Hp & Hr & Hi).
  { eexists. split; [by vm_compute|]. done. }
  assert (reachable 7 512 64 0xFFFF800000002000 example_env example_spawned) as Hreach.
  { exists example_heap, Context_new, 0x1000, tt, example_init. split; [apply run_ok_eq; by vm_compute|]. apply rtc_once.
    apply (step_spawn _ _ _ _ "shell" 0xFFFF800000003000), run_ok_ends. by vm_compute. }
  destruct (idle_gives_way 7 512 64 0xFFFF800000002000 example_env example_spawned 1 p Hreach Hp Hr Hi) as [(i & q & k' & Hs & Hq & _ & _ & Hc & _) _].
  exists k'. split; [exact Hs|]. rewrite Hc. destruct i as [|[|i]]; [..|by vm_compute in Hq].
  - by vm_compute in Hq; injection Hq as <-.
  - by vm_compute in Hq; injection Hq as <-.
Defined.

(** ** The shell *)

Section shell.
Context {D F : Type} `{!FrameAlloc F}.
Abbreviation K := (kernel (world D F)).
Context (rp file_size : Z) (e : env (world D F)) (registry : Drivers.dstate (world D F)).
Import Syscall.

Definition fd_STDIN : Z := 0.
Definition fd_STDOUT : Z := 1.

(** [process::yield_now], in the shell. *)
Definition shell_yield : M K Empty_set unit := _ ← sys_yield rp; mret tt.

(** One round of the loop of [init_shell_task], with [input_buf] at [buf]. *)
Definition init_shell_task (buf : Z) : M K Empty_set unit :=
  r ← read rp file_size e registry fd_STDIN buf 64;
  match r with
  | Some (Ok count) =>
      if count =? 0 then shell_yield
      else
        _ ← (if count <=? 64 then _ ← write rp file_size e registry fd_STDOUT buf count; mret tt else mret tt);
        shell_yield
  | _ => shell_yield
  end.

End shell.

(** ** Direct accesses through the boot tables *)

Section window.
Import Boot.
Context (y : symbols) (Hy : layout y).

Lemma window_address {E} m pa : tables y m → 0 ≤ pa < 2 ^ 30 → @hw_address E m (pml4 y) (KERNEL_VMA_OFFSET + pa) = Ok pa.
Proof.
  intros Hm Hp. unfold hw_address. replace (canonical _) with true; [by destruct (windows (E:=E) y m pa Hy Hm Hp) as (_ & _ & ->)|].
  unfold canonical, KERNEL_VMA_OFFSET. symmetry. apply orb_true_iff. right. apply Z.leb_le. lia.
Qed.

Lemma hw_load_window {E} m pa n : tables y m → 0 ≤ pa → pa + Z.of_nat n ≤ 2 ^ 30 →
  @hw_load E m (pml4 y) (KERNEL_VMA_OFFSET + pa) n = Ok (load_bytes m pa n).
Proof.
  revert pa. induction n as [|n IH]; intros pa Hm Hp He; [done|]. cbn [hw_load].
  rewrite window_address by (done || lia). cbn [mbind comp_bind]. replace (KERNEL_VMA_OFFSET + pa + 1) with (KERNEL_VMA_OFFSET + (pa + 1)) by lia.
  rewrite IH by (done || lia). cbn [mbind comp_bind]. change (S n) with (1 + n)%nat. rewrite load_bytes_app. unfold load_bytes at 2. cbn. by rewrite Z.add_0_r.
Qed.

(** Stores of single bytes. *)
Fixpoint store_each (m : mem) (pa : Z) (bs : list Z) : mem :=
  match bs with
  | [] => m
  | b :: bs => store_each (store_bytes m pa [b]) (pa + 1) bs
  end.

Lemma store_each_out m pa bs x : ¬ (pa ≤ x < pa + Z.of_nat (length bs)) → store_each m pa bs x = m x.
Proof.
  revert m pa. induction bs as [|b bs IH]; intros m pa Hx; [done|]. cbn [store_each length] in *. rewrite IH by lia.
  apply store_bytes_out. cbn [length]. lia.
Qed.

Lemma load_store_each m pa bs : load_bytes (store_each m pa bs) pa (length bs) = bs.
Proof.
  revert m pa. induction bs as [|b bs IH]; intros m pa; [done|]. cbn [store_each length]. change (S (length bs)) with (1 + length bs)%nat.
  rewrite load_bytes_app. change (Z.of_nat 1) with 1. rewrite IH. cbn. rewrite Z.add_0_r, store_each_out by lia.
  replace pa with (pa + Z.of_nat 0) at 2 by lia. by rewrite store_bytes_in by (cbn; lia).
Qed.

Lemma hw_store_window {E} m pa bs : tables y m → 0 ≤ pa → pa + Z.of_nat (length bs) ≤ 2 ^ 30 →
  pa + Z.of_nat (length bs) ≤ pml4 y ∨ pml4 y + 0x3000 ≤ pa →
  @hw_store E (pml4 y) (KERNEL_VMA_OFFSET + pa) bs m = Ok (tt, store_each m pa bs).
Proof.
  revert m pa. induction bs as [|b bs IH]; intros m pa Hm Hp He Hd; [done|]. cbn [length] in *.
  cbn [hw_store store_each]. rewrite (M_bind_ok Prelude.get _ m m m) by done.
  rewrite (M_bind_lift _ _ _ pa) by (apply window_address; [done|lia]).
  rewrite (M_bind_ok _ _ _ tt (store_bytes m pa [b])) by done.
  replace (KERNEL_VMA_OFFSET + pa + 1) with (KERNEL_VMA_OFFSET + (pa + 1)) by lia. apply IH; [|lia..].
  apply (tables_ext y m); [|done]. intros x Hx. apply store_bytes_out. cbn [length]. lia.
Qed.

End window.

(** ** A round of the shell *)

Section echo.
Context {D F : Type} `{!FrameAlloc F} (lo hi : Z).
Abbreviation K := (kernel (world D F)).
Hypothesis Hlo : 0 < lo.
Hypothesis Hle : lo ≤ hi + 1.
Hypothesis Hhi : hi + 16 < U64.
Context (rp file_size : Z) (e : env (world D F)) (registry : Drivers.dstate (world D F)).
Import ProgramSpec Syscall SyscallSpec Boot.

(** An operation that leaves the descriptor as it was changes the world only. *)
Lemma after_op_same (k : K) i p n d w : running k i p → 0 ≤ n → fd n p = Some d → after_op i n d w k = set_world w k.
Proof.
  intros [_ _ Hp] Hn Hd. unfold after_op. f_equal. unfold update_index.
  assert (alter (λ p, set_fds (<[Z.to_nat n := Some d]> (p_fds p)) p) i (procs (k_table k)) = procs (k_table k)) as ->.
  { rewrite (list_alter_ext _ id _ (procs (k_table k)) i); [by apply list_alter_id| |done]. intros q Hq. assert (q = p) as -> by congruence. unfold fd in Hd.
    destruct (p_fds p !! Z.to_nat n) as [d0|] eqn:E; [|done]. cbn in Hd. subst d0. rewrite list_insert_id by done. by destruct p. }
  destruct k as [[[]] ]. done.
Qed.

Lemma running_world (k : K) i p w l m : running k i p → running (with_free l (set_memory m (set_world w k))) i p.
Proof. intros [H1 H2 H3]. by split. Qed.

Context (y : symbols) (k : K) (i : nat) (p : Process (world D F)) (kb con : CharDevice (world D F)) (pb room : Z).
Hypothesis Hy : layout y.
Hypothesis Htables : tables y (memory k).
Hypothesis Hrun : running k i p.
Hypothesis Hspace : p_address_space p = with_cr3 (pml4 y) Kernel.
Hypothesis Hin : fd fd_STDIN p = Some (Vfs.FdChar kb).
Hypothesis Hout : fd fd_STDOUT p = Some (Vfs.FdChar con).
(** The buffer is in the first GiB and not in the page tables. *)
Hypothesis Hpb : 0 ≤ pb ∧ pb + 64 ≤ 2 ^ 30 ∧ (pb + 64 ≤ pml4 y ∨ pml4 y + 0x3000 ≤ pb).
Hypothesis Hheap : heap_ok lo hi room (Heap.ga_free (k_heap k)).
Hypothesis Hroom : 2 * Heap.room_cost (mkLayout 64 1) ≤ room.

Lemma kernel_call_ok frame (k0 k1 : K) v : dispatch rp file_size e registry frame k0 = Ok (Returns v, k1) → 0 ≤ v ≤ 64 →
  kernel_call rp file_size e registry frame k0 = Ok (Some (Ok v), k1).
Proof.
  intros Hd Hv. unfold kernel_call. rewrite (M_bind_ok _ _ _ _ _ Hd). unfold decode_ret, ERR_BADF, ERR_FAULT, ERR_NOSYS, ERR_INVAL, ERR_NOENT, ERR_NOMEM, ERR_IO.
  by rewrite !(proj2 (Z.eqb_neq _ _)) by lia.
Qed.

(** The read of the shell, when the device gives bytes. *)
Lemma shell_read bytes w : cd_read kb 64 (k_world k) = Ok (bytes, w) → w_pm w = w_pm (k_world k) → Z.of_nat (length bytes) ≤ 64 →
  ∃ l, read rp file_size e registry fd_STDIN (KERNEL_VMA_OFFSET + pb) 64 k =
      Ok (Some (Ok (Z.of_nat (length bytes))), with_free l (set_memory (store_each (memory k) pb bytes) (set_world w k))) ∧
    heap_ok lo hi (room - Heap.room_cost (mkLayout 64 1)) l.
Proof.
  intros Hread Hpm Hlen. destruct Hpb as (Hp1 & Hp2 & Hp3).
  assert (0 ≤ Heap.room_cost (mkLayout 64 1)) as H0 by (by vm_compute).
  destruct (sys_read_run lo hi Hlo Hle Hhi k i p fd_STDIN (Vfs.FdChar kb) (KERNEL_VMA_OFFSET + pb) 64 bytes (Vfs.FdChar kb) w (inl tt)
    (store_each (memory k) pb bytes) room) as (l & Hr & Hl); try done; try lia.
  - unfold Vfs.fd_read. by rewrite (M_bind_ok _ _ _ _ _ (map_err_ok Vfs.IoDriver _ _ _ Hread)).
  - unfold KERNEL_VMA_OFFSET. lia.
  - rewrite Hpm, Hspace. unfold copy_to_user. cbn [kind with_cr3 cr3]. destruct (Nat.eqb_spec (length bytes) 0) as [Hz|Hz].
    + apply nil_length_inv in Hz. by subst bytes.
    + apply hw_store_window; [done|done|lia|lia|lia].
  - exists l. split; [|done]. rewrite (after_op_same k i p fd_STDIN (Vfs.FdChar kb) w) in Hr by done. apply kernel_call_ok; [|lia].
    change (dispatch _ _ _ _ _) with (r ← sys_read (D:=D) (F:=F) fd_STDIN (KERNEL_VMA_OFFSET + pb) 64; mret (Returns r)).
    by rewrite (M_bind_ok _ _ _ _ _ Hr).
Qed.

Lemma dispatch_run number a b c (m : M K Empty_set Z) k0 v k1 :
  dispatch rp file_size e registry (call_frame number a b c) = (r ← m; mret (Returns r)) → m k0 = Ok (v, k1) →
  kernel_call rp file_size e registry (call_frame number a b c) k0 = Ok (Some (decode_ret v), k1).
Proof. intros Hd Hm. unfold kernel_call. rewrite Hd. by rewrite (M_bind_ok _ _ _ (Returns v) k1) by (by rewrite (M_bind_ok _ _ _ _ _ Hm)). Qed.

(** The write that follows. *)
Lemma shell_write bytes w l n w2 :
  let m := store_each (memory k) pb bytes in
  let k1 := with_free l (set_memory m (set_world w k)) in
  heap_ok lo hi (room - Heap.room_cost (mkLayout 64 1)) l → 0 < Z.of_nat (length bytes) ≤ 64 →
  cd_write con bytes (set_pm (mkPmem m (pm_fa (w_pm w))) w) = Ok (n, w2) →
  ∃ l2, write rp file_size e registry fd_STDOUT (KERNEL_VMA_OFFSET + pb) (Z.of_nat (length bytes)) k1 =
      Ok (Some (decode_ret n), with_free l2 (set_world w2 k)) ∧ Heap.free_list lo hi l2.
Proof.
  intros m k1 Hl Hlen Hwrite. destruct Hpb as (Hp1 & Hp2 & Hp3).
  assert (running k1 i p) as Hrun1 by (by apply running_world).
  assert (tables y m) as Hm by (apply (tables_ext y (memory k)); [intros x Hx; apply store_each_out; lia|done]).
  assert (Heap.room_cost (mkLayout (Z.of_nat (length bytes)) 1) ≤ Heap.room_cost (mkLayout 64 1)) as Hcost.
  { unfold Heap.room_cost, Heap.block_size, Heap.block_align. cbn [lay_size lay_align]. lia. }
  destruct (sys_write_run lo hi Hlo Hle Hhi k1 i p fd_STDOUT (Vfs.FdChar con) (KERNEL_VMA_OFFSET + pb) (Z.of_nat (length bytes)) bytes n
    (Vfs.FdChar con) w2 (room - Heap.room_cost (mkLayout 64 1))) as (l2 & Hr & [Hl2 _]); try done; try lia.
  - unfold KERNEL_VMA_OFFSET. lia.
  - rewrite Hspace. unfold copy_from_user. cbn [kind with_cr3 cr3]. rewrite (proj2 (Z.eqb_neq _ _)) by lia.
    change (memory k1) with m. rewrite Nat2Z.id, hw_load_window by (done || lia). f_equal. apply load_store_each.
  - left. unfold Vfs.fd_write. change (k_world k1) with (set_pm (mkPmem m (pm_fa (w_pm w))) w).
    by rewrite (M_bind_ok _ _ _ _ _ (map_err_ok Vfs.IoDriver _ _ _ Hwrite)).
  - exists l2. split; [|done]. rewrite (after_op_same k1 i p fd_STDOUT (Vfs.FdChar con) w2) in Hr by done.
    by apply (dispatch_run nr.WRITE _ _ _ (sys_write fd_STDOUT (KERNEL_VMA_OFFSET + pb) (Z.of_nat (length bytes)))).
Qed.


End echo.

(** A shell with a keyboard that has two letters and a console that keeps what it is
    given. *)
Section example.
Import ProgramSpec Syscall SyscallSpec.

Definition example_keyboard : CharDevice (world (list Z) Phys.phys) :=
  mkCharDevice "keyboard" (mret tt) (λ _, mret [0x68; 0x69]) (λ _, throw Unsupported).
Definition example_console : CharDevice (world (list Z) Phys.phys) :=
  mkCharDevice "console" (mret tt) (λ _, throw Unsupported)
    (λ b, _ ← modify (λ w, mkWorld (w_dev w ++ b) (w_volume w) (w_pm w)); mret (Z.of_nat (length b))).
Definition example_shell : Process (world (list Z) Phys.phys) :=
  mkProcess 2 None "init" Credentials_root (with_cr3 0x101000 Kernel) Running None None false None 0
    (Some (Vfs.FdChar example_keyboard) :: replicate 2 (Some (Vfs.FdChar example_console)) ++ replicate 13 None) Context_new 0 None RawVec.new None None.
Definition shell_kernel (m : mem) : kernel (world (list Z) Phys.phys) :=
  mkKernel (set_procs [example_shell] table_new) 2 Context_new false Context_new 0x101000 0
    (Heap.mkAllocator [Heap.Node 0x100000 0x100000] (λ _, 0)) (mkWorld [] None (mkPmem m (pm_fa Paging.example_space))).


End example.

End Tasks.
