(* ===== verification/Smoke.v ===== *)
(** * The checks of the file system: [vfs_smoke_checks] of src/src/kernel/kmain.rs

    A kernel process opens the null device, the zero device, the scratch file and a
    file of the volume, and uses each of them.  What the checks write to the log is the
    list of their events.  The literals and the buffers are at addresses of the kernel's
    window, which the checks are given; a buffer is initialised by a store through the
    page tables in force, and its bytes are loaded the same way. *)

From S2P Require Import Prelude Mem Heap Phys Paging RawVec Types UserMem Drivers Vfs Process Sched SchedSpec SchedSteps Fds Elf Loader Fat.
From S2P Require Import Cpu Boot Program ProgramSpec Syscall SyscallSpec FileCalls Tasks.
Local Open Scope Z_scope.

Module Smoke.
Import Paging UserMem Proc Sched SchedSpec SchedSteps Fds Program ProgramSpec Syscall.

(** ** The checks *)

Inductive checked := DevNull | DevZero | Scratch | FatHello.

(** The lines of the log. *)
Inductive event :=
| OpenFailed (f : checked) (err : SysError)
| WriteFailed (f : checked) (err : SysError)
| SeekFailed (f : checked) (err : SysError)
| ReadFailed (f : checked) (err : SysError)
| CloseFailed (f : checked) (err : SysError)
| NullAccepted (written : Z)
| ZeroRead (read : Z) (all_zero : bool) (data : list Z)
| ScratchRead (read : Z) (data : list Z)
| HelloRead (read : Z) (text : list Z).

(** The addresses of the literals and of the buffers. *)
Record places := mkPlaces {
  null_path : Z; discard : Z; zero_path : Z; zero_buf : Z; scratch_path : Z; seektest : Z; scratch_buf : Z; hello_path : Z; hello_buf : Z
}.

Section checks.
Context {D F : Type} `{!FrameAlloc F}.
Abbreviation K := (kernel (world D F)).
Context (rp file_size : Z) (e : env (world D F)) (registry : Drivers.dstate (world D F)).

Abbreviation open_ := (Syscall.open rp file_size e registry).
Abbreviation read_ := (Syscall.read rp file_size e registry).
Abbreviation write_ := (Syscall.write rp file_size e registry).
Abbreviation seek_ := (Syscall.seek rp file_size e registry).
Abbreviation close_ := (Syscall.close rp file_size e registry).

(** [match syscall::call(..)]; a call that does not return has no branch. *)
Definition on_result {A} (call : M K Empty_set (option (comp SysError Z))) (ok : Z → M K Empty_set A) (err : SysError → M K Empty_set A)
    : M K Empty_set A :=
  r ← call;
  match r with
  | Some (Ok v) => ok v
  | Some (Err x) => err x
  | Some Panic => panic
  | Some Hang | None => λ _, Hang
  end.

(** [let mut buf = [..]] *)
Definition buffer (addr : Z) (bytes : list Z) : M K Empty_set unit :=
  k ← Prelude.get; zoom memory set_memory (hw_store (k_cr3 k) addr bytes).

(** [&buf[..n]] of a buffer of [cap] bytes *)
Definition slice (addr cap n : Z) : M K Empty_set (list Z) :=
  if cap <? n then panic else k ← Prelude.get; lift (hw_load (memory k) (k_cr3 k) addr (Z.to_nat n)).

Definition close_check (f : checked) (fd : Z) (log : list event) : M K Empty_set (list event) :=
  on_result (close_ fd) (λ _, mret log) (λ err, mret (log ++ [CloseFailed f err])).

Definition null_check (a : places) : M K Empty_set (list event) :=
  on_result (open_ (null_path a) 9)
    (λ fd,
      log ← on_result (write_ fd (discard a) 7) (λ written, mret [NullAccepted written]) (λ err, mret [WriteFailed DevNull err]);
      close_check DevNull fd log)
    (λ err, mret [OpenFailed DevNull err]).

Definition zero_check (a : places) : M K Empty_set (list event) :=
  on_result (open_ (zero_path a) 9)
    (λ fd,
      _ ← buffer (zero_buf a) (replicate 16 0xAA);
      log ← on_result (read_ fd (zero_buf a) 16)
        (λ read, data ← slice (zero_buf a) 16 read; mret [ZeroRead read (forallb (λ byte, byte =? 0) data) data])
        (λ err, mret [ReadFailed DevZero err]);
      close_check DevZero fd log)
    (λ err, mret [OpenFailed DevZero err]).

Definition scratch_check (a : places) : M K Empty_set (list event) :=
  on_result (open_ (scratch_path a) 8)
    (λ fd,
      log ← on_result (write_ fd (seektest a) 8)
        (λ _, on_result (seek_ fd 2 Set_)
          (λ _,
            _ ← buffer (scratch_buf a) (replicate 6 0);
            on_result (read_ fd (scratch_buf a) 6)
              (λ read, data ← slice (scratch_buf a) 6 read; mret [ScratchRead read data])
              (λ err, mret [ReadFailed Scratch err]))
          (λ err, mret [SeekFailed Scratch err]))
        (λ err, mret [WriteFailed Scratch err]);
      close_check Scratch fd log)
    (λ err, mret [OpenFailed Scratch err]).

Definition hello_check (a : places) : M K Empty_set (list event) :=
  on_result (open_ (hello_path a) 14)
    (λ fd,
      _ ← buffer (hello_buf a) (replicate 64 0);
      log ← on_result (read_ fd (hello_buf a) 64)
        (λ read,
          log ← on_result (seek_ fd 0 Set_) (λ _, mret []) (λ err, mret [SeekFailed FatHello err]);
          data ← slice (hello_buf a) 64 read;
          mret (log ++ [HelloRead read (if utf8_valid data then data else Fat.str_bytes "<non-utf8>")]))
        (λ err, mret [ReadFailed FatHello err]);
      close_check FatHello fd log)
    (λ err, mret [OpenFailed FatHello err]).

Definition vfs_smoke_checks (a : places) : M K Empty_set (list event) :=
  l1 ← null_check a; l2 ← zero_check a; l3 ← scratch_check a; l4 ← hello_check a; mret (l1 ++ l2 ++ l3 ++ l4).

End checks.

(** ** Files of the devices as files of the kernel *)

Section lifted.
Context {D F : Type} (f : VfsFile D) (w : world D F).

Lemma lift_write off bs c off' d : Vfs.fd_write (Vfs.FdVfs (Vfs.mkHandle f off)) bs (w_dev w) = Ok ((c, Vfs.FdVfs (Vfs.mkHandle f off')), d) →
  Vfs.fd_write (Vfs.FdVfs (Vfs.mkHandle (lift_file f) off)) bs w = Ok ((c, Vfs.FdVfs (Vfs.mkHandle (lift_file f) off')), set_dev d w).
Proof.
  cbn [Vfs.fd_write]. unfold Vfs.handle_write, mbind, M_bind, map_err. cbn [Vfs.file Vfs.offset lift_file write_at]. unfold zoom.
  destruct (write_at f off bs (w_dev w)) as [[a d']|[]| |]; try done. by intros [= <- <- <-].
Qed.

Lemma lift_read off n bs off' d : Vfs.fd_read (Vfs.FdVfs (Vfs.mkHandle f off)) n (w_dev w) = Ok ((bs, Vfs.FdVfs (Vfs.mkHandle f off')), d) →
  Vfs.fd_read (Vfs.FdVfs (Vfs.mkHandle (lift_file f) off)) n w = Ok ((bs, Vfs.FdVfs (Vfs.mkHandle (lift_file f) off')), set_dev d w).
Proof.
  cbn [Vfs.fd_read]. unfold Vfs.handle_read, mbind, M_bind, map_err. cbn [Vfs.file Vfs.offset lift_file read_at]. unfold zoom.
  destruct (read_at f off n (w_dev w)) as [[a d']|[]| |]; try done. by intros [= <- <- <-].
Qed.

Lemma lift_seek off pos c off' d : Vfs.fd_seek (Vfs.FdVfs (Vfs.mkHandle f off)) (SeekStart pos) (w_dev w) = Ok ((c, Vfs.FdVfs (Vfs.mkHandle f off')), d) →
  Vfs.fd_seek (Vfs.FdVfs (Vfs.mkHandle (lift_file f) off)) (SeekStart pos) w = Ok ((c, Vfs.FdVfs (Vfs.mkHandle (lift_file f) off')), set_dev d w).
Proof.
  cbn [Vfs.fd_seek]. unfold Vfs.handle_seek, mbind, M_bind, map_err, lift. cbn [Vfs.file Vfs.offset lift_file vf_size]. unfold zoom.
  destruct (vf_size f (w_dev w)) as [[size d']|[]| |]; try done. unfold mret, M_ret, comp_ret, throw.
  destruct (size <? pos); [done|]. intros. by simplify_eq.
Qed.

Lemma lift_flush {E} off d : vf_flush f (w_dev w) = Ok (tt, d) →
  attempt (E:=E) (Vfs.fd_flush (Vfs.FdVfs (Vfs.mkHandle (lift_file f) off))) w = Ok (inl tt, set_dev d w).
Proof. intros H. unfold attempt. cbn [Vfs.fd_flush]. unfold Vfs.handle_flush, map_err. cbn [Vfs.file lift_file vf_flush]. unfold zoom. by rewrite H. Qed.

End lifted.

(** A write to the scratch file, as a change of the device. *)
Lemma scratch_write_disk {W} (f : Vfs.AtaScratchFile W) `{!BlockDeviceLaws (Vfs.device f)} w off bs :
  Vfs.sector_size f ≤ Vfs.SCRATCH_BYTES → 0 ≤ Vfs.lba f → Vfs.scratch_ok f w → 0 ≤ off → Forall byte bs → bs ≠ [] →
  off + Z.of_nat (length bs) ≤ Vfs.sector_size f →
  let start := (Vfs.start_of f + Z.to_nat off)%nat in
  ∃ w', Vfs.scratch_write_at f off bs w = Ok (Z.of_nat (length bs), w') ∧ Vfs.scratch_ok f w' ∧
    bd_disk w' = take start (bd_disk w) ++ bs ++ skipn (start + length bs) (bd_disk w) ∧
    Vfs.contents f w' = take (Z.to_nat off) (Vfs.contents f w) ++ bs ++ skipn (Z.to_nat off + length bs) (Vfs.contents f w).
Proof.
  intros Hs Hl Hok Ho Hbs Hne Hend start.
  destruct (Vfs.scratch_write_spec f Hs Hl w off bs Hok Ho Hbs Hne Hend) as (w' & Hw & Hok' & Hc & Hout).
  exists w'. split_and!; [done|done| |done]. set (n := Z.to_nat (Vfs.sector_size f)) in *. set (s := Vfs.start_of f) in *.
  assert (∀ w0, Vfs.scratch_ok f w0 → (s + n ≤ length (bd_disk w0))%nat) as Hlen.
  { intros w0 [_ H0]. pose proof (bd_block_pos (d := Vfs.device f)) as Hpos. fold (Vfs.sector_size f) in Hpos. rewrite Z.mul_add_distr_r, Z.mul_1_l in H0.
    pose proof (Z.mul_nonneg_nonneg (Vfs.lba f) (Vfs.sector_size f) Hl ltac:(lia)). unfold s, n, Vfs.start_of. clear -H H0 Hpos. lia. }
  assert (∀ w0 j, (j < n)%nat → Vfs.contents f w0 !! j = bd_disk w0 !! (s + j)%nat) as Hin.
  { intros w0 j Hj. unfold Vfs.contents. fold n s. by rewrite lookup_take_lt, lookup_drop. }
  pose proof (Hlen w Hok) as Hl0. apply list_eq. intros j.
  destruct (decide (j < s ∨ s + n ≤ j)%nat) as [Hj|Hj].
  - rewrite Hout by done. destruct (decide (j < s)%nat).
    + rewrite lookup_app_l by (rewrite length_take; lia). by rewrite lookup_take_lt by lia.
    + rewrite lookup_app_r, length_take, lookup_app_r, lookup_drop by (rewrite ?length_take; lia). f_equal. lia.
  - replace j with (s + (j - s))%nat by lia. rewrite <- (Hin w') by lia. rewrite Hc.
    assert (length (Vfs.contents f w) = n) as Hcl by (unfold Vfs.contents; fold n s; rewrite length_take, length_drop; lia).
    destruct (decide (j < start)%nat).
    + rewrite !lookup_app_l by (rewrite length_take; lia). rewrite !lookup_take_lt by lia. apply Hin. lia.
    + rewrite !(lookup_app_r (take _ _)) by (rewrite length_take; lia). rewrite !length_take.
      destruct (decide (j < start + length bs)%nat).
      * rewrite !lookup_app_l by lia. f_equal. lia.
      * rewrite !lookup_app_r, !lookup_drop by lia. rewrite Hin by lia. f_equal. lia.
Qed.

(** ** The calls of a kernel process *)

Section calls.
Context {D F : Type} `{!FrameAlloc F} (lo hi : Z).
Abbreviation K := (kernel (world D F)).
Abbreviation FD := (Vfs.FileDescriptor (world D F)).
Hypothesis Hlo : 0 < lo.
Hypothesis Hle : lo ≤ hi + 1.
Hypothesis Hhi : hi + 16 < U64.
Context (rp file_size : Z) (e : env (world D F)) (registry : Drivers.dstate (world D F)).
Import SyscallSpec FileCalls Tasks Boot.
Context (y : symbols) (k : K) (i : nat) (p : Process (world D F)) (area : Z) (literals : list (Z * string)).
Hypothesis Hy : layout y.
Hypothesis Hrun : running k i p.
Hypothesis Hspace : p_address_space p = with_cr3 (pml4 y) Kernel.
Hypothesis Hcr3 : k_cr3 k = pml4 y.

(** The buffers are in 256 bytes of the first GiB, apart from the page tables and the
    literals. *)
Hypothesis Harea : 0 ≤ area ∧ area + 256 ≤ 2 ^ 30 ∧ (area + 256 ≤ pml4 y ∨ pml4 y + 0x3000 ≤ area).
Definition clear_of (x n : Z) : Prop := 0 ≤ x ∧ x + n ≤ 2 ^ 30 ∧ (x + n ≤ area ∨ area + 256 ≤ x).
Hypothesis Hliterals : Forall (λ x, 0 < x.1 ∧ clear_of x.1 (Z.of_nat (String.length x.2))) literals.

(** The memory the checks rely on. *)
Record prepared (m : mem) : Prop := {
  pr_tables : tables y m;
  pr_literals : Forall (λ x, load_bytes m x.1 (String.length x.2) = Fat.str_bytes x.2) literals
}.

Definition at_ (w : world D F) (m : mem) : world D F := set_pm (mkPmem m (pm_fa (w_pm w))) w.

Lemma prepared_ext m m' : (∀ x, ¬ (area ≤ x < area + 256) → m' x = m x) → prepared m → prepared m'.
Proof.
  intros Hm [Ht Hl]. split.
  - apply (tables_ext y m); [|done]. intros x Hx. apply Hm. lia.
  - rewrite Forall_forall in Hl |- *. rewrite Forall_forall in Hliterals. intros x Hx. rewrite <- (Hl x Hx).
    destruct (Hliterals x Hx) as (_ & H1 & H2 & H3). apply load_bytes_ext. intros j Hj. apply Hm. lia.
Qed.

Lemma prepared_store m pa bs : area ≤ pa → pa + Z.of_nat (length bs) ≤ area + 256 → prepared m → prepared (store_each m pa bs).
Proof. intros H1 H2. apply prepared_ext. intros x Hx. apply store_each_out. lia. Qed.

Lemma literal_loads m pa s : prepared m → (pa, s) ∈ literals →
  copy_from_user m (p_address_space p) (KERNEL_VMA_OFFSET + pa) (Z.of_nat (String.length s)) = Ok (Fat.str_bytes s) ∧ 0 < KERNEL_VMA_OFFSET + pa.
Proof.
  intros [Ht Hl] Hin. rewrite Forall_forall in Hl, Hliterals. specialize (Hl _ Hin). destruct (Hliterals _ Hin) as (H0 & H1 & H2 & _). cbn [fst snd] in *.
  split; [|unfold KERNEL_VMA_OFFSET; lia]. rewrite Hspace. unfold copy_from_user. cbn [kind with_cr3 cr3].
  destruct (Z.eqb_spec (Z.of_nat (String.length s)) 0) as [Hz|Hz]; [destruct s; [done|cbn in Hz; lia]|].
  rewrite Nat2Z.id, (hw_load_window y Hy) by (done || lia). by rewrite Hl.
Qed.

Lemma buffer_loads m pa n : prepared m → area ≤ pa → pa + Z.of_nat n ≤ area + 256 →
  @hw_load Empty_set m (pml4 y) (KERNEL_VMA_OFFSET + pa) n = Ok (load_bytes m pa n).
Proof. intros [Ht _] H1 H2. apply (hw_load_window y Hy); [done|lia..]. Qed.

Lemma buffer_stores {E} m pa bs : prepared m → area ≤ pa → pa + Z.of_nat (length bs) ≤ area + 256 →
  @hw_store E (pml4 y) (KERNEL_VMA_OFFSET + pa) bs m = Ok (tt, store_each m pa bs).
Proof. intros [Ht _] H1 H2. apply (hw_store_window y Hy); [done|lia..]. Qed.

(** *** Steps of a check *)

Lemma heap_ok_le n n' l : n' ≤ n → heap_ok lo hi n l → heap_ok lo hi n' l.
Proof. intros Hn [Hl (a & Ha & Hr)]. split; [done|]. exists a. split; [done|]. intros x Hx. apply Hr. lia. Qed.

(** What a buffer of at most 64 bytes may take from the heap. *)
Definition CALL : Z := 128.

Lemma cost_small n : 0 ≤ n ≤ 64 → 0 ≤ Heap.room_cost (mkLayout n 1) ≤ CALL.
Proof.
  intros Hn. unfold Heap.room_cost, Heap.block_size, Heap.block_align, Heap.min_region_size, Heap.align_of_ListNode, CALL. cbn [lay_size lay_align]. lia.
Qed.

Lemma on_result_ok {A} (call : M K Empty_set (option (comp SysError Z))) ok err k0 v k1 (r : comp (Empty_set * K) (A * K)) :
  call k0 = Ok (Some (Ok v), k1) → ok v k1 = r → on_result call ok err k0 = r.
Proof. intros Hc Hr. unfold on_result. by rewrite (M_bind_ok _ _ _ _ _ Hc). Qed.

Lemma call_value frame (m : M K Empty_set Z) k0 v k1 : dispatch rp file_size e registry frame = (r ← m; mret (Returns r)) → m k0 = Ok (v, k1) →
  0 ≤ v ≤ 512 → kernel_call rp file_size e registry frame k0 = Ok (Some (Ok v), k1).
Proof.
  intros Hd Hm Hv. unfold kernel_call. rewrite (M_bind_ok _ _ _ _ _ (call_returns _ _ _ _ _ _ _ _ _ Hd Hm)).
  unfold decode_ret, ERR_BADF, ERR_FAULT, ERR_NOSYS, ERR_INVAL, ERR_NOENT, ERR_NOMEM, ERR_IO. by rewrite !(proj2 (Z.eqb_neq _ _)) by lia.
Qed.

Abbreviation sess := (session k i).

Lemma buffer_ok fds w l pa bs : prepared (pm_mem (w_pm w)) → area ≤ pa → pa + Z.of_nat (length bs) ≤ area + 256 →
  buffer (KERNEL_VMA_OFFSET + pa) bs (sess fds w l) = Ok (tt, sess fds (at_ w (store_each (pm_mem (w_pm w)) pa bs)) l).
Proof.
  intros Hm H1 H2. unfold buffer. rewrite (M_bind_ok Prelude.get _ _ (sess fds w l) (sess fds w l)) by done.
  unfold zoom. change (memory (sess fds w l)) with (pm_mem (w_pm w)). change (k_cr3 (sess fds w l)) with (k_cr3 k). rewrite Hcr3.
  by rewrite buffer_stores.
Qed.

Lemma slice_ok fds w l pa cap n : prepared (pm_mem (w_pm w)) → area ≤ pa → 0 ≤ n ≤ cap → pa + cap ≤ area + 256 →
  slice (KERNEL_VMA_OFFSET + pa) cap n (sess fds w l) = Ok (load_bytes (pm_mem (w_pm w)) pa (Z.to_nat n), sess fds w l).
Proof.
  intros Hm H1 H2 H3. unfold slice. rewrite (proj2 (Z.ltb_ge _ _)) by lia.
  rewrite (M_bind_ok Prelude.get _ _ (sess fds w l) (sess fds w l)) by done. unfold lift.
  change (memory (sess fds w l)) with (pm_mem (w_pm w)). change (k_cr3 (sess fds w l)) with (k_cr3 k). rewrite Hcr3.
  by rewrite buffer_loads by (done || lia).
Qed.

(** A literal the calls take as a path or as data. *)
Definition text (s : string) : Prop := 0 < Z.of_nat (String.length s) ≤ 64 ∧ before_zero (Fat.str_bytes s) = Fat.str_bytes s ∧ utf8_valid (Fat.str_bytes s) = true.

Lemma k_open fds w l pa s d n room : (pa, s) ∈ literals → text s → prepared (pm_mem (w_pm w)) → strip_prefix FAT_PREFIX (Fat.str_bytes s) = None →
  named e registry (Fat.str_bytes s) = Some d → first_free 0 fds = Some n → (n < MAX_FDS)%nat → heap_ok lo hi room l → CALL ≤ room →
  ∃ l', Syscall.open rp file_size e registry (KERNEL_VMA_OFFSET + pa) (Z.of_nat (String.length s)) (sess fds w l) =
      Ok (Some (Ok (Z.of_nat n)), sess (slot (Z.of_nat n) d fds) w l') ∧ heap_ok lo hi (room - CALL) l'.
Proof.
  intros Hin (Hl & Hz & Hu) Hm Hfat Hd Hn Hn16 Hheap Hroom. destruct (literal_loads _ _ _ Hm Hin) as [Hc H0].
  pose proof (cost_small (Z.of_nat (String.length s)) ltac:(lia)) as Hcost.
  destruct (call_open lo hi Hlo Hle Hhi k i p Hrun file_size e registry (λ r fds' w', r = inl (Z.of_nat n) ∧ fds' = slot (Z.of_nat n) d fds ∧ w' = w)
    fds w l (KERNEL_VMA_OFFSET + pa) (Z.of_nat (String.length s)) 0 _ 0 room ltac:(lia) H0 Hheap ltac:(lia) Hc) as (r & fds' & w' & l' & Hop & (-> & -> & ->) & Hl').
  - by rewrite Hz.
  - intros l1 Hl1. exists (inl (Z.of_nat n)), (slot (Z.of_nat n) d fds), w, l1. rewrite Z.sub_0_r. split_and!; [|done..|by intros a Ha].
    apply attempt_ok. unfold open_path. rewrite Hz. rewrite (M_bind_ok _ _ _ d (sess fds w l1)) by (by rewrite descriptor_of_named, Hd).
    by rewrite open_slot, Hn.
  - exists l'. split; [|refine (heap_ok_le _ _ _ _ Hl'); lia].
    unfold Syscall.open. apply (call_value _ (sys_open file_size e registry (KERNEL_VMA_OFFSET + pa) (Z.of_nat (String.length s)) 0)); [done|done|].
    unfold MAX_FDS in Hn16. lia.
Qed.

Lemma k_write fds w l n d pa s v d' w' room : (pa, s) ∈ literals → text s → prepared (pm_mem (w_pm w)) → 0 ≤ n → at_slot fds n = Some d →
  Vfs.fd_write d (Fat.str_bytes s) w = Ok ((v, d'), w') → 0 ≤ v ≤ 512 → heap_ok lo hi room l → CALL ≤ room →
  ∃ l', Syscall.write rp file_size e registry n (KERNEL_VMA_OFFSET + pa) (Z.of_nat (String.length s)) (sess fds w l) =
      Ok (Some (Ok v), sess (slot n d' fds) w' l') ∧ heap_ok lo hi (room - CALL) l'.
Proof.
  intros Hin (Hl & _ & _) Hm Hn Hd Hop Hv Hheap Hroom. destruct (literal_loads _ _ _ Hm Hin) as [Hc H0].
  pose proof (cost_small (Z.of_nat (String.length s)) ltac:(lia)) as Hcost.
  destruct (call_write lo hi Hlo Hle Hhi k i p Hrun fds w l n d (KERNEL_VMA_OFFSET + pa) (Z.of_nat (String.length s)) _ v d' w' room
    Hn Hd ltac:(lia) H0 Hheap ltac:(lia) Hc (or_introl Hop)) as (l' & Hw & Hl').
  exists l'. split; [|refine (heap_ok_le _ _ _ _ Hl'); lia].
  unfold Syscall.write. by apply (call_value _ (sys_write n (KERNEL_VMA_OFFSET + pa) (Z.of_nat (String.length s)))).
Qed.

Lemma k_read fds w l n d pa len bytes d' w' room : prepared (pm_mem (w_pm w')) → 0 ≤ n → at_slot fds n = Some d →
  Vfs.fd_read d len w = Ok ((bytes, d'), w') → Z.of_nat (length bytes) ≤ len → 0 < len ≤ 64 → area ≤ pa → pa + len ≤ area + 256 →
  heap_ok lo hi room l → CALL ≤ room →
  ∃ l', Syscall.read rp file_size e registry n (KERNEL_VMA_OFFSET + pa) len (sess fds w l) =
      Ok (Some (Ok (Z.of_nat (length bytes))), sess (slot n d' fds) (at_ w' (store_each (pm_mem (w_pm w')) pa bytes)) l') ∧
    heap_ok lo hi (room - CALL) l'.
Proof.
  intros Hm Hn Hd Hop Hlen Hl Hp1 Hp2 Hheap Hroom. pose proof (cost_small len ltac:(lia)) as Hcost.
  destruct (call_read lo hi Hlo Hle Hhi k i p Hrun fds w l n d (KERNEL_VMA_OFFSET + pa) len bytes d' w' (store_each (pm_mem (w_pm w')) pa bytes) room)
    as (l' & Hr & Hl'); try done; [lia|unfold KERNEL_VMA_OFFSET; lia|lia| |].
  - rewrite Hspace. unfold copy_to_user. cbn [kind with_cr3 cr3]. destruct (Nat.eqb_spec (length bytes) 0) as [Hz|Hz].
    + apply nil_length_inv in Hz. by subst bytes.
    + apply buffer_stores; [done|lia..].
  - exists l'. split; [|refine (heap_ok_le _ _ _ _ Hl'); lia].
    unfold Syscall.read. apply (call_value _ (sys_read n (KERNEL_VMA_OFFSET + pa) len)); [done|done|lia].
Qed.

Lemma k_seek fds w l n d pos d' w' : 0 ≤ n → at_slot fds n = Some d → Vfs.fd_seek d (SeekStart pos) w = Ok ((pos, d'), w') → 0 ≤ pos ≤ 512 →
  Syscall.seek rp file_size e registry n pos Set_ (sess fds w l) = Ok (Some (Ok pos), sess (slot n d' fds) w' l).
Proof.
  intros Hn Hd Hop Hpos. unfold Syscall.seek. apply (call_value _ (sys_seek n (as_u64 pos) (as_raw Set_))); [done| |done].
  unfold as_u64. rewrite Z.mod_small by lia. apply (call_seek k i p Hrun fds w l n d pos 0 (SeekStart pos)); try done; [|by left].
  unfold decode_seek, as_i64. cbn. destruct (Z.ltb_spec pos I64); [|lia]. by rewrite (proj2 (Z.ltb_ge _ _)) by lia.
Qed.

Lemma k_close f fds w l n d r w' log : 0 ≤ n < Z.of_nat MAX_FDS → at_slot fds n = Some d →
  attempt (E:=ProcessError) (Vfs.fd_flush d) w = Ok (r, w') →
  close_check rp file_size e registry f n log (sess fds w l) = Ok (log, sess (<[Z.to_nat n := None]> fds) w' l).
Proof.
  intros Hn Hd Hf. unfold close_check. eapply on_result_ok; [|done]. unfold Syscall.close. apply (call_value _ (sys_close n)); [done| |done].
  by apply (call_close k i p Hrun fds w l n d r).
Qed.

(** *** The checks *)

Context (q : places).
Hypothesis Hq : literals = [(null_path q, "/dev/null"%string); (discard q, "discard"%string); (zero_path q, "/dev/zero"%string);
  (scratch_path q, "/scratch"%string); (seektest q, "seektest"%string); (hello_path q, "/fat/HELLO.TXT"%string)].
Hypothesis Hbufs : Forall (λ x, area ≤ x.1 ∧ x.1 + x.2 ≤ area + 256) [(zero_buf q, 16); (scratch_buf q, 6); (hello_buf q, 64)].

Lemma bufs : (area ≤ zero_buf q ∧ zero_buf q + 16 ≤ area + 256) ∧ (area ≤ scratch_buf q ∧ scratch_buf q + 6 ≤ area + 256) ∧
  (area ≤ hello_buf q ∧ hello_buf q + 64 ≤ area + 256).
Proof. rewrite !Forall_cons in Hbufs. cbn [fst snd] in Hbufs. tauto. Qed.

(** The places as the code sees them. *)
Definition placed : places :=
  let up x := KERNEL_VMA_OFFSET + x in
  mkPlaces (up (null_path q)) (up (discard q)) (up (zero_path q)) (up (zero_buf q)) (up (scratch_path q)) (up (seektest q)) (up (scratch_buf q))
    (up (hello_path q)) (up (hello_buf q)).

(** What a check may change of the world: bytes of the buffers and the devices. *)
Record only_buffers (w w' : world D F) : Prop := {
  ob_mem : ∀ x, ¬ (area ≤ x < area + 256) → pm_mem (w_pm w') x = pm_mem (w_pm w) x;
  ob_frames : pm_fa (w_pm w') = pm_fa (w_pm w);
  ob_volume : w_volume w' = w_volume w
}.

Lemma only_buffers_refl w : only_buffers w w.
Proof. done. Qed.

Lemma only_buffers_trans w1 w2 w3 : only_buffers w1 w2 → only_buffers w2 w3 → only_buffers w1 w3.
Proof. intros [A B C] [A' B' C']. split; [|congruence..]. intros x Hx. by rewrite A', A. Qed.

Lemma only_buffers_store w pa bs : area ≤ pa → pa + Z.of_nat (length bs) ≤ area + 256 → only_buffers w (at_ w (store_each (pm_mem (w_pm w)) pa bs)).
Proof. intros H1 H2. split; [|done..]. intros x Hx. cbn. apply store_each_out. lia. Qed.

Lemma only_buffers_dev w d : only_buffers w (set_dev d w).
Proof. done. Qed.

Lemma prepared_buffers w w' : only_buffers w w' → prepared (pm_mem (w_pm w)) → prepared (pm_mem (w_pm w')).
Proof. intros [Hm _ _]. by apply prepared_ext. Qed.

(** The slot the checks use, free before and after. *)
Context (fds : list (option FD)) (n : nat).
Hypothesis Hfds : length fds = MAX_FDS.
Hypothesis Hn : first_free 0 fds = Some n.

Lemma slot_free : (n < MAX_FDS)%nat ∧ at_slot fds (Z.of_nat n) = None.
Proof. pose proof (first_free_slot fds Hfds) as H. rewrite Hn in H. destruct H as (H1 & H2 & _). split; [lia|done]. Qed.

Lemma slot_there (l : list (option FD)) d : length l = MAX_FDS → at_slot (slot (Z.of_nat n) d l) (Z.of_nat n) = Some d.
Proof. intros Hl. unfold at_slot, slot. rewrite list_lookup_insert_eq; [done|]. rewrite Nat2Z.id, Hl. apply slot_free. Qed.

Lemma slot_twice (l : list (option FD)) d d' : slot (Z.of_nat n) d' (slot (Z.of_nat n) d l) = slot (Z.of_nat n) d' l.
Proof. apply list_insert_insert_eq. Qed.

Lemma slot_restored d : <[Z.to_nat (Z.of_nat n) := None]> (slot (Z.of_nat n) d fds) = fds.
Proof. destruct slot_free as [H1 H2]. apply reopened; [done|]. rewrite Nat2Z.id, Hfds. lia. Qed.

(** A buffer is initialised and read to; its slice is what the descriptor gave. *)
Lemma k_buffer_read (l : list (option FD)) w free d pa len init bytes d' dev room : length l = MAX_FDS → prepared (pm_mem (w_pm w)) →
  at_slot l (Z.of_nat n) = Some d → (∀ m, Vfs.fd_read d len (at_ w m) = Ok ((bytes, d'), set_dev dev (at_ w m))) →
  Z.of_nat (length bytes) ≤ len → Z.of_nat (length init) = len → 0 < len ≤ 64 → area ≤ pa → pa + len ≤ area + 256 → heap_ok lo hi room free → CALL ≤ room →
  ∃ w1 w' free', buffer (KERNEL_VMA_OFFSET + pa) init (sess l w free) = Ok (tt, sess l w1 free) ∧
    Syscall.read rp file_size e registry (Z.of_nat n) (KERNEL_VMA_OFFSET + pa) len (sess l w1 free) =
      Ok (Some (Ok (Z.of_nat (length bytes))), sess (slot (Z.of_nat n) d' l) w' free') ∧
    (∀ l', slice (KERNEL_VMA_OFFSET + pa) len (Z.of_nat (length bytes)) (sess l' w' free') = Ok (bytes, sess l' w' free')) ∧
    only_buffers w w' ∧ w_dev w' = dev ∧ heap_ok lo hi (room - CALL) free'.
Proof.
  intros Hl Hm Hd Hr Hlen Hinit Hl64 Hb1 Hb2 Hheap Hroom.
  pose proof (only_buffers_store w pa init Hb1 ltac:(lia)) as He1. set (w1 := at_ w _) in He1. pose proof (prepared_buffers _ _ He1 Hm) as Hm1.
  pose proof (only_buffers_store (set_dev dev w1) pa bytes Hb1 ltac:(lia)) as He2. set (w2 := at_ (set_dev dev w1) _) in He2.
  assert (prepared (pm_mem (w_pm w2))) as Hm2 by (by apply (prepared_buffers _ _ He2)).
  destruct (k_read l w1 free (Z.of_nat n) d pa len bytes d' (set_dev dev w1) room) as (free' & H2 & Hf'); try done; [lia|apply Hr|].
  exists w1, w2, free'. split_and!; try done.
  - apply buffer_ok; [done|done|lia].
  - intros l'. rewrite (slice_ok l' w2 free' pa len) by (done || lia). rewrite Nat2Z.id.
    change (pm_mem (w_pm w2)) with (store_each (pm_mem (w_pm w1)) pa bytes). by rewrite load_store_each.
  - exact (only_buffers_trans _ _ _ He1 (only_buffers_trans _ _ _ (only_buffers_dev w1 dev) He2)).
Qed.

Lemma null_check_ok d w l room : named e registry (Fat.str_bytes "/dev/null") = Some (Vfs.FdChar d) →
  (∀ bs w, cd_write d bs w = Ok (Z.of_nat (length bs), w)) → prepared (pm_mem (w_pm w)) → heap_ok lo hi room l → 2 * CALL ≤ room →
  ∃ l', null_check rp file_size e registry placed (sess fds w l) = Ok ([NullAccepted 7], sess fds w l') ∧ heap_ok lo hi (room - 2 * CALL) l'.
Proof.
  intros Hd Hw Hm Hheap Hroom. destruct slot_free as [Hn16 _].
  destruct (k_open fds w l (null_path q) "/dev/null" (Vfs.FdChar d) n room) as (l1 & H1 & Hl1); try done; [rewrite Hq; by left|unfold CALL in *; lia|].
  destruct (k_write (slot (Z.of_nat n) (Vfs.FdChar d) fds) w l1 (Z.of_nat n) (Vfs.FdChar d) (discard q) "discard" 7 (Vfs.FdChar d) w (room - CALL))
    as (l2 & H2 & Hl2); try done; [rewrite Hq; right; by left|lia|by apply slot_there| |unfold CALL in *; lia|].
  { unfold Vfs.fd_write. by rewrite (M_bind_ok _ _ _ _ _ (map_err_ok Vfs.IoDriver _ _ _ (Hw _ _))). }
  exists l2. split; [|refine (heap_ok_le _ _ _ _ Hl2); lia]. unfold null_check. eapply on_result_ok; [exact H1|].
  rewrite (M_bind_ok _ _ _ [NullAccepted 7] (sess (slot (Z.of_nat n) (Vfs.FdChar d) fds) w l2)).
  - rewrite (k_close DevNull _ w l2 (Z.of_nat n) (Vfs.FdChar d) (inl tt) w); [by rewrite slot_restored|lia|by apply slot_there|done].
  - eapply on_result_ok; [exact H2|]. by rewrite slot_twice.
Qed.

Lemma zero_check_ok d w l room : named e registry (Fat.str_bytes "/dev/zero") = Some (Vfs.FdChar d) →
  (∀ n w, cd_read d n w = Ok (replicate (Z.to_nat n) 0, w)) → prepared (pm_mem (w_pm w)) → heap_ok lo hi room l → 2 * CALL ≤ room →
  ∃ w' l', zero_check rp file_size e registry placed (sess fds w l) = Ok ([ZeroRead 16 true (replicate 16 0)], sess fds w' l') ∧
    only_buffers w w' ∧ w_dev w' = w_dev w ∧ heap_ok lo hi (room - 2 * CALL) l'.
Proof.
  intros Hd Hr Hm Hheap Hroom. destruct slot_free as [Hn16 _]. destruct bufs as ([Hb1 Hb2] & _).
  destruct (k_open fds w l (zero_path q) "/dev/zero" (Vfs.FdChar d) n room) as (l1 & H1 & Hl1); try done; [rewrite Hq; do 2 right; by left|unfold CALL in *; lia|].
  destruct (k_buffer_read (slot (Z.of_nat n) (Vfs.FdChar d) fds) w l1 (Vfs.FdChar d) (zero_buf q) 16 (replicate 16 0xAA) (replicate 16 0) (Vfs.FdChar d) (w_dev w) (room - CALL))
    as (w1 & w2 & l2 & H2 & H3 & H4 & He & Hw & Hl2); try done; [unfold slot; by rewrite length_insert|by apply slot_there| |unfold CALL in *; lia|].
  { intros m. unfold Vfs.fd_read. by rewrite (M_bind_ok _ _ _ _ _ (map_err_ok Vfs.IoDriver _ _ _ (Hr _ _))). }
  exists w2, l2. split_and!; [|done|done|refine (heap_ok_le _ _ _ _ Hl2); lia].
  unfold zero_check. eapply on_result_ok; [exact H1|]. rewrite (M_bind_ok _ _ _ _ _ H2).
  rewrite (M_bind_ok _ _ _ [ZeroRead 16 true (replicate 16 0)] (sess (slot (Z.of_nat n) (Vfs.FdChar d) fds) w2 l2)).
  - rewrite (k_close DevZero _ w2 l2 (Z.of_nat n) (Vfs.FdChar d) (inl tt) w2); [by rewrite slot_restored|lia|by apply slot_there|done].
  - eapply on_result_ok; [exact H3|]. rewrite slot_twice. by rewrite (M_bind_ok _ _ _ _ _ (H4 _)).
Qed.

(** *** The scratch file and the volume, on one disk *)

Context (v : Fat.FatVolume D) `{!BlockDeviceLaws (Fat.device v)} (lba : Z) (scratch_name : string).
Hypothesis Hblock : block_size (Fat.device v) = 512.
Hypothesis Hlba : 0 ≤ lba.
Definition scratch_ : Vfs.AtaScratchFile D := Vfs.mkScratch (Fat.device v) lba scratch_name.
Definition scratch_fd (off : Z) : FD := Vfs.FdVfs (Vfs.mkHandle (lift_file (Vfs.scratch_file scratch_)) off).

(** The disk with the data of the check at the start of the scratch sector. *)
Definition seektest_written (d : list Z) : list Z :=
  let start := Z.to_nat (lba * 512) in take start d ++ Fat.str_bytes "seektest" ++ skipn (start + 8) d.

Lemma scratch_sector : Vfs.sector_size scratch_ = 512.
Proof. exact Hblock. Qed.

Lemma scratch_written w : Vfs.scratch_ok scratch_ (w_dev w) →
  ∃ d1, Vfs.fd_write (scratch_fd 0) (Fat.str_bytes "seektest") w = Ok ((8, scratch_fd 8), set_dev d1 w) ∧ Vfs.scratch_ok scratch_ d1 ∧
    bd_disk d1 = seektest_written (bd_disk (w_dev w)) ∧ ∃ rest, Vfs.contents scratch_ d1 = Fat.str_bytes "seektest" ++ rest.
Proof.
  intros Hok. pose proof scratch_sector as Hs.
  destruct (scratch_write_disk scratch_ (w_dev w) 0 (Fat.str_bytes "seektest")) as (d1 & Hw & Hok1 & Hd1 & Hc1); try done.
  { by rewrite Hs. } { apply list_forallb_byte. by vm_compute. } { rewrite Hs. by vm_compute. }
  exists d1. split_and!; [|done| |].
  - apply lift_write. by apply (Vfs.scratch_handle_write scratch_ 0 (Fat.str_bytes "seektest")).
  - etrans; [exact Hd1|]. unfold seektest_written, Vfs.start_of. rewrite Hs. cbn [Vfs.lba scratch_]. by rewrite Nat.add_0_r.
  - eexists. rewrite Hc1. reflexivity.
Qed.

Lemma scratch_read_back d rest : Vfs.scratch_ok scratch_ d → Vfs.contents scratch_ d = Fat.str_bytes "seektest" ++ rest →
  ∃ d1, (∀ w, w_dev w = d → Vfs.fd_read (scratch_fd 2) 6 w = Ok ((Fat.str_bytes "ektest", scratch_fd 8), set_dev d1 w)) ∧ Vfs.scratch_ok scratch_ d1 ∧
    bd_disk d1 = bd_disk d.
Proof.
  intros Hok Hc. pose proof scratch_sector as Hs.
  destruct (Vfs.scratch_read_spec scratch_ ltac:(by rewrite Hs) Hlba d 2 6 Hok ltac:(lia) ltac:(lia) ltac:(lia)) as (d1 & Hr & Hok1 & Hd1).
  exists d1. split_and!; [|done..]. intros w Hw. apply lift_read. rewrite Hw, Hc in *.
  by apply (Vfs.scratch_handle_read scratch_ 2 6 (Fat.str_bytes "ektest")).
Qed.

Lemma scratch_check_ok w l room : named e registry (Fat.str_bytes "/scratch") = Some (scratch_fd 0) → Vfs.scratch_ok scratch_ (w_dev w) →
  prepared (pm_mem (w_pm w)) → heap_ok lo hi room l → 3 * CALL ≤ room →
  ∃ w' l', scratch_check rp file_size e registry placed (sess fds w l) = Ok ([ScratchRead 6 (Fat.str_bytes "ektest")], sess fds w' l') ∧
    only_buffers w w' ∧ bd_inv (w_dev w') ∧ bd_disk (w_dev w') = seektest_written (bd_disk (w_dev w)) ∧ heap_ok lo hi (room - 3 * CALL) l'.
Proof.
  intros Hd Hok Hm Hheap Hroom. destruct slot_free as [Hn16 _]. destruct bufs as (_ & [Hb1 Hb2] & _). unfold CALL in Hroom.
  destruct (k_open fds w l (scratch_path q) "/scratch" (scratch_fd 0) n room) as (l1 & H1 & Hl1); try done; [rewrite Hq; do 3 right; by left|unfold CALL; lia|].
  destruct (scratch_written w Hok) as (d1 & Hwr & Hok1 & Hd1 & rest & Hc1).
  destruct (k_write (slot (Z.of_nat n) (scratch_fd 0) fds) w l1 (Z.of_nat n) (scratch_fd 0) (seektest q) "seektest" 8 (scratch_fd 8) (set_dev d1 w) (room - CALL))
    as (l2 & H2 & Hl2); try done; [rewrite Hq; do 4 right; by left|lia|by apply slot_there|unfold CALL; lia|]. rewrite slot_twice in H2.
  destruct (scratch_read_back d1 rest Hok1 Hc1) as (d2 & Hrd & Hok2 & Hd2).
  pose proof (k_seek (slot (Z.of_nat n) (scratch_fd 8) fds) (set_dev d1 w) l2 (Z.of_nat n) (scratch_fd 8) 2 (scratch_fd 2) (set_dev d1 w) ltac:(lia)
    (slot_there fds _ Hfds) (lift_seek _ (set_dev d1 w) 8 2 2 2 d1 (Vfs.scratch_handle_seek scratch_ 8 2 d1 ltac:(by rewrite scratch_sector) ltac:(rewrite scratch_sector; lia)))
    ltac:(lia)) as H3. rewrite slot_twice in H3.
  destruct (k_buffer_read (slot (Z.of_nat n) (scratch_fd 2) fds) (set_dev d1 w) l2 (scratch_fd 2) (scratch_buf q) 6 (replicate 6 0) (Fat.str_bytes "ektest")
    (scratch_fd 8) d2 (room - CALL - CALL)) as (w1 & w2 & l3 & H4 & H5 & H6 & He & Hw & Hl3); try done;
    [unfold slot; by rewrite length_insert|by apply slot_there|intros m; by apply Hrd|unfold CALL; lia|].
  rewrite slot_twice in H5. destruct (bd_flush_ok d2 (proj1 Hok2)) as (d3 & Hfl & Hinv3 & Hd3). rewrite <- Hw in Hfl.
  pose proof (k_close Scratch _ w2 l3 (Z.of_nat n) (scratch_fd 8) (inl tt) (set_dev d3 w2) [ScratchRead 6 (Fat.str_bytes "ektest")] ltac:(lia) (slot_there fds _ Hfds)
    (lift_flush (Vfs.scratch_file scratch_) w2 8 d3 (map_err_ok vfs_from_driver _ _ _ Hfl))) as H7. rewrite slot_restored in H7.
  exists (set_dev d3 w2), l3. split_and!; [| |done| |refine (heap_ok_le _ _ _ _ Hl3); lia].
  - unfold scratch_check. eapply on_result_ok; [exact H1|].
    rewrite (M_bind_ok _ _ _ [ScratchRead 6 (Fat.str_bytes "ektest")] (sess (slot (Z.of_nat n) (scratch_fd 8) fds) w2 l3)); [exact H7|].
    eapply on_result_ok; [exact H2|]. eapply on_result_ok; [exact H3|]. rewrite (M_bind_ok _ _ _ _ _ H4).
    eapply on_result_ok; [exact H5|]. by rewrite (M_bind_ok _ _ _ _ _ (H6 _)).
  - exact (only_buffers_trans _ _ _ (only_buffers_dev w d1) (only_buffers_trans _ _ _ He (only_buffers_dev w2 d3))).
  - cbn [w_dev set_dev]. etrans; [exact Hd3|]. etrans; [exact Hd2|exact Hd1].
Qed.

Hypothesis Hvol : Fat.volume_ok v.
Hypothesis Hfile : 0 < file_size < 2 ^ 32.

(** What the last check logs of a file's contents. *)
Definition shown (data : list Z) : event :=
  HelloRead (Z.of_nat (length data)) (if utf8_valid data then data else Fat.str_bytes "<non-utf8>").

Lemma file_seek cluster size off (w : world D F) : 0 ≤ size →
  Vfs.fd_seek (file_fd v cluster size off) (SeekStart 0) w = Ok ((0, file_fd v cluster size 0), w).
Proof.
  intros Hs. unfold file_fd, Vfs.fd_seek, Vfs.handle_seek, mbind, M_bind, map_err, lift. cbn. unfold zoom, mret, M_ret, comp_ret.
  rewrite (proj2 (Z.ltb_ge _ _)) by lia. by destruct w.
Qed.

(** The read of the last check, whatever the memory. *)
Lemma hello_reads (w : world D F) cluster size cs : Fat.disk_ok v (w_dev w) → Fat.chain v (bd_disk (w_dev w)) cluster cs → 0 ≤ size →
  let data := take 64 (contents v (bd_disk (w_dev w)) size cs) in
  ∃ d', (∀ m, Vfs.fd_read (file_fd v cluster size 0) 64 (at_ w m) = Ok ((data, file_fd v cluster size (Z.of_nat (length data))), set_dev d' (at_ w m))) ∧
    Fat.same_disk v (w_dev w) d'.
Proof.
  intros Hw Hch Hs data. destruct (Fat.fat_read_spec (Fat.mkFatFile v cluster size) Hblock Hvol (w_dev w) cs 0 64) as (d' & Hread & Hw' & Hd'); try done.
  exists d'. split; [|by split]. intros m. apply (lift_read (Fat.fat_file (Fat.mkFatFile v cluster size)) (at_ w m) 0 64 data (Z.of_nat (length data))).
  cbn [Vfs.fd_read]. unfold Vfs.handle_read, mbind, M_bind, map_err. cbn [Vfs.file Vfs.offset read_at Fat.fat_file at_ w_dev set_pm]. rewrite Hread.
  unfold mret, M_ret, saturating_add64. rewrite Z.min_l; [done|]. rewrite drop_0. change (take (Z.to_nat 64) _) with data. unfold data. rewrite length_take. lia.
Qed.

Lemma hello_check_ok w l room cluster size cs : w_volume w = Some v → Fat.disk_ok v (w_dev w) →
  stored v (bd_disk (w_dev w)) (Fat.str_bytes "HELLO.TXT") cluster size cs → 0 ≤ size → prepared (pm_mem (w_pm w)) →
  heap_ok lo hi room l → 2 * CALL + Heap.room_cost (file_layout file_size) ≤ room →
  let data := take 64 (contents v (bd_disk (w_dev w)) size cs) in
  ∃ w' l', hello_check rp file_size e registry placed (sess fds w l) = Ok ([shown data], sess fds w' l') ∧ only_buffers w w' ∧
    Fat.same_disk v (w_dev w) (w_dev w') ∧ heap_ok lo hi (room - 2 * CALL - Heap.room_cost (file_layout file_size)) l'.
Proof.
  intros Hv Hdisk Hst Hsize Hm Hheap Hroom data. destruct slot_free as [Hn16 _]. destruct bufs as (_ & _ & [Hb1 Hb2]).
  pose proof (room_cost_pos (file_layout file_size) ltac:(done)) as Hpos. pose proof (cost_small 14 ltac:(lia)) as Hcost.
  destruct (literal_loads (pm_mem (w_pm w)) (hello_path q) "/fat/HELLO.TXT" Hm ltac:(rewrite Hq; do 5 right; by left)) as [Hlit Hptr].
  destruct (call_open_file v lo hi file_size e registry Hlo Hle Hhi Hblock Hvol Hfile k i p fds w l (KERNEL_VMA_OFFSET + hello_path q) 14 0 _
    (Fat.str_bytes "HELLO.TXT") cluster size cs n room Hrun ltac:(done) Hptr Hheap ltac:(unfold CALL in *; lia) Hlit) as (d1 & l1 & H1 & Hs1 & Hl1); try done.
  assert (Syscall.open rp file_size e registry (KERNEL_VMA_OFFSET + hello_path q) 14 (sess fds w l) =
    Ok (Some (Ok (Z.of_nat n)), sess (slot (Z.of_nat n) (file_fd v cluster size 0) fds) (set_dev d1 w) l1)) as H1'.
  { apply (call_value _ (sys_open file_size e registry (KERNEL_VMA_OFFSET + hello_path q) 14 0)); [done|exact H1|unfold MAX_FDS in Hn16; lia]. }
  destruct (hello_reads (set_dev d1 w) cluster size cs) as (d2 & Hrd & Hs2); try done; [apply Hs1|cbn; rewrite (proj2 Hs1); by destruct Hst|].
  cbn [w_dev set_dev] in Hrd, Hs2. rewrite (proj2 Hs1) in Hrd. fold data in Hrd.
  destruct (k_buffer_read (slot (Z.of_nat n) (file_fd v cluster size 0) fds) (set_dev d1 w) l1 (file_fd v cluster size 0) (hello_buf q) 64 (replicate 64 0) data
    (file_fd v cluster size (Z.of_nat (length data))) d2 (room - Heap.room_cost (mkLayout 14 1) - Heap.room_cost (file_layout file_size)))
    as (w1 & w2 & l2 & H2 & H3 & H4 & He & Hw & Hl2); try done;
    [unfold slot; by rewrite length_insert|by apply slot_there|unfold data; rewrite length_take; lia|unfold CALL in *; lia|].
  rewrite slot_twice in H3.
  pose proof (k_seek _ w2 l2 (Z.of_nat n) _ 0 _ w2 ltac:(lia) (slot_there fds (file_fd v cluster size (Z.of_nat (length data))) Hfds)
    (file_seek cluster size (Z.of_nat (length data)) w2 Hsize) ltac:(lia)) as H5. rewrite slot_twice in H5.
  pose proof (k_close FatHello _ w2 l2 (Z.of_nat n) _ (inl tt) w2 [shown data] ltac:(lia) (slot_there fds (file_fd v cluster size 0) Hfds)
    ltac:(by destruct w2)) as H6. rewrite slot_restored in H6.
  exists w2, l2. split_and!; [|exact (only_buffers_trans _ _ _ (only_buffers_dev w d1) He)| |refine (heap_ok_le _ _ _ _ Hl2); unfold CALL in *; lia].
  - unfold hello_check. eapply on_result_ok; [exact H1'|]. rewrite (M_bind_ok _ _ _ _ _ H2).
    rewrite (M_bind_ok _ _ _ [shown data] (sess (slot (Z.of_nat n) (file_fd v cluster size 0) fds) w2 l2)); [exact H6|].
    eapply on_result_ok; [exact H3|].
    rewrite (M_bind_ok _ _ _ [] (sess (slot (Z.of_nat n) (file_fd v cluster size 0) fds) w2 l2)) by (by eapply on_result_ok; [exact H5|]).
    by rewrite (M_bind_ok _ _ _ _ _ (H4 _)).
  - rewrite Hw. destruct Hs1 as [? Hd1], Hs2 as [? Hd2]. split; [done|]. by rewrite Hd2.
Qed.

End calls.

Lemma length_written lba d : 0 ≤ lba → (lba + 1) * 512 ≤ Z.of_nat (length d) → length (seektest_written lba d) = length d.
Proof. intros H0 Hl. unfold seektest_written. rewrite !length_app, length_take, length_drop. change (length (Fat.str_bytes "seektest")) with 8%nat. lia. Qed.

(** ** What the checks find *)

Section found.
Context {D F : Type} `{!FrameAlloc F} (v : Fat.FatVolume D) `{!BlockDeviceLaws (Fat.device v)} (lo hi rp file_size : Z).
Context (e : env (world D F)) (registry : Drivers.dstate (world D F)).
Import SyscallSpec FileCalls Tasks Boot.

(** The literals of the code. *)
Definition literals_of (q : places) : list (Z * string) :=
  [(null_path q, "/dev/null"%string); (discard q, "discard"%string); (zero_path q, "/dev/zero"%string); (scratch_path q, "/scratch"%string);
   (seektest q, "seektest"%string); (hello_path q, "/fat/HELLO.TXT"%string)].

(** A kernel process on the tables of the boot, with a free slot, the literals in
    memory and its buffers in 256 bytes of its stack apart from them. *)
Record process_ready (y : symbols) (k : kernel (world D F)) (i : nat) (p : Process (world D F)) (area : Z) (q : places) : Prop := {
  re_layout : layout y;
  re_running : running k i p;
  re_space : p_address_space p = with_cr3 (pml4 y) Kernel ∧ k_cr3 k = pml4 y;
  re_slots : length (p_fds p) = MAX_FDS ∧ ∃ m, 0 ≤ m < Z.of_nat MAX_FDS ∧ at_slot (p_fds p) m = None;
  re_area : 0 ≤ area ∧ area + 256 ≤ 2 ^ 30 ∧ (area + 256 ≤ pml4 y ∨ pml4 y + 0x3000 ≤ area);
  re_literals : Forall (λ x, 0 < x.1 ∧ clear_of area x.1 (Z.of_nat (String.length x.2))) (literals_of q);
  re_buffers : Forall (λ x, area ≤ x.1 ∧ x.1 + x.2 ≤ area + 256) [(zero_buf q, 16); (scratch_buf q, 6); (hello_buf q, 64)];
  re_memory : prepared y (literals_of q) (memory k)
}.

(** The devices are registered, the scratch file is a sector of the disk of the
    mounted volume, and the volume holds the file when that sector is written. *)
Record devices_ready (w : world D F) (lba : Z) (name : string) (cluster size : Z) (cs : list Z) : Prop := {
  dr_null : Drivers.char_device_by_name "null" registry = Some Drivers.NULL_DRIVER;
  dr_zero : Drivers.char_device_by_name "zero" registry = Some Drivers.ZERO_DRIVER;
  dr_scratch : scratch e = Some (lift_file (Vfs.scratch_file (scratch_ v lba name)));
  dr_sector : 0 ≤ lba ∧ (lba + 1) * 512 ≤ Z.of_nat (length (bd_disk (w_dev w)));
  dr_block : block_size (Fat.device v) = 512;
  dr_volume : w_volume w = Some v ∧ Fat.volume_ok v;
  dr_disk : Fat.disk_ok v (w_dev w);
  dr_file : stored v (seektest_written lba (bd_disk (w_dev w))) (Fat.str_bytes "HELLO.TXT") cluster size cs ∧ 0 ≤ size
}.

Hypothesis Hlo : 0 < lo.
Hypothesis Hle : lo ≤ hi + 1.
Hypothesis Hhi : hi + 16 < U64.
Hypothesis Hfile : 0 < file_size < 2 ^ 32.

(** The checks of the file system.  In a kernel process with a free descriptor slot
    the checks succeed and log what they should: the null device accepts 7 bytes; the
    zero device gives 16 zero bytes; the scratch file, written with `seektest` and set
    to position 2, gives back `ektest`; and of the file on the volume they show its
    first 64 bytes, when they are text.  Afterwards every descriptor is closed and the
    process table is what it was, memory has changed in the buffers only, the disk has
    changed in the 8 bytes of the scratch sector only, and the heap is in order. *)
Theorem vfs_smoke_checks_correct y k i p area q lba name cluster size cs room : process_ready y k i p area q →
  devices_ready (k_world k) lba name cluster size cs → heap_ok lo hi room (Heap.ga_free (k_heap k)) →
  9 * CALL + Heap.room_cost (file_layout file_size) ≤ room →
  let disk := seektest_written lba (bd_disk (w_dev (k_world k))) in
  ∃ k', vfs_smoke_checks rp file_size e registry (placed q) k =
      Ok ([NullAccepted 7; ZeroRead 16 true (replicate 16 0); ScratchRead 6 (Fat.str_bytes "ektest"); shown (take 64 (contents v disk size cs))], k') ∧
    k_table k' = k_table k ∧ (∀ x, ¬ (area ≤ x < area + 256) → memory k' x = memory k x) ∧ bd_disk (w_dev (k_world k')) = disk ∧
    Heap.free_list lo hi (Heap.ga_free (k_heap k')).
Proof.
  intros [Hy Hrun [Hsp Hcr] [Hfds (m & Hm & Hmn)] Harea Hlits Hbufs Hmem] [Hnull Hzero Hscr [Hlba Hsec] Hblock [Hvol Hvok] [Hinv Hlen] [Hst Hsize]] Hheap Hroom disk.
  pose proof (room_cost_pos (file_layout file_size) ltac:(done)) as Hpos. unfold CALL in Hroom.
  assert (∃ n, first_free 0 (p_fds p) = Some n) as [n Hn].
  { pose proof (first_free_slot (p_fds p) Hfds) as Hf. destruct (first_free 0 (p_fds p)) as [n|]; [by exists n|]. destruct (Hf m Hm) as [d Hd]. congruence. }
  set (w := k_world k) in *. set (l := Heap.ga_free (k_heap k)) in *.
  destruct (null_check_ok lo hi Hlo Hle Hhi rp file_size e registry y k i p area _ Hy Hrun Hsp Hlits q eq_refl (p_fds p) n Hfds Hn Drivers.NULL_DRIVER w l room)
    as (l1 & H1 & Hl1); try done; [unfold named, names; cbn; by rewrite Hnull|unfold CALL; lia|].
  destruct (zero_check_ok lo hi Hlo Hle Hhi rp file_size e registry y k i p area _ Hy Hrun Hsp Hcr Harea Hlits q eq_refl Hbufs (p_fds p) n Hfds Hn Drivers.ZERO_DRIVER
    w l1 (room - 2 * CALL)) as (w2 & l2 & H2 & He2 & Hd2 & Hl2); try done; [unfold named, names; cbn; by rewrite Hzero|unfold CALL; lia|].
  pose proof (prepared_buffers y area _ Harea Hlits _ _ He2 Hmem) as Hm2.
  destruct (scratch_check_ok lo hi Hlo Hle Hhi rp file_size e registry y k i p area _ Hy Hrun Hsp Hcr Harea Hlits q eq_refl Hbufs (p_fds p) n Hfds Hn v lba name Hblock Hlba
    w2 l2 (room - 2 * CALL - 2 * CALL)) as (w3 & l3 & H3 & He3 & Hi3 & Hd3 & Hl3); try done; [unfold named, names; cbn; by rewrite Hscr| |unfold CALL; lia|].
  { rewrite Hd2. split; [done|]. by rewrite scratch_sector. }
  rewrite Hd2 in Hd3. pose proof (prepared_buffers y area _ Harea Hlits _ _ He3 Hm2) as Hm3.
  destruct (hello_check_ok lo hi Hlo Hle Hhi rp file_size e registry y k i p area _ Hy Hrun Hsp Hcr Harea Hlits q eq_refl Hbufs (p_fds p) n Hfds Hn v Hblock Hvok Hfile
    w3 l3 (room - 2 * CALL - 2 * CALL - 3 * CALL) cluster size cs) as (w4 & l4 & H4 & He4 & Hs4 & Hl4); try done.
  { by rewrite (ob_volume _ _ _ He3), (ob_volume _ _ _ He2). }
  { split; [done|]. by rewrite Hd3, length_written. } { by rewrite Hd3. } { unfold CALL; lia. }
  rewrite Hd3 in H4. exists (session k i (p_fds p) w4 l4). pose proof (session_start k i p Hrun) as H0. fold w l in H0. split_and!.
  - rewrite <- H0 at 1. unfold vfs_smoke_checks. by rewrite (M_bind_ok _ _ _ _ _ H1), (M_bind_ok _ _ _ _ _ H2), (M_bind_ok _ _ _ _ _ H3), (M_bind_ok _ _ _ _ _ H4).
  - by apply session_table.
  - intros x Hx. change (memory (session k i (p_fds p) w4 l4)) with (pm_mem (w_pm w4)).
    rewrite (ob_mem _ _ _ He4), (ob_mem _ _ _ He3), (ob_mem _ _ _ He2) by done. done.
  - change (w_dev (k_world (session k i (p_fds p) w4 l4))) with (w_dev w4). by rewrite (proj2 Hs4).
  - by destruct Hl4.
Qed.

End found.

(** ** A disk with a greeting *)

Section example.
Import SyscallSpec FileCalls Tasks.

Definition example_dir : list Z := Fat.fill 512 (Fat.str_bytes "HELLO   TXT" ++ replicate 15 0 ++ le_bytes 2 2 ++ le_bytes 4 2).
Definition example_disk : list Z := Fat.example_boot ++ Fat.example_fat ++ example_dir ++ Fat.fill 512 (Fat.str_bytes "hi") ++ replicate 1024 0.
Definition example_registry : Drivers.dstate (world (list Z) Phys.phys) :=
  Drivers.mkDstate example_world (RawVec.mkRawVec 8 [Drivers.CharSlot Drivers.NULL_DRIVER; Drivers.CharSlot Drivers.ZERO_DRIVER] 4) [].
Definition example_env : env (world (list Z) Phys.phys) :=
  mkEnv ProgramSpec.example_char ProgramSpec.example_char (Some (lift_file (Vfs.scratch_file (scratch_ Fat.example_volume 5 "scratch")))) 0.
Definition example_kernel (m : mem) : kernel (world (list Z) Phys.phys) :=
  mkKernel (set_procs [example_shell] table_new) 2 Context_new false Context_new 0x101000 0
    (Heap.mkAllocator [Heap.Node 0x100000 0x100000] (λ _, 0)) (mkWorld example_disk (Some Fat.example_volume) (mkPmem m (pm_fa Paging.example_space))).

(** The literals, one after the other, and the buffers. *)
Definition example_places : places := mkPlaces 0x300000 0x300009 0x300010 0x310000 0x300019 0x300021 0x310010 0x300029 0x310020.
Definition example_literals : list Z := Fat.str_bytes "/dev/nulldiscard/dev/zero/scratchseektest/fat/HELLO.TXT".

Lemma example_prepared m : Boot.tables Boot.example_symbols m → prepared Boot.example_symbols (literals_of example_places) (store_each m 0x300000 example_literals).
Proof.
  intros Ht. split.
  - apply (Boot.tables_ext _ m); [|done]. intros x Hx. apply store_each_out. change (Boot.pml4 Boot.example_symbols) with 0x101000 in Hx. lia.
  - repeat constructor; by vm_compute.
Qed.

Lemma example_process_ready m : Boot.tables Boot.example_symbols m →
  process_ready Boot.example_symbols (example_kernel (store_each m 0x300000 example_literals)) 0 example_shell 0x310000 example_places.
Proof.
  intros Ht. split.
  - exact Boot.example_layout.
  - by split.
  - done.
  - split; [done|]. exists 3. by split.
  - split_and!; [lia|lia|]. right. by vm_compute.
  - repeat constructor; unfold clear_of; cbn; lia.
  - repeat constructor; cbn; lia.
  - by apply example_prepared.
Qed.

Lemma example_devices_ready (w : world (list Z) Phys.phys) : w_dev w = example_disk → w_volume w = Some Fat.example_volume →
  @devices_ready _ _ Fat.example_volume Fat.example_laws example_env example_registry w 5 "scratch" 2 2 [2].
Proof.
  intros Hd Hv. split; rewrite ?Hd.
  - done.
  - done.
  - done.
  - split; [lia|]. by vm_compute.
  - done.
  - split; [done|]. exact Fat.example_volume_ok.
  - split; [split; [by vm_compute|apply list_forallb_byte; by vm_compute]|by vm_compute].
  - split; [|done]. constructor; [done|by vm_compute| |apply Fat.chain_last; by vm_compute].
    eexists _, 0%nat, _. split; [by vm_compute|]. split_and!; by vm_compute.
Qed.

Lemma vfs_smoke_checks_correct_witness :
  ∃ m k', vfs_smoke_checks 7 64 example_env example_registry (placed example_places) (example_kernel m) =
      Ok ([NullAccepted 7; ZeroRead 16 true (replicate 16 0); ScratchRead 6 (Fat.str_bytes "ektest"); HelloRead 2 (Fat.str_bytes "hi")], k').
Proof.
  destruct (Boot.build_tables_spec Boot.example_symbols (Boot.b_mem Boot.example_boot) Boot.example_layout (Boot.im_ok _ _ Boot.example_image_ok)
    (Boot.im_tables _ _ Boot.example_image_ok)) as (_ & Ht & _).
  generalize dependent (Boot.build_tables Boot.example_symbols (Boot.b_mem Boot.example_boot)). intros m0 Ht.
  assert (shown (take 64 (contents Fat.example_volume (seektest_written 5 example_disk) 2 [2])) = HelloRead 2 (Fat.str_bytes "hi")) as Hs by (by vm_compute).
  pose proof (example_process_ready m0 Ht) as Hp. generalize dependent (store_each m0 0x300000 example_literals). intros m Hp.
  destruct (@vfs_smoke_checks_correct _ _ _ Fat.example_volume Fat.example_laws 0x100000 0x200000 7 64 example_env example_registry ltac:(done) ltac:(done) ltac:(done)
    ltac:(done) Boot.example_symbols (example_kernel m) 0 example_shell 0x310000 example_places 5 "scratch" 2 2 [2] 0x1000 Hp
    (example_devices_ready (k_world (example_kernel m)) eq_refl eq_refl) example_heap_ok ltac:(by vm_compute)) as (k' & Hr & _).
  exists m, k'. rewrite <- Hs. exact Hr.
Defined.

End example.

End Smoke.
