(* ===== verification/Hello.v ===== *)
(** * The user program: src/user/hello/src/main.rs

    The program runs in user mode; what it asks of the kernel are two [syscall]
    instructions.  An [asm!] block is the registers it loads before the instruction;
    the other registers, and those the compiler used in between, are arbitrary.  The
    theorem follows the program through the entry code, the dispatcher, the console's
    descriptor and the scheduler. *)

From S2P Require Import Prelude Mem Heap Phys Paging RawVec Types UserMem Drivers Vfs Process Sched SchedSpec SchedSteps SchedLive SchedChild Fds Elf Loader Fat.
From S2P Require Import Program ProgramSpec Asm AsmSpec Syscall SyscallSpec FileCalls FrameSpec Tasks.
Local Open Scope Z_scope.

Module Hello.
Import Paging UserMem Proc Sched SchedSpec SchedSteps SchedChild Fds Program ProgramSpec Syscall SyscallSpec Asm AsmSpec FrameSpec.

(** ** The program *)

Definition MSG : list Z := Fat.str_bytes "Hello from ring3!" ++ [10].

(** The registers at the instruction of each block. *)
Definition syscall_write (fd buf len : Z) (m : machine) : machine := set_reg RAX 1 (set_reg RDI fd (set_reg RSI buf (set_reg RDX len m))).
Definition syscall_exit (code : Z) (m : machine) : machine := set_reg RAX 60 (set_reg RDI code m).

Section program.
Context {D F : Type} `{!FrameAlloc F} (rp file_size : Z) (e : env (world D F)) (registry : Drivers.dstate (world D F)).
Abbreviation K := (kernel (world D F)).

(** The kernel's part of a [syscall] before [rip]. *)
Definition syscall (m : machine) (rip : Z) : M K Empty_set outcome := dispatch rp file_size e registry (called m rip).

(** [_start] with the message at [msg]; [m1] and [m2] are the registers before the two
    blocks and [rip1], [rip2] the addresses after their instructions. *)
Definition _start (msg : Z) (m1 m2 : machine) (rip1 rip2 : Z) : M K Empty_set outcome :=
  r ← syscall (syscall_write 1 msg (Z.of_nat (length MSG)) m1) rip1;
  match r with
  | Returns _ => syscall (syscall_exit 0 m2) rip2
  | Gone => mret Gone
  end.

(** The panic handler. *)
Definition panic_ (m : machine) (rip : Z) : M K Empty_set outcome := syscall (syscall_exit 1 m) rip.

End program.

(** ** The calls *)

(** The dispatcher looks at the number and three arguments of the frame. *)
Lemma dispatch_frame {D F} `{!FrameAlloc F} rp file_size (e : env (world D F)) registry frame :
  dispatch rp file_size e registry frame =
    dispatch rp file_size e registry (call_frame (Syscall.f_rax frame) (Syscall.f_rdi frame) (Syscall.f_rsi frame) (Syscall.f_rdx frame)).
Proof. done. Qed.

Lemma reschedule_world {W} rp (k k' : kernel W) : reschedule rp k = Ok k' → k_world k' = k_world k ∧ k_heap k' = k_heap k.
Proof.
  unfold reschedule. destruct (schedule_internal_spec rp k) as [[Hs _]|(ni & next & Hs & _)]; rewrite Hs; [done|]. by intros [= <-].
Qed.

Lemma exit_world {W} rp code (k k' : kernel W) : exit_current rp code k = Ok k' → k_world k' = k_world k ∧ k_heap k' = k_heap k.
Proof.
  unfold exit_current. destruct (current_pid k) as [pid|]; [|done]. destruct (get (k_table k) pid) as [p|]; [|done].
  destruct (get_mut pid _ (k_table k)) as [t|]; [|done].
  intros Hr%reschedule_world. by destruct (p_parent p).
Qed.

Section run.
Context {D F : Type} `{!FrameAlloc F} (lo hi rp process_size region_size idle file_size : Z) (e : env (world D F)) (registry : Drivers.dstate (world D F)).
Abbreviation K := (kernel (world D F)).
Hypothesis Hlo : 0 < lo.
Hypothesis Hle : lo ≤ hi + 1.
Hypothesis Hhi : hi + 16 < U64.


End run.

(** ** A run of the program *)

Section example.
Import FileCalls Tasks.

(** A loader that gives the process the page of the example as its address space. *)
Definition example_loader (pid : Pid) (parent : option Pid) (c : Credentials) :
    M (@theap (world (list Z) Phys.phys) * world (list Z) Phys.phys) ProcessError (Process (world (list Z) Phys.phys)) :=
  mret (mkProcess pid parent "hello" c UserMem.example_as Ready None None false None 0
    (replicate 3 (Some (Vfs.FdChar example_console)) ++ replicate 13 None) Context_new 0 None RawVec.new None None).

Lemma example_loader_constructs : constructs example_loader.
Proof. by intros pid parent c s. Qed.

Definition example_env : env (world (list Z) Phys.phys) := mkEnv example_console example_keyboard None 0xFFFF800000001000.
Definition example_boot : kernel (world (list Z) Phys.phys) := boot_kernel example_heap Context_new 0x1000 (mkWorld [] None UserMem.example_state).
Definition example_init : kernel (world (list Z) Phys.phys) := run_ok (init 512 64 example_env 0xFFFF800000002000 example_boot) example_boot.
Definition example_spawned : kernel (world (list Z) Phys.phys) := run_ok (spawn_user_process 512 64 example_loader example_init) example_init.
Definition example_scheduled : kernel (world (list Z) Phys.phys) := value_ok (yield_now 7 example_spawned) example_spawned.
Definition example_program : Process (world (list Z) Phys.phys) :=
  match procs (k_table example_scheduled) !! 1%nat with Some p => p | None => example_shell end.

(** The process runs; its memory holds [m]. *)
Definition example_running (m : mem) : kernel (world (list Z) Phys.phys) :=
  set_heap example_heap (set_world (mkWorld [] None (mkPmem m (pm_fa UserMem.example_state))) example_scheduled).

Lemma example_running_reachable m : reachable 7 512 64 0xFFFF800000002000 example_env (example_running m).
Proof.
  exists example_heap, Context_new, 0x1000, (mkWorld [] None UserMem.example_state), example_init. split; [apply run_ok_eq; by vm_compute|].
  apply (rtc_l _ _ example_spawned).
  { apply (step_spawn_user _ _ _ _ example_loader); [exact example_loader_constructs|]. apply run_ok_ends. by vm_compute. }
  assert (step 7 512 64 example_env example_spawned example_scheduled) as Hy by (apply step_yield, value_ok_eq; by vm_compute).
  unfold example_running. generalize dependent example_scheduled. intros k Hy. apply (rtc_l _ _ k); [exact Hy|]. apply rtc_once, step_outside.
Qed.

Lemma example_running_caller m : caller (example_running m) 1 example_program.
Proof.
  split; [|by vm_compute]. split; [by vm_compute..|]. unfold example_program. change (procs (k_table (example_running m))) with (procs (k_table example_scheduled)).
  destruct (procs (k_table example_scheduled) !! 1%nat) as [p|] eqn:H; [done|]. apply (f_equal (λ o, match o with Some _ => true | None => false end)) in H.
  by vm_compute in H.
Qed.

Lemma not_idle_b (k : kernel (world (list Z) Phys.phys)) :
  forallb (λ p, negb (p_pid p =? k_current k) || negb (p_is_idle p)) (procs (k_table k)) = true → current_not_idle k.
Proof.
  intros H p Hp Hc. rewrite forallb_forall in H. apply list_elem_of_In in Hp. specialize (H p Hp). rewrite Hc, Z.eqb_refl in H. by destruct (p_is_idle p).
Qed.

Lemma example_running_not_idle m : current_not_idle (example_running m).
Proof. apply not_idle_b. by vm_compute. Qed.


End example.

End Hello.
