(* ===== verification/Kmain.v ===== *)
(** * The last part of the boot: [kmain] of src/src/kernel/kmain.rs from [process::init]
    to the scheduler, with [HeapBox] of src/src/kernel/mem/heap.rs

    The kernel's table, heap and devices are those of the other files.  The steps of [kmain]
    between these that work on the registers of the processor ([syscall::init],
    [timer::init], [interrupts::enable]) are modelled with their components, in [Cpu] and
    [Interrupts]; log lines, and what is computed for them only, are left out. *)

From S2P Require Import Prelude Mem Heap Phys Paging RawVec Types UserMem Drivers Vfs Process Sched SchedSpec SchedSteps SchedLive Fds Elf Loader Fat.
From S2P Require Import Cpu Boot Program ProgramSpec Syscall SyscallSpec Tasks.
Local Open Scope Z_scope.

Module Kmain.
Import Paging UserMem Proc Sched SchedSpec SchedSteps Fds Program ProgramSpec Syscall SyscallSpec Tasks.

(** ** HeapBox *)

(** [HeapBox::new] for a value of that layout and with these bytes. *)
Definition HeapBox_new {E} (layout : Layout) (value : list Z) : M Heap.allocator E (option Z) :=
  raw ← Heap.heap_allocate layout;
  if raw =? 0 then mret None
  else
    _ ← modify (Heap.heap_write (λ m, store_bytes m raw value));
    mret (Some raw).

Definition HeapBox_drop {E} (ptr : Z) (layout : Layout) : M Heap.allocator E unit := Heap.heap_deallocate ptr layout.

(** ** kmain *)

Section kmain.
Context {D F : Type} `{!FrameAlloc F}.
Abbreviation K := (kernel (world D F)).
Context (rp process_size region_size file_size : Z) (e : env (world D F)) (registry : Drivers.dstate (world D F)).

(** [Result::expect] *)
Definition expect {A} (m : M K ProcessError A) : M K Empty_set A := λ k,
  match m k with Ok r => Ok r | Err _ => Panic | Panic => Panic | Hang => Hang end.

Definition on_allocator {E A} (m : M Heap.allocator E A) : M K E A := zoom k_heap set_heap m.

(** The array of eight words on the heap, filled and dropped. *)
Definition heap_box_test : M K Empty_set unit :=
  let layout := mkLayout 64 8 in
  boxed ← on_allocator (HeapBox_new layout (replicate 64 0));
  match boxed with
  | None => panic
  | Some ptr =>
      _ ← on_allocator (modify (Heap.heap_write (λ m, store_bytes m ptr (mjoin (le_bytes 8 <$> seqZ 0 8)))));
      on_allocator (HeapBox_drop ptr layout)
  end.

(** The block allocated and freed by hand. *)
Definition manual_test : M K Empty_set unit :=
  let layout := mkLayout 64 16 in
  ptr ← on_allocator (Heap.heap_allocate layout);
  if negb (ptr =? 0) then
    _ ← on_allocator (modify (Heap.heap_write (λ m, fill m ptr 64 0xA5)));
    on_allocator (Heap.heap_deallocate ptr layout)
  else mret tt.

(** From [process::init] to the spawn of the shell; the banner is at [banner]. *)
Definition kmain_processes (idle_entry shell_entry banner : Z) : M K Empty_set unit :=
  _ ← expect (init process_size region_size e idle_entry);
  _ ← write rp file_size e registry fd_STDOUT banner 27;
  _ ← heap_box_test;
  _ ← manual_test;
  _ ← expect (spawn_kernel_process process_size region_size e "init" shell_entry);
  mret tt.

End kmain.

(** ** The steps succeed *)

Section steps.
Context {D F : Type} `{!FrameAlloc F} (lo hi : Z).
Abbreviation K := (kernel (world D F)).
Hypothesis Hlo : 0 < lo.
Hypothesis Hle : lo ≤ hi + 1.
Hypothesis Hhi : hi + 16 < U64.
Context (rp process_size region_size file_size : Z) (e : env (world D F)) (registry : Drivers.dstate (world D F)).
Hypothesis Hregion : 0 < region_size < 2 ^ 32.
Hypothesis Hprocess : 0 < process_size < 2 ^ 32.
Hypothesis Hexit : u64 (Proc.process_exit e).

Definition table_layout : Layout := mkLayout (process_size * 4) 8.

(** A new kernel process. *)
Record kernel_process (pid : Pid) (parent : option Pid) (idle : bool) (cr entry : Z) (p : Process (world D F)) : Prop := {
  kp_fresh : fresh pid parent idle Credentials_root p;
  kp_space : p_address_space p = with_cr3 cr Kernel;
  kp_slices : p_cpu_slices p = 0;
  kp_rip : rip (p_context p) = entry;
  kp_stack : rsp (p_context p) = p_stack_ptr p + KERNEL_STACK_SIZE - 8;
  kp_stdin : fd fd_STDIN p = Some (Vfs.FdChar (keyboard e));
  kp_stdout : fd fd_STDOUT p = Some (Vfs.FdChar (console e))
}.

Lemma install_fds_devices (p : Process (world D F)) : p_fds p = replicate MAX_FDS None →
  ∃ fds, install_fds e p = Ok (set_fds fds p) ∧ mjoin (fds !! 0%nat) = Some (Vfs.FdChar (keyboard e)) ∧
    mjoin (fds !! 1%nat) = Some (Vfs.FdChar (console e)).
Proof. intros H. unfold install_fds, set_fd. destruct (scratch e); cbn; eexists; (split; [done|]); rewrite H; done. Qed.

Lemma new_kernel_ok n a cr pid name parent entry idle :
  heap_ok lo hi n (Heap.ga_free a) → Heap.room_cost stack_layout + Heap.room_cost (regions_layout region_size) ≤ n →
  ∃ p a', new_kernel region_size e cr pid name parent entry idle Credentials_root a = Ok (p, a') ∧
    heap_ok lo hi (n - Heap.room_cost stack_layout - Heap.room_cost (regions_layout region_size)) (Heap.ga_free a') ∧
    kernel_process pid parent idle cr entry p ∧ load64 (Heap.ga_mem a') (rsp (p_context p)) = Proc.process_exit e.
Proof.
  intros Hl Hn.
  assert (0 ≤ Heap.room_cost (regions_layout region_size)) as H0 by (unfold Heap.room_cost, Heap.block_size, Heap.block_align; cbn; lia).
  destruct (new_stack_ok lo hi e Hlo Hle Hhi n a Hl ltac:(lia)) as (sp & l1 & Hs & Hl1 & _). cbv zeta in Hs. unfold new_kernel.
  rewrite (M_bind_ok _ _ _ _ _ Hs). set (p0 := mkProcess _ _ _ _ _ _ _ _ _ _ _ _ _ _ _ _ _ _).
  destruct (install_fds_devices p0 eq_refl) as (fds & Hf & Hin & Hout). rewrite (M_bind_lift _ _ _ _ Hf).
  destruct (register_stack_ok lo hi region_size Hlo Hle Hhi Hregion (n - Heap.room_cost stack_layout) (set_fds fds p0) stack_layout
    (Heap.mkAllocator l1 (store64 (Heap.ga_mem a) (sp + KERNEL_STACK_SIZE - 8) (Proc.process_exit e)))) as (rs & l2 & Hr & Hl2 & _); [done|done|lia|].
  exists (set_regions rs (set_fds fds p0)). eexists. split; [exact Hr|]. split; [done|]. split; [|by apply load64_store64]. split; [by constructor|done..].
Qed.

(** Adding a process to a table that has room, or is new. *)
Lemma table_push_ok n p (t : ProcessTable (world D F)) a :
  heap_ok lo hi n (Heap.ga_free a) → Heap.room_cost table_layout ≤ n →
  (entries t = RawVec.new ∨ (length (procs t) = 1%nat ∧ RawVec.capacity (entries t) = 4)) →
  ∃ v a', push process_size region_size p (t, a) = Ok (tt, (set_entries v t, a')) ∧ RawVec.elems v = procs t ++ [p] ∧ RawVec.capacity v = 4 ∧
    heap_ok lo hi (n - Heap.room_cost table_layout) (Heap.ga_free a') ∧ Heap.ga_mem a' = Heap.ga_mem a.
Proof.
  intros Hl Hn [Hnew|[Hlen Hcap]].
  - destruct (first_push_ok lo hi Hlo Hle Hhi (table_config process_size) p n (Heap.ga_free a)) as (q & l' & Hp & Hl' & _); try done.
    { split; [by apply (pow2_intro 3)|cbn; lia]. }
    exists (RawVec.mkRawVec q [p] 4). eexists. unfold push. rewrite Hnew, Hp. split; [done|]. unfold procs. rewrite Hnew. by split_and!.
  - exists (RawVec.mkRawVec (RawVec.ptr (entries t)) (procs t ++ [p]) 4), a. split_and!; try done.
    + unfold push. rewrite RawVec.push_fits by (unfold RawVec.len, procs in *; lia). rewrite Hcap. by destruct a.
    + destruct Hl as [Hl (x & Hx & Hroom)]. split; [done|]. exists x. split; [done|].
      assert (0 ≤ Heap.room_cost table_layout) by (unfold Heap.room_cost, Heap.block_size, Heap.block_align; cbn; lia).
      intros y Hy. apply Hroom. lia.
Qed.

(** What the heap needs for one process. *)
Definition spawn_need : Z := Heap.room_cost stack_layout + Heap.room_cost (regions_layout region_size) + Heap.room_cost table_layout.

Lemma table_spawn_ok n name entry idle (t : ProcessTable (world D F)) a cr :
  heap_ok lo hi n (Heap.ga_free a) → spawn_need ≤ n → next_pid t + 1 < 2 ^ 32 →
  (entries t = RawVec.new ∨ (length (procs t) = 1%nat ∧ RawVec.capacity (entries t) = 4)) →
  ∃ t' a' p, table_spawn_kernel process_size region_size e cr name None entry idle (t, a) = Ok (next_pid t, (t', a')) ∧
    procs t' = procs t ++ [p] ∧ RawVec.capacity (entries t') = 4 ∧ kernel_process (next_pid t) None idle cr entry p ∧
    next_pid t' = next_pid t + 1 ∧ initialized t' = initialized t ∧ heap_ok lo hi (n - spawn_need) (Heap.ga_free a') ∧
    load64 (Heap.ga_mem a') (rsp (p_context p)) = Proc.process_exit e.
Proof.
  intros Hl Hn Hpid Hent. unfold spawn_need in *.
  pose proof (room_cost_pos table_layout ltac:(done)). pose proof (room_cost_pos (regions_layout region_size) ltac:(done)).
  set (t1 := set_next_pid (next_pid t + 1) t).
  destruct (new_kernel_ok n a cr (next_pid t) name None entry idle Hl ltac:(lia)) as (p & a1 & Hnew & Hl1 & Hp & Hex).
  destruct (table_push_ok (n - Heap.room_cost stack_layout - Heap.room_cost (regions_layout region_size)) p t1 a1 Hl1 ltac:(lia) Hent)
    as (v & a2 & Hpush & Hv & Hcap & Hl2 & Hm2). rewrite <- Hm2 in Hex.
  unfold table_spawn_kernel. rewrite (M_bind_ok _ _ (t, a) (next_pid t) (t1, a)).
  2:{ rewrite allocate_pid_spec. by rewrite (proj2 (Z.ltb_lt _ _)). }
  rewrite (M_bind_ok (gets fst) _ (t1, a) t1 (t1, a)) by done. cbn [spawn_credentials].
  rewrite (M_bind_ok _ _ (t1, a) p (t1, a1)) by exact (zoom_ok snd (λ a s, (s.1, a)) _ (t1, a) p a1 Hnew).
  rewrite (M_bind_ok _ _ _ _ _ Hpush). rewrite (M_bind_ok (modify _) _ (set_entries v t1, a2) tt _ eq_refl).
  eexists _, a2, p. split; [reflexivity|]. cbn [fst snd].
  replace (n - (Heap.room_cost stack_layout + Heap.room_cost (regions_layout region_size) + Heap.room_cost table_layout))
    with (n - Heap.room_cost stack_layout - Heap.room_cost (regions_layout region_size) - Heap.room_cost table_layout) by lia.
  destruct idle; [by split_and!|]. destruct (init_pid _); by split_and!.
Qed.

(** The allocations of [kmain] itself. *)
Lemma heap_box_test_ok n (k : K) : heap_ok lo hi n (Heap.ga_free (k_heap k)) → Heap.room_cost (mkLayout 64 8) ≤ n →
  ∃ a, heap_box_test k = Ok (tt, set_heap a k) ∧ heap_ok lo hi (n - Heap.room_cost (mkLayout 64 8)) (Heap.ga_free a).
Proof.
  intros Hl Hn. destruct (request_ok (E:=Empty_set) lo hi Hlo Hle Hhi n (Heap.ga_free (k_heap k)) (mkLayout 64 8)) as (p & l1 & Hp & Hp0 & Hl1 & _ & Ho & _); try done.
  { split; [by apply (pow2_intro 3)|done]. }
  destruct (release_ok (E:=Empty_set) lo hi Hlo Hhi _ _ _ _ Hl1 Ho) as (l2 & Hd & Hl2 & _).
  set (a1 := Heap.heap_write (λ m, store_bytes m p (replicate 64 0)) (Heap.mkAllocator l1 (Heap.ga_mem (k_heap k)))).
  set (a2 := Heap.heap_write (λ m, store_bytes m p (mjoin (le_bytes 8 <$> seqZ 0 8))) a1).
  exists (Heap.mkAllocator l2 (Heap.ga_mem a2)). split; [|done]. unfold heap_box_test.
  rewrite (M_bind_ok _ _ k (Some p) (set_heap a1 k)).
  - rewrite (M_bind_ok _ _ _ tt (set_heap a2 k)) by done. unfold on_allocator, zoom, HeapBox_drop, Heap.heap_deallocate. cbn [k_heap set_heap].
    change (Heap.ga_free a2) with l1. by rewrite Hd.
  - apply (zoom_ok k_heap). unfold HeapBox_new. rewrite (M_bind_ok _ _ _ p (Heap.mkAllocator l1 (Heap.ga_mem (k_heap k)))) by (unfold Heap.heap_allocate; by rewrite Hp).
    by rewrite (proj2 (Z.eqb_neq _ _)).
Qed.

Lemma manual_test_ok n (k : K) : heap_ok lo hi n (Heap.ga_free (k_heap k)) → Heap.room_cost (mkLayout 64 16) ≤ n →
  ∃ a, manual_test k = Ok (tt, set_heap a k) ∧ heap_ok lo hi (n - Heap.room_cost (mkLayout 64 16)) (Heap.ga_free a).
Proof.
  intros Hl Hn. destruct (request_ok (E:=Empty_set) lo hi Hlo Hle Hhi n (Heap.ga_free (k_heap k)) (mkLayout 64 16)) as (p & l1 & Hp & Hp0 & Hl1 & _ & Ho & _); try done.
  { split; [by apply (pow2_intro 4)|done]. }
  destruct (release_ok (E:=Empty_set) lo hi Hlo Hhi _ _ _ _ Hl1 Ho) as (l2 & Hd & Hl2 & _).
  set (a1 := Heap.mkAllocator l1 (Heap.ga_mem (k_heap k))). set (a2 := Heap.heap_write (λ m, fill m p 64 0xA5) a1).
  exists (Heap.mkAllocator l2 (Heap.ga_mem a2)). split; [|done]. unfold manual_test.
  rewrite (M_bind_ok _ _ k p (set_heap a1 k)) by (apply (zoom_ok k_heap); unfold Heap.heap_allocate; by rewrite Hp).
  rewrite (proj2 (Z.eqb_neq _ _)) by done. cbn [negb]. rewrite (M_bind_ok _ _ _ tt (set_heap a2 k)) by done.
  unfold on_allocator, zoom, Heap.heap_deallocate. cbn [k_heap set_heap]. change (Heap.ga_free a2) with l1. by rewrite Hd.
Qed.

(** The banner: no process runs yet, so the call has no descriptors. *)
Lemma banner_refused (k : K) banner : k_current k = 0 → banner ≠ 0 →
  write rp file_size e registry fd_STDOUT banner 27 k = Ok (Some (Err BadFileDescriptor), k).
Proof.
  intros Hc Hb. unfold write. apply (dispatch_run rp file_size e registry nr.WRITE fd_STDOUT banner 27 (sys_write fd_STDOUT banner 27) k ERR_BADF k); [done|].
  unfold sys_write. rewrite (proj2 (Z.eqb_neq banner 0)) by done. cbn [Z.eqb]. rewrite (M_bind_ok Prelude.get _ k k k) by done.
  unfold current_address_space, current_pid. by rewrite Hc.
Qed.

(** [init] and [spawn_kernel_process] at boot. *)
Lemma init_ok n a cpu cr w idle_entry : heap_ok lo hi n (Heap.ga_free a) → spawn_need ≤ n →
  ∃ t a' p0, init process_size region_size e idle_entry (boot_kernel a cpu cr w) = Ok (tt, mkKernel t 0 Context_new false cpu cr 0 a' w) ∧
    procs t = [p0] ∧ RawVec.capacity (entries t) = 4 ∧ kernel_process 1 None true cr idle_entry p0 ∧ next_pid t = 2 ∧ initialized t = true ∧
    heap_ok lo hi (n - spawn_need) (Heap.ga_free a').
Proof.
  intros Hl Hn. set (t0 := set_initialized true (@table_new (world D F))).
  destruct (table_spawn_ok n "idle" idle_entry true t0 a cr Hl Hn ltac:(done) ltac:(by left)) as (t & a' & p0 & Hs & Hp & Hc & Hk & Hn' & Hi & Hl' & _).
  exists t, a', p0. split; [|by split_and!]. unfold init. set (b := boot_kernel a cpu cr w).
  rewrite (M_bind_ok Prelude.get _ b b b) by done. cbn [b boot_kernel k_table table_new initialized].
  rewrite (M_bind_ok (modify _) _ b tt (set_table t0 b)) by done.
  rewrite (M_bind_ok _ _ _ 1 (set_heap a' (set_table t (set_table t0 b)))) by exact (zoom_ok _ (λ s k, set_heap s.2 (set_table s.1 k)) _ (set_table t0 b) _ _ Hs).
  done.
Qed.

Lemma spawn_ok n t a cpu cr w p0 entry : heap_ok lo hi n (Heap.ga_free a) → spawn_need ≤ n →
  procs t = [p0] → RawVec.capacity (entries t) = 4 → next_pid t = 2 → initialized t = true →
  ∃ t' a' p1, spawn_kernel_process process_size region_size e "init" entry (mkKernel t 0 Context_new false cpu cr 0 a w) =
      Ok (2, mkKernel t' 0 Context_new false cpu cr 0 a' w) ∧
    procs t' = [p0; p1] ∧ kernel_process 2 None false cr entry p1 ∧ Heap.free_list lo hi (Heap.ga_free a') ∧
    load64 (Heap.ga_mem a') (rsp (p_context p1)) = Proc.process_exit e.
Proof.
  intros Hl Hn Hp Hc Hpid Hi.
  destruct (table_spawn_ok n "init" entry false t a cr Hl Hn) as (t' & a' & p1 & Hs & Hp' & _ & Hk & _ & _ & [Hl' _] & Hex); [rewrite Hpid; done|right; by rewrite Hp|].
  rewrite Hpid in Hs, Hk. rewrite Hp in Hp'. exists t', a', p1. split; [|done]. unfold spawn_kernel_process.
  set (k := mkKernel t 0 Context_new false cpu cr 0 a w). rewrite (M_bind_ok Prelude.get _ k k k) by done. cbn [k_table k]. rewrite Hi. cbn [negb].
  exact (zoom_ok _ (λ s k, set_heap s.2 (set_table s.1 k)) _ k _ _ Hs).
Qed.

(** The first call of the scheduler: the idle process is passed over. *)
Lemma first_schedule t cpu cr a w p0 p1 idle_entry entry : procs t = [p0; p1] →
  kernel_process 1 None true cr idle_entry p0 → kernel_process 2 None false cr entry p1 →
  let k := mkKernel t 0 Context_new false cpu cr 0 a w in
  let k' := switched rp k 1 p1 in
  start_scheduler rp k = Ok k' ∧ running k' 1 (promote p1).
Proof.
  intros Hp [[Hpid0 _ Hi0 _ Hst0 _ _ _] _ _ _ _ _ _] [[Hpid1 _ Hi1 _ Hst1 _ _ _] _ _ _ _ _ _] k k'.
  assert (next_index k = Some 1%nat) as Hni.
  { unfold next_index, current_index. cbn [k current_pid k_current k_table Z.eqb mbind option_bind]. rewrite Hp. unfold round_robin, ring, runnable, in_state.
    cbn -[bool_decide]. rewrite Hi0, Hi1, Hst1. by rewrite andb_false_r, bool_decide_true. }
  split.
  - unfold start_scheduler. destruct (schedule_internal_spec rp k) as [[_ [H|H]]|(ni & next & Hs & Hni' & Hnext & _)]; [congruence|by rewrite Hni in H|].
    assert (ni = 1%nat) as -> by congruence. cbn [k_table k] in Hnext. rewrite Hp in Hnext. injection Hnext as <-. by rewrite Hs.
  - assert (procs (k_table k') = [p0; promote p1]) as Hpr by (unfold k', switched, k; cbn [k_table procs set_procs entries RawVec.elems]; by rewrite Hp).
    split; change (p_pid (promote p1)) with (p_pid p1); [by rewrite Hpid1| |by rewrite Hpr].
    unfold find_index_by_pid. rewrite Hpr. cbn -[Z.eqb]. rewrite Hpid0, Hpid1. done.
Qed.

(** C3. The end of the boot. From the state in which [kmain] calls [process::init], with room
    on the heap for two processes and the two test blocks, every step succeeds: the idle
    process and the shell are made, the test blocks are returned, and the first round of
    the scheduler gives the processor to the shell, process 2, at its entry, on a new
    stack from which it would return to [process_exit], under the page tables of the boot, with the keyboard as standard input and the console as
    standard output. The banner is not written: the call fails for want of a process. *)
Theorem kmain_starts_shell a cpu cr w idle_entry shell_entry banner :
  heap_ok lo hi (2 * spawn_need + Heap.room_cost (mkLayout 64 8) + Heap.room_cost (mkLayout 64 16)) (Heap.ga_free a) → banner ≠ 0 →
  (∀ k : K, k_current k = 0 → write rp file_size e registry fd_STDOUT banner 27 k = Ok (Some (Err BadFileDescriptor), k)) ∧
  ∃ k k' p, kmain_processes rp process_size region_size file_size e registry idle_entry shell_entry banner (boot_kernel a cpu cr w) = Ok (tt, k) ∧
    start_scheduler rp k = Ok k' ∧ running k' 1 p ∧ p_pid p = 2 ∧ p_state p = Running ∧ p_cpu_slices p = 1 ∧ p_address_space p = with_cr3 cr Kernel ∧
    fd fd_STDIN p = Some (Vfs.FdChar (keyboard e)) ∧ fd fd_STDOUT p = Some (Vfs.FdChar (console e)) ∧
    rip (k_cpu k') = shell_entry ∧ rsp (k_cpu k') = p_stack_ptr p + KERNEL_STACK_SIZE - 8 ∧
    load64 (Heap.ga_mem (k_heap k')) (rsp (k_cpu k')) = Proc.process_exit e ∧ k_cr3 k' = cr ∧ k_world k' = w ∧ Heap.free_list lo hi (Heap.ga_free (k_heap k')).
Proof.
  intros Hl Hb. split; [intros k Hk; by apply banner_refused|].
  assert (0 ≤ spawn_need) as Hpos.
  { unfold spawn_need. pose proof (room_cost_pos table_layout ltac:(done)). pose proof (room_cost_pos (regions_layout region_size) ltac:(done)).
    pose proof (room_cost_pos stack_layout ltac:(done)). lia. }
  pose proof (room_cost_pos (mkLayout 64 8) ltac:(done)). pose proof (room_cost_pos (mkLayout 64 16) ltac:(done)).
  destruct (init_ok _ a cpu cr w idle_entry Hl ltac:(lia)) as (t & a1 & p0 & Hinit & Hp0 & Hcap & Hk0 & Hn & Hi & Hl1).
  set (k0 := mkKernel t 0 Context_new false cpu cr 0 a1 w) in *.
  destruct (heap_box_test_ok _ k0 Hl1 ltac:(lia)) as (a2 & Hbox & Hl2).
  destruct (manual_test_ok _ (set_heap a2 k0) Hl2 ltac:(lia)) as (a3 & Hman & Hl3).
  destruct (spawn_ok _ t a3 cpu cr w p0 shell_entry Hl3 ltac:(lia) Hp0 Hcap Hn Hi) as (t' & a4 & p1 & Hspawn & Hp1 & Hk1 & Hl4 & Hex).
  destruct (first_schedule t' cpu cr a4 w p0 p1 _ _ Hp1 Hk0 Hk1) as [Hs Hrun].
  eexists _, _, (promote p1). split.
  { unfold kmain_processes. rewrite (M_bind_ok _ _ _ tt k0) by (unfold expect; by rewrite Hinit).
    rewrite (M_bind_ok _ _ _ _ _ (banner_refused k0 banner eq_refl Hb)). rewrite (M_bind_ok _ _ _ _ _ Hbox), (M_bind_ok _ _ _ _ _ Hman).
    rewrite (M_bind_ok _ _ _ 2 (mkKernel t' 0 Context_new false cpu cr 0 a4 w)) by (unfold expect; change (set_heap a3 (set_heap a2 k0)) with (mkKernel t 0 Context_new false cpu cr 0 a3 w); by rewrite Hspawn).
    reflexivity. }
  destruct Hk1 as [[Hpid _ _ _ _ _ _ _] Hsp Hsl Hrip Hstk Hin Hout]. split; [exact Hs|]. split_and!; try done; cbn; [by rewrite Hsl|by rewrite Hsp].
Qed.

End steps.

Lemma kmain_starts_shell_witness :
  ∃ k k', kmain_processes 7 512 64 64 ProgramSpec.example_env example_registry 0x2000 0x3000 0x4000
      (boot_kernel (Heap.mkAllocator [Heap.Node 0x100000 0x100000] (λ _, 0)) Context_new 0x101000 example_world) = Ok (tt, k) ∧
    start_scheduler 7 k = Ok k' ∧ k_current k' = 2 ∧ rip (k_cpu k') = 0x3000.
Proof.
  assert (heap_ok 0x100000 0x200000 (2 * spawn_need 512 64 + Heap.room_cost (mkLayout 64 8) + Heap.room_cost (mkLayout 64 16))
    [Heap.Node 0x100000 0x100000]) as Hh.
  { split; [by vm_compute|]. exists 0x100000. split; [done|]. intros x Hx. apply Heap.free_addr_cons. left. split; [apply Hx|].
    apply Z.lt_le_trans with (1 := proj2 Hx). by vm_compute. }
  destruct (kmain_starts_shell 0x100000 0x200000 ltac:(done) ltac:(done) ltac:(done) 7 512 64 64 ProgramSpec.example_env example_registry
    ltac:(done) ltac:(done) ltac:(done) (Heap.mkAllocator [Heap.Node 0x100000 0x100000] (λ _, 0)) Context_new 0x101000 example_world 0x2000 0x3000 0x4000 Hh ltac:(done))
    as (_ & k & k' & p & Hk & Hs & [[Hc _] _ _] & Hpid & _ & _ & _ & _ & _ & Hrip & _).
  exists k, k'. split; [exact Hk|]. split; [exact Hs|]. split; [by rewrite Hc|exact Hrip].
Defined.

End Kmain.
